(* ===== verification/_CoqProject ===== *)
-Q . S2P
Prelude.v
GoStrings.v
Runes.v
Theme.v
GoCrypto.v
Paths.v
Files.v
Sysx.v
NetAddr.v
NetParse.v
Config.v
ConfigFile.v
Sshd.v
SshdProps.v
SshdApply.v
SshdAgain.v
Security.v
Credentials.v
Store.v
Procfs.v
Session.v
Users.v
UsersProps.v
UsersLinux.v
Sniff.v
HttpHead.v
WebSocket.v
WebSocketProps.v
Gateway.v
GatewayProps.v
Pump.v
PumpProps.v
UdpgwProto.v
Resolver.v
UdpgwServer.v
UdpgwReader.v
FramePool.v
FramePoolProps.v
UdpgwInv.v
UdpgwProps.v
UdpgwAdmit.v
Daemon.v
DaemonProps.v
DaemonTraffic.v
Backup.v
BackupProps.v
Netopt.v
NetoptProps.v
Firewall.v
FirewallProps.v
Host.v
Badvpn.v
Setup.v
SetupProps.v
SetupUndo.v
Doctor.v
GoFloat.v
SysInfo.v
Card.v
Cli.v
CliProps.v
Reports.v
TlsCert.v
DaemonRun.v
DaemonRunProps.v
Commands.v
CommandsProps.v
Tui.v
TuiProps.v
Terminal.v
Layout.v
LayoutProps.v
Screens.v
ScreensProps.v
TerminalProps.v
