(* ===== verification/Prelude.v ===== *)
(** * SSH-VPN: a verification development

    SSH-VPN turns a Linux server into an SSH VPN server: accounts with expiry, quotas and
    connection limits; a UDP gateway for calls and games; a gateway that accepts SSH,
    HTTP payloads, WebSocket and TLS on one port; the settings of sshd, the kernel and the
    packet filter; backups; a command line and a terminal interface. This library models
    the Go code under [src/] as executable definitions and proves what makes it correct.

    ** How the program is put together, and which file models what

    The language and its standard library:
    - [GoStrings] (strings, bytes, strconv, sort), [Runes] (UTF-8 as Go decodes it),
      [Paths] (path/filepath), [NetAddr] and [NetParse] (net/netip and the parsers of net),
      [GoCrypto] (SHA-1 and base64), [GoFloat] (float64 rounding for the displays).

    The components, bottom up; the file that ends in Props, Inv, Apply or Linux holds the
    theorems about the one before it:
    - [Files], [Sysx]: internal/sysx, atomic writes on a disk of which any operation may
      fail and which remembers every state a reader could have seen; the time-out and the
      answer of a command, the search for a program;
    - [Config], [ConfigFile]: internal/config, the sections, [Load], [normalize],
      [Validate], [Save];
    - [Security], [Credentials]: internal/security, validators, passwords, Argon2 hashes;
    - [Store]: internal/store, the records as transactions over three buckets;
    - [Procfs], [Session]: internal/procfs and internal/session, the parsers of /proc, the
      scan for live sessions, killing them;
    - [Users], [UsersProps], [UsersLinux]: internal/user/manager.go, every operation as a
      computation over the database that records the commands it runs;
    - [Sniff], [HttpHead], [WebSocket], [WebSocketProps], [Gateway], [GatewayProps]:
      internal/gateway, from the classification of the first bytes to the hand-off to
      sshd; [GatewayProps] interleaves the connections as a step relation; [Pump],
      [PumpProps]: the two copies of a connection that the gateway decrypts or de-frames;
      [TlsCert], the certificate of the gateway;
    - [UdpgwProto], [UdpgwServer], [UdpgwReader], [UdpgwInv], [UdpgwProps], [UdpgwAdmit],
      [Resolver]: internal/udpgw, the wire format, the server with every critical section of its
      goroutines as one step, the reader of a client, the resolver; [FramePool],
      [FramePoolProps]: the arrays that the replies of all clients share, which is why
      [UdpgwServer] may keep its queues as lists of byte strings;
    - [Daemon], [DaemonProps], [DaemonTraffic]: internal/daemon, one pass of accounting and
      enforcement over the models of the parts it calls; [DaemonRun], [DaemonRunProps]: its whole run on the
      machine, from the start of every part to the shutdown, and internal/state;
    - [Sshd], [SshdProps], [SshdApply], [SshdAgain]: internal/sshd; [Firewall], [FirewallProps]:
      internal/firewall; [Netopt], [NetoptProps]: internal/netopt; [Backup],
      [BackupProps]: internal/backup;
    - [Host]: one machine that joins the database, the disk, the kernel's settings and the
      packet filter, with the systemd queries of internal/sysx and internal/system;
      on it [Badvpn] (internal/badvpn) and [Setup], [SetupProps], [SetupUndo]
      (internal/setup), which compose the components the way the code does;
    - [Doctor]: internal/doctor; [SysInfo]: internal/system/info.go; [Card]:
      internal/card;
    - cmd/sshfortress: [Cli], [CliProps] (how arguments become a changed configuration),
      [Reports] (the texts), [Commands], [CommandsProps] (every command on the machine,
      with what it prints and its exit status);
    - src/tui: [Tui], [TuiProps] (the state machine of messages and keys), [Terminal],
      [TerminalProps] (the machine under it: commands run in the background in any order
      and bring their messages back), [Theme], [Layout], [LayoutProps], [Screens],
      [ScreensProps] (what is drawn, over an interface for lipgloss).

    State is passed explicitly: [M] (accounts), [F] (files), [N] (kernel), [W] (packet
    filter), [B] (backups) and [H] (machine) are small state monads, and [Host] embeds the
    first four into the last. Failures are values of [result], [option] or a list of
    reported steps. Integers are [Z]; where the width matters the wrap-around is written
    ([u16], [u64], [i64]). Goroutines are step relations: [UdpgwInv.server_step],
    [GatewayProps.gw_step], [Pump.step], [FramePool.step] and [Terminal.t_step] allow every
    interleaving of their critical sections.

    ** What is assumed of code that is not here

    Interfaces are classes whose laws are the documented behaviour, each with a concrete
    instance in the files that use it: [Unicode] (case tables beyond ASCII), [Disk] (which
    operations fail), [System] (effective user, files of /proc and /etc, the outcome of
    commands), [Calendar] (dates), [Codec] and [Bolt] (encoding/json and bbolt), [YAML],
    [Archive] (tar and gzip), [Crypto] (certificates), [Kernel] (which settings it accepts and how it shows them)
    [Netfilter] (the documented commands and matches of iptables) and [Lipgloss] (the text
    a style makes of a text, and its width). Argon2, the sshd
    binary, running processes, resolved names, sockets and dialled ports are arguments of the definitions
    that ask for them.

    ** What the theorems show

    - Concurrency: no UDP socket leaks and a closed client leaves nothing behind, for every
      interleaving ([UdpgwInv]); shared buffers never mix up replies ([FramePoolProps]); the
      counters of the gateway are exact ([GatewayProps]), and a copied connection ends,
      unchanged and without a leak ([PumpProps]). One accept loop keeps to the limit of
      clients, two can exceed it by their evictions ([UdpgwAdmit]).
    - Protocols: detection does not depend on how bytes arrive, the two readers of HTTP
      heads agree, the WebSocket reader refines a byte stream, and frames of packets
      survive their trip ([Sniff], [HttpHead], [WebSocketProps], [UdpgwReader]).
    - Accounts: creation is all or nothing, Linux accounts follow their records, manual
      locks stay, traffic is charged once (over any passes, skipped passes and restarts, as
      long as it can be saved), limits are enforced and nobody else is disconnected
      ([UsersProps], [UsersLinux], [Store], [DaemonProps], [DaemonTraffic],
      [DaemonRunProps]).
    - Configuration and files: what is loaded is valid and stable, a valid configuration
      that is saved is loaded again, and no failure leaves a damaged file ([Config], [ConfigFile],
      [Files], [CliProps]).
    - The system: sshd is left with settings it accepts and applying them
      again changes nothing, managed blocks are removed without
      a trace, the packet filter blocks exactly what is promised and is cleaned up, kernel
      settings are restored, backups are read and restored, provisioning reports every
      part, removal takes nothing else (apart from what it says it leaves) and undoes it, and
      the diagnosis fails exactly when it should ([SshdProps], [SshdApply], [SshdAgain], [FirewallProps], [NetoptProps],
      [BackupProps], [SetupProps], [SetupUndo], [Doctor]).
    - The command line: looking changes nothing and runs only programs that look (every
      program such a command starts is in the log, those of the diagnosis too), nothing is destroyed that was not asked
      for, and what needs root does nothing without it ([CommandsProps]).
    - The terminal interface: any messages in any order are handled and every screen is
      drawn without a panic; the actions that destroy are those a dialog confirmed, and
      nothing but actions touches the machine ([TuiProps], [LayoutProps], [ScreensProps],
      [TerminalProps]).

    Where the code does something else than a comment or a name says, a lemma states what
    it does: among them [CliProps.setup_empty_ssh_ports],
    [SshdApply.Apply_leaves_rejected], [SshdApply.RemoveAll_rejected],
    [NetoptProps.Reset_misses_later_keys], [UsersProps.Renew_ends_unlimited],
    [GatewayProps.max_connections_exceeded], [PumpProps.half_close_loses],
    [UdpgwAdmit.two_listeners_exceed], [UsersLinux.Unlock_hides_failure],
    [DaemonTraffic.failed_save_loses] and [LayoutProps.pad_wide].

    ** Fuel

    - [SysInfo.unit_loop] has 64 rounds: each divides a 64-bit count by 1024, so seven are
      enough ([SysInfo.unit_of_bytes]).
    - [NetParse.v6_loop] has eight: an IPv6 address has at most eight groups.
    - [Sshd.strip_loop] has as many as the text has bytes: each round removes some
      ([SshdProps.strip_name_terminates] proves that nothing is left to strip).
    - [Firewall.multiports] has one for each port; every round takes up to fifteen.
    - [Sniff.peekClassify] and [Sniff.readHeaderExact] have one for each arrival of data;
      [Sniff.readHeaderBuffered], [UdpgwReader.reader_loop] and [WebSocket.next_payload]
      have as many as the stream has bytes, and every round takes at least one.
    - The rounds of [Gateway.plain_rounds] and [Gateway.tls_rounds] are bounds of the code.

    ** Not modelled

    - Socket options; what a started process does, which files are in PATH, whether an
      address can be opened or dialled: the operating system's, whose answers are arguments.
    - Cobra's parsing of flags, the alignment of tables, the encoding of JSON output (its
      value is modelled), the repetition of [online --watch]; how Bubble Tea reads keys
      and paints the terminal.
    - The lines the daemon logs; the installer and other scripts; files that hold only a
      package clause; tests. *)
From stdpp Require Export prelude gmap strings list fin_maps sorting pretty.
From Stdlib Require Export ZArith Lia.
From Stdlib Require Export Strings.Byte.

#[global] Set Default Goal Selector "!".

Declare Scope vpn_scope.
Delimit Scope vpn_scope with vpn.
#[global] Open Scope Z_scope.
#[global] Open Scope vpn_scope.

(* ------------------------------------------------------------------ *)
(** * Fallible results: Go's [(value, error)] pairs                      *)
(* ------------------------------------------------------------------ *)

(** A Go call that returns [(T, error)]: either a value or an error. *)
Inductive result (E A : Type) : Type :=
| Ok (a : A)
| Err (e : E).
Arguments Ok {E A} a.
Arguments Err {E A} e.

#[export] Instance result_ret E : MRet (result E) := fun A a => Ok a.
#[export] Instance result_bind E : MBind (result E) := fun A B f m =>
  match m with Ok a => f a | Err e => Err e end.
#[export] Instance result_eq_dec {E A} `{EqDecision E, EqDecision A} :
  EqDecision (result E A).
Proof. solve_decision. Defined.

Definition is_ok {E A} (r : result E A) : bool :=
  match r with Ok _ => true | Err _ => false end.

(* ------------------------------------------------------------------ *)
(** * Machine integers                                                   *)
(* ------------------------------------------------------------------ *)

(** Unsigned wrap-around at width [w], and the two's complement reading. *)
Definition uwrap (w x : Z) : Z := x mod 2 ^ w.
Definition swrap (w x : Z) : Z := (x + 2 ^ (w - 1)) mod 2 ^ w - 2 ^ (w - 1).

Abbreviation u16 := (uwrap 16).
Abbreviation u64 := (uwrap 64).
Abbreviation i64 := (swrap 64).

Lemma uwrap_small w x : 0 <= x < 2 ^ w -> uwrap w x = x.
Proof. apply Z.mod_small. Qed.

Lemma uwrap_range w x : 0 <= w -> 0 <= uwrap w x < 2 ^ w.
Proof. intros. apply Z.mod_pos_bound. lia. Qed.

Lemma swrap_small w x :
  0 < w -> - 2 ^ (w - 1) <= x < 2 ^ (w - 1) -> swrap w x = x.
Proof.
  intros Hw Hx. unfold swrap.
  assert (E : 2 ^ w = 2 * 2 ^ (w - 1)).
  { rewrite <- Z.pow_succ_r by lia. f_equal. lia. }
  rewrite Z.mod_small; lia.
Qed.

(* ------------------------------------------------------------------ *)
(** * Bytes                                                              *)
(* ------------------------------------------------------------------ *)

Abbreviation byte := Byte.byte.

#[export] Instance byte_eq_decision : EqDecision byte.
Proof. intros x y. destruct (Byte.byte_eq_dec x y); [left|right]; done. Defined.

(** A [byte] as a number, and the conversion [byte(x)] that truncates. *)
Definition b2z (b : byte) : Z := Z.of_N (Byte.to_N b).
Definition z2b (z : Z) : byte :=
  match Byte.of_N (Z.to_N (z mod 256)) with Some b => b | None => x00 end.

Lemma b2z_range b : 0 <= b2z b < 256.
Proof. unfold b2z. pose proof (Byte.to_N_bounded b). lia. Qed.

Lemma z2b_b2z b : z2b (b2z b) = b.
Proof.
  unfold z2b. pose proof (b2z_range b). rewrite Z.mod_small by lia.
  unfold b2z. by rewrite N2Z.id, Byte.of_to_N.
Qed.

Lemma b2z_z2b z : b2z (z2b z) = z mod 256.
Proof.
  unfold z2b. pose proof (Z.mod_pos_bound z 256 ltac:(lia)).
  destruct (Byte.of_N _) as [b|] eqn:E.
  - apply Byte.to_of_N in E. unfold b2z. lia.
  - apply Byte.of_N_None_iff in E. lia.
Qed.

Lemma b2z_z2b_small z : 0 <= z < 256 -> b2z (z2b z) = z.
Proof. intros. rewrite b2z_z2b. by apply Z.mod_small. Qed.

Lemma b2z_inj a b : b2z a = b2z b -> a = b.
Proof. intros E. by rewrite <- (z2b_b2z a), <- (z2b_b2z b), E. Qed.

Lemma lxor_bound w a b :
  0 <= w -> 0 <= a < 2 ^ w -> 0 <= b < 2 ^ w -> 0 <= Z.lxor a b < 2 ^ w.
Proof.
  intros Hw Ha Hb.
  assert (H0 : 0 <= Z.lxor a b) by (apply Z.lxor_nonneg; lia).
  split; [done|]. apply Z.lt_nge. intros Hge.
  assert (Hl : w <= Z.log2 (Z.lxor a b)).
  { rewrite <- (Z.log2_pow2 w) by lia. by apply Z.log2_le_mono. }
  pose proof (Z.log2_lxor a b ltac:(lia) ltac:(lia)) as Hx.
  assert (Hlt : forall c, 0 <= c < 2 ^ w -> Z.log2 c < w \/ w = 0).
  { intros c Hc. destruct (decide (c = 0)) as [->|].
    - change (Z.log2 0) with 0. lia.
    - left. apply Z.log2_lt_pow2; lia. }
  destruct (decide (w = 0)) as [->|Hw0].
  - assert (a = 0) as -> by lia. assert (b = 0) as -> by lia. by vm_compute in Hge.
  - destruct (Hlt a Ha), (Hlt b Hb); lia.
Qed.

(** Bitwise exclusive or of two bytes. *)
Definition bxor (a b : byte) : byte := z2b (Z.lxor (b2z a) (b2z b)).

Lemma b2z_bxor a b : b2z (bxor a b) = Z.lxor (b2z a) (b2z b).
Proof.
  unfold bxor. apply b2z_z2b_small.
  apply (lxor_bound 8); [lia|apply b2z_range..].
Qed.

Lemma bxor_involutive a k : bxor (bxor a k) k = a.
Proof.
  apply b2z_inj. by rewrite !b2z_bxor, Z.lxor_assoc, Z.lxor_nilpotent, Z.lxor_0_r.
Qed.

(* ------------------------------------------------------------------ *)
(** * Slices                                                             *)
(* ------------------------------------------------------------------ *)

(** [len(l)], [l[n:]], [l[:n]] and [l[i:j]] of Go slices (in range). *)
Definition len {A} (l : list A) : Z := Z.of_nat (length l).
Definition slice_from {A} (n : Z) (l : list A) : list A := drop (Z.to_nat n) l.
Definition slice_to {A} (n : Z) (l : list A) : list A := take (Z.to_nat n) l.
Definition slice {A} (i j : Z) (l : list A) : list A :=
  slice_to (j - i) (slice_from i l).
(** [b[i]] of a byte slice, in range. *)
Definition byte_at (i : Z) (b : list byte) : byte := nth (Z.to_nat i) b x00.

Section slices.
Context {A : Type}.
Implicit Types l k : list A.

Lemma len_nonneg l : 0 <= len l.
Proof. unfold len. lia. Qed.
Lemma len_nil : len (@nil A) = 0.
Proof. done. Qed.
Lemma len_cons x l : len (x :: l) = 1 + len l.
Proof. unfold len. cbn [length]. lia. Qed.
Lemma len_app l k : len (l ++ k) = len l + len k.
Proof. unfold len. rewrite length_app. lia. Qed.
Lemma len_slice_from n l : 0 <= n <= len l -> len (slice_from n l) = len l - n.
Proof. unfold len, slice_from. rewrite length_drop. lia. Qed.
Lemma len_slice_to n l : 0 <= n <= len l -> len (slice_to n l) = n.
Proof. unfold len, slice_to. rewrite length_take. lia. Qed.
Lemma len_zero_nil l : len l <= 0 -> l = [].
Proof. destruct l; [done|]. rewrite len_cons. pose proof (len_nonneg l). lia. Qed.
Lemma slice_to_from n l : slice_to n l ++ slice_from n l = l.
Proof. apply take_drop. Qed.
Lemma slice_from_elem n l x : x ∈ slice_from n l -> x ∈ l.
Proof. intros Hx. rewrite <- (slice_to_from n l), elem_of_app. by right. Qed.
Lemma slice_to_elem n l x : x ∈ slice_to n l -> x ∈ l.
Proof. intros Hx. rewrite <- (slice_to_from n l), elem_of_app. by left. Qed.
Lemma slice_to_app n l k : n = len l -> slice_to n (l ++ k) = l.
Proof. intros ->. unfold slice_to, len. rewrite Nat2Z.id. apply take_app_length. Qed.
Lemma slice_from_app n l k : n = len l -> slice_from n (l ++ k) = k.
Proof. intros ->. unfold slice_from, len. rewrite Nat2Z.id. apply drop_app_length. Qed.
Lemma slice_to_all n l : len l <= n -> slice_to n l = l.
Proof. intros. unfold slice_to, len in *. apply take_ge. lia. Qed.
Lemma slice_from_all n l : len l <= n -> slice_from n l = [].
Proof. intros. unfold slice_from, len in *. apply drop_ge. lia. Qed.
Lemma split_at_len n l :
  0 <= n <= len l -> exists l1 l2, l = l1 ++ l2 /\ len l1 = n.
Proof.
  intros Hn. exists (slice_to n l), (slice_from n l).
  rewrite slice_to_from, len_slice_to; done.
Qed.
End slices.

Create Rewrite HintDb len.
Create Rewrite HintDb length.
Create HintDb vpn.
#[export] Hint Rewrite @length_app : length.
#[export] Hint Rewrite @len_nil @len_cons @len_app : len.

(** Arithmetic on lengths of appended lists. *)
Ltac len_lia :=
  autorewrite with len in *;
  repeat match goal with
  | l : list ?A |- _ =>
      lazymatch goal with
      | _ : 0 <= len l |- _ => fail
      | _ => pose proof (len_nonneg l)
      end
  end; lia.

(* ------------------------------------------------------------------ *)
(** * encoding/binary                                                    *)
(* ------------------------------------------------------------------ *)

Definition le16 (b : list byte) : Z :=
  b2z (byte_at 0 b) + 256 * b2z (byte_at 1 b).
Definition be16 (b : list byte) : Z :=
  256 * b2z (byte_at 0 b) + b2z (byte_at 1 b).
Definition put_le16 (x : Z) : list byte := [z2b x; z2b (x / 256)].
Definition put_be16 (x : Z) : list byte := [z2b (x / 256); z2b x].

(** Big-endian numbers of any width. *)
Definition be_num (b : list byte) : Z := foldl (fun acc x => 256 * acc + b2z x) 0 b.
Fixpoint put_be (n : nat) (x : Z) : list byte :=
  match n with
  | O => []
  | S n' => put_be n' (x / 256) ++ [z2b x]
  end.

Lemma byte_at_0 a b : byte_at 0 (a :: b) = a.
Proof. done. Qed.
Lemma byte_at_1 a a' b : byte_at 1 (a :: a' :: b) = a'.
Proof. done. Qed.

Lemma len_put_le16 x : len (put_le16 x) = 2.
Proof. done. Qed.
Lemma len_put_be16 x : len (put_be16 x) = 2.
Proof. done. Qed.
#[export] Hint Rewrite len_put_le16 len_put_be16 : len.

Lemma le16_put x k : 0 <= x < 65536 -> le16 (put_le16 x ++ k) = x.
Proof.
  intros Hx. unfold le16, put_le16. cbn [app].
  rewrite byte_at_0, byte_at_1.
  rewrite !b2z_z2b, (Z.mod_small (x / 256)).
  - pose proof (Z.div_mod x 256). lia.
  - split; [apply Z.div_pos; lia|apply Z.div_lt_upper_bound; lia].
Qed.

Lemma be16_put x k : 0 <= x < 65536 -> be16 (put_be16 x ++ k) = x.
Proof.
  intros Hx. unfold be16, put_be16. cbn [app].
  rewrite byte_at_0, byte_at_1.
  rewrite !b2z_z2b, (Z.mod_small (x / 256)).
  - pose proof (Z.div_mod x 256). lia.
  - split; [apply Z.div_pos; lia|apply Z.div_lt_upper_bound; lia].
Qed.

Lemma put_le16_le16 a b : put_le16 (le16 [a; b]) = [a; b].
Proof.
  unfold put_le16, le16. rewrite byte_at_0, byte_at_1.
  pose proof (b2z_range a). pose proof (b2z_range b).
  f_equal; [|f_equal]; apply b2z_inj; rewrite b2z_z2b.
  - rewrite Z.mul_comm, Z.mod_add by lia. by apply Z.mod_small.
  - rewrite Z.mul_comm, Z.div_add, Z.div_small by lia. by apply Z.mod_small.
Qed.

Lemma put_be16_be16 a b : put_be16 (be16 [a; b]) = [a; b].
Proof.
  unfold put_be16, be16. rewrite byte_at_0, byte_at_1.
  pose proof (b2z_range a). pose proof (b2z_range b).
  f_equal; [|f_equal]; apply b2z_inj; rewrite b2z_z2b.
  - rewrite Z.mul_comm, Z.div_add_l, Z.div_small, Z.add_0_r by lia.
    by apply Z.mod_small.
  - rewrite Z.add_comm, Z.mul_comm, Z.mod_add by lia. by apply Z.mod_small.
Qed.

Lemma le16_range b : 0 <= le16 b < 65536.
Proof.
  unfold le16. pose proof (b2z_range (byte_at 0 b)).
  pose proof (b2z_range (byte_at 1 b)). lia.
Qed.

Lemma be16_range b : 0 <= be16 b < 65536.
Proof.
  unfold be16. pose proof (b2z_range (byte_at 0 b)).
  pose proof (b2z_range (byte_at 1 b)). lia.
Qed.

Lemma be_num_snoc b x : be_num (b ++ [x]) = 256 * be_num b + b2z x.
Proof. unfold be_num. by rewrite foldl_app. Qed.

Lemma length_put_be n x : length (put_be n x) = n.
Proof.
  revert x. induction n as [|n IH]; intros x; cbn; [done|].
  rewrite length_app, IH. cbn. lia.
Qed.

Lemma be_num_put n x : 0 <= x < 256 ^ Z.of_nat n -> be_num (put_be n x) = x.
Proof.
  revert x. induction n as [|n IH]; intros x Hx.
  - cbn in *. lia.
  - cbn [put_be]. rewrite be_num_snoc, IH, b2z_z2b.
    + pose proof (Z.div_mod x 256). lia.
    + rewrite Nat2Z.inj_succ, Z.pow_succ_r in Hx by lia.
      split; [apply Z.div_pos; lia|apply Z.div_lt_upper_bound; lia].
Qed.

(* ------------------------------------------------------------------ *)
(** * Sums over finite maps                                              *)
(* ------------------------------------------------------------------ *)

(** The sum of [f] over the values of a map: what an atomic counter that every
    object of a table contributes to should hold. *)
Definition map_sum {A} (f : A -> Z) (m : gmap nat A) : Z :=
  map_fold (fun _ a acc => f a + acc) 0 m.

Section map_sum.
Context {A : Type} (f : A -> Z).
Implicit Types m : gmap nat A.

Lemma map_sum_new m i a :
  m !! i = None -> map_sum f (<[i := a]> m) = f a + map_sum f m.
Proof.
  intros Hi. unfold map_sum. rewrite map_fold_insert_L; [done| |done].
  intros. lia.
Qed.

Lemma map_sum_insert m i a b :
  m !! i = Some a -> map_sum f (<[i := b]> m) = map_sum f m + (f b - f a).
Proof.
  intros Hi. rewrite <- insert_delete_eq.
  rewrite map_sum_new by apply lookup_delete_eq.
  assert (E : map_sum f m = f a + map_sum f (delete i m)).
  { rewrite <- (map_sum_new _ i) by apply lookup_delete_eq.
    by rewrite insert_delete_eq, insert_id. }
  lia.
Qed.

Lemma map_sum_zero m :
  (forall i a, m !! i = Some a -> f a = 0) -> map_sum f m = 0.
Proof.
  induction m as [|i a m Hi IH] using map_ind; intros Hz; [done|].
  rewrite map_sum_new by done. rewrite (Hz i a) by by rewrite lookup_insert_eq.
  rewrite IH; [done|]. intros j b Hj. apply (Hz j).
  by rewrite lookup_insert_ne by congruence.
Qed.
End map_sum.

Lemma map_sum_size {A} (m : gmap nat A) : map_sum (fun _ => 1) m = Z.of_nat (size m).
Proof.
  induction m as [|i a m Hi IH] using map_ind; [done|].
  rewrite map_sum_new, map_size_insert_None, IH by done. lia.
Qed.

Lemma swrap_add_l w a b : swrap w (swrap w a + b) = swrap w (a + b).
Proof.
  unfold swrap.
  replace ((a + 2 ^ (w - 1)) mod 2 ^ w - 2 ^ (w - 1) + b + 2 ^ (w - 1))
    with ((a + 2 ^ (w - 1)) mod 2 ^ w + b) by lia.
  rewrite Zplus_mod_idemp_l. do 2 f_equal. lia.
Qed.

Lemma uwrap_add_l w a b : uwrap w (uwrap w a + b) = uwrap w (a + b).
Proof. apply Zplus_mod_idemp_l. Qed.

(* ------------------------------------------------------------------ *)
(** * Shared tactics                                                     *)
(* ------------------------------------------------------------------ *)

(** Filtering by tests that agree on the elements of the list. *)
Lemma filter_elem_ext {A} (P Q : A -> Prop) `{forall x, Decision (P x), forall x, Decision (Q x)}
    (l : list A) :
  (forall x, x ∈ l -> P x <-> Q x) -> filter P l = filter Q l.
Proof.
  induction l as [|x l IH]; intros Hl; [done|]. rewrite !filter_cons.
  rewrite IH by (intros y Hy; apply Hl; by right).
  pose proof (Hl x ltac:(left)). do 2 case_decide; tauto.
Qed.

(** Case split on the first boolean test of the goal (or of a hypothesis),
    recording the arithmetic or decidable fact it stands for. *)
Ltac case_bool b :=
  let E := fresh "E" in
  destruct b eqn:E;
  rewrite ?Z.ltb_lt, ?Z.ltb_ge, ?Z.leb_le, ?Z.leb_gt, ?Z.eqb_eq, ?Z.eqb_neq in E.

Ltac case_if :=
  match goal with
  | |- context [ if ?b then _ else _ ] =>
      lazymatch type of b with bool => case_bool b | _ => destruct b end
  end.

Ltac case_if_in H :=
  match type of H with
  | context [ if ?b then _ else _ ] =>
      lazymatch type of b with bool => case_bool b | _ => destruct b end
  end.

(** Arithmetic on [length] of concatenations. *)
Ltac length_lia :=
  repeat match goal with
         | H : context [ length (_ ++ _) ] |- _ => rewrite length_app in H
         | H : context [ length (_ :: _) ] |- _ => cbn [length] in H
         end;
  repeat first [ rewrite length_app | progress (cbn [length]) ];
  autorewrite with length in *; lia.

#[export] Hint Resolve b2z_range le16_range be16_range len_nonneg : vpn.
