(* ===== verification/GoStrings.v ===== *)
(** Go strings and byte slices as byte lists: the functions of the packages
    [strings], [bytes], [strconv] and [sort] the program uses, with the lemmas the
    components share. *)
From S2P Require Import Prelude.

(** A Go [string] (or [[]byte]): bytes, in no particular encoding. *)
Definition gostring : Type := list byte.
Bind Scope list_scope with gostring.

(** String literals of the source. *)
Definition bs (s : string) : gostring := String.list_byte_of_string s.

#[export] Instance byte_countable : Countable byte.
Proof. apply (inj_countable' Byte.to_N (fun n => z2b (Z.of_N n))). apply z2b_b2z. Defined.
#[export] Instance gostring_eq_dec : EqDecision gostring := _.
#[export] Instance gostring_countable : Countable gostring := _.
#[export] Instance gostring_inhabited : Inhabited gostring := populate [].

Definition eqb_str (a b : gostring) : bool := bool_decide (a = b).

(** The order of Go's [<] on strings. *)
Fixpoint str_ltb (a b : gostring) : bool :=
  match a, b with
  | _, [] => false
  | [], _ :: _ => true
  | x :: a', y :: b' =>
      if b2z x <? b2z y then true
      else if b2z y <? b2z x then false else str_ltb a' b'
  end.

(* ------------------------------------------------------------------ *)
(** * Prefixes, searching, splitting                                     *)
(* ------------------------------------------------------------------ *)

Fixpoint has_prefix (s p : gostring) {struct p} : bool :=
  match p, s with
  | [], _ => true
  | y :: p', x :: s' => if decide (x = y) then has_prefix s' p' else false
  | _ :: _, [] => false
  end.

Definition has_suffix (s p : gostring) : bool := has_prefix (reverse s) (reverse p).

Definition trim_prefix (s p : gostring) : gostring :=
  if has_prefix s p then drop (length p) s else s.
Definition trim_suffix (s p : gostring) : gostring :=
  if has_suffix s p then take (length s - length p) s else s.

(** [strings.Index] / [bytes.Index], with [None] for [-1]. *)
Fixpoint index (s sub : gostring) : option nat :=
  if has_prefix s sub then Some 0%nat
  else match s with
       | [] => None
       | _ :: s' => S <$> index s' sub
       end.

Definition index_z (s sub : gostring) : Z :=
  match index s sub with Some n => Z.of_nat n | None => -1 end.
Definition contains (s sub : gostring) : bool :=
  match index s sub with Some _ => true | None => false end.

(** [strings.IndexByte] and [strings.LastIndexByte]. *)
Fixpoint index_byte (s : gostring) (c : byte) : option nat :=
  match s with
  | [] => None
  | x :: s' => if decide (x = c) then Some 0%nat else S <$> index_byte s' c
  end.
Fixpoint last_index_byte (s : gostring) (c : byte) : option nat :=
  match s with
  | [] => None
  | x :: s' =>
      match last_index_byte s' c with
      | Some n => Some (S n)
      | None => if decide (x = c) then Some 0%nat else None
      end
  end.

(** [strings.Split(s, c)] for a one-byte separator: never the empty list. *)
Fixpoint split_on (c : byte) (s : gostring) : list gostring :=
  match s with
  | [] => [[]]
  | x :: s' =>
      if decide (x = c) then [] :: split_on c s'
      else match split_on c s' with
           | [] => [[x]]
           | l :: ls => (x :: l) :: ls
           end
  end.

(** [strings.Cut(s, c)] for a one-byte separator. *)
Fixpoint cut (c : byte) (s : gostring) : option (gostring * gostring) :=
  match s with
  | [] => None
  | x :: s' =>
      if decide (x = c) then Some ([], s')
      else match cut c s' with
           | Some (a, b) => Some (x :: a, b)
           | None => None
           end
  end.

(** [strings.Join]. *)
Fixpoint join (sep : gostring) (l : list gostring) : gostring :=
  match l with
  | [] => []
  | [x] => x
  | x :: l' => x ++ sep ++ join sep l'
  end.

(** [strings.ReplaceAll] for a non-empty [old]; [skip] is what is left of an
    occurrence being replaced. *)
Fixpoint replace_go (skip : nat) (old new s : gostring) : gostring :=
  match s with
  | [] => []
  | x :: s' =>
      match skip with
      | S k => replace_go k old new s'
      | O => if has_prefix s old then new ++ replace_go (length old - 1) old new s'
             else x :: replace_go 0 old new s'
      end
  end.
Definition replace_all (s old new : gostring) : gostring := replace_go 0 old new s.

(* ------------------------------------------------------------------ *)
(** * White space                                                        *)
(* ------------------------------------------------------------------ *)

Definition ascii_space (b : byte) : bool :=
  match b with x09 | x0a | x0b | x0c | x0d | x20 => true | _ => false end.

(** How many bytes the white-space rune at the head of [s] has (0: none): the
    ASCII ones and the UTF-8 encodings of U+0085, U+00A0, U+1680,
    U+2000..U+200A, U+2028, U+2029, U+202F, U+205F and U+3000. A lead byte never
    occurs inside another rune, so looking at bytes agrees with decoding. *)
Definition space_len (s : gostring) : nat :=
  match s with
  | xc2 :: (x85 | xa0) :: _ => 2
  | xe1 :: x9a :: x80 :: _ => 3
  | xe2 :: x80 :: (x80 | x81 | x82 | x83 | x84 | x85 | x86 | x87 | x88 | x89 | x8a
                   | xa8 | xa9 | xaf) :: _ => 3
  | xe2 :: x81 :: x9f :: _ => 3
  | xe3 :: x80 :: x80 :: _ => 3
  | b :: _ => if ascii_space b then 1 else 0
  | [] => 0
  end%nat.

(** The same at the end of a string, given reversed. *)
Definition space_len_rev (s : gostring) : nat :=
  match s with
  | b :: _ =>
      if ascii_space b then 1
      else if decide (space_len (reverse (take 2 s)) = 2%nat) then 2
      else if decide (space_len (reverse (take 3 s)) = 3%nat) then 3 else 0
  | [] => 0
  end%nat.

Fixpoint drop_spaces (len_at : gostring -> nat) (skip : nat) (s : gostring) : gostring :=
  match s with
  | [] => []
  | _ :: s' =>
      match skip with
      | S k => drop_spaces len_at k s'
      | O => match len_at s with
             | O => s
             | S k => drop_spaces len_at k s'
             end
      end
  end.

(** [strings.TrimSpace]. *)
Definition trim_left (s : gostring) : gostring := drop_spaces space_len 0 s.
Definition trim_right (s : gostring) : gostring :=
  reverse (drop_spaces space_len_rev 0 (reverse s)).
Definition trim_space (s : gostring) : gostring := trim_right (trim_left s).

(** [strings.Fields]. *)
Definition flush (cur : gostring) (l : list gostring) : list gostring :=
  match cur with [] => l | _ => cur :: l end.
Fixpoint fields_go (skip : nat) (cur : gostring) (s : gostring) : list gostring :=
  match s with
  | [] => flush cur []
  | x :: s' =>
      match skip with
      | S k => fields_go k cur s'
      | O => match space_len s with
             | O => fields_go 0 (cur ++ [x]) s'
             | S k => flush cur (fields_go k [] s')
             end
      end
  end.
Definition fields (s : gostring) : list gostring := fields_go 0 [] s.

(** [strings.TrimRight(s, cutset)] and [strings.TrimLeft] for ASCII cutsets. *)
Fixpoint trim_left_set (set s : gostring) : gostring :=
  match s with
  | [] => []
  | x :: s' => if decide (x ∈ set) then trim_left_set set s' else s
  end.
Definition trim_right_set (set s : gostring) : gostring :=
  reverse (trim_left_set set (reverse s)).
Definition trim_set (set s : gostring) : gostring :=
  trim_right_set set (trim_left_set set s).

(* ------------------------------------------------------------------ *)
(** * Case                                                               *)
(* ------------------------------------------------------------------ *)

Definition is_ascii (s : gostring) : bool := forallb (fun b => b2z b <? 128) s.
Definition lower_byte (b : byte) : byte :=
  if (65 <=? b2z b) && (b2z b <=? 90) then z2b (b2z b + 32) else b.
Definition upper_byte (b : byte) : byte :=
  if (97 <=? b2z b) && (b2z b <=? 122) then z2b (b2z b - 32) else b.

(** The case tables of package [unicode], which matter only for strings that are
    not ASCII. *)
Class Unicode : Type := {
  lower_unicode : gostring -> gostring;
  upper_unicode : gostring -> gostring
}.

Section case.
Context `{Unicode}.
Definition to_lower (s : gostring) : gostring :=
  if is_ascii s then lower_byte <$> s else lower_unicode s.
Definition to_upper (s : gostring) : gostring :=
  if is_ascii s then upper_byte <$> s else upper_unicode s.
End case.

(** [strings.EqualFold(s, t)] for an ASCII [t]: besides the ASCII letters, only
    U+017F folds to [s] and U+212A to [k]. *)
Fixpoint fold_go (skip : nat) (s : gostring) : gostring :=
  match s with
  | [] => []
  | x :: s' =>
      match skip with
      | S k => fold_go k s'
      | O =>
          match s with
          | xc5 :: xbf :: _ => x73 :: fold_go 1 s'
          | xe2 :: x84 :: xaa :: _ => x6b :: fold_go 2 s'
          | _ => lower_byte x :: fold_go 0 s'
          end
      end
  end.
Definition equal_fold (s t : gostring) : bool :=
  eqb_str (fold_go 0 s) (lower_byte <$> t).

(* ------------------------------------------------------------------ *)
(** * Numbers                                                            *)
(* ------------------------------------------------------------------ *)

(** [strconv.Itoa] and [fmt]'s [%d]. *)
Definition itoa (n : Z) : gostring := bs (pretty n).
(** [%v] of a slice of strings. *)
Definition show_strs (l : list gostring) : gostring := bs "[" ++ join (bs " ") l ++ bs "]".

Definition digit (b : byte) : option Z :=
  if (48 <=? b2z b) && (b2z b <=? 57) then Some (b2z b - 48) else None.

(** The value of a non-empty string of decimal digits. *)
Fixpoint digits_go (acc : Z) (s : gostring) : option Z :=
  match s with
  | [] => Some acc
  | b :: s' => match digit b with Some d => digits_go (10 * acc + d) s' | None => None end
  end.
Definition digits (s : gostring) : option Z :=
  match s with [] => None | _ => digits_go 0 s end.

(** [strconv.Atoi] (64-bit [int]): [None] for a syntax or a range error. *)
Definition int_range (n : Z) : option Z :=
  if (- 2 ^ 63 <=? n) && (n <? 2 ^ 63) then Some n else None.
Definition atoi (s : gostring) : option Z :=
  match s with
  | x2d :: s' => n ← digits s'; int_range (- n)
  | x2b :: s' => n ← digits s'; int_range n
  | _ => n ← digits s; int_range n
  end.

(** [strconv.ParseUint(s, 10, w)]. *)
Definition parse_uint (w : Z) (s : gostring) : option Z :=
  n ← digits s; if n <? 2 ^ w then Some n else None.

(** [strconv.ParseUint(s, 16, w)]. *)
Definition hex_digit (b : byte) : option Z :=
  let n := b2z b in
  if (48 <=? n) && (n <=? 57) then Some (n - 48)
  else if (97 <=? n) && (n <=? 102) then Some (n - 87)
  else if (65 <=? n) && (n <=? 70) then Some (n - 55) else None.
Fixpoint hex_go (acc : Z) (s : gostring) : option Z :=
  match s with
  | [] => Some acc
  | b :: s' =>
      match hex_digit b with Some d => hex_go (16 * acc + d) s' | None => None end
  end.
Definition parse_hex (w : Z) (s : gostring) : option Z :=
  match s with
  | [] => None
  | _ => n ← hex_go 0 s; if n <? 2 ^ w then Some n else None
  end.

(** A byte that a concrete string does not have. *)
Ltac not_elem Hx :=
  let T := type of Hx in
  let Hn := fresh "Hn" in
  assert (Hn : bool_decide T = false) by (vm_compute; reflexivity);
  by apply bool_decide_eq_false in Hn.

(* ------------------------------------------------------------------ *)
(** * Lemmas                                                             *)
(* ------------------------------------------------------------------ *)

Lemma eqb_str_true a b : eqb_str a b = true <-> a = b.
Proof. apply bool_decide_eq_true. Qed.
Lemma eqb_str_false a b : eqb_str a b = false <-> a <> b.
Proof. apply bool_decide_eq_false. Qed.

Lemma has_prefix_spec s p : has_prefix s p = true <-> exists k, s = p ++ k.
Proof.
  revert s. induction p as [|y p IH]; intros s; simpl.
  - split; [intros _; by exists s|done].
  - destruct s as [|x s]; [split; [done|by intros [? ?]]|].
    case_decide as E; [subst|split; [done|intros [k [= ? _]]; congruence]].
    rewrite IH. split; intros [k Hk]; exists k; simpl in *; congruence.
Qed.

Lemma has_prefix_app p k : has_prefix (p ++ k) p = true.
Proof. apply has_prefix_spec. by exists k. Qed.

Lemma has_prefix_extend s p k :
  has_prefix s p = true -> has_prefix (s ++ k) p = true.
Proof.
  rewrite !has_prefix_spec. intros [l ->]. exists (l ++ k). by rewrite <- app_assoc.
Qed.

Lemma has_prefix_length s p : has_prefix s p = true -> (length p <= length s)%nat.
Proof. rewrite has_prefix_spec. intros [k ->]. rewrite length_app. lia. Qed.

(** Extending a string does not create a prefix it is long enough to deny. *)
Lemma has_prefix_long s p k :
  (length p <= length s)%nat -> has_prefix (s ++ k) p = has_prefix s p.
Proof.
  revert s. induction p as [|y p IH]; intros [|x s] Hl; simpl in *; try done; try lia.
  case_decide; [|done]. apply IH. lia.
Qed.

(** A short string is a prefix of [p], or no extension of it starts with [p]. *)
Lemma has_prefix_short s p k :
  (length s <= length p)%nat -> has_prefix (s ++ k) p = true -> has_prefix p s = true.
Proof.
  revert p. induction s as [|x s IH]; intros p Hl Hp; [done|].
  destruct p as [|y p]; simpl in *; [lia|].
  case_decide; [|done]. subst. rewrite decide_True by done. apply IH; [lia|done].
Qed.

Lemma index_Some s sub n :
  index s sub = Some n <->
  (exists a b, s = a ++ sub ++ b /\ length a = n) /\
  forall m, (m < n)%nat -> has_prefix (drop m s) sub = false.
Proof.
  revert n. induction s as [|x s IH]; intros n.
  - cbn [index]. destruct (has_prefix [] sub) eqn:E.
    + assert (sub = []) as -> by (destruct sub; done). split.
      * intros [= <-]. split; [|lia]. by exists [], [].
      * intros [(a & b & Hs & Hn) _]. by destruct a; simplify_eq/=.
    + split; [done|]. intros [(a & b & Hs & Hn) _].
      destruct a, sub; simplify_eq/=.
  - cbn [index]. destruct (has_prefix (x :: s) sub) eqn:E.
    + split.
      * intros [= <-]. split; [|lia]. apply has_prefix_spec in E as [k Hk].
        by exists [], k.
      * intros [_ Hm]. destruct n as [|n]; [done|].
        specialize (Hm 0%nat ltac:(lia)). simpl in Hm. congruence.
    + rewrite fmap_Some. split.
      * intros (m & Hm & ->). apply IH in Hm as [(a & b & -> & <-) Hm]. split.
        -- by exists (x :: a), b.
        -- intros [|m] Hlt; [done|]. apply Hm. lia.
      * intros [(a & b & Hs & <-) Hm]. destruct a as [|y a].
        -- simpl in Hs. rewrite Hs, has_prefix_app in E. done.
        -- simpl in Hs. injection Hs as -> Hs. exists (length a). split; [|done].
           apply IH. split; [by exists a, b|].
           intros m Hlt. apply (Hm (S m)). simpl. lia.
Qed.

Lemma index_None s sub :
  index s sub = None <-> forall a b, s <> a ++ sub ++ b.
Proof.
  split.
  - revert sub. induction s as [|x s IH]; intros sub Hi a b E; cbn [index] in Hi.
    + destruct a, sub; simplify_eq/=.
    + destruct (has_prefix (x :: s) sub) eqn:Ep; [done|].
      destruct a as [|y a]; [simpl in E; rewrite E, has_prefix_app in Ep; done|].
      simpl in E. injection E as -> E. destruct (index s sub) eqn:Es; [done|].
      by apply (IH sub Es a b).
  - intros Hn. destruct (index s sub) as [n|] eqn:E; [|done].
    apply index_Some in E as [(a & b & E & _) _]. by apply Hn in E.
Qed.

Lemma index_least s sub n m :
  index s sub = Some n -> has_prefix (drop m s) sub = true -> (n <= m)%nat.
Proof.
  intros [_ H]%index_Some Hm. destruct (decide (m < n)%nat); [|lia].
  rewrite H in Hm by done. done.
Qed.

Lemma split_on_nonempty c s : split_on c s <> [].
Proof. destruct s; simpl; [done|]. case_decide; [done|]. by destruct (split_on c s). Qed.

Lemma split_on_no_sep c s : c ∉ s -> split_on c s = [s].
Proof.
  induction s as [|x s IH]; intros Hc; [done|]. simpl.
  rewrite decide_False by set_solver. by rewrite IH by set_solver.
Qed.

Lemma split_on_app c a s : c ∉ a -> split_on c (a ++ c :: s) = a :: split_on c s.
Proof.
  induction a as [|x a IH]; intros Hc; simpl.
  - by rewrite decide_True.
  - rewrite decide_False by set_solver. by rewrite IH by set_solver.
Qed.

(** Joining with the separator and splitting again. *)
Lemma split_join c ls :
  ls <> [] -> Forall (fun l => c ∉ l) ls -> split_on c (join [c] ls) = ls.
Proof.
  intros Hne Hall. induction Hall as [|l ls Hl Hall IH]; [done|].
  destruct ls as [|l' ls]; [by apply split_on_no_sep|].
  change (join [c] (l :: l' :: ls)) with (l ++ c :: join [c] (l' :: ls)).
  rewrite split_on_app by done. by rewrite IH.
Qed.

Lemma join_split c s : join [c] (split_on c s) = s.
Proof.
  induction s as [|x s IH]; [done|]. simpl. case_decide as E.
  - subst. pose proof (split_on_nonempty c s).
    destruct (split_on c s); [done|]. simpl in *. by rewrite <- IH.
  - pose proof (split_on_nonempty c s). destruct (split_on c s) as [|l ls] eqn:E'; [done|].
    rewrite <- IH. destruct ls; done.
Qed.

Lemma cut_app c a b : c ∉ a -> cut c (a ++ c :: b) = Some (a, b).
Proof.
  induction a as [|x a IH]; intros Hc; simpl.
  - by rewrite decide_True.
  - rewrite decide_False by set_solver. by rewrite IH by set_solver.
Qed.

Lemma cut_None c s : cut c s = None <-> c ∉ s.
Proof.
  induction s as [|x s IH]; simpl; [set_solver|].
  case_decide; [subst; set_solver|].
  destruct (cut c s) as [[]|]; naive_solver set_solver.
Qed.

Lemma cut_Some c s a b : cut c s = Some (a, b) <-> s = a ++ c :: b /\ c ∉ a.
Proof.
  split; [|by intros [-> ?]; apply cut_app].
  revert a. induction s as [|x s IH]; intros a; simpl; [done|]. case_decide as E.
  - intros [= <- <-]. subst. split; [done|set_solver].
  - destruct (cut c s) as [[a' b']|] eqn:Ec; [|done]. intros [= <- <-].
    destruct (IH a' eq_refl) as [-> ?]. split; [done|set_solver].
Qed.

(** Visible ASCII words. *)
Definition printable (s : gostring) : Prop :=
  s <> [] /\ Forall (fun b => 33 <= b2z b < 127) s.

(** Printable words come out of [Fields] as they went in. *)
Lemma space_len_printable x s : 33 <= b2z x < 127 -> space_len (x :: s) = 0%nat.
Proof.
  intros Hx. assert (Hz : b2z x = 33 + Z.of_nat (Z.to_nat (b2z x - 33))) by lia.
  assert (Hn : (Z.to_nat (b2z x - 33) < 94)%nat) by lia.
  revert Hz Hn. generalize (Z.to_nat (b2z x - 33)). intros n Hz Hn.
  assert (x = z2b (33 + Z.of_nat n)) as -> by by rewrite <- Hz, z2b_b2z.
  do 94 (destruct n as [|n]; [reflexivity|]). lia.
Qed.

Lemma fields_go_word w cur s :
  Forall (fun b => 33 <= b2z b < 127) w -> fields_go 0 cur (w ++ s) = fields_go 0 (cur ++ w) s.
Proof.
  revert cur. induction w as [|x w IH]; intros cur Hw; [by rewrite app_nil_r|].
  inversion Hw; subst. cbn [app fields_go].
  rewrite space_len_printable by done. rewrite IH by done. by rewrite <- app_assoc.
Qed.


Lemma fields_blank cur s : fields_go 0 cur (x20 :: s) = flush cur (fields_go 0 [] s).
Proof. done. Qed.

(** Words joined by blanks come back. *)
Lemma fields_join ws tl :
  Forall printable ws -> fields_go 0 [] tl = [] -> space_len tl <> 0%nat \/ tl = [] ->
  fields_go 0 [] (join (bs " ") ws ++ tl) = ws.
Proof.
  intros Hws Htl Hsp. induction Hws as [|w ws [Hne Hw] Hws IH]; [done|].
  destruct ws as [|w' ws].
  - cbn [join]. rewrite fields_go_word by done. cbn [app].
    destruct tl as [|t tl]; [by destruct w|]. destruct Hsp as [Hsp|]; [|done].
    cbn [fields_go] in *. destruct (space_len (t :: tl)); [done|].
    cbn in Htl. rewrite Htl. by destruct w.
  - change (join (bs " ") (w :: w' :: ws)) with (w ++ x20 :: join (bs " ") (w' :: ws)).
    rewrite <- app_assoc. cbn [app]. rewrite fields_go_word by done.
    cbn [app]. rewrite fields_blank, IH. by destruct w.
Qed.

Lemma index_byte_app l c s : c ∉ l -> index_byte (l ++ c :: s) c = Some (length l).
Proof.
  induction l as [|x l IH]; intros Hc; simpl.
  - by rewrite decide_True.
  - rewrite decide_False by set_solver. by rewrite IH by set_solver.
Qed.

Lemma last_index_byte_None l c : c ∉ l -> last_index_byte l c = None.
Proof.
  induction l as [|x l IH]; intros Hc; simpl; [done|].
  rewrite IH by set_solver. by rewrite decide_False by set_solver.
Qed.

Lemma last_index_byte_app l c s : c ∉ s -> last_index_byte (l ++ c :: s) c = Some (length l).
Proof.
  intros Hs. induction l as [|x l IH]; simpl.
  - by rewrite last_index_byte_None, decide_True.
  - by rewrite IH.
Qed.

(** Trimming invents no bytes. *)
Lemma drop_spaces_elem f n s x : x ∈ drop_spaces f n s -> x ∈ s.
Proof.
  revert n. induction s as [|y s IH]; intros n; cbn [drop_spaces]; [done|].
  destruct n; [destruct (f (y :: s)); [done|]|]; intros Hx%IH; by right.
Qed.

Lemma trim_space_elem s x : x ∈ trim_space s -> x ∈ s.
Proof.
  unfold trim_space, trim_right, trim_left.
  rewrite elem_of_reverse. intros Hx%drop_spaces_elem.
  rewrite elem_of_reverse in Hx. by apply drop_spaces_elem in Hx.
Qed.

(** ** Decimal numbers *)

Lemma pretty_N_go_chars x s :
  Forall (fun b => is_Some (digit b)) (bs s) -> Forall (fun b => is_Some (digit b)) (bs (pretty_N_go x s)).
Proof.
  revert s. induction (N.lt_wf_0 x) as [x _ IH]. intros s Hs.
  destruct (decide (0 < x)%N) as [Hx|Hx].
  - rewrite pretty_N_go_step by done. apply IH; [apply N.div_lt; lia|].
    cbn. constructor; [|done]. pose proof (N.mod_lt x 10 ltac:(lia)) as Hm.
    revert Hm. generalize (x mod 10)%N. intros y Hm.
    assert (Hy : y ∈ [0;1;2;3;4;5;6;7;8;9]%N) by (rewrite !elem_of_cons, elem_of_nil; lia).
    repeat (apply elem_of_cons in Hy as [->|Hy]; [by eexists|]). by apply elem_of_nil in Hy.
  - replace x with 0%N by lia. by rewrite pretty_N_go_0.
Qed.

Lemma itoa_bytes n : Forall (fun b => is_Some (digit b) \/ b = x2d) (itoa n).
Proof.
  assert (HN : forall x : N, Forall (fun b => is_Some (digit b) \/ b = x2d) (bs (pretty x))).
  { intros x. unfold pretty, pretty_N. case_decide; [by repeat constructor; eexists|].
    eapply Forall_impl; [by apply (pretty_N_go_chars x EmptyString)|]. by left. }
  unfold itoa. destruct n; [apply (HN 0%N)|apply (HN (Npos p))|].
  change (bs (pretty (Z.neg p))) with (x2d :: bs (pretty (Npos p))).
  constructor; [by right|apply HN].
Qed.

Lemma itoa_printable n : Forall (fun b => 33 <= b2z b < 127 /\ b <> x2c) (itoa n).
Proof.
  eapply Forall_impl; [apply itoa_bytes|]. intros b [[d Hd]| ->]; [|by split].
  destruct b; try discriminate Hd; by split.
Qed.

(** The digits that [pretty_N_go] puts before [s] are read as its number. *)
Lemma digits_pretty_go x s : (0 < x)%N ->
  digits_go 0 (bs (pretty_N_go x s)) = digits_go (Z.of_N x) (bs s).
Proof.
  revert s. induction (N.lt_wf_0 x) as [x _ IH]. intros s Hx.
  rewrite pretty_N_go_step by done. set (c := pretty_N_char (x mod 10)).
  assert (Hc : forall acc, digits_go acc (bs (String c s)) = digits_go (10 * acc + Z.of_N (x mod 10)) (bs s)).
  { intros acc. subst c. pose proof (N.mod_lt x 10 ltac:(lia)) as Hm. revert Hm.
    generalize (x mod 10)%N. intros y Hm.
    assert (Hy : y ∈ [0;1;2;3;4;5;6;7;8;9]%N) by (rewrite !elem_of_cons, elem_of_nil; lia).
    repeat (apply elem_of_cons in Hy as [->|Hy]; [reflexivity|]). by apply elem_of_nil in Hy. }
  assert (Hdiv : 10 * Z.of_N (x / 10) + Z.of_N (x mod 10) = Z.of_N x).
  { rewrite N2Z.inj_div, N2Z.inj_mod by done. symmetry. by apply Z.div_mod. }
  assert (Hz : (x / 10 = 0)%N \/ (0 < x / 10)%N) by (destruct (x / 10)%N; [by left|by right]).
  destruct Hz as [Hz|Hq].
  - rewrite Hz in *. rewrite pretty_N_go_0, Hc. f_equal. lia.
  - rewrite IH; [|apply N.div_lt; lia|done]. rewrite Hc. by f_equal.
Qed.

Lemma digits_itoa n : 0 <= n -> digits (itoa n) = Some n.
Proof.
  intros Hn. destruct n as [|p|p]; [done| |lia]. unfold itoa.
  change (pretty (Z.pos p)) with (pretty (Npos p)). unfold pretty, pretty_N.
  rewrite decide_False by done. unfold digits.
  pose proof (digits_pretty_go (Npos p) EmptyString eq_refl) as E.
  destruct (bs (pretty_N_go (Npos p) EmptyString)) eqn:Eb; [done|]. exact E.
Qed.

Lemma atoi_itoa n : 0 <= n < 2 ^ 63 -> atoi (itoa n) = Some n.
Proof.
  intros Hn. pose proof (digits_itoa n ltac:(lia)) as E.
  assert (Hr : int_range n = Some n).
  { unfold int_range.
    by rewrite (proj2 (Z.leb_le (- 2 ^ 63) n) ltac:(lia)), (proj2 (Z.ltb_lt n (2 ^ 63)) ltac:(lia)). }
  unfold atoi. destruct (itoa n) as [|b s] eqn:Es; [done|].
  destruct b; rewrite ?E; cbn; try exact Hr; by cbn in E.
Qed.


(** Case tables that leave what is not ASCII alone, for concrete runs. *)
Definition ascii_tables : Unicode := {| lower_unicode := id; upper_unicode := id |}.
