(* ===== verification/Runes.v ===== *)
(** UTF-8 as Go reads it: [for _, r := range s] and [[]rune(s)] decode a string into
    runes, one replacement rune for every byte that starts no valid encoding, and
    [string(runes)] writes them back. *)
From S2P Require Import Prelude GoStrings.

Definition RuneError : Z := 0xFFFD.

(** A continuation byte, and the encodings of two, three and four bytes. *)
Definition cont (b : byte) : bool := (128 <=? b2z b) && (b2z b <? 192).
Definition low6 (b : byte) : Z := b2z b mod 64.
Definition two_ok (a b : byte) : bool := (194 <=? b2z a) && (b2z a <? 224) && cont b.
Definition three_ok (a b c : byte) : bool :=
  (224 <=? b2z a) && (b2z a <? 240) && cont b && cont c &&
  (if b2z a =? 224 then 160 <=? b2z b else true) && (if b2z a =? 237 then b2z b <? 160 else true).
Definition four_ok (a b c d : byte) : bool :=
  (240 <=? b2z a) && (b2z a <? 245) && cont b && cont c && cont d &&
  (if b2z a =? 240 then 144 <=? b2z b else true) && (if b2z a =? 244 then b2z b <? 144 else true).

(** [[]rune(s)] *)
Fixpoint runes (s : gostring) : list Z :=
  match s with
  | [] => []
  | a :: s1 =>
      if b2z a <? 128 then b2z a :: runes s1
      else match s1 with
           | [] => [RuneError]
           | b :: s2 =>
               if two_ok a b then (b2z a mod 32) * 64 + low6 b :: runes s2
               else match s2 with
                    | [] => RuneError :: runes s1
                    | c :: s3 =>
                        if three_ok a b c
                        then (b2z a mod 16) * 4096 + low6 b * 64 + low6 c :: runes s3
                        else match s3 with
                             | [] => RuneError :: runes s1
                             | d :: s4 =>
                                 if four_ok a b c d
                                 then (b2z a mod 8) * 262144 + low6 b * 4096 + low6 c * 64 + low6 d :: runes s4
                                 else RuneError :: runes s1
                             end
                    end
           end
  end.

(** Runes that have an encoding; the others are written as [RuneError]. *)
Definition valid_rune (r : Z) : bool :=
  ((0 <=? r) && (r <? 0xD800)) || ((0xE000 <=? r) && (r <? 0x110000)).
Definition encode_rune (r : Z) : gostring :=
  let r := if valid_rune r then r else RuneError in
  if r <? 128 then [z2b r]
  else if r <? 2048 then [z2b (192 + r / 64); z2b (128 + r mod 64)]
  else if r <? 65536 then [z2b (224 + r / 4096); z2b (128 + r / 64 mod 64); z2b (128 + r mod 64)]
  else [z2b (240 + r / 262144); z2b (128 + r / 4096 mod 64); z2b (128 + r / 64 mod 64); z2b (128 + r mod 64)].
(** [string(rs)] *)
Definition of_runes (rs : list Z) : gostring := mjoin (encode_rune <$> rs).

Example runes_mixed : runes (bs "a…█é") = [97; 0x2026; 0x2588; 0xE9].
Proof. vm_compute. reflexivity. Qed.
Example runes_broken : runes [xe2; x82; x61] = [RuneError; RuneError; 97].
Proof. vm_compute. reflexivity. Qed.

(* ------------------------------------------------------------------ *)
(** * Reading back what was written                                      *)
(* ------------------------------------------------------------------ *)

Lemma b2z_z2b_lit z : 0 <= z < 256 -> b2z (z2b z) = z.
Proof. apply b2z_z2b_small. Qed.

Lemma RuneError_valid : valid_rune RuneError = true.
Proof. done. Qed.

Ltac z_bools := repeat match goal with
  | |- context [?a <? ?b] => first [rewrite (proj2 (Z.ltb_lt a b)) by lia|rewrite (proj2 (Z.ltb_ge a b)) by lia]
  | |- context [?a <=? ?b] => first [rewrite (proj2 (Z.leb_le a b)) by lia|rewrite (proj2 (Z.leb_gt a b)) by lia]
  end.

(** The digits of a rune to the base 64. *)
Lemma base64_digits r : 0 <= r -> 0 <= r mod 64 < 64 /\ r = r / 64 * 64 + r mod 64.
Proof. intros. pose proof (Z.mod_pos_bound r 64 ltac:(lia)). pose proof (Z.div_mod r 64 ltac:(lia)). lia. Qed.

Lemma low6_cont x : 0 <= x < 64 -> low6 (z2b (128 + x)) = x /\ cont (z2b (128 + x)) = true.
Proof.
  intros Hx. unfold low6, cont. rewrite !b2z_z2b_lit by lia. split; [|z_bools; done].
  replace (128 + x) with (x + 2 * 64) by lia. rewrite Z.mod_add by lia. by apply Z.mod_small.
Qed.

Lemma runes_encode r s : valid_rune r = true -> runes (encode_rune r ++ s) = r :: runes s.
Proof.
  intros Hv. unfold encode_rune. rewrite Hv. cbv zeta. unfold valid_rune in Hv.
  destruct (Z.ltb_spec r 128); [|destruct (Z.ltb_spec r 2048); [|destruct (Z.ltb_spec r 65536)]].
  - cbn [app runes]. rewrite b2z_z2b_lit by lia. z_bools. done.
  - pose proof (base64_digits r ltac:(lia)) as [D1 E1].
    destruct (low6_cont (r mod 64) D1) as [L1 C1]. cbn [app runes]. unfold two_ok.
    rewrite L1, C1, !b2z_z2b_lit by lia. z_bools. cbn [andb].
    replace (192 + r / 64) with (r / 64 + 6 * 32) by lia. rewrite Z.mod_add, Z.mod_small by lia.
    f_equal. lia.
  - pose proof (base64_digits r ltac:(lia)) as [D1 E1].
    pose proof (base64_digits (r / 64) ltac:(apply Z.div_pos; lia)) as [D2 E2].
    rewrite Z.div_div in E2 by lia. change (64 * 64) with 4096 in E2.
    destruct (low6_cont (r mod 64) D1) as [L1 C1]. destruct (low6_cont (r / 64 mod 64) D2) as [L2 C2].
    cbn [app runes]. unfold two_ok, three_ok.
    rewrite L1, L2, C1, C2, !b2z_z2b_lit by lia. z_bools. cbn [andb].
    replace (if 224 + r / 4096 =? 224 then 160 <=? 128 + r / 64 mod 64 else true) with true
      by (symmetry; destruct (Z.eqb_spec (224 + r / 4096) 224); [apply Z.leb_le; lia|done]).
    replace (if 224 + r / 4096 =? 237 then 128 + r / 64 mod 64 <? 160 else true) with true
      by (symmetry; destruct (Z.eqb_spec (224 + r / 4096) 237); [apply Z.ltb_lt; lia|done]).
    cbn [andb]. replace (224 + r / 4096) with (r / 4096 + 14 * 16) by lia.
    rewrite Z.mod_add, Z.mod_small by lia. f_equal. lia.
  - pose proof (base64_digits r ltac:(lia)) as [D1 E1].
    pose proof (base64_digits (r / 64) ltac:(apply Z.div_pos; lia)) as [D2 E2].
    pose proof (base64_digits (r / 4096) ltac:(apply Z.div_pos; lia)) as [D3 E3].
    rewrite Z.div_div in E2, E3 by lia. change (64 * 64) with 4096 in E2. change (4096 * 64) with 262144 in E3.
    destruct (low6_cont (r mod 64) D1) as [L1 C1]. destruct (low6_cont (r / 64 mod 64) D2) as [L2 C2].
    destruct (low6_cont (r / 4096 mod 64) D3) as [L3 C3].
    cbn [app runes]. unfold two_ok, three_ok, four_ok.
    rewrite L1, L2, L3, C1, C2, C3, !b2z_z2b_lit by lia. z_bools. cbn [andb].
    replace (if 240 + r / 262144 =? 240 then 144 <=? 128 + r / 4096 mod 64 else true) with true
      by (symmetry; destruct (Z.eqb_spec (240 + r / 262144) 240); [apply Z.leb_le; lia|done]).
    replace (if 240 + r / 262144 =? 244 then 128 + r / 4096 mod 64 <? 144 else true) with true
      by (symmetry; destruct (Z.eqb_spec (240 + r / 262144) 244); [apply Z.ltb_lt; lia|done]).
    cbn [andb]. replace (240 + r / 262144) with (r / 262144 + 30 * 8) by lia.
    rewrite Z.mod_add, Z.mod_small by lia. f_equal. lia.
Qed.

Lemma encode_rune_any r : encode_rune r = encode_rune (if valid_rune r then r else RuneError).
Proof. unfold encode_rune. by destruct (valid_rune r) eqn:E; rewrite ?E. Qed.

(** Writing runes and reading them back gives them, an impossible one as the
    replacement. *)
Lemma runes_of_runes rs s :
  runes (of_runes rs ++ s) = ((fun r => if valid_rune r then r else RuneError) <$> rs) ++ runes s.
Proof.
  induction rs as [|r rs IH]; [done|]. unfold of_runes. cbn [fmap list_fmap mjoin list_join].
  rewrite <- app_assoc, encode_rune_any, runes_encode; [|by destruct (valid_rune r) eqn:E; rewrite ?E].
  cbn [app]. f_equal. exact IH.
Qed.

Lemma encode_rune_length r : (1 <= length (encode_rune r) <= 4)%nat.
Proof. unfold encode_rune. repeat case_if; cbn; lia. Qed.

(** Texts of runes: the bytes that are the encoding of something. *)
Definition utf8_text (s : gostring) : Prop := of_runes (runes s) = s.

Lemma of_runes_app a b : of_runes (a ++ b) = of_runes a ++ of_runes b.
Proof.
  induction a as [|r a IH]; [done|]. change (of_runes ((r :: a) ++ b)) with (encode_rune r ++ of_runes (a ++ b)).
  rewrite IH. apply app_assoc.
Qed.

Lemma runes_ascii s : is_ascii s = true -> runes s = b2z <$> s.
Proof.
  unfold is_ascii. induction s as [|b s IH]; [done|]. cbn [forallb]. intros [Hb Hs]%andb_true_iff.
  cbn [runes]. rewrite Hb, IH by done. done.
Qed.
Lemma of_runes_ascii s : is_ascii s = true -> of_runes (b2z <$> s) = s.
Proof.
  unfold is_ascii, of_runes. induction s as [|b s IH]; [done|]. cbn [forallb]. intros [Hb Hs]%andb_true_iff.
  cbn [fmap list_fmap mjoin list_join]. pose proof (b2z_range b). apply Z.ltb_lt in Hb as Hb'.
  unfold encode_rune at 1, valid_rune. z_bools. cbn [andb orb]. z_bools.
  rewrite z2b_b2z. cbn [app]. f_equal. by apply IH.
Qed.
Lemma ascii_text s : is_ascii s = true -> utf8_text s.
Proof. intros Hs. unfold utf8_text. by rewrite runes_ascii, of_runes_ascii. Qed.

(** Decoding never makes more runes than there are bytes, and only valid ones. *)
Lemma runes_valid s : Forall (fun r => valid_rune r = true) (runes s).
Proof.
  assert (Hn : forall n s, (length s <= n)%nat -> Forall (fun r => valid_rune r = true) (runes s)).
  { clear s. induction n as [|n IH]; intros s Hl; [by destruct s; [constructor|cbn in Hl; lia]|].
    destruct s as [|a s1]; [constructor|]. cbn [runes]. cbn [length] in Hl. pose proof (b2z_range a).
    destruct (Z.ltb_spec (b2z a) 128).
    { constructor; [unfold valid_rune; z_bools; done|apply IH; lia]. }
    assert (Hbad : Forall (fun r => valid_rune r = true) (RuneError :: runes s1))
      by (constructor; [done|apply IH; lia]).
    destruct s1 as [|b s2]; [by repeat constructor|]. cbn [length] in Hl.
    assert (Hlow : forall x, 0 <= low6 x < 64) by (intros; apply Z.mod_pos_bound; lia).
    pose proof (Hlow b). pose proof (b2z_range b).
    assert (Hcont : forall x, cont x = true -> low6 x = b2z x - 128).
    { intros x Hx. unfold cont in Hx. unfold low6. replace (b2z x) with ((b2z x - 128) + 2 * 64) at 1 by lia.
      rewrite Z.mod_add by lia. apply Z.mod_small. lia. }
    destruct (two_ok a b) eqn:E2.
    { unfold two_ok in E2. constructor; [|apply IH; lia].
      replace (b2z a mod 32) with (b2z a - 192)
        by (symmetry; replace (b2z a) with ((b2z a - 192) + 6 * 32) at 1 by lia; rewrite Z.mod_add by lia;
            apply Z.mod_small; lia).
      unfold valid_rune. lia. }
    destruct s2 as [|c s3]; [done|]. cbn [length] in Hl. pose proof (Hlow c).
    destruct (three_ok a b c) eqn:E3.
    { unfold three_ok in E3. constructor; [|apply IH; lia].
      rewrite !andb_true_iff in E3. destruct E3 as [[[[[Ha1 Ha2] Hb] _] Hlo] Hhi].
      rewrite (Hcont b) by done. unfold cont in Hb.
      replace (b2z a mod 16) with (b2z a - 224)
        by (symmetry; replace (b2z a) with ((b2z a - 224) + 14 * 16) at 1 by lia; rewrite Z.mod_add by lia;
            apply Z.mod_small; lia).
      unfold valid_rune. destruct (Z.eqb_spec (b2z a) 224), (Z.eqb_spec (b2z a) 237); lia. }
    destruct s3 as [|d s4]; [done|]. cbn [length] in Hl. pose proof (Hlow d).
    destruct (four_ok a b c d) eqn:E4; [|done].
    unfold four_ok in E4. constructor; [|apply IH; lia].
    rewrite !andb_true_iff in E4. destruct E4 as [[[[[[Ha1 Ha2] Hb] _] _] Hlo] Hhi].
    rewrite (Hcont b) by done. unfold cont in Hb.
    replace (b2z a mod 8) with (b2z a - 240)
      by (symmetry; replace (b2z a) with ((b2z a - 240) + 30 * 8) at 1 by lia; rewrite Z.mod_add by lia;
          apply Z.mod_small; lia).
    unfold valid_rune. destruct (Z.eqb_spec (b2z a) 240), (Z.eqb_spec (b2z a) 244); lia. }
  by apply (Hn (length s)).
Qed.
