(* ===== verification/Theme.v ===== *)
(** Colours, styles and key names of the terminal interface ([src/tui/theme/styles.go] and
    [keys.go]). A style is the list of settings the code gives it; what lipgloss makes of
    a text in a style is an interface. *)
From S2P Require Import Prelude GoStrings.

(** [lipgloss.Color] *)
Definition Color : Type := gostring.

Definition ColorPrimary : Color := bs "#00D4AA".
Definition ColorSecondary : Color := bs "#BD93F9".
Definition ColorAccent : Color := bs "#FF79C6".
Definition ColorSuccess : Color := bs "#50FA7B".
Definition ColorWarning : Color := bs "#F1FA8C".
Definition ColorDanger : Color := bs "#FF5555".
Definition ColorInfo : Color := bs "#8BE9FD".
Definition ColorBg : Color := bs "#0D1117".
Definition ColorBgAlt : Color := bs "#161B22".
Definition ColorBgPanel : Color := bs "#1C2333".
Definition ColorBorder : Color := bs "#30363D".
Definition ColorFg : Color := bs "#E6EDF3".
Definition ColorFgDim : Color := bs "#8B949E".
Definition ColorFgMuted : Color := bs "#484F58".

Inductive border : Type := RoundedBorder | NormalBorder.
Inductive setting : Type :=
| Bold
| Foreground (c : Color)
| Background (c : Color)
| Padding (vertical horizontal : Z)
| PaddingLeft (n : Z)
| MarginBottom (n : Z)
| Width (n : Z)
| Height (n : Z)
| MaxHeight (n : Z)
| Border (b : border)
| BorderBottom
| BorderStyle (b : border)
| BorderForeground (c : Color).
Definition Style : Type := list setting.
Definition NewStyle : Style := [].

Definition StyleTitle : Style :=
  [Bold; Foreground (bs "#FFFFFF"); Background ColorPrimary; Padding 0 2; MarginBottom 1].
Definition StyleSubtitle : Style := [Bold; Foreground ColorPrimary; MarginBottom 1].
Definition StylePanel : Style := [Border RoundedBorder; BorderForeground ColorBorder; Padding 1 2].
Definition StylePanelActive : Style := [Border RoundedBorder; BorderForeground ColorPrimary; Padding 1 2].
Definition StyleStatusBar : Style := [Foreground ColorFgDim; Background ColorBgAlt; Padding 0 1].
Definition StyleMenuItem : Style := [Foreground ColorFg; PaddingLeft 2].
Definition StyleMenuItemActive : Style := [Foreground ColorBg; Background ColorPrimary; Bold; PaddingLeft 2].
Definition StyleKeyHelp : Style := [Foreground ColorFgMuted].
Definition StyleKeyBind : Style := [Foreground ColorPrimary; Bold].
Definition StyleSuccess : Style := [Foreground ColorSuccess].
Definition StyleWarning : Style := [Foreground ColorWarning].
Definition StyleDanger : Style := [Foreground ColorDanger].
Definition StyleInfo : Style := [Foreground ColorInfo].
Definition StyleDim : Style := [Foreground ColorFgDim].
Definition StyleLabel : Style := [Foreground ColorFgDim; Width 16].
Definition StyleValue : Style := [Foreground ColorFg; Bold].
Definition StyleLogo : Style := [Foreground ColorPrimary; Bold].
Definition StyleTableHeader : Style :=
  [Bold; Foreground ColorPrimary; BorderBottom; BorderStyle NormalBorder; BorderForeground ColorBorder].
Definition StyleTableRow : Style := [Foreground ColorFg].
Definition StyleTableRowSelected : Style := [Foreground ColorBg; Background ColorPrimary; Bold].

Definition BoxHorizontal : gostring := bs "─".
Definition BoxVertical : gostring := bs "│".
Definition BoxTopLeft : gostring := bs "╭".
Definition BoxTopRight : gostring := bs "╮".
Definition BoxBottomLeft : gostring := bs "╰".
Definition BoxBottomRight : gostring := bs "╯".
Definition BoxCross : gostring := bs "┼".
Definition BoxTeeRight : gostring := bs "├".
Definition BoxTeeLeft : gostring := bs "┤".
Definition BulletActive : gostring := bs "●".
Definition BulletInactive : gostring := bs "○".
Definition ArrowRight : gostring := bs "▸".
Definition CheckMark : gostring := bs "✓".
Definition CrossMark : gostring := bs "✗".
Definition Star : gostring := bs "★".

(** ** Keys *)

Definition KeyQuit : gostring := bs "q".
Definition KeyBack : gostring := bs "esc".
Definition KeyEnter : gostring := bs "enter".
Definition KeyUp : gostring := bs "up".
Definition KeyDown : gostring := bs "down".
Definition KeyLeft : gostring := bs "left".
Definition KeyRight : gostring := bs "right".
Definition KeyTab : gostring := bs "tab".
Definition KeyShiftTab : gostring := bs "shift+tab".
Definition KeyHelp : gostring := bs "?".
Definition KeyRefresh : gostring := bs "r".
Definition KeyNew : gostring := bs "n".
Definition KeyDelete : gostring := bs "d".
Definition KeyEdit : gostring := bs "e".
Definition KeyToggle : gostring := bs "t".
Definition KeySpace : gostring := bs " ".

Record KeyMap : Type := mkKeyMap {
  km_Quit : gostring; km_Back : gostring; km_Nav : gostring;
  km_Select : gostring; km_Help : gostring; km_Refresh : gostring
}.
Definition DefaultKeyMap : KeyMap :=
  mkKeyMap (bs "q: quit") (bs "esc: back") (bs "↑↓: navigate") (bs "enter: select") (bs "?: help") (bs "r: refresh").
Definition IsQuit (key : gostring) : bool := eqb_str key KeyQuit.

(** ** What lipgloss does *)

(** A text in a style, the width of a text on the screen, and blocks side by side (aligned
    at the top) or one above the other (aligned at the left). *)
Class Lipgloss : Type := {
  render : Style -> gostring -> gostring;
  width : gostring -> Z;
  join_horizontal : list gostring -> gostring;
  join_vertical : list gostring -> gostring
}.

(** Settings that change only how the characters look. *)
Definition is_colour (s : setting) : bool :=
  match s with Bold | Foreground _ | Background _ => true | _ => false end.
Definition colours (st : Style) : bool := forallb is_colour st.
