(* ===== verification/GoCrypto.v ===== *)
(** SHA-1 ([crypto/sha1]) and standard base64 ([encoding/base64]), which the
    WebSocket handshake uses; executable, so that handshakes can be evaluated. *)
From S2P Require Import Prelude GoStrings.

Definition u32 (x : Z) : Z := x mod 2 ^ 32.
Definition rotl (n x : Z) : Z :=
  Z.lor (u32 (Z.shiftl x n)) (Z.shiftr x (32 - n)).

(** The padded message: a one bit, zeros, and the length in bits. *)
Definition sha1_pad (m : gostring) : gostring :=
  let n := length m in
  m ++ [x80] ++ replicate ((119 - n mod 64) mod 64) x00 ++
  put_be 8 (8 * Z.of_nat n).

Fixpoint words (fuel : nat) (m : gostring) : list Z :=
  match fuel with
  | O => []
  | S fuel =>
      match m with
      | [] => []
      | _ => be_num (take 4 m) :: words fuel (drop 4 m)
      end
  end.

(** The message schedule, newest word first. *)
Fixpoint schedule (n : nat) (w : list Z) : list Z :=
  match n with
  | O => w
  | S n =>
      let x := Z.lxor (Z.lxor (nth 2 w 0) (nth 7 w 0)) (Z.lxor (nth 13 w 0) (nth 15 w 0)) in
      schedule n (rotl 1 x :: w)
  end.

Definition sha1_f (t : nat) (b c d : Z) : Z :=
  if (t <? 20)%nat then Z.lxor d (Z.land b (Z.lxor c d))
  else if (t <? 40)%nat then Z.lxor (Z.lxor b c) d
  else if (t <? 60)%nat then Z.lor (Z.land b c) (Z.land d (Z.lor b c))
  else Z.lxor (Z.lxor b c) d.
Definition sha1_k (t : nat) : Z :=
  if (t <? 20)%nat then 0x5A827999 else if (t <? 40)%nat then 0x6ED9EBA1
  else if (t <? 60)%nat then 0x8F1BBCDC else 0xCA62C1D6.

Record sha1_state : Type := mkSha { sh_a : Z; sh_b : Z; sh_c : Z; sh_d : Z; sh_e : Z }.

Fixpoint sha1_rounds (t : nat) (ws : list Z) (s : sha1_state) : sha1_state :=
  match ws with
  | [] => s
  | w :: ws =>
      let '(mkSha a b c d e) := s in
      let x := u32 (rotl 5 a + sha1_f t b c d + e + w + sha1_k t) in
      sha1_rounds (S t) ws (mkSha x a (rotl 30 b) c d)
  end.

Definition sha1_block (s : sha1_state) (ws : list Z) : sha1_state :=
  let r := sha1_rounds 0 (reverse (schedule 64 (reverse ws))) s in
  mkSha (u32 (sh_a s + sh_a r)) (u32 (sh_b s + sh_b r)) (u32 (sh_c s + sh_c r))
    (u32 (sh_d s + sh_d r)) (u32 (sh_e s + sh_e r)).

Fixpoint sha1_blocks (fuel : nat) (ws : list Z) (s : sha1_state) : sha1_state :=
  match fuel with
  | O => s
  | S fuel =>
      match ws with
      | [] => s
      | _ => sha1_blocks fuel (drop 16 ws) (sha1_block s (take 16 ws))
      end
  end.

Definition sha1 (m : gostring) : gostring :=
  let p := sha1_pad m in
  let s := sha1_blocks (length p) (words (length p) p)
             (mkSha 0x67452301 0xEFCDAB89 0x98BADCFE 0x10325476 0xC3D2E1F0) in
  concat (put_be 4 <$> [sh_a s; sh_b s; sh_c s; sh_d s; sh_e s]).

Definition base64_alphabet : gostring :=
  bs "ABCDEFGHIJKLMNOPQRSTUVWXYZabcdefghijklmnopqrstuvwxyz0123456789+/".
Definition base64_char (n : Z) : byte := byte_at (n mod 64) base64_alphabet.

Fixpoint base64 (m : gostring) : gostring :=
  match m with
  | a :: b :: c :: m =>
      let n := be_num [a; b; c] in
      base64_char (n / 2 ^ 18) :: base64_char (n / 2 ^ 12) ::
      base64_char (n / 2 ^ 6) :: base64_char n :: base64 m
  | [a; b] =>
      let n := be_num [a; b; x00] in
      [base64_char (n / 2 ^ 18); base64_char (n / 2 ^ 12); base64_char (n / 2 ^ 6); x3d]
  | [a] =>
      let n := be_num [a; x00; x00] in
      [base64_char (n / 2 ^ 18); base64_char (n / 2 ^ 12); x3d; x3d]
  | [] => []
  end.

(** The test vector of FIPS 180. *)
Example sha1_abc : sha1 (bs "abc") =
  [xa9; x99; x3e; x36; x47; x06; x81; x6a; xba; x3e; x25; x71; x78; x50; xc2; x6c;
   x9c; xd0; xd8; x9d].
Proof. vm_compute. reflexivity. Qed.

Example base64_foob : base64 (bs "foob") = bs "Zm9vYg==".
Proof. vm_compute. reflexivity. Qed.

Lemma base64_char_in n : base64_char n ∈ base64_alphabet.
Proof.
  unfold base64_char, byte_at. apply list_elem_of_In, nth_In.
  pose proof (Z.mod_pos_bound n 64 ltac:(lia)). change (length base64_alphabet) with 64%nat. lia.
Qed.

(** Base64 text has only its alphabet and the padding. *)
Lemma base64_clean m x : x ∈ base64 m -> x ∈ base64_alphabet \/ x = x3d.
Proof.
  enough (Hn : forall n m, (length m <= n)%nat -> x ∈ base64 m -> x ∈ base64_alphabet \/ x = x3d)
    by eauto.
  intros n. induction n as [|n IH]; intros [|a [|b [|c k]]] Hl; cbn [base64 length] in *;
    try lia; rewrite ?elem_of_cons, ?elem_of_nil;
    intros; destruct_or?; subst; eauto using base64_char_in; try done.
  apply (IH k); [lia|done].
Qed.
