(* ===== verification/Paths.v ===== *)
(** Paths: the functions of [path/filepath] that the program uses, on Unix. *)
From S2P Require Import Prelude GoStrings.

(** [filepath.Clean], [Dir] and [Join]; [stack] holds the kept elements, last first. *)
Fixpoint clean_go (rooted : bool) (stack comps : list gostring) : list gostring :=
  match comps with
  | [] => reverse stack
  | c :: comps =>
      if eqb_str c [] || eqb_str c (bs ".") then clean_go rooted stack comps
      else if eqb_str c (bs "..")
      then match stack with
           | t :: stack' =>
               if eqb_str t (bs "..") then clean_go rooted (c :: stack) comps
               else clean_go rooted stack' comps
           | [] => if rooted then clean_go rooted [] comps else clean_go rooted [c] comps
           end
      else clean_go rooted (c :: stack) comps
  end.
Definition path_clean (p : gostring) : gostring :=
  let rooted := has_prefix p (bs "/") in
  let r := (if rooted then bs "/" else []) ++ join (bs "/") (clean_go rooted [] (split_on x2f p)) in
  match r with [] => bs "." | _ => r end.
Definition path_dir (p : gostring) : gostring :=
  path_clean (match last_index_byte p x2f with Some i => take (S i) p | None => [] end).
Definition path_join (a b : gostring) : gostring :=
  match a, b with
  | [], [] => []
  | [], _ => path_clean b
  | _, [] => path_clean a
  | _, _ => path_clean (a ++ bs "/" ++ b)
  end.

(** [filepath.Base] *)
Definition path_base (p : gostring) : gostring :=
  match p with
  | [] => bs "."
  | _ =>
      let p := trim_right_set (bs "/") p in
      let p := match last_index_byte p x2f with Some i => drop (S i) p | None => p end in
      match p with [] => bs "/" | _ => p end
  end.
