(* ===== verification/Files.v ===== *)
(** Files ([src/internal/sysx/sysx.go] and what it uses of the [os] package): an
    operation may fail, and every state of the disk that a reader could have seen
    is remembered. *)
From stdpp Require Import infinite.
From S2P Require Import Prelude GoStrings.

(** [f_seen] lists the contents of the disk after each step so far; [f_ops] counts
    the operations. *)
Record fsys : Type := mkFs {
  f_files : gmap gostring gostring;
  f_ops : nat;
  f_seen : list (gmap gostring gostring)
}.

(** Which operations fail, what a failed plain write leaves of the data, and the
    names [os.CreateTemp] finds in a directory, none of which is in use. *)
Class Disk : Type := {
  op_fails : nat -> bool;
  torn : nat -> gostring -> gostring;
  temp_name : gostring -> gmap gostring gostring -> gostring;
  temp_fresh : forall p m, m !! temp_name p m = None /\ temp_name p m <> p
}.

Definition F (A : Type) : Type := fsys -> fsys * A.
#[export] Instance F_ret : MRet F := fun A a fs => (fs, a).
#[export] Instance F_bind : MBind F := fun A B f m fs => let '(fs, a) := m fs in f a fs.

Section files.
Context `{Disk}.

(** One operation that touches no file. *)
Definition try_op : F bool := fun fs =>
  (mkFs (f_files fs) (S (f_ops fs)) (f_seen fs), negb (op_fails (f_ops fs))).
(** One operation that changes the disk. *)
Definition change (f : gmap gostring gostring -> gmap gostring gostring) : F bool := fun fs =>
  if op_fails (f_ops fs) then (mkFs (f_files fs) (S (f_ops fs)) (f_seen fs), false)
  else let m := f (f_files fs) in (mkFs m (S (f_ops fs)) (f_seen fs ++ [m]), true).

(** [os.ReadFile] *)
Definition ReadFile (p : gostring) : F (option gostring) := fun fs =>
  (mkFs (f_files fs) (S (f_ops fs)) (f_seen fs),
   if op_fails (f_ops fs) then None else f_files fs !! p).
(** [FileExists] *)
Definition FileExists (p : gostring) : F bool := fun fs =>
  (mkFs (f_files fs) (S (f_ops fs)) (f_seen fs),
   negb (op_fails (f_ops fs)) && bool_decide (is_Some (f_files fs !! p))).
Definition Remove (p : gostring) : F bool := change (delete p).
(** [os.Rename] of an existing file. *)
Definition Rename (old new : gostring) : F bool :=
  change (fun m => match m !! old with Some d => <[new := d]> (delete old m) | None => m end).
(** Writing to an open file, which may fail half way. *)
Definition write_open (p data : gostring) : F bool := fun fs =>
  let failed := op_fails (f_ops fs) in
  let m := <[p := if failed then torn (f_ops fs) data else data]> (f_files fs) in
  (mkFs m (S (f_ops fs)) (f_seen fs ++ [m]), negb failed).

(** [os.WriteFile]: the file is truncated, then written; a failed write leaves a
    part of the data. *)
Definition WriteFile (p data : gostring) : F bool :=
  opened ← change (<[p := []]>);
  if negb opened then mret false else write_open p data.

Definition pick_temp (p : gostring) : F gostring := fun fs => (fs, temp_name p (f_files fs)).

(** The temporary file is filled, and only then renamed. *)
Definition fill_temp (tmp data : gostring) : F bool :=
  written ← write_open tmp data;
  if negb written then mret false
  else
    moded ← try_op;
    if negb moded then mret false
    else
      synced ← try_op;
      if negb synced then mret false
      else closed ← try_op; mret closed.

Definition WriteFileAtomic (p data : gostring) : F bool :=
  made ← try_op;
  if negb made then mret false
  else
    tmp ← pick_temp p;
    created ← change (<[tmp := []]>);
    if negb created then mret false
    else
      filled ← fill_temp tmp data;
      ok ← (if negb filled then mret false else Rename tmp p);
      (** the deferred removal; there is nothing to remove after the rename *)
      _ ← Remove tmp;
      mret ok.

Definition WriteIfChanged (p data : gostring) : F (bool * bool) :=
  old ← ReadFile p;
  if match old with Some o => eqb_str o data | None => false end then mret (false, true)
  else ok ← WriteFileAtomic p data; mret (true, ok).

(* ------------------------------------------------------------------ *)
(** * Atomicity                                                          *)
(* ------------------------------------------------------------------ *)

(** From [fs] to [fs'] only states were seen, and are left, in which every path
    satisfies [P]. *)
Definition through (P : gmap gostring gostring -> Prop) (fs fs' : fsys) : Prop :=
  P (f_files fs') /\ exists new, f_seen fs' = f_seen fs ++ new /\ Forall P new.

Lemma through_refl P fs : P (f_files fs) -> through P fs fs.
Proof. intros Hp. split; [done|]. exists []. by rewrite app_nil_r. Qed.

Lemma through_trans P a b c : through P a b -> through P b c -> through P a c.
Proof.
  intros [_ (n1 & E1 & H1)] [Hp (n2 & E2 & H2)]. split; [done|]. exists (n1 ++ n2).
  rewrite E2, E1, app_assoc. split; [done|]. by apply Forall_app.
Qed.

(** A computation whose steps all stay within [P]. *)
Definition stays {A} (P : gmap gostring gostring -> Prop) (c : F A) : Prop :=
  forall fs, P (f_files fs) -> through P fs (c fs).1.

Lemma stays_ret {A} P (a : A) : stays P (mret a).
Proof. intros fs Hp. by apply through_refl. Qed.
Lemma stays_bind {A B} P (c : F A) (k : A -> F B) :
  stays P c -> (forall a, stays P (k a)) -> stays P (c ≫= k).
Proof.
  intros Hc Hk fs Hp. unfold mbind, F_bind. pose proof (Hc fs Hp) as H1.
  destruct (c fs) as [fs1 a]. eapply through_trans; [exact H1|]. apply Hk, H1.
Qed.
Lemma stays_quiet {A} P (c : F A) :
  (forall fs, f_files (c fs).1 = f_files fs /\ f_seen (c fs).1 = f_seen fs) -> stays P c.
Proof.
  intros Hq fs Hp. destruct (Hq fs) as [Ef Es]. split; [by rewrite Ef|].
  exists []. by rewrite Es, app_nil_r.
Qed.
Lemma stays_change P f : (forall m, P m -> P (f m)) -> stays P (change f).
Proof.
  intros Hf fs Hp. unfold change. destruct (op_fails (f_ops fs)).
  - split; [done|]. exists []. by rewrite app_nil_r.
  - split; [by apply Hf|]. eexists. split; [done|]. repeat constructor. by apply Hf.
Qed.

(** What a reader can find during an atomic write: [p] is as before or complete, and
    but for the temporary file [t] nothing else changed. *)
Definition old_or_new (p data t : gostring) (m0 m : gmap gostring gostring) : Prop :=
  (m !! p = m0 !! p \/ m !! p = Some data) /\ forall q, q <> p -> q <> t -> m !! q = m0 !! q.

Lemma old_or_new_temp p data t m0 m d : t <> p ->
  old_or_new p data t m0 m -> old_or_new p data t m0 (<[t := d]> m).
Proof.
  intros Ht [Hp Hq]. split; [by rewrite lookup_insert_ne|].
  intros q Hqp Hqt. rewrite lookup_insert_ne by done. by apply Hq.
Qed.

Lemma old_or_new_remove p data t m0 m : t <> p ->
  old_or_new p data t m0 m -> old_or_new p data t m0 (delete t m).
Proof.
  intros Ht [Hp Hq]. split; [by rewrite lookup_delete_ne|].
  intros q Hqp Hqt. rewrite lookup_delete_ne by done. by apply Hq.
Qed.

Lemma stays_quiet_op P : stays P try_op.
Proof. by apply stays_quiet. Qed.

Lemma stays_write_open (P : gmap gostring gostring -> Prop) p data :
  (forall m d, P m -> P (<[p := d]> m)) -> stays P (write_open p data).
Proof.
  intros Hf fs Hp. unfold write_open. cbv zeta. split; [by apply Hf|].
  eexists. split; [done|]. repeat constructor. by apply Hf.
Qed.

(** ** The atomic write *)

Lemma fill_temp_spec tmp data fs fs' b :
  fill_temp tmp data fs = (fs', b) ->
  exists d, f_files fs' = <[tmp := d]> (f_files fs) /\ (b = true -> d = data) /\
    f_seen fs' = f_seen fs ++ [f_files fs'].
Proof.
  unfold fill_temp, mbind, F_bind, write_open, try_op. cbv zeta.
  destruct (op_fails (f_ops fs)); cbn.
  { intros [= <- <-]. cbn. by eexists. }
  repeat (destruct (op_fails _); cbn; [intros [= <- <-]; cbn; by eexists|]).
  intros [= <- <-]. cbn. by eexists.
Qed.

(** One more step of the disk. *)
Lemma through_step (P : gmap gostring gostring -> Prop) fs fs' :
  f_seen fs' = f_seen fs ++ [f_files fs'] -> P (f_files fs') -> through P fs fs'.
Proof. intros Es Hp. split; [done|]. exists [f_files fs']. split; [done|]. by repeat constructor. Qed.

Lemma through_same (P : gmap gostring gostring -> Prop) fs fs' :
  f_files fs' = f_files fs -> f_seen fs' = f_seen fs -> P (f_files fs) -> through P fs fs'.
Proof. intros Ef Es Hp. split; [by rewrite Ef|]. exists []. by rewrite Es, app_nil_r. Qed.

Lemma change_inv f fs fs' ok :
  change f fs = (fs', ok) ->
  if ok then f_files fs' = f (f_files fs) /\ f_seen fs' = f_seen fs ++ [f_files fs']
  else f_files fs' = f_files fs /\ f_seen fs' = f_seen fs.
Proof. unfold change. destruct (op_fails _); by intros [= <- <-]. Qed.

(** The end of an atomic write: the temporary file goes away. *)
Lemma Remove_temp_spec p data t m0 fs fs' ok : t <> p ->
  Remove t fs = (fs', ok) -> old_or_new p data t m0 (f_files fs) ->
  through (old_or_new p data t m0) fs fs' /\ f_files fs' !! p = f_files fs !! p /\
  (f_files fs !! t = None -> f_files fs' = f_files fs).
Proof.
  intros Hne E Hp. apply change_inv in E. destruct ok; destruct E as [Ef Es].
  - split; [|rewrite Ef; split; [by rewrite lookup_delete_ne|by intros; apply delete_id]].
    apply through_step; [done|]. rewrite Ef. by apply old_or_new_remove.
  - rewrite Ef. split; [by apply through_same|done].
Qed.

Lemma WriteFileAtomic_spec p data fs fs' ok :
  WriteFileAtomic p data fs = (fs', ok) ->
  through (old_or_new p data (temp_name p (f_files fs)) (f_files fs)) fs fs' /\
  f_files fs' !! p = (if ok then Some data else f_files fs !! p) /\
  (ok = true -> f_files fs' = <[p := data]> (f_files fs)).
Proof.
  intros E. set (t := temp_name p (f_files fs)). set (m0 := f_files fs).
  destruct (temp_fresh p m0 : m0 !! t = None /\ t <> p) as [Hfresh Hne].
  assert (H0 : old_or_new p data t m0 m0) by (split; [by left|done]).
  unfold WriteFileAtomic, mbind, F_bind, try_op, pick_temp in E.
  destruct (op_fails (f_ops fs)); cbn [negb] in E.
  { injection E as <- <-. split; [by apply through_same|done]. }
  cbn [f_files] in E. change (temp_name p (f_files fs)) with t in E.
  destruct (change _ _) as [fs1 created] eqn:E1. apply change_inv in E1. cbn [f_files f_seen] in E1.
  destruct created; cbn [negb] in E; destruct E1 as [Ef1 Es1].
  2:{ injection E as <- <-. fold m0 in Ef1. rewrite Ef1.
      split; [by apply through_same|done]. }
  fold m0 in Ef1, Es1.
  assert (H1 : old_or_new p data t m0 (f_files fs1)) by (rewrite Ef1; by apply old_or_new_temp).
  assert (T1 : through (old_or_new p data t m0) fs fs1).
  { by apply through_step. }
  destruct (fill_temp t data fs1) as [fs2 filled] eqn:E2.
  apply fill_temp_spec in E2 as (d & Ef2 & Hd & Es2).
  assert (H2 : old_or_new p data t m0 (f_files fs2)) by (rewrite Ef2; by apply old_or_new_temp).
  assert (T2 : through (old_or_new p data t m0) fs fs2).
  { eapply through_trans; [exact T1|]. by apply through_step. }
  assert (Hm2 : f_files fs2 = <[t := d]> m0) by (by rewrite Ef2, Ef1, insert_insert_eq).
  assert (Hend : forall fs3 ok3, (let '(fs4, _) := Remove t fs3 in (fs4, ok3)) = (fs', ok) ->
    through (old_or_new p data t m0) fs fs3 ->
    f_files fs3 !! p = (if ok3 then Some data else m0 !! p) ->
    (ok3 = true -> f_files fs3 = <[p := data]> m0) ->
    through (old_or_new p data t m0) fs fs' /\
    f_files fs' !! p = (if ok then Some data else m0 !! p) /\
    (ok = true -> f_files fs' = <[p := data]> m0)).
  { intros fs3 ok3 E3 T3 Hp3 Hok3. destruct (Remove t fs3) as [fs4 b] eqn:Er. injection E3 as <- <-.
    destruct (Remove_temp_spec p data t m0 _ _ _ Hne Er (proj1 T3)) as (T4 & Hp4 & Hsame).
    split_and!; [by eapply through_trans|by rewrite Hp4|].
    intros Ht. rewrite Hsame; [by apply Hok3|].
    rewrite (Hok3 Ht). by rewrite lookup_insert_ne. }
  unfold mret, F_ret in E. destruct filled; cbn [negb] in E.
  2:{ eapply Hend; [exact E|done| |done]. by rewrite Hm2, lookup_insert_ne. }
  specialize (Hd eq_refl) as ->.
  destruct (Rename t p fs2) as [fs3 ok3] eqn:E3. apply (Hend fs3 ok3 E).
  all: apply change_inv in E3; destruct ok3; destruct E3 as [Ef3 Es3];
    rewrite ?Hm2, ?lookup_insert_eq, ?delete_insert_eq, ?(delete_id m0 t Hfresh) in Ef3.
  - eapply through_trans; [exact T2|]. apply through_step; [done|]. rewrite Ef3.
    split; [right; by rewrite lookup_insert_eq|]. intros q Hq _. by rewrite lookup_insert_ne.
  - eapply through_trans; [exact T2|]. apply through_same; [by rewrite Hm2|done|done].
  - by rewrite Ef3, lookup_insert_eq.
  - by rewrite Ef3, lookup_insert_ne.
  - done.
  - done.
Qed.

(** C25 Atomic writes: whichever of its operations fails, at every moment of a
    [WriteFileAtomic] a reader finds the file as it was before or complete, and
    apart from the temporary file nothing else changes; it reports success exactly
    when the new content is in place, and then nothing is left behind. *)
Theorem WriteFileAtomic_atomic p data fs fs' ok :
  WriteFileAtomic p data fs = (fs', ok) ->
  (exists new, f_seen fs' = f_seen fs ++ new /\ forall m, m ∈ new ->
     (m !! p = f_files fs !! p \/ m !! p = Some data) /\
     forall q, q <> p -> q <> temp_name p (f_files fs) -> m !! q = f_files fs !! q) /\
  f_files fs' !! p = (if ok then Some data else f_files fs !! p) /\
  (ok = true -> f_files fs' = <[p := data]> (f_files fs)).
Proof.
  intros E. apply WriteFileAtomic_spec in E as ([_ (new & Es & Hn)] & Hp & Hok).
  split; [|done]. exists new. split; [done|]. intros m Hm.
  rewrite Forall_forall in Hn. by apply Hn.
Qed.
End files.

Create HintDb stays.
#[export] Hint Resolve stays_ret stays_bind stays_quiet stays_change : stays.

Abbreviation files := (gmap gostring gostring).

(* ------------------------------------------------------------------ *)
(** * Computations on a working disk are functions of the files           *)
(* ------------------------------------------------------------------ *)

Section working.
Context `{Disk}.
Hypothesis works : forall n, op_fails n = false.

Definition does {A} (c : F A) (f : files -> files * A) : Prop :=
  forall fs, exists fs', c fs = (fs', (f (f_files fs)).2) /\ f_files fs' = (f (f_files fs)).1.

Lemma does_ret {A} (a : A) : does (mret a) (fun m => (m, a)).
Proof. intros fs. by exists fs. Qed.
Lemma does_bind {A B} (c : F A) f (k : A -> F B) g :
  does c f -> (forall a, does (k a) (g a)) ->
  does (c ≫= k) (fun m => g (f m).2 (f m).1).
Proof.
  intros Hc Hk fs. destruct (Hc fs) as (fs1 & E1 & Ef1).
  destruct (Hk (f (f_files fs)).2 fs1) as (fs2 & E2 & Ef2).
  exists fs2. unfold mbind, F_bind. rewrite E1, E2, Ef2, Ef1. done.
Qed.
(** One step of a longer computation. *)
Lemma does_step {A B} (c : F A) f (k : A -> F B) fs r :
  does c f -> (c ≫= k) fs = r ->
  exists fs1, f_files fs1 = (f (f_files fs)).1 /\ k (f (f_files fs)).2 fs1 = r.
Proof.
  intros Hc. destruct (Hc fs) as (fs1 & E & Ef). unfold mbind, F_bind. rewrite E. by exists fs1.
Qed.
Lemma does_ext {A} (c : F A) f g : (forall m, f m = g m) -> does c f -> does c g.
Proof. intros E Hc fs. rewrite <- E. apply Hc. Qed.

Lemma does_try_op : does try_op (fun m => (m, true)).
Proof. intros fs. eexists. unfold try_op. by rewrite works. Qed.
Lemma does_change f : does (change f) (fun m => (f m, true)).
Proof. intros fs. unfold change. rewrite works. by eexists. Qed.
Lemma does_ReadFile p : does (ReadFile p) (fun m => (m, m !! p)).
Proof. intros fs. eexists. unfold ReadFile. by rewrite works. Qed.
Lemma does_FileExists p : does (FileExists p) (fun m => (m, bool_decide (is_Some (m !! p)))).
Proof. intros fs. eexists. unfold FileExists. by rewrite works. Qed.
Lemma does_write_open p d : does (write_open p d) (fun m => (<[p := d]> m, true)).
Proof. intros fs. eexists. unfold write_open. cbv zeta. by rewrite works. Qed.

Lemma does_WriteFile p d : does (WriteFile p d) (fun m => (<[p := d]> m, true)).
Proof.
  eapply does_ext; [|apply does_bind; [apply does_change|]].
  2:{ intros a. instantiate (1 := fun (a : bool) m => if a then (<[p := d]> m, true) else (m, false)).
      destruct a; [apply does_write_open|apply does_ret]. }
  intros m. cbn. by rewrite insert_insert_eq.
Qed.

Lemma does_WriteFileAtomic p d : does (WriteFileAtomic p d) (fun m => (<[p := d]> m, true)).
Proof.
  intros fs. destruct (WriteFileAtomic p d fs) as [fs' ok] eqn:E. exists fs'.
  assert (ok = true) as ->.
  { unfold WriteFileAtomic, fill_temp, mbind, F_bind, try_op, pick_temp, change, write_open, Rename,
      Remove, change, mret, F_ret in E.
    repeat (rewrite works in E; cbn in E). by injection E. }
  apply WriteFileAtomic_spec in E as (_ & _ & Hok). split; [done|]. by apply Hok.
Qed.

Definition changes (p d : gostring) (m : files) : bool :=
  negb (match m !! p with Some o => eqb_str o d | None => false end).
Lemma does_WriteIfChanged p d :
  does (WriteIfChanged p d) (fun m => (<[p := d]> m, (changes p d m, true))).
Proof.
  eapply does_ext; [|apply does_bind; [apply does_ReadFile|]].
  2:{ intros a. instantiate (1 := fun a m =>
        if match a with Some o => eqb_str o d | None => false end then (m, (false, true))
        else (<[p := d]> m, (true, true))). cbv beta. destruct (match a with Some _ => _ | None => _ end).
      - apply does_ret.
      - eapply does_ext; [|apply does_bind; [apply does_WriteFileAtomic|intros ok; apply does_ret]].
        done. }
  intros m. cbn. unfold changes. destruct (m !! p) as [o|] eqn:E; [|done].
  destruct (eqb_str o d) eqn:Eo; [|done]. apply eqb_str_true in Eo as ->. cbn. by rewrite insert_id.
Qed.
End working.

(* ------------------------------------------------------------------ *)
(** * A concrete disk                                                    *)
(* ------------------------------------------------------------------ *)

#[local] Instance byte_inhabited : Inhabited byte := populate x00.

(** A disk whose operations fail from the [n]-th on, half way through the data. *)
Definition breaks_at (n : nat) : Disk.
Proof.
  refine {| op_fails i := bool_decide (n <= i)%nat;
            torn _ d := take (length d / 2)%nat d;
            temp_name p m := fresh (p :: elements (dom m)) |}.
  intros p m. pose proof (infinite_is_fresh (p :: elements (dom m))) as Hf.
  apply not_elem_of_cons in Hf as [Hp Hm]. split; [|done].
  apply not_elem_of_dom. by rewrite <- elem_of_elements.
Defined.

Definition one_file : fsys := mkFs {[bs "a" := bs "old"]} 0 [].

Lemma WriteFileAtomic_atomic_witness :
  let r := @WriteFileAtomic (breaks_at 2) (bs "a") (bs "newer") one_file in
  r.2 = false /\ f_files r.1 !! bs "a" = Some (bs "old").
Proof.
  destruct (@WriteFileAtomic (breaks_at 2) (bs "a") (bs "newer") one_file) as [fs' ok] eqn:E.
  destruct (@WriteFileAtomic_atomic (breaks_at 2) _ _ _ _ _ E) as (_ & Hp & _).
  assert (ok = false) as -> by (apply (f_equal snd) in E; by vm_compute in E).
  split; [done|exact Hp].
Defined.
