(* ===== verification/Sysx.v ===== *)
(** Running a command and finding a program ([RunInput] and [Which] of
    [src/internal/sysx/sysx.go]), over what the operating system answers. *)
From S2P Require Import Prelude GoStrings Paths.

(** [30 * time.Second], in nanoseconds. *)
Definition DefaultTimeout : Z := 30 * 1000000000.

(** What a started command came to: its output, the error of [cmd.Run], and whether the
    deadline of the context had passed. *)
Record ended : Type := mkEnded { e_output : gostring; e_err : option gostring; e_late : bool }.

Definition firstLine (s : gostring) : gostring := hd [] (split_on x0a s).

Section run.
Context `{Unicode}.
(** [proc timeout input name args] is the command run under a deadline; [show_duration] is
    [time.Duration.String]. *)
Variable proc : Z -> gostring -> gostring -> list gostring -> ended.
Variable show_duration : Z -> gostring.

(** The trimmed output, and the text of the error. *)
Definition RunInput (timeout : Z) (input name : gostring) (args : list gostring) : gostring * option gostring :=
  let timeout := if timeout <=? 0 then DefaultTimeout else timeout in
  let e := proc timeout input name args in
  let out := trim_space (e_output e) in
  if e_late e then (out, Some (name ++ bs ": timed out after " ++ show_duration timeout))
  else match e_err e with
       | Some err =>
           if negb (eqb_str out [])
           then (out, Some (name ++ bs " " ++ join (bs " ") args ++ bs ": " ++ firstLine out ++ bs ": " ++ err))
           else (out, Some (name ++ bs " " ++ join (bs " ") args ++ bs ": " ++ err))
       | None => (out, None)
       end.
Definition RunTimeout (timeout : Z) (name : gostring) (args : list gostring) : gostring * option gostring :=
  RunInput timeout [] name args.
Definition Run (name : gostring) (args : list gostring) : gostring * option gostring :=
  RunInput DefaultTimeout [] name args.

(** What [Users.exec] is told of it: the output, and whether there was no error. *)
Definition answer (r : gostring * option gostring) : gostring * bool :=
  (r.1, match r.2 with None => true | Some _ => false end).

(** A command succeeds exactly when it ended in time without an error; no command is
    started without a deadline. *)
Lemma RunInput_answer timeout input name args :
  exists t, 0 < t /\ (0 < timeout -> t = timeout) /\
    answer (RunInput timeout input name args) =
      (trim_space (e_output (proc t input name args)),
       negb (e_late (proc t input name args)) &&
       match e_err (proc t input name args) with None => true | Some _ => false end).
Proof.
  exists (if timeout <=? 0 then DefaultTimeout else timeout). split; [destruct (Z.leb_spec timeout 0); [done|lia]|].
  split; [intros Ht; destruct (Z.leb_spec timeout 0); [lia|done]|].
  unfold RunInput, answer. cbv zeta. destruct (e_late _); [done|].
  destruct (e_err _); [|done]. by destruct (negb _).
Qed.

(** Only the first line of the output is in the message: it stays on one line when the
    arguments and the error are. *)
Lemma firstLine_one s : x0a ∉ firstLine s.
Proof.
  unfold firstLine. induction s as [|x s IH]; [apply not_elem_of_nil|]. cbn [split_on].
  case_decide as Hx; [apply not_elem_of_nil|]. pose proof (split_on_nonempty x0a s).
  destruct (split_on x0a s); [done|]. cbn in *. by apply not_elem_of_cons.
Qed.
End run.

(* ------------------------------------------------------------------ *)
(** * Finding a program                                                  *)
(* ------------------------------------------------------------------ *)

Definition sbin_dirs : list gostring :=
  [bs "/usr/local/sbin"; bs "/usr/local/bin"; bs "/usr/sbin"; bs "/usr/bin"; bs "/sbin"; bs "/bin"].

Section which.
(** [exec.LookPath], [filepath.Abs], and whether a path is a file that may be executed. *)
Variable look_path : gostring -> option gostring.
Variable abs : gostring -> option gostring.
Variable executable : gostring -> bool.

Definition find_one (n : gostring) : option gostring :=
  match look_path n with
  | Some p => Some (default p (abs p))
  | None => List.find executable ((fun d => path_join d n) <$> sbin_dirs)
  end.
Fixpoint Which (names : list gostring) : gostring :=
  match names with
  | [] => []
  | n :: names => match find_one n with Some p => p | None => Which names end
  end.

(** The first name that is anywhere decides, even when a later one is in PATH. *)
Lemma Which_first names1 n names2 p : Forall (fun n => find_one n = None) names1 -> find_one n = Some p ->
  Which (names1 ++ n :: names2) = p.
Proof. intros Hn Hp. induction Hn as [|x xs Hx _ IH]; cbn [app Which]; [by rewrite Hp|by rewrite Hx]. Qed.
Lemma Which_none names : Forall (fun n => find_one n = None) names -> Which names = [].
Proof. induction 1 as [|x xs Hx _ IH]; [done|]. cbn [Which]. by rewrite Hx. Qed.
End which.
