(* ===== verification/NetAddr.v ===== *)
(** Internet addresses: the part of Go's [net/netip] the program uses.
    [Addr] is [netip.Addr] (an IPv6 address carries its zone), [AddrPort] is
    [netip.AddrPort]; the zero [Addr] of Go is [AddrZero]. *)
From S2P Require Import Prelude GoStrings.

Inductive Addr : Type :=
| AddrZero
| Addr4 (ip : list byte)
| Addr6 (ip : list byte) (zone : string).

Record AddrPort : Type := AddrPortFrom { ap_addr : Addr; ap_port : Z }.

#[export] Instance Addr_eq_dec : EqDecision Addr.
Proof. solve_decision. Defined.
#[export] Instance AddrPort_eq_dec : EqDecision AddrPort.
Proof. solve_decision. Defined.

Definition AddrPortZero : AddrPort := AddrPortFrom AddrZero 0.

(** [netip.AddrFrom16]: an IPv6 address without a zone. *)
Definition AddrFrom4 (ip : list byte) : Addr := Addr4 ip.
Definition AddrFrom16 (ip : list byte) : Addr := Addr6 ip EmptyString.

Definition Is4 (a : Addr) : bool :=
  match a with Addr4 _ => true | _ => false end.

(** The twelve-byte prefix of the IPv4-mapped IPv6 addresses, [::ffff:0:0/96]. *)
Definition mapped_prefix : list byte := replicate 10 x00 ++ [xff; xff].

Definition Is4In6 (a : Addr) : bool :=
  match a with
  | Addr6 ip _ => bool_decide (take 12 ip = mapped_prefix)
  | _ => false
  end.

(** [Addr.Unmap] turns an IPv4-mapped IPv6 address into the IPv4 one. *)
Definition Unmap (a : Addr) : Addr :=
  match a with
  | Addr6 ip _ => if Is4In6 a then Addr4 (drop 12 ip) else a
  | _ => a
  end.

(** [Addr.IsLoopback], including the Go 1.22 treatment of mapped addresses. *)
Definition IsLoopback (a : Addr) : bool :=
  match Unmap a with
  | Addr4 (b :: _) => b2z b =? 127
  | Addr6 ip _ => bool_decide (ip = replicate 15 x00 ++ [x01])
  | _ => false
  end.

(** [Addr.As4] and [Addr.As16], on the kinds the callers test for. *)
Definition As4 (a : Addr) : list byte :=
  match a with Addr4 ip => ip | _ => replicate 4 x00 end.
Definition As16 (a : Addr) : list byte :=
  match a with
  | Addr6 ip _ => ip
  | Addr4 ip => mapped_prefix ++ ip
  | AddrZero => replicate 16 x00
  end.

(** Array lengths of the two kinds of address: what Go's types guarantee. *)
Definition Addr_wf (a : Addr) : Prop :=
  match a with
  | AddrZero => False
  | Addr4 ip => length ip = 4%nat
  | Addr6 ip _ => length ip = 16%nat
  end.

Definition AddrPort_wf (a : AddrPort) : Prop :=
  Addr_wf (ap_addr a) /\ 0 <= ap_port a < 65536.

#[export] Instance Addr_wf_dec a : Decision (Addr_wf a).
Proof. destruct a; simpl; apply _. Defined.
#[export] Instance AddrPort_wf_dec a : Decision (AddrPort_wf a).
Proof. unfold AddrPort_wf. apply _. Defined.

(** The address without its IPv6 zone (the zone is not sent on the wire). *)
Definition drop_zone (a : AddrPort) : AddrPort :=
  AddrPortFrom
    match ap_addr a with Addr6 ip _ => AddrFrom16 ip | a' => a' end
    (ap_port a).

Lemma Unmap_wf a : Addr_wf a -> Addr_wf (Unmap a).
Proof.
  destruct a as [|ip|ip z]; simpl; try done.
  intros Hl. case_bool_decide; simpl; [|done]. rewrite length_drop. lia.
Qed.

Lemma Unmap_idemp a : Addr_wf a -> Unmap (Unmap a) = Unmap a.
Proof.
  destruct a as [|ip|ip z]; simpl; try done.
  intros Hl. case_bool_decide; simpl; [done|].
  rewrite bool_decide_eq_false_2; done.
Qed.

(** An unmapped address is an IPv4 one or a genuine IPv6 one. *)
Lemma Unmap_not_mapped a : Addr_wf a -> Is4In6 (Unmap a) = false.
Proof.
  destruct a as [|ip|ip z]; simpl; try done.
  intros Hl. case_bool_decide; simpl; [done|]. by apply bool_decide_eq_false_2.
Qed.

(* ------------------------------------------------------------------ *)
(** * Text                                                               *)
(* ------------------------------------------------------------------ *)

Definition dotted (ip : list byte) : gostring := join (bs ".") ((fun b => itoa (b2z b)) <$> ip).

Definition hex_char (n : Z) : byte := byte_at n (bs "0123456789abcdef").
(** A number below 2^16 in lower-case hexadecimal, without leading zeros. *)
Definition hex16 (n : Z) : gostring :=
  if n <? 16 then [hex_char n]
  else if n <? 256 then [hex_char (n / 16); hex_char (n mod 16)]
  else if n <? 4096 then [hex_char (n / 256); hex_char (n / 16 mod 16); hex_char (n mod 16)]
  else [hex_char (n / 4096); hex_char (n / 256 mod 16); hex_char (n / 16 mod 16);
        hex_char (n mod 16)].

Fixpoint groups (ip : list byte) : list Z :=
  match ip with
  | a :: b :: ip => be16 [a; b] :: groups ip
  | _ => []
  end.

(** How many zero groups start at each position, and the first longest run. *)
Fixpoint zero_run (gs : list Z) : nat :=
  match gs with 0 :: gs => S (zero_run gs) | _ => O end.
Fixpoint longest_run (i : nat) (best : nat * nat) (gs : list Z) : nat * nat :=
  match gs with
  | [] => best
  | _ :: gs' =>
      let r := zero_run gs in
      longest_run (S i) (if (best.2 <? r)%nat then (i, r) else best) gs'
  end.

(** [netip.Addr.String]. *)
Definition addr_string (a : Addr) : gostring :=
  match a with
  | AddrZero => bs "invalid IP"
  | Addr4 ip => dotted ip
  | Addr6 ip zone =>
      let z := match zone with EmptyString => [] | _ => bs "%" ++ bs zone end in
      if Is4In6 a then bs "::ffff:" ++ dotted (drop 12 ip) ++ z
      else
        let gs := groups ip in
        let '(i, n) := longest_run 0 (0, 0)%nat gs in
        let text l := join (bs ":") (hex16 <$> l) in
        if (1 <? n)%nat
        then text (take i gs) ++ bs "::" ++ text (drop (i + n) gs) ++ z
        else text gs ++ z
  end.

Example addr_string_ex :
  addr_string (Addr6 [x20;x01;x0d;xb8;x00;x00;x00;x00;x00;x00;x00;x00;x00;x00;x00;x01] "eth0")
  = bs "2001:db8::1%eth0".
Proof. vm_compute. reflexivity. Qed.
