(* ===== verification/NetParse.v ===== *)
(** Reading internet addresses: [netip.ParseAddr], [netip.ParseAddrPort],
    [net.ParseIP] and [net.SplitHostPort] of Go's standard library, as the program
    uses them. *)
From S2P Require Import Prelude GoStrings NetAddr.

(** An octet: decimal, at most 255, without a leading zero. *)
Definition octet (s : gostring) : option byte :=
  match s with
  | x30 :: _ :: _ => None
  | _ => n ← digits s; if n <=? 255 then Some (z2b n) else None
  end.
Definition parse_v4 (s : gostring) : option (list byte) :=
  match split_on x2e s with
  | [a; b; c; d] => mapM octet [a; b; c; d]
  | _ => None
  end.

Fixpoint span_hex (s : gostring) : gostring * gostring :=
  match s with
  | [] => ([], [])
  | c :: s' => match hex_digit c with
               | Some _ => let '(h, r) := span_hex s' in (c :: h, r)
               | None => ([], s)
               end
  end.

(** The loop over the groups of an IPv6 address: the bytes so far and the place of
    the double colon, with what is left of the text. *)
Fixpoint v6_loop (rounds : nat) (ip : list byte) (ell : option nat) (s : gostring)
    : option (list byte * option nat * gostring) :=
  match rounds with
  | O => Some (ip, ell, s)
  | S rounds =>
      let '(h, rest) := span_hex s in
      if (4 <? length h)%nat then None
      else
        v ← parse_hex 16 h;
        let ip' := ip ++ put_be 2 v in
        match rest with
        | [] => Some (ip', ell, [])
        | x2e :: _ =>
            if (match ell with None => negb (length ip =? 12)%nat | Some _ => false end) ||
               (12 <? length ip)%nat then None
            else v4 ← parse_v4 s; Some (ip ++ v4, ell, [])
        | [x3a] => None
        | x3a :: x3a :: rest =>
            match ell with
            | Some _ => None
            | None =>
                let ell := Some (length ip') in
                match rest with
                | [] => Some (ip', ell, [])
                | _ => v6_loop rounds ip' ell rest
                end
            end
        | x3a :: rest => v6_loop rounds ip' ell rest
        | _ => None
        end
  end.

Definition v6_finish (r : list byte * option nat * gostring) : option (list byte) :=
  let '(ip, ell, rest) := r in
  match rest, ell with
  | _ :: _, _ => None
  | [], None => if (length ip <? 16)%nat then None else Some ip
  | [], Some e =>
      if (length ip <? 16)%nat
      then Some (take e ip ++ replicate (16 - length ip) x00 ++ drop e ip) else None
  end.

Definition parse_v6 (s : gostring) : option Addr :=
  let '(s, zone) := match cut x25 s with Some (a, z) => (a, Some z) | None => (s, None) end in
  match zone with
  | Some [] => None
  | _ =>
      ip ← (match s with
            | [x3a; x3a] => Some (replicate 16 x00)
            | x3a :: x3a :: s => v6_loop 8 [] (Some 0%nat) s ≫= v6_finish
            | _ => v6_loop 8 [] None s ≫= v6_finish
            end);
      Some (Addr6 ip (String.string_of_list_byte (default [] zone)))
  end.

(** [netip.ParseAddr]: the first dot, colon or percent sign decides. *)
Fixpoint addr_kind (s : gostring) : option byte :=
  match s with
  | [] => None
  | c :: s => if decide (c ∈ [x2e; x3a; x25]) then Some c else addr_kind s
  end.
Definition ParseAddr (s : gostring) : option Addr :=
  match addr_kind s with
  | Some x2e => Addr4 <$> parse_v4 s
  | Some x3a => parse_v6 s
  | _ => None
  end.

(** [netip.ParseAddrPort] *)
Definition ParseAddrPort (s : gostring) : option AddrPort :=
  match last_index_byte s x3a with
  | None => None
  | Some i =>
      let ip := take i s in
      let port := drop (S i) s in
      match ip, port with
      | [], _ | _, [] => None
      | x5b :: rest, _ =>
          if has_suffix rest [x5d]
          then p ← parse_uint 16 port; a ← ParseAddr (trim_suffix rest [x5d]);
               if Is4 a then None else Some (AddrPortFrom a p)
          else None
      | _, _ => p ← parse_uint 16 port; a ← ParseAddr ip;
                if Is4 a then Some (AddrPortFrom a p) else None
      end
  end.

(** [net.ParseIP(s) != nil]: no zones. *)
Definition ParseIP_ok (s : gostring) : bool :=
  match ParseAddr s with
  | Some (Addr6 _ EmptyString) | Some (Addr4 _) => true
  | _ => false
  end.

(** [net.SplitHostPort] *)
Definition SplitHostPort (s : gostring) : option (gostring * gostring) :=
  match last_index_byte s x3a with
  | None => None
  | Some i =>
      let port := drop (S i) s in
      let clean host rest := if decide ((x5b ∉ rest) /\ (x5d ∉ rest)) then Some (host, port) else None in
      match s with
      | x5b :: s' =>
          match index_byte s' x5d with
          | None => None
          | Some e =>
              let host := take e s' in
              if (i =? e + 2)%nat
              then if decide ((x5b ∉ drop 1 s) /\ (x5d ∉ drop (e + 2) s)) then Some (host, port) else None
              else None
          end
      | _ =>
          let host := take i s in
          if decide (x3a ∈ host) then None else clean host s
      end
  end.

Example parse_addr_v4 : ParseAddr (bs "10.0.0.1") = Some (Addr4 [x0a; x00; x00; x01]).
Proof. vm_compute. reflexivity. Qed.
Example parse_addr_v6 : addr_string <$> ParseAddr (bs "2001:DB8::1%eth0") = Some (bs "2001:db8::1%eth0").
Proof. vm_compute. reflexivity. Qed.
Example parse_addr_mapped : addr_string <$> ParseAddr (bs "::ffff:1.2.3.4") = Some (bs "::ffff:1.2.3.4").
Proof. vm_compute. reflexivity. Qed.
Example parse_addr_bad : (fun s => match ParseAddr (bs s) with Some _ => true | None => false end) <$>
  ["1.2.3"; "1.2.3.04"; "1.2.3.256"; "1:2:3:4:5:6:7:8:9"; "1::2::3"; "::1%"; "12345::"; "1:2:3:4:5:6:7::8"; "1:2:3:4:5:6::8"]%string =
  [false; false; false; false; false; false; false; false; true].
Proof. vm_compute. reflexivity. Qed.

(** A host without colon or bracket, and what follows the last colon. *)
Lemma SplitHostPort_plain host port :
  (forall c, c ∈ host -> c <> x3a /\ c <> x5b /\ c <> x5d) ->
  x3a ∉ port -> x5b ∉ port -> x5d ∉ port ->
  SplitHostPort (host ++ x3a :: port) = Some (host, port).
Proof.
  intros Hh Hc Ho Hb. unfold SplitHostPort. rewrite last_index_byte_app by done.
  assert (Et : take (length host) (host ++ x3a :: port) = host) by apply take_app_length.
  assert (Ed : drop (S (length host)) (host ++ x3a :: port) = port).
  { rewrite drop_app_ge by lia. by replace (S (length host) - length host)%nat with 1%nat by lia. }
  rewrite Et, Ed.
  assert (Hn : forall c, c = x5b \/ c = x5d -> c ∉ host ++ x3a :: port).
  { intros c Hcc. rewrite elem_of_app, elem_of_cons. intros [Hin|[->|Hin]].
    - destruct (Hh c Hin) as (_ & ? & ?). by destruct Hcc.
    - by destruct Hcc.
    - by destruct Hcc as [->| ->]. }
  destruct host as [|x host].
  - cbn [app]. rewrite decide_False by set_solver.
    rewrite decide_True by (split; apply Hn; [by left|by right]). done.
  - assert (Hx : x <> x5b) by (apply Hh; left).
    assert (H3 : x3a ∉ x :: host) by (intros Hin; by destruct (Hh _ Hin)).
    assert (Hb2 : x5b ∉ (x :: host) ++ x3a :: port /\ x5d ∉ (x :: host) ++ x3a :: port) by (split; apply Hn; [by left|by right]).
    revert Hb2. cbn [app]. intros Hb2.
    destruct x; try (by rewrite (decide_False _ _ H3), (decide_True _ _ Hb2)). done.
Qed.
