(* ===== verification/Config.v ===== *)
(** The configuration file ([src/internal/config/config.go]): its sections, the
    defaults, [normalize] and [Validate]. Reading YAML is the library's business:
    [Load] takes it as a parameter. *)
From S2P Require Import Prelude GoStrings.

(* ------------------------------------------------------------------ *)
(** * Sections                                                           *)
(* ------------------------------------------------------------------ *)

(** A finite [float64] is [fl_m * 2 ^ fl_e]. *)
Record float : Type := mkFloat { fl_m : Z; fl_e : Z }.

Record ServerConfig : Type := mkServerConfig { server_Host : gostring }.

Record SSHConfig : Type := mkSSHConfig {
  ssh_Ports : list Z;
  ssh_ConfigPath : gostring;
  ssh_SSHDPath : gostring;
  ssh_MaxAuthTries : Z;
  ssh_PasswordAuth : bool;
  ssh_Tuning : bool;
  ssh_Compression : bool;
  ssh_ClientAliveInterval : Z;
  ssh_ClientAliveCountMax : Z;
  ssh_MaxStartups : gostring;
  ssh_LoginGraceTime : Z;
  ssh_Banner : gostring
}.

Record UDPGWConfig : Type := mkUDPGWConfig {
  udpgw_Enabled : bool;
  udpgw_Mode : gostring;
  udpgw_Listen : gostring;
  udpgw_Ports : list Z;
  udpgw_MaxClients : Z;
  udpgw_MaxConnectionsPerClient : Z;
  udpgw_FlowIdleSecs : Z;
  udpgw_DNS : gostring
}.

Record BadVPNConfig : Type := mkBadVPNConfig { badvpn_BinaryPath : gostring }.

Record GatewayConfig : Type := mkGatewayConfig {
  gateway_Enabled : bool;
  gateway_Listen : gostring;
  gateway_Ports : list Z;
  gateway_TLSCert : gostring;
  gateway_TLSKey : gostring;
  gateway_MaxConnections : Z;
  gateway_HandshakeTimeoutSecs : Z
}.

Record LimiterConfig : Type := mkLimiterConfig {
  limiter_Enabled : bool;
  limiter_Policy : gostring;
  limiter_IntervalSecs : Z
}.

Record NetworkConfig : Type := mkNetworkConfig {
  network_AutoOptimize : bool;
  network_CongestionControl : gostring;
  network_CustomSysctls : gmap gostring gostring
}.

Record FirewallConfig : Type := mkFirewallConfig {
  firewall_Enabled : bool;
  firewall_BlockLocal : bool;
  firewall_BlockSMTP : bool;
  firewall_AllowLocalPorts : list Z
}.

Record UserDefaultsConfig : Type := mkUserDefaultsConfig {
  ud_DefaultExpirationDays : Z;
  ud_DefaultMaxConnections : Z;
  ud_DefaultTrafficGB : float;
  ud_Shell : gostring;
  ud_Group : gostring
}.

Record MonitorConfig : Type := mkMonitorConfig {
  monitor_RefreshIntervalSecs : Z;
  monitor_AuthLogPath : gostring
}.

Record Config : Type := mkConfig {
  DataDir : gostring;
  LogDir : gostring;
  Server : ServerConfig;
  SSH : SSHConfig;
  UDPGW : UDPGWConfig;
  BadVPN : BadVPNConfig;
  Gateway : GatewayConfig;
  Limiter : LimiterConfig;
  Network : NetworkConfig;
  Firewall : FirewallConfig;
  UserDefaults : UserDefaultsConfig;
  Monitor : MonitorConfig;
  path : gostring
}.

Definition DefaultPath : gostring := bs "/etc/sshfortress/config.yaml".

Definition Defaults : Config :=
  {| DataDir := bs "/var/lib/sshfortress";
     LogDir := bs "/var/log/sshfortress";
     Server := mkServerConfig [];
     SSH := {| ssh_Ports := [22]; ssh_ConfigPath := bs "/etc/ssh/sshd_config";
               ssh_SSHDPath := []; ssh_MaxAuthTries := 4; ssh_PasswordAuth := false;
               ssh_Tuning := true; ssh_Compression := false;
               ssh_ClientAliveInterval := 20; ssh_ClientAliveCountMax := 3;
               ssh_MaxStartups := bs "100:30:1000"; ssh_LoginGraceTime := 30;
               ssh_Banner := [] |};
     UDPGW := {| udpgw_Enabled := true; udpgw_Mode := bs "builtin";
                 udpgw_Listen := bs "127.0.0.1"; udpgw_Ports := [7100; 7200; 7300];
                 udpgw_MaxClients := 2048; udpgw_MaxConnectionsPerClient := 512;
                 udpgw_FlowIdleSecs := 120; udpgw_DNS := [] |};
     BadVPN := mkBadVPNConfig (bs "/usr/local/bin/badvpn-udpgw");
     Gateway := {| gateway_Enabled := false; gateway_Listen := []; gateway_Ports := [];
                   gateway_TLSCert := []; gateway_TLSKey := [];
                   gateway_MaxConnections := 4096; gateway_HandshakeTimeoutSecs := 15 |};
     Limiter := mkLimiterConfig true (bs "oldest") 5;
     Network := mkNetworkConfig true (bs "bbr") ∅;
     Firewall := mkFirewallConfig true true true [];
     UserDefaults := mkUserDefaultsConfig 30 2 (mkFloat 0 0) (bs "/bin/false") (bs "sshvpn");
     Monitor := mkMonitorConfig 2 (bs "/var/log/auth.log");
     path := [] |}.

(* ------------------------------------------------------------------ *)
(** * normalize                                                          *)
(* ------------------------------------------------------------------ *)

(** The loop of [uniqSorted], then [sort.Ints]. *)
Fixpoint uniq_go (seen : gset Z) (l : list Z) : list Z :=
  match l with
  | [] => []
  | v :: l => if decide (v ∈ seen) then uniq_go seen l else v :: uniq_go ({[v]} ∪ seen) l
  end.
Definition uniqSorted (l : list Z) : list Z := merge_sort Z.le (uniq_go ∅ l).

(** "If it is the zero value (or not positive), use the default". *)
Definition or_str (s d : gostring) : gostring := match s with [] => d | _ => s end.
Definition or_pos (n d : Z) : Z := if n <=? 0 then d else n.
Definition or_ports (l d : list Z) : list Z := match l with [] => d | _ => l end.

Section normalize.
Context `{Unicode}.

Definition word (s : gostring) : gostring := to_lower (trim_space s).

Definition normalize (c : Config) : Config :=
  let d := Defaults in
  {| DataDir := or_str (DataDir c) (DataDir d);
     LogDir := or_str (LogDir c) (LogDir d);
     Server := Server c;
     SSH := let s := SSH c in
       {| ssh_Ports := uniqSorted (or_ports (ssh_Ports s) (ssh_Ports (SSH d)));
          ssh_ConfigPath := or_str (ssh_ConfigPath s) (ssh_ConfigPath (SSH d));
          ssh_SSHDPath := ssh_SSHDPath s;
          ssh_MaxAuthTries := or_pos (ssh_MaxAuthTries s) (ssh_MaxAuthTries (SSH d));
          ssh_PasswordAuth := ssh_PasswordAuth s;
          ssh_Tuning := ssh_Tuning s;
          ssh_Compression := ssh_Compression s;
          ssh_ClientAliveInterval :=
            or_pos (ssh_ClientAliveInterval s) (ssh_ClientAliveInterval (SSH d));
          ssh_ClientAliveCountMax :=
            or_pos (ssh_ClientAliveCountMax s) (ssh_ClientAliveCountMax (SSH d));
          ssh_MaxStartups := or_str (ssh_MaxStartups s) (ssh_MaxStartups (SSH d));
          ssh_LoginGraceTime := or_pos (ssh_LoginGraceTime s) (ssh_LoginGraceTime (SSH d));
          ssh_Banner := ssh_Banner s |};
     UDPGW := let u := UDPGW c in
       {| udpgw_Enabled := udpgw_Enabled u;
          udpgw_Mode := or_str (word (udpgw_Mode u)) (udpgw_Mode (UDPGW d));
          udpgw_Listen := or_str (udpgw_Listen u) (udpgw_Listen (UDPGW d));
          udpgw_Ports := uniqSorted (or_ports (udpgw_Ports u) (udpgw_Ports (UDPGW d)));
          udpgw_MaxClients := or_pos (udpgw_MaxClients u) (udpgw_MaxClients (UDPGW d));
          udpgw_MaxConnectionsPerClient :=
            or_pos (udpgw_MaxConnectionsPerClient u) (udpgw_MaxConnectionsPerClient (UDPGW d));
          udpgw_FlowIdleSecs := or_pos (udpgw_FlowIdleSecs u) (udpgw_FlowIdleSecs (UDPGW d));
          udpgw_DNS := udpgw_DNS u |};
     BadVPN := mkBadVPNConfig (or_str (badvpn_BinaryPath (BadVPN c)) (badvpn_BinaryPath (BadVPN d)));
     Gateway := let g := Gateway c in
       {| gateway_Enabled := gateway_Enabled g;
          gateway_Listen := gateway_Listen g;
          gateway_Ports := uniqSorted (gateway_Ports g);
          gateway_TLSCert := gateway_TLSCert g;
          gateway_TLSKey := gateway_TLSKey g;
          gateway_MaxConnections :=
            or_pos (gateway_MaxConnections g) (gateway_MaxConnections (Gateway d));
          gateway_HandshakeTimeoutSecs :=
            or_pos (gateway_HandshakeTimeoutSecs g) (gateway_HandshakeTimeoutSecs (Gateway d)) |};
     Limiter := let l := Limiter c in
       mkLimiterConfig (limiter_Enabled l)
         (or_str (word (limiter_Policy l)) (limiter_Policy (Limiter d)))
         (or_pos (limiter_IntervalSecs l) (limiter_IntervalSecs (Limiter d)));
     Network := let n := Network c in
       mkNetworkConfig (network_AutoOptimize n)
         (or_str (network_CongestionControl n) (network_CongestionControl (Network d)))
         (network_CustomSysctls n);
     Firewall := Firewall c;
     UserDefaults := let u := UserDefaults c in
       mkUserDefaultsConfig
         (or_pos (ud_DefaultExpirationDays u) (ud_DefaultExpirationDays (UserDefaults d)))
         (or_pos (ud_DefaultMaxConnections u) (ud_DefaultMaxConnections (UserDefaults d)))
         (ud_DefaultTrafficGB u)
         (or_str (ud_Shell u) (ud_Shell (UserDefaults d)))
         (or_str (ud_Group u) (ud_Group (UserDefaults d)));
     Monitor := mkMonitorConfig
       (or_pos (monitor_RefreshIntervalSecs (Monitor c)) (monitor_RefreshIntervalSecs (Monitor d)))
       (monitor_AuthLogPath (Monitor c));
     path := path c |}.
End normalize.

(* ------------------------------------------------------------------ *)
(** * Validate                                                           *)
(* ------------------------------------------------------------------ *)

Inductive cfgerr : Type :=
| portRange (section : gostring) (p : Z)
| badMode (mode : gostring)
| badPolicy (policy : gostring)
| badMaxStartups (s : gostring)
| portClash (p : Z) (prev section : gostring)
| readError
| parseError.

Fixpoint check_ports (section : gostring) (ports : list Z) : option cfgerr :=
  match ports with
  | [] => None
  | p :: ports =>
      if (p <? 1) || (65535 <? p) then Some (portRange section p)
      else check_ports section ports
  end.

Definition count_byte (c : byte) (s : gostring) : Z := len (filter (fun x => x = c) s).

Fixpoint claim (section : gostring) (owner : gmap Z gostring) (ports : list Z)
    : result cfgerr (gmap Z gostring) :=
  match ports with
  | [] => Ok owner
  | p :: ports =>
      match owner !! p with
      | Some prev => Err (portClash p prev section)
      | None => claim section (<[p := section]> owner) ports
      end
  end.

(** The first failing check wins. *)
Definition first_err (l : list (option cfgerr)) : option cfgerr :=
  foldr (fun e acc => match e with Some e => Some e | None => acc end) None l.

Definition claims (c : Config) : result cfgerr (gmap Z gostring) :=
  o1 ← claim (bs "ssh.ports") ∅ (ssh_Ports (SSH c));
  o2 ← (if gateway_Enabled (Gateway c)
        then claim (bs "gateway.ports") o1 (gateway_Ports (Gateway c)) else Ok o1);
  if udpgw_Enabled (UDPGW c)
  then claim (bs "udpgw.ports") o2 (udpgw_Ports (UDPGW c)) else Ok o2.

Definition Validate (c : Config) : option cfgerr :=
  let mode := udpgw_Mode (UDPGW c) in
  let policy := limiter_Policy (Limiter c) in
  let colons := count_byte x3a (ssh_MaxStartups (SSH c)) in
  first_err
    [check_ports (bs "ssh.ports") (ssh_Ports (SSH c));
     check_ports (bs "udpgw.ports") (udpgw_Ports (UDPGW c));
     check_ports (bs "gateway.ports") (gateway_Ports (Gateway c));
     (if negb (eqb_str mode (bs "builtin")) && negb (eqb_str mode (bs "badvpn"))
      then Some (badMode mode) else None);
     (if negb (eqb_str policy (bs "oldest")) && negb (eqb_str policy (bs "newest"))
      then Some (badPolicy policy) else None);
     (if negb (colons =? 2) && negb (colons =? 0)
      then Some (badMaxStartups (ssh_MaxStartups (SSH c))) else None);
     (match claims c with Ok _ => None | Err e => Some e end)].

(** What reading the file gives. *)
Inductive file_read : Type := FileMissing | FileError | FileData (data : gostring).

Definition set_path (p : gostring) (c : Config) : Config :=
  mkConfig (DataDir c) (LogDir c) (Server c) (SSH c) (UDPGW c) (BadVPN c) (Gateway c)
    (Limiter c) (Network c) (Firewall c) (UserDefaults c) (Monitor c) p.
Definition Path (c : Config) : gostring := or_str (path c) DefaultPath.

Section load.
Context `{Unicode}.
(** [yaml.Unmarshal(data, cfg)] into a configuration that holds the defaults. *)
Variable unmarshal : gostring -> Config -> option Config.

Definition Load (p : gostring) (read : gostring -> file_read) : result cfgerr Config :=
  let p := or_str p DefaultPath in
  let cfg := set_path p Defaults in
  match read p with
  | FileMissing => Ok (normalize cfg)
  | FileError => Err readError
  | FileData data =>
      match unmarshal data cfg with
      | None => Err parseError
      | Some cfg =>
          let cfg := normalize (set_path p cfg) in
          match Validate cfg with
          | Some e => Err e
          | None => Ok cfg
          end
      end
  end.
End load.

(** [GB], for products that fit an [int64] (the conversion of larger ones is up
    to the processor). *)
Definition GB (f : float) : option Z :=
  let e := fl_e f + 30 in
  let n := if 0 <=? e then fl_m f * 2 ^ e else Z.quot (fl_m f) (2 ^ (- e)) in
  int_range n.

(* ------------------------------------------------------------------ *)
(** * Lemmas                                                             *)
(* ------------------------------------------------------------------ *)

Lemma uniq_go_spec seen l :
  NoDup (uniq_go seen l) /\ forall v, v ∈ uniq_go seen l <-> v ∈ l /\ v ∉ seen.
Proof.
  revert seen. induction l as [|x l IH]; intros seen; cbn [uniq_go].
  - split; [constructor|set_solver].
  - case_decide.
    + destruct (IH seen) as [Hn Hv]. split; [done|]. set_solver.
    + destruct (IH ({[x]} ∪ seen)) as [Hn Hv]. split.
      * constructor; [rewrite Hv; set_solver|done].
      * intros v. rewrite elem_of_cons, Hv. destruct (decide (v = x)); set_solver.
Qed.

Lemma uniq_go_id seen l : NoDup l -> (forall v, v ∈ l -> v ∉ seen) -> uniq_go seen l = l.
Proof.
  revert seen. induction l as [|x l IH]; intros seen Hn Hs; [done|]. cbn [uniq_go].
  apply NoDup_cons in Hn as [Hx Hn]. rewrite decide_False by set_solver.
  f_equal. apply IH; [done|]. set_solver.
Qed.

#[export] Instance Zle_total : Total Z.le.
Proof. intros x y. lia. Qed.

(** [uniqSorted] gives the sorted list of the distinct elements. *)
Lemma uniqSorted_spec l :
  Sorted Z.le (uniqSorted l) /\ NoDup (uniqSorted l) /\
  forall v, v ∈ uniqSorted l <-> v ∈ l.
Proof.
  unfold uniqSorted. destruct (uniq_go_spec ∅ l) as [Hn Hv].
  split_and!; [apply Sorted_merge_sort, _|by rewrite merge_sort_Permutation|].
  intros v. rewrite merge_sort_Permutation, Hv. set_solver.
Qed.

Lemma uniqSorted_idem l : uniqSorted (uniqSorted l) = uniqSorted l.
Proof.
  destruct (uniqSorted_spec l) as (Hs & Hn & _).
  unfold uniqSorted at 1. rewrite uniq_go_id by (done || set_solver).
  apply (Sorted_unique Z.le); [apply Sorted_merge_sort, _|done|].
  apply merge_sort_Permutation.
Qed.

Lemma uniqSorted_nonempty l : l <> [] -> uniqSorted l <> [].
Proof.
  intros Hl E. destruct l as [|x l]; [done|].
  pose proof (proj2 (proj2 (uniqSorted_spec (x :: l))) x) as Hx. rewrite E in Hx. set_solver.
Qed.

Lemma check_ports_None s ports :
  check_ports s ports = None <-> Forall (fun p => 1 <= p <= 65535) ports.
Proof.
  induction ports as [|p ports IH]; cbn [check_ports]; [by split|].
  destruct ((p <? 1) || (65535 <? p)) eqn:E.
  - split; [done|]. intros Hf. inversion Hf; subst. lia.
  - rewrite IH, Forall_cons. split; [|naive_solver]. intros Hf. split; [lia|done].
Qed.

Lemma claim_Ok s owner ports :
  (exists o', claim s owner ports = Ok o') <->
  NoDup ports /\ forall p, p ∈ ports -> p ∉ dom owner.
Proof.
  revert owner. induction ports as [|p ports IH]; intros owner; cbn [claim].
  - split; [intros _; split; [constructor|set_solver]|by exists owner].
  - destruct (owner !! p) as [prev|] eqn:E.
    + split; [by intros [? ?]|]. intros [_ Hp]. exfalso. apply (Hp p); [left|].
      by apply elem_of_dom_2 in E.
    + apply not_elem_of_dom in E. rewrite IH, NoDup_cons.
      setoid_rewrite dom_insert_L. set_solver.
Qed.

Lemma claim_dom s owner ports o' :
  claim s owner ports = Ok o' -> dom o' = dom owner ∪ list_to_set ports.
Proof.
  revert owner. induction ports as [|p ports IH]; intros owner; cbn [claim].
  - intros [= <-]. set_solver.
  - destruct (owner !! p); [done|]. intros ->%IH. set_solver.
Qed.

(** The ports the enabled components listen on. *)
Definition owned_ports (c : Config) : list Z :=
  ssh_Ports (SSH c) ++
  (if gateway_Enabled (Gateway c) then gateway_Ports (Gateway c) else []) ++
  (if udpgw_Enabled (UDPGW c) then udpgw_Ports (UDPGW c) else []).

(** Claiming one section after the other is claiming all of it. *)
Lemma claims_Ok c : (exists o, claims c = Ok o) <-> NoDup (owned_ports c).
Proof.
  unfold claims, owned_ports.
  assert (Hstep : forall (b : bool) s o l,
    (exists o', (if b then claim s o l else Ok o) = Ok o') <->
    NoDup (if b then l else []) /\ forall p, p ∈ (if b then l else []) -> p ∉ dom o).
  { intros [] s o l; [apply claim_Ok|]. split; [|by exists o].
    intros _. split; [constructor|set_solver]. }
  assert (Hdom : forall (b : bool) s o l o', (if b then claim s o l else Ok o) = Ok o' ->
    dom o' = dom o ∪ list_to_set (if b then l else [])).
  { intros [] s o l o'; [apply claim_dom|]. intros [= <-]. set_solver. }
  pose proof (claim_Ok (bs "ssh.ports") ∅ (ssh_Ports (SSH c))) as H1.
  destruct (claim (bs "ssh.ports") ∅ (ssh_Ports (SSH c))) as [o1|e1] eqn:E1.
  2:{ split; [by intros [? ?]|]. intros [Hn _]%NoDup_app. exfalso.
      destruct (proj2 H1) as [? ?]; [|done]. split; [done|set_solver]. }
  pose proof (claim_dom _ _ _ _ E1) as D1. rewrite dom_empty_L in D1. cbn [mbind result_bind].
  pose proof (Hstep (gateway_Enabled (Gateway c)) (bs "gateway.ports") o1
                (gateway_Ports (Gateway c))) as H2.
  set (g := if gateway_Enabled (Gateway c) then gateway_Ports (Gateway c) else []) in *.
  set (u := if udpgw_Enabled (UDPGW c) then udpgw_Ports (UDPGW c) else []) in *.
  destruct H1 as [H1 _]. specialize (H1 ltac:(eauto)) as [H1 _].
  destruct (if gateway_Enabled (Gateway c) then claim _ o1 _ else Ok o1) as [o2|e2] eqn:E2.
  2:{ split; [by intros [? ?]|]. rewrite NoDup_app, NoDup_app. intros (_ & Hd & Hg & _). exfalso.
      destruct (proj2 H2) as [? ?]; [|done]. split; [done|]. set_solver. }
  apply Hdom in E2. fold g in E2. destruct H2 as [H2 _]. specialize (H2 ltac:(eauto)) as [H2 H2'].
  etransitivity; [apply (Hstep (udpgw_Enabled (UDPGW c)) (bs "udpgw.ports") o2)|]. fold u.
  rewrite E2, D1, NoDup_app, NoDup_app. set_solver.
Qed.

Lemma first_err_None l : first_err l = None <-> Forall (fun e => e = None) l.
Proof.
  induction l as [|e l IH]; [by split|]. unfold first_err in *. cbn [foldr].
  rewrite Forall_cons, <- IH. destruct e; naive_solver.
Qed.

Lemma Validate_None c :
  Validate c = None <->
  Forall (fun p => 1 <= p <= 65535)
    (ssh_Ports (SSH c) ++ udpgw_Ports (UDPGW c) ++ gateway_Ports (Gateway c)) /\
  udpgw_Mode (UDPGW c) ∈ [bs "builtin"; bs "badvpn"] /\
  limiter_Policy (Limiter c) ∈ [bs "oldest"; bs "newest"] /\
  count_byte x3a (ssh_MaxStartups (SSH c)) ∈ [0; 2] /\
  NoDup (owned_ports c).
Proof.
  unfold Validate. rewrite first_err_None, !Forall_cons, Forall_nil, !check_ports_None, !Forall_app.
  assert (Hword : forall (w a b : gostring) (e : option cfgerr), is_Some e ->
    (if negb (eqb_str w a) && negb (eqb_str w b) then e else None) = None <-> w ∈ [a; b]).
  { intros w a b e [x ->]. rewrite !elem_of_cons, elem_of_nil.
    destruct (eqb_str w a) eqn:Ea; [apply eqb_str_true in Ea; naive_solver|].
    destruct (eqb_str w b) eqn:Eb; [apply eqb_str_true in Eb; naive_solver|].
    apply eqb_str_false in Ea, Eb. naive_solver. }
  rewrite !Hword by done. rewrite <- claims_Ok.
  assert (Hcol : forall n, (if negb (n =? 2) && negb (n =? 0)
      then Some (badMaxStartups (ssh_MaxStartups (SSH c))) else None) = None <-> n ∈ [0; 2]).
  { intros n. rewrite !elem_of_cons, elem_of_nil.
    destruct (Z.eqb_spec n 2), (Z.eqb_spec n 0); naive_solver. }
  rewrite Hcol. destruct (claims c); naive_solver.
Qed.

(** Validation accepts exactly the usable configurations: every port is in
    range, mode and policy are known words, [max_startups] has none or two
    colons, and no port is claimed by two of the enabled components (nor twice
    by one). *)
Theorem Validate_ok_iff c :
  Validate c = None <->
  Forall (fun p => 1 <= p <= 65535)
    (ssh_Ports (SSH c) ++ udpgw_Ports (UDPGW c) ++ gateway_Ports (Gateway c)) /\
  udpgw_Mode (UDPGW c) ∈ [bs "builtin"; bs "badvpn"] /\
  limiter_Policy (Limiter c) ∈ [bs "oldest"; bs "newest"] /\
  count_byte x3a (ssh_MaxStartups (SSH c)) ∈ [0; 2] /\
  NoDup (owned_ports c).
Proof. apply Validate_None. Qed.

Section loading.
Context `{Unicode}.

Lemma or_str_idem s d : d <> [] -> or_str (or_str s d) d = or_str s d.
Proof. by destruct s, d. Qed.
Lemma or_pos_idem n d : or_pos (or_pos n d) d = or_pos n d.
Proof. unfold or_pos. repeat case_if; try done; lia. Qed.
Lemma or_ports_idem l d :
  d <> [] -> uniqSorted (or_ports (uniqSorted (or_ports l d)) d) = uniqSorted (or_ports l d).
Proof.
  intros Hd. assert (Hne : or_ports l d <> []) by by destruct l.
  apply uniqSorted_nonempty in Hne.
  destruct (uniqSorted (or_ports l d)) as [|x l'] eqn:E; [done|].
  cbn [or_ports]. rewrite <- E. apply uniqSorted_idem.
Qed.

Lemma word_fixed m l :
  m ∈ l -> l = [bs "builtin"; bs "badvpn"] \/ l = [bs "oldest"; bs "newest"] -> word m = m.
Proof.
  intros Hm [-> | ->]; apply elem_of_cons in Hm as [->|Hm%list_elem_of_singleton];
    subst; reflexivity.
Qed.

(** Normalising a configuration that validates a second time changes nothing. *)
Lemma normalize_valid_fixed c :
  Validate (normalize c) = None -> normalize (normalize c) = normalize c.
Proof.
  intros (_ & Hmode & Hpol & _)%Validate_None.
  assert (Em : or_str (word (udpgw_Mode (UDPGW (normalize c)))) (udpgw_Mode (UDPGW Defaults)) =
               udpgw_Mode (UDPGW (normalize c))).
  { rewrite (word_fixed _ _ Hmode) by by left. cbn. by rewrite or_str_idem. }
  assert (Ep : or_str (word (limiter_Policy (Limiter (normalize c)))) (limiter_Policy (Limiter Defaults)) =
               limiter_Policy (Limiter (normalize c))).
  { rewrite (word_fixed _ _ Hpol) by by right. cbn. by rewrite or_str_idem. }
  unfold normalize at 1. rewrite Em, Ep. unfold normalize.
  cbn [DataDir LogDir Server SSH UDPGW BadVPN Gateway Limiter Network Firewall UserDefaults
       Monitor path ssh_Ports ssh_ConfigPath ssh_SSHDPath ssh_MaxAuthTries ssh_PasswordAuth
       ssh_Tuning ssh_Compression ssh_ClientAliveInterval ssh_ClientAliveCountMax
       ssh_MaxStartups ssh_LoginGraceTime ssh_Banner udpgw_Enabled udpgw_Mode udpgw_Listen
       udpgw_Ports udpgw_MaxClients udpgw_MaxConnectionsPerClient udpgw_FlowIdleSecs udpgw_DNS
       badvpn_BinaryPath gateway_Enabled gateway_Listen gateway_Ports gateway_TLSCert
       gateway_TLSKey gateway_MaxConnections gateway_HandshakeTimeoutSecs limiter_Enabled
       limiter_Policy limiter_IntervalSecs network_AutoOptimize network_CongestionControl
       network_CustomSysctls ud_DefaultExpirationDays ud_DefaultMaxConnections
       ud_DefaultTrafficGB ud_Shell ud_Group monitor_RefreshIntervalSecs monitor_AuthLogPath].
  by rewrite !or_pos_idem, !or_ports_idem, uniqSorted_idem, !or_str_idem.
Qed.

(** What has a default, and so is never left out. *)
Definition port_lists (c : Config) : list (list Z) :=
  [ssh_Ports (SSH c); udpgw_Ports (UDPGW c); gateway_Ports (Gateway c)].
Definition defaulted_numbers (c : Config) : list Z :=
  [ssh_MaxAuthTries (SSH c); ssh_ClientAliveInterval (SSH c); ssh_ClientAliveCountMax (SSH c);
   ssh_LoginGraceTime (SSH c); udpgw_MaxClients (UDPGW c); udpgw_MaxConnectionsPerClient (UDPGW c);
   udpgw_FlowIdleSecs (UDPGW c); gateway_MaxConnections (Gateway c); gateway_HandshakeTimeoutSecs (Gateway c);
   limiter_IntervalSecs (Limiter c); ud_DefaultExpirationDays (UserDefaults c);
   ud_DefaultMaxConnections (UserDefaults c); monitor_RefreshIntervalSecs (Monitor c)].
Definition defaulted_texts (c : Config) : list gostring :=
  [DataDir c; LogDir c; ssh_ConfigPath (SSH c); ssh_MaxStartups (SSH c); udpgw_Mode (UDPGW c);
   udpgw_Listen (UDPGW c); badvpn_BinaryPath (BadVPN c); limiter_Policy (Limiter c);
   network_CongestionControl (Network c); ud_Shell (UserDefaults c); ud_Group (UserDefaults c)].

(** C15 A configuration that [Load] returns is valid and stable: normalising it
    again, as happens when it is saved and loaded, changes nothing; the port lists of sshd,
    of the UDP gateway and of the gateway are sorted without duplicates, and the first two
    are not empty; every limit that has a default is positive and every text that has one
    is not empty. *)
Theorem Load_stable unmarshal p read c :
  Load unmarshal p read = Ok c ->
  Validate c = None /\ normalize c = c /\
  Forall (fun ps => Sorted Z.le ps /\ NoDup ps) (port_lists c) /\
  ssh_Ports (SSH c) <> [] /\ udpgw_Ports (UDPGW c) <> [] /\
  Forall (fun n => 0 < n) (defaulted_numbers c) /\ Forall (fun t => t <> []) (defaulted_texts c).
Proof.
  intros HL. assert (exists c0, c = normalize c0 /\ Validate c = None) as (c0 & -> & Hv).
  { unfold Load in HL. destruct (read _) as [| |data]; [|done|].
    - injection HL as <-. eexists. split; [done|]. vm_compute. reflexivity.
    - destruct (unmarshal _ _) as [c'|]; [|done].
      destruct (Validate _) eqn:E in HL; [done|]. injection HL as <-. by eexists. }
  assert (Hpos : forall n d, 0 < d -> 0 < or_pos n d)
    by (intros; unfold or_pos; case_if; lia).
  assert (Htext : forall s d : gostring, d <> [] -> or_str s d <> []) by (intros [|] ? ?; done).
  assert (Hports : forall ps, Sorted Z.le (uniqSorted ps) /\ NoDup (uniqSorted ps)).
  { intros ps. by destruct (uniqSorted_spec ps) as (H1 & H2 & _). }
  split; [done|]. split; [by apply normalize_valid_fixed|].
  split; [repeat (apply Forall_cons; split; [apply Hports|]); constructor|].
  split; [apply uniqSorted_nonempty; by destruct (ssh_Ports (SSH c0))|].
  split; [apply uniqSorted_nonempty; by destruct (udpgw_Ports (UDPGW c0))|].
  split; [repeat (apply Forall_cons; split; [by apply Hpos|])|repeat (apply Forall_cons; split; [by apply Htext|])]; constructor.
Qed.
End loading.

Lemma Load_stable_witness :
  let read := fun _ => FileData (bs "x") in
  let unmarshal := fun (_ : gostring) c => Some c in
  exists c, @Load {| lower_unicode := id; upper_unicode := id |} unmarshal [] read = Ok c /\
    Validate c = None /\ ssh_Ports (SSH c) <> [] /\ Forall (fun n => 0 < n) (defaulted_numbers c).
Proof.
  set (u := {| lower_unicode := id; upper_unicode := id |}).
  destruct (@Load u (fun _ c => Some c) [] (fun _ => FileData (bs "x"))) as [c|e] eqn:E.
  - exists c. split; [exact E|].
    destruct (@Load_stable u _ _ _ _ E) as (H1 & _ & _ & H2 & _ & H3 & _). done.
  - vm_compute in E. discriminate E.
Defined.
