(* ===== verification/ConfigFile.v ===== *)
(** Saving the configuration ([Save] and [EnsureDirs] of
    [src/internal/config/config.go]): what is saved is loaded back, and a crash or
    a full disk never damages the file in place. *)
From S2P Require Import Prelude GoStrings Files Config.

(** The YAML library: what [yaml.Marshal] writes, [yaml.Unmarshal] reads back into
    any configuration (comments before it are skipped), for configurations whose
    texts YAML can hold. The [path] field is not part of the file. *)
Class YAML : Type := {
  yaml_marshal : Config -> option gostring;
  yaml_unmarshal : gostring -> Config -> option Config;
  yaml_ok : Config -> Prop;
  yaml_law : forall comment c d base, yaml_ok c -> yaml_marshal c = Some d ->
    Forall (fun line => has_prefix line (bs "#") = true \/ line = []) (split_on x0a comment) ->
    yaml_unmarshal (comment ++ d) base = Some (set_path (path base) c)
}.

Section save.
Context `{Disk, YAML, Unicode}.

Definition save_header : gostring :=
  bs "# SSH-VPN configuration — https://github.com/SandBaad/SSH-VPN" ++ [x0a] ++
  bs "# After editing run: sshfortress apply" ++ [x0a; x0a].

Definition EnsureDirs (c : Config) : F bool :=
  a ← try_op; if negb a then mret false else try_op.

Definition Save (cfg : Config) (p : gostring) : F bool :=
  let p := match p with [] => Path cfg | _ => p end in
  made ← try_op;
  if negb made then mret false
  else match yaml_marshal cfg with
       | None => mret false
       | Some data =>
           let tmp := p ++ bs ".tmp" in
           written ← WriteFile tmp (save_header ++ data);
           if negb written then mret false else Rename tmp p
       end.

(** What [Load] finds on the disk. *)
Definition read_config (fs : fsys) (p : gostring) : file_read :=
  match f_files fs !! p with Some d => FileData d | None => FileMissing end.

Lemma tmp_ne (p : gostring) : p ++ bs ".tmp" <> p.
Proof. intros E. apply (f_equal length) in E. rewrite length_app in E. cbn in E. lia. Qed.

Lemma or_str_ne (s d : gostring) : s <> [] -> or_str s d = s.
Proof. by destruct s. Qed.

(** The header is comments and an empty line. *)
Lemma save_header_comment :
  Forall (fun line => has_prefix line (bs "#") = true \/ line = []) (split_on x0a save_header).
Proof. repeat (apply Forall_cons_2; [by (left; reflexivity) || by right|]). constructor. Qed.

Lemma WriteFile_inv p data fs fs' ok :
  WriteFile p data fs = (fs', ok) ->
  (forall q, q <> p -> f_files fs' !! q = f_files fs !! q) /\
  (ok = true -> f_files fs' !! p = Some data) /\
  exists new, f_seen fs' = f_seen fs ++ new /\ forall m q, m ∈ new -> q <> p -> m !! q = f_files fs !! q.
Proof.
  unfold WriteFile, mbind, F_bind. destruct (change _ fs) as [fs1 opened] eqn:E1.
  apply change_inv in E1. destruct opened; destruct E1 as [Ef Es]; cbn [negb].
  2:{ intros [= <- <-]. rewrite Ef, Es. split_and!; [done..|]. exists []. rewrite app_nil_r.
      split; [done|]. intros m q Hm. by apply elem_of_nil in Hm. }
  unfold write_open. cbv zeta. intros [= <- <-]. cbn [f_files f_seen]. rewrite Ef. split_and!.
  - intros q Hq. by rewrite !lookup_insert_ne.
  - intros Hok. rewrite lookup_insert_eq. by destruct (op_fails _).
  - eexists [_; _]. rewrite Es, <- app_assoc, Ef. split; [done|].
    intros m q Hm Hq. apply elem_of_cons in Hm as [->|Hm%list_elem_of_singleton]; [|subst m];
      by rewrite ?lookup_insert_ne.
Qed.

(** The steps of [Save], to the path [q] it uses. *)
Lemma Save_steps cfg p fs fs' ok :
  Save cfg p fs = (fs', ok) ->
  let q := match p with [] => Path cfg | _ => p end in
  (exists new, f_seen fs' = f_seen fs ++ new /\ forall m, m ∈ new ->
     m !! q = f_files fs !! q \/
     exists d, yaml_marshal cfg = Some d /\ m !! q = Some (save_header ++ d)) /\
  (if ok then exists d, yaml_marshal cfg = Some d /\ f_files fs' !! q = Some (save_header ++ d)
   else f_files fs' !! q = f_files fs !! q).
Proof.
  intros E q. unfold Save, mbind, F_bind in E. fold q in E. unfold try_op in E at 1.
  destruct (op_fails (f_ops fs)); cbn [negb] in E.
  { injection E as <- <-. cbn. split; [|done]. exists []. rewrite app_nil_r.
    split; [done|]. intros m Hm. by apply elem_of_nil in Hm. }
  destruct (yaml_marshal cfg) as [data|] eqn:Ey.
  2:{ injection E as <- <-. cbn. split; [|done]. exists []. rewrite app_nil_r.
      split; [done|]. intros m Hm. by apply elem_of_nil in Hm. }
  set (tmp := q ++ bs ".tmp") in *. assert (Htq : q <> tmp) by (symmetry; apply tmp_ne).
  destruct (WriteFile tmp _ _) as [fs1 written] eqn:Ew.
  apply WriteFile_inv in Ew as (Hoth & Hdata & new & Hseen & Hnew). cbn [f_files f_seen] in *.
  destruct written; cbn [negb] in E.
  2:{ injection E as <- <-. split; [|by rewrite Hoth]. exists new. split; [done|].
      intros m Hm. left. by apply Hnew. }
  specialize (Hdata eq_refl). apply change_inv in E. destruct ok; destruct E as [Ef Es].
  2:{ rewrite Ef, Es. split; [|by rewrite Hoth]. exists new. split; [done|].
      intros m Hm. left. by apply Hnew. }
  rewrite Hdata in Ef. split.
  - exists (new ++ [f_files fs']). rewrite Es, Hseen, <- app_assoc. split; [done|].
    intros m [Hm|Hm%list_elem_of_singleton]%elem_of_app; [left; by apply Hnew|]. subst m.
    right. exists data. split; [done|]. by rewrite Ef, lookup_insert_eq.
  - exists data. split; [done|]. by rewrite Ef, lookup_insert_eq.
Qed.

Lemma saved_path cfg (p : gostring) : match p with [] => Path cfg | _ => p end <> [].
Proof. destruct p; [|done]. unfold Path, or_str. by destruct (path cfg). Qed.

(** Loading a file that [Save] has written. *)
Lemma Load_saved cfg (q : gostring) fs d : q <> [] -> yaml_ok cfg -> yaml_marshal cfg = Some d ->
  f_files fs !! q = Some (save_header ++ d) ->
  Load yaml_unmarshal q (read_config fs) =
    match Validate (normalize cfg) with
    | Some e => Err e
    | None => Ok (set_path q (normalize cfg))
    end.
Proof.
  intros Hq Hy Hd Hf. unfold Load. rewrite (or_str_ne q) by done.
  assert (Er : read_config fs q = FileData (save_header ++ d))
    by exact (f_equal (fun o => match o with Some d => FileData d | None => FileMissing end) Hf).
  rewrite Er.
  rewrite (yaml_law _ cfg d) by (done || apply save_header_comment). cbn [path set_path].
  assert (Hs : forall c, normalize (set_path q (set_path q c)) = set_path q (normalize c)) by done.
  rewrite Hs. assert (Hv : Validate (set_path q (normalize cfg)) = Validate (normalize cfg)) by done.
  by rewrite Hv.
Qed.

(** C26 Saving is safe and loading gives back what was saved: whatever fails, at
    every moment of [Save] the configuration file is the old one or the complete
    new one, and the old one when [Save] reports a failure; and after a successful [Save]
    of a configuration whose texts YAML can hold, [Load] gives the configuration back
    with its defaults filled in, or, when that makes it invalid, the error [Validate]
    finds. In particular a configuration that is normalised and valid is given back as
    it was. *)
Theorem Save_Load cfg p fs fs' ok :
  Save cfg p fs = (fs', ok) ->
  let q := match p with [] => Path cfg | _ => p end in
  (exists new, f_seen fs' = f_seen fs ++ new /\ forall m, m ∈ new ->
     m !! q = f_files fs !! q \/
     exists d, yaml_marshal cfg = Some d /\ m !! q = Some (save_header ++ d)) /\
  (ok = false -> f_files fs' !! q = f_files fs !! q) /\
  (ok = true -> yaml_ok cfg ->
     Load yaml_unmarshal q (read_config fs') =
       match Validate (normalize cfg) with Some e => Err e | None => Ok (set_path q (normalize cfg)) end /\
     (normalize cfg = cfg -> Validate cfg = None ->
      Load yaml_unmarshal q (read_config fs') = Ok (set_path q cfg))).
Proof.
  intros E q. destruct (Save_steps _ _ _ _ _ E) as [Hnew Hok]. fold q in Hok. split; [done|].
  split; [by intros ->|]. intros -> Hy. destruct Hok as (d & Hd & Hf).
  rewrite (Load_saved cfg q fs' d) by (done || apply saved_path). split; [done|]. intros Hn Hv. by rewrite Hn, Hv.
Qed.
End save.

(* ------------------------------------------------------------------ *)
(** * A concrete run                                                     *)
(* ------------------------------------------------------------------ *)

(** A YAML library that knows the default configuration as the empty document. *)
Definition default_yaml : YAML.
Proof.
  refine {| yaml_marshal c := Some [];
            yaml_unmarshal _ base := Some (set_path (path base) Defaults);
            yaml_ok c := set_path [] c = Defaults |}.
  intros _ c d base Hc _ _. rewrite <- Hc. done.
Defined.

Lemma Save_Load_witness :
  let r := @Save (breaks_at 9) default_yaml Defaults (bs "c.yaml") (mkFs ∅ 0 []) in
  r.2 = true /\
  @Load ascii_tables (@yaml_unmarshal default_yaml) (bs "c.yaml") (read_config r.1) =
    Ok (set_path (bs "c.yaml") Defaults).
Proof.
  destruct (@Save (breaks_at 9) default_yaml Defaults (bs "c.yaml") (mkFs ∅ 0 [])) as [fs' ok] eqn:E.
  destruct (@Save_Load (breaks_at 9) default_yaml ascii_tables _ _ _ _ _ E) as (_ & _ & Hok).
  assert (ok = true) as -> by (apply (f_equal snd) in E; by vm_compute in E).
  split; [done|]. apply (proj2 (Hok eq_refl ltac:(reflexivity))); vm_compute; reflexivity.
Defined.
