(* ===== verification/Sshd.v ===== *)
(** The settings of the SSH server ([src/internal/sshd/sshd.go]): the rendered
    directives, the managed blocks in the main configuration, and [Apply] and
    [Remove] over a disk whose operations may fail. *)
From S2P Require Import Prelude GoStrings Paths Files Config.

(* ------------------------------------------------------------------ *)
(** * Names and versions                                                 *)
(* ------------------------------------------------------------------ *)

Definition dropInName : gostring := bs "00-sshvpn.conf".
Definition bannerPath : gostring := bs "/etc/sshfortress/banner.txt".
Definition portComment : gostring := bs "#sshvpn# ".
(** [markBegin] and [markEnd] with the name of the block filled in. *)
Definition markBegin (name : gostring) : gostring :=
  bs "# >>> SSH-VPN managed (" ++ name ++ bs ") — do not edit >>>".
Definition markEnd (name : gostring) : gostring :=
  bs "# <<< SSH-VPN managed (" ++ name ++ bs ") <<<".

Record Version : Type := mkVersion { Major : Z; Minor : Z; Raw : gostring }.

Definition AtLeast (v : Version) (major minor : Z) : bool :=
  if Major v =? 0 then true
  else (major <? Major v) || ((Major v =? major) && (minor <=? Minor v)).

Definition is_num (b : byte) : bool := (48 <=? b2z b) && (b2z b <=? 57).
Definition is_alnum_dot (b : byte) : bool :=
  let n := b2z b in
  is_num b || ((65 <=? n) && (n <=? 90)) || ((97 <=? n) && (n <=? 122)) || (n =? 46).

(** The longest prefix whose bytes satisfy [f], and the rest. *)
Fixpoint span (f : byte -> bool) (s : gostring) : gostring * gostring :=
  match s with
  | x :: s' => if f x then let '(a, b) := span f s' in (x :: a, b) else ([], s)
  | [] => ([], [])
  end.

(** A match of [OpenSSH_(\d+)\.(\d+)[A-Za-z0-9.]*] at the head of a string. *)
Definition version_at (s : gostring) : option Version :=
  if has_prefix s (bs "OpenSSH_") then
    let '(maj, r) := span is_num (drop 8 s) in
    match maj, r with
    | _ :: _, x2e :: r =>
        let '(min, r) := span is_num r in
        match min with
        | [] => None
        | _ =>
            let '(tail, _) := span is_alnum_dot r in
            Some (mkVersion (match atoi maj with Some n => n | None => 2 ^ 63 - 1 end)
                    (match atoi min with Some n => n | None => 2 ^ 63 - 1 end)
                    (bs "OpenSSH_" ++ maj ++ bs "." ++ min ++ tail))
        end
    | _, _ => None
    end
  else None.

(** The first match in the output ([FindStringSubmatch]). *)
Fixpoint find_version (s : gostring) : option Version :=
  match version_at s with
  | Some v => Some v
  | None => match s with [] => None | _ :: s => find_version s end
  end.

(** [Manager.Version]: the output of [sshd -V] (if there is an sshd) and of [ssh -V]
    (if there is an ssh). *)
Definition Version_of (sshd ssh : option gostring) : Version :=
  match sshd with
  | None => mkVersion 0 0 []
  | Some out =>
      let out := match find_version out, ssh with
                 | None, Some out' => out'
                 | _, _ => out
                 end in
      match find_version out with Some v => v | None => mkVersion 0 0 [] end
  end.

(** [Manager.Binary] and the probes of [Manager.Version]: [which] finds a program, [run] is
    the output of one. *)
Section probes.
Variable cfg : Config.
Variable which : list gostring -> gostring.
Variable run : gostring -> list gostring -> gostring.

Definition Binary : gostring :=
  if negb (eqb_str (ssh_SSHDPath (SSH cfg)) []) then ssh_SSHDPath (SSH cfg) else which [bs "sshd"].
Definition Manager_Version : Version :=
  if eqb_str Binary [] then mkVersion 0 0 []
  else
    let ssh := which [bs "ssh"] in
    Version_of (Some (run Binary [bs "-V"])) (if eqb_str ssh [] then None else Some (run ssh [bs "-V"])).

(** Without an sshd nothing is run. *)
Lemma Manager_Version_none : Binary = [] -> Manager_Version = mkVersion 0 0 [].
Proof. unfold Manager_Version. by intros ->. Qed.
End probes.

(* ------------------------------------------------------------------ *)
(** * Rendering                                                          *)
(* ------------------------------------------------------------------ *)

Section render.
Variable cfg : Config.

Definition render_global (v : Version) (level : Z) : list gostring :=
  let c := SSH cfg in
  ((fun p => bs "Port " ++ itoa p) <$> merge_sort Z.le (ssh_Ports c)) ++
  (if ssh_PasswordAuth c then [bs "PasswordAuthentication yes"] else []) ++
  (if ssh_Tuning c && (level <? 2)
   then [bs "# Faster logins: no reverse-DNS lookup of every client";
         bs "UseDNS no";
         bs "# Detect dead phones fast so stale sessions don't eat connection slots";
         bs "TCPKeepAlive yes";
         bs "ClientAliveInterval " ++ itoa (ssh_ClientAliveInterval c);
         bs "ClientAliveCountMax " ++ itoa (ssh_ClientAliveCountMax c);
         bs "LoginGraceTime " ++ itoa (ssh_LoginGraceTime c);
         bs "# Many users reconnecting at once must not be refused (default 10:30:100)";
         bs "MaxStartups " ++ ssh_MaxStartups c;
         bs "MaxAuthTries " ++ itoa (ssh_MaxAuthTries c)] ++
        (if negb (ssh_Compression c)
         then [bs "# HTTPS/video/calls are already compressed: zlib only adds CPU and latency";
               bs "Compression no"] else []) ++
        (if (level =? 0) && AtLeast v 9 8
         then [bs "# Mobile users share carrier-NAT IPs; one typo must not lock out a whole operator";
               bs "PerSourcePenalties authfail:1s noauth:1s grace-exceeded:5s min:60s max:5m"]
         else [])
   else []).

Definition render_match (v : Version) (level : Z) : list gostring :=
  [bs "Match Group " ++ ud_Group (UserDefaults cfg);
   bs "    PasswordAuthentication yes";
   bs "    AllowTcpForwarding " ++ (if level <? 2 then bs "local" else bs "yes");
   bs "    X11Forwarding no";
   bs "    AllowAgentForwarding no";
   bs "    PermitTunnel no";
   bs "    GatewayPorts no"] ++
  (if level =? 0
   then [bs "    KbdInteractiveAuthentication yes";
         bs "    AuthenticationMethods any";
         bs "    AllowStreamLocalForwarding no"] ++
        (if AtLeast v 7 8 then [bs "    PermitListen none"] else [])
   else []) ++
  (match trim_space (ssh_Banner (SSH cfg)) with
   | [] => []
   | _ => [bs "    Banner " ++ bannerPath]
   end).

Definition header : list gostring :=
  [bs "# Managed by SSH-VPN (sshfortress) — https://github.com/SandBaad/SSH-VPN";
   bs "# Edit /etc/sshfortress/config.yaml and run `sshfortress apply` instead.";
   []].
End render.

(* ------------------------------------------------------------------ *)
(** * Text helpers                                                       *)
(* ------------------------------------------------------------------ *)

Definition is_blank (b : byte) : bool := bool_decide (b = x20) || bool_decide (b = x09).

(** A line that [^[ \t]*Port[ \t]+\d+[ \t]*$] matches. *)
Definition port_line (line : gostring) : bool :=
  let '(_, r) := span is_blank line in
  has_prefix r (bs "Port") &&
  (let '(b1, r) := span is_blank (drop 4 r) in
   let '(n, r) := span is_num r in
   let '(_, r) := span is_blank r in
   negb (eqb_str b1 []) && negb (eqb_str n []) && eqb_str r []).

Definition on_lines (f : gostring -> gostring) (b : gostring) : gostring :=
  join [x0a] (f <$> split_on x0a b).

Definition commentPorts : gostring -> gostring :=
  on_lines (fun line => if port_line line then portComment ++ line else line).
Definition uncommentPorts : gostring -> gostring :=
  on_lines (fun line => trim_prefix line portComment).

(** One round of the loop of [stripBlocks]: the block with these marks, if there is
    one. *)
Definition strip_one (b e s : gostring) : option gostring :=
  match index s b with
  | None => None
  | Some i =>
      match index (drop i s) e with
      | None => None
      | Some j =>
          let k := (i + j + length e)%nat in
          let k := match drop k s with x0a :: _ => S k | _ => k end in
          Some (take i s ++ drop k s)
      end
  end.

(** The loop ends: every round removes the begin mark. *)
Fixpoint strip_loop (fuel : nat) (b e s : gostring) : gostring :=
  match fuel with
  | O => s
  | S fuel => match strip_one b e s with Some s => strip_loop fuel b e s | None => s end
  end.
Definition strip_name (s name : gostring) : gostring :=
  strip_loop (length s) (markBegin name) (markEnd name) s.
Definition stripBlocks (s : gostring) : gostring :=
  foldl strip_name s [bs "global"; bs "match"].

Definition write_lines (ls : list gostring) : gostring := mjoin ((fun l => l ++ [x0a]) <$> ls).

Definition withInlineBlocks (b : gostring) (global mtch : list gostring) : gostring :=
  let body := if negb (eqb_str b []) && negb (has_suffix b [x0a]) then b ++ [x0a] else b in
  markBegin (bs "global") ++ [x0a] ++ write_lines (header ++ global) ++
  markEnd (bs "global") ++ [x0a] ++ body ++
  markBegin (bs "match") ++ [x0a] ++ write_lines mtch ++ markEnd (bs "match") ++ [x0a].

(* ------------------------------------------------------------------ *)
(** * The directory that sshd includes                                   *)
(* ------------------------------------------------------------------ *)

(** White space of regular expressions, and equality up to the case of ASCII
    letters. *)
Definition re_space (b : byte) : bool :=
  match b with x09 | x0a | x0c | x0d | x20 => true | _ => false end.
Definition prefix_fold (s p : gostring) : bool :=
  has_prefix (lower_byte <$> s) (lower_byte <$> p).
Definition contains_fold (s p : gostring) : bool :=
  contains (lower_byte <$> s) (lower_byte <$> p).

(** A match of [includeRe] at the start of a line: white space, "Include" in any
    case, white space, and a word that contains "sshd_config.d". *)
Definition include_at (s : gostring) : option gostring :=
  let '(_, r) := span re_space s in
  if negb (prefix_fold r (bs "Include")) then None
  else
    let '(b1, r) := span re_space (drop 7 r) in
    let '(word, _) := span (fun b => negb (re_space b)) r in
    if negb (eqb_str b1 []) && contains_fold word (bs "sshd_config.d") then Some word else None.

(** The first line where it matches. *)
Fixpoint find_include (lines : list gostring) : option gostring :=
  match lines with
  | [] => None
  | _ :: rest =>
      match include_at (join [x0a] lines) with
      | Some w => Some w
      | None => find_include rest
      end
  end.

Definition dropInDir (mainConfig : gostring) (data : option gostring) : option gostring :=
  match data with
  | None => None
  | Some data =>
      match find_include (split_on x0a data) with
      | None => None
      | Some pattern =>
          let pattern := if has_prefix pattern (bs "/") then pattern
                         else path_join (path_dir mainConfig) pattern in
          Some (path_dir pattern)
      end
  end.

(* ------------------------------------------------------------------ *)
(** * Apply and Remove                                                   *)
(* ------------------------------------------------------------------ *)

Record Result : Type := mkResult {
  r_Mode : gostring;
  r_File : gostring;
  r_Level : Z;
  r_Changed : bool;
  r_Restarted : bool;
  r_SocketFix : bool;
  r_Warnings : list gostring;
  r_SSHVersion : gostring
}.

Inductive apply_err : Type :=
| notRoot
| noSSHD
| cannotRead
| cannotWrite
| rejected (out : gostring)
| restartFailed
| reloadFailed.

(** What systemd answers, and the calls made to it. *)
Record services : Type := mkServices {
  sv_ssh_service : bool;
  sv_socket : bool;
  sv_restart_ok : bool;
  sv_reload_ok : bool
}.

Section apply.
Context `{Disk}.
Variable cfg : Config.
(** root, the sshd binary, its version, [sshd -t] on the files, systemd. *)
Variable root have_sshd noSystemd : bool.
Variable v : Version.
Variable sshd_test : gmap gostring gostring -> bool * gostring.
Variable sv : services.
Variable banner_err : gostring.

Definition mainPath : gostring := ssh_ConfigPath (SSH cfg).

Definition writeBanner : F bool :=
  match trim_space (ssh_Banner (SSH cfg)) with
  | [] => mret true
  | text => r ← WriteIfChanged bannerPath (text ++ [x0a]); mret r.2
  end.

(** The closure [rollback]. *)
Definition rollback (mainOrig : gostring) (dropIn : option gostring) (dropOrig : option gostring)
    : F () :=
  _ ← WriteFile mainPath mainOrig;
  match dropIn with
  | None => mret tt
  | Some p =>
      match dropOrig with
      | Some d => _ ← WriteFile p d; mret tt
      | None => _ ← Remove p; mret tt
      end
  end.

(** The new main file and what is written besides it at a level. *)
Definition drop_body (level : Z) : gostring :=
  join [x0a] (header ++ render_global cfg v level ++ [[]] ++ render_match cfg v level) ++ [x0a].
Definition new_main (drop : bool) (mainOrig : gostring) (level : Z) : gostring :=
  let clean := commentPorts (stripBlocks mainOrig) in
  if drop then clean
  else withInlineBlocks clean (render_global cfg v level) (render_match cfg v level).

Definition run_test : F (bool * gostring) := fun fs => (fs, sshd_test (f_files fs)).

(** The loop over the levels: the level that sshd accepted, the last rejection, or
    that a file could not be written. *)
Inductive loop_end : Type := accepted (level : Z) | allRejected (out : gostring) | writeError.

Definition write_drop (dir : gostring) (p body : gostring) : F bool :=
  made ← try_op;
  if negb made then mret false else WriteFileAtomic p body.

Fixpoint try_levels (levels : list Z) (mainOrig : gostring) (drop : option (gostring * gostring))
    (dropOrig : option gostring) (last : gostring) : F loop_end :=
  match levels with
  | [] => mret (allRejected last)
  | level :: levels =>
      prepared ← (match drop with
                  | Some (dir, p) => write_drop dir p (drop_body level)
                  | None => mret true
                  end);
      if negb prepared then mret writeError
      else
        written ← WriteFileAtomic mainPath
                    (new_main (match drop with Some _ => true | None => false end) mainOrig level);
        if negb written
        then _ ← rollback mainOrig (snd <$> drop) dropOrig; mret writeError
        else
          t ← run_test;
          if negb t.1 then try_levels levels mainOrig drop dropOrig t.2
          else mret (accepted level)
  end.

(** After the files: systemd. *)
Definition svc_name : gostring := if sv_ssh_service sv then bs "ssh" else bs "sshd".
Definition finish (res : Result) : F (Result * option apply_err) :=
  if noSystemd then mret (res, None)
  else
    limits ← WriteIfChanged (bs "/etc/systemd/system/" ++ svc_name ++ bs ".service.d/sshvpn.conf")
               (bs "[Service]" ++ [x0a] ++ bs "LimitNOFILE=1048576" ++ [x0a]);
    let needRestart := sv_socket sv || (limits.1 && limits.2) in
    let res := mkResult (r_Mode res) (r_File res) (r_Level res) (r_Changed res)
                 (r_Restarted res) (sv_socket sv) (r_Warnings res) (r_SSHVersion res) in
    let restarted := mkResult (r_Mode res) (r_File res) (r_Level res) (r_Changed res)
                 true (sv_socket sv) (r_Warnings res) (r_SSHVersion res) in
    if needRestart
    then mret (if sv_restart_ok sv then (restarted, None) else (res, Some restartFailed))
    else if r_Changed res
    then mret (if sv_reload_ok sv then (restarted, None) else (res, Some reloadFailed))
    else mret (res, None).

Definition Apply : F (option Result * option apply_err) :=
  if negb root then mret (None, Some notRoot)
  else if negb have_sshd then mret (None, Some noSSHD)
  else
    mainOrig ← ReadFile mainPath;
    match mainOrig with
    | None => mret (None, Some cannotRead)
    | Some mainOrig =>
        let bk := mainPath ++ bs ".sshvpn-orig" in
        saved ← FileExists bk;
        _ ← (if negb (saved : bool) then WriteFile bk mainOrig else mret true);
        banner ← writeBanner;
        inc ← ReadFile mainPath;
        let dir := dropInDir mainPath inc in
        let drop := (fun d => (d, path_join d dropInName)) <$> dir in
        dropOrig ← (match drop with Some (_, p) => ReadFile p | None => mret None end);
        e ← try_levels [0; 1; 2] mainOrig drop dropOrig [];
        match e with
        | writeError => mret (None, Some cannotWrite)
        | allRejected out =>
            _ ← rollback mainOrig (snd <$> drop) dropOrig;
            mret (None, Some (rejected out))
        | accepted level =>
            nowMain ← ReadFile mainPath;
            nowDrop ← (match drop with Some (_, p) => ReadFile p | None => mret None end);
            let changed := negb (eqb_str (default [] nowMain) mainOrig) ||
                           (match drop with
                            | Some _ => negb (eqb_str (default [] nowDrop) (default [] dropOrig))
                            | None => false
                            end) in
            let warnings :=
              (if (banner : bool) then [] else [bs "banner: " ++ banner_err]) ++
              (if 0 <? level
               then [bs "old OpenSSH (" ++ Raw v ++ bs "): used compatibility level " ++ itoa level]
               else []) in
            r ← finish (mkResult (match drop with Some _ => bs "drop-in" | None => bs "inline" end)
                          (match drop with Some (_, p) => p | None => mainPath end)
                          level changed false false warnings (Raw v));
            mret (Some r.1, r.2)
        end
    end.

(** [Remove] (named [RemoveAll] here, since [Remove] deletes a file). *)
Definition RemoveAll : F (option apply_err) :=
  data ← ReadFile mainPath;
  match data with
  | None => mret (Some cannotRead)
  | Some data =>
      inc ← ReadFile mainPath;
      _ ← (match dropInDir mainPath inc with
           | Some dir => Remove (path_join dir dropInName)
           | None => mret true
           end);
      written ← WriteFileAtomic mainPath (uncommentPorts (stripBlocks data));
      if negb written then mret (Some cannotWrite)
      else if negb have_sshd then mret None
      else
        t ← run_test;
        if negb t.1
        then _ ← WriteFile mainPath data; mret (Some (rejected t.2))
        else mret None
  end.
End apply.

(** ** What sshd uses *)

(** [Effective]: the lines of [sshd -T], by lower-case keyword. *)
Definition effective `{Unicode} (out : gostring) : gmap gostring (list gostring) :=
  foldl (fun m line =>
           match cut x20 (trim_space line) with
           | Some (k, v) => <[to_lower k := default [] (m !! to_lower k) ++ [v]]> m
           | None => m
           end) ∅ (split_on x0a out).

Definition ConfiguredPorts `{Unicode} (cfg : Config) (out : option gostring) : list Z :=
  match out with
  | None => ssh_Ports (SSH cfg)
  | Some out => omap atoi (default [] (effective out !! bs "port"))
  end.
