(* ===== verification/SshdProps.v ===== *)
(** The managed blocks of [Sshd] can be replaced and removed without a trace, for every
    text of the configuration. *)
From S2P Require Import Prelude GoStrings Paths Files Config Sshd.

(* ------------------------------------------------------------------ *)
(** * Text made of lines                                                 *)
(* ------------------------------------------------------------------ *)

Abbreviation one_line l := (x0a ∉ (l : gostring)).

Lemma write_lines_cons l ls : write_lines (l :: ls) = l ++ x0a :: write_lines ls.
Proof. unfold write_lines. cbn. by rewrite <- app_assoc. Qed.

Lemma write_lines_app ls ks : write_lines (ls ++ ks) = write_lines ls ++ write_lines ks.
Proof.
  induction ls as [|l ls IH]; [done|]. cbn [app]. by rewrite !write_lines_cons, IH, <- app_assoc.
Qed.

(** An occurrence of a one-line pattern in [l ++ newline ++ t] is in [l] or in [t]. *)
Lemma occurs_line (l t p u w : gostring) : one_line p ->
  l ++ x0a :: t = u ++ p ++ w ->
  (exists w', l = u ++ p ++ w') \/ (exists u', t = u' ++ p ++ w) \/ p = [].
Proof.
  intros Hp E. destruct (app_eq_inv _ _ _ _ E) as [(k & -> & Ek)|(k & -> & Ek)].
  - destruct k as [|x k].
    + cbn in Ek. destruct p as [|y p]; [by right; right|]. simplify_eq/=. set_solver.
    + symmetry in Ek. destruct (app_eq_inv _ _ _ _ Ek) as [(k' & -> & E')|(k' & Ep & E')].
      * left. exists k'. done.
      * destruct k' as [|z k']; [left; exists []; by rewrite Ep, !app_nil_r|].
        simplify_eq/=. set_solver.
  - destruct k as [|x k].
    + cbn in Ek. destruct p as [|y p]; [by right; right|]. simplify_eq/=. set_solver.
    + simplify_eq/=. right. left. by exists k.
Qed.

Definition absent (p s : gostring) : Prop := forall u w, s <> u ++ p ++ w.

Lemma absent_contains p s : absent p s <-> contains s p = false.
Proof.
  unfold contains. destruct (index s p) as [n|] eqn:E.
  - split; [|done]. intros Ha. exfalso. apply index_Some in E as [(a & b & -> & _) _].
    by apply (Ha a b).
  - split; [done|]. intros _. exact (proj1 (index_None s p) E).
Qed.

(** Found right after lines that do not have it. *)
Lemma index_after_lines ls p rest :
  one_line p -> p <> [] -> Forall (absent p) ls ->
  index (write_lines ls ++ p ++ rest) p = Some (length (write_lines ls)).
Proof.
  intros Hp Hne Hls. apply index_Some. split; [by exists (write_lines ls), rest|].
  induction Hls as [|l ls Hl Hls IH]; intros k Hk; [by cbn in Hk; lia|].
  rewrite write_lines_cons in *.
  destruct (has_prefix (drop k ((l ++ x0a :: write_lines ls) ++ p ++ rest)) p) eqn:E; [|done].
  apply has_prefix_spec in E as [w Ew]. exfalso.
  rewrite length_app in Hk. cbn [length] in Hk.
  assert (Hcut : l ++ x0a :: (write_lines ls ++ p ++ rest) =
                 take k (l ++ x0a :: (write_lines ls ++ p ++ rest)) ++ p ++ w).
  { rewrite <- Ew, <- app_assoc. cbn [app]. by rewrite take_drop. }
  destruct (decide (k <= length l)%nat) as [Hle|Hgt].
  - assert (Hk' : length (take k (l ++ x0a :: (write_lines ls ++ p ++ rest))) = k).
    { rewrite length_take, length_app. lia. }
    revert Hk' Hcut. generalize (take k (l ++ x0a :: (write_lines ls ++ p ++ rest))). intros u Hu Hcut.
    destruct (occurs_line l _ p u w Hp Hcut) as [[w' E']|[[u' E']|E']]; [by eapply Hl| |done].
    rewrite E' in Hcut. apply (f_equal length) in Hcut. rewrite !length_app in Hcut.
    cbn [length] in Hcut. rewrite !length_app in Hcut. lia.
  - assert (Hd : drop (k - S (length l)) (write_lines ls ++ p ++ rest) = p ++ w).
    { rewrite <- Ew, <- app_assoc. rewrite (drop_app_ge l) by lia. cbn [app].
      replace (k - length l)%nat with (S (k - S (length l))) by lia. done. }
    specialize (IH (k - S (length l))%nat ltac:(lia)). rewrite Hd, has_prefix_app in IH. done.
Qed.

Lemma absent_lines ls p : one_line p -> p <> [] -> Forall (absent p) ls -> absent p (write_lines ls).
Proof.
  intros Hp Hne Hls. induction Hls as [|l ls Hl Hls IH]; intros u w E.
  - by destruct u, p.
  - rewrite write_lines_cons in E. destruct (occurs_line l _ p u w Hp E) as [[w' E']|[[u' E']|E']].
    + by eapply Hl.
    + by eapply IH.
    + done.
Qed.

(* ------------------------------------------------------------------ *)
(** * Managed blocks                                                     *)
(* ------------------------------------------------------------------ *)

(** What every mark contains, and the texts that have no mark. *)
Definition tag : gostring := bs "SSH-VPN managed (".
Definition plain (s : gostring) : Prop := absent tag s.

Lemma absent_sub p q s : (exists a b, p = a ++ q ++ b) -> absent q s -> absent p s.
Proof.
  intros (a & b & ->) Hq u w E. apply (Hq (u ++ a) (b ++ w)). rewrite E.
  by rewrite <- !app_assoc.
Qed.

Lemma markBegin_tag n : exists a b, markBegin n = a ++ tag ++ b.
Proof. exists (bs "# >>> "), (n ++ bs ") — do not edit >>>"). reflexivity. Qed.
Lemma markEnd_tag n : exists a b, markEnd n = a ++ tag ++ b.
Proof. exists (bs "# <<< "), (n ++ bs ") <<<"). reflexivity. Qed.

Lemma plain_marks n s : plain s -> absent (markBegin n) s /\ absent (markEnd n) s.
Proof.
  intros Hs. split; (eapply absent_sub; [|exact Hs]); [apply markBegin_tag|apply markEnd_tag].
Qed.

Definition block_lines (n : gostring) (ls : list gostring) : list gostring :=
  markBegin n :: ls ++ [markEnd n].

(** Removing the only block with this name, between lines without its marks. *)
Lemma strip_one_block n before ls after :
  one_line n -> Forall (absent (markBegin n)) before -> Forall (absent (markEnd n)) (markBegin n :: ls) ->
  strip_one (markBegin n) (markEnd n)
    (write_lines before ++ write_lines (block_lines n ls) ++ write_lines after) =
  Some (write_lines before ++ write_lines after).
Proof.
  intros Hn Hb He. unfold strip_one, block_lines.
  assert (Hmb : one_line (markBegin n)).
  { unfold markBegin. rewrite !elem_of_app. intros [H|[H|H]]; [not_elem H|done|not_elem H]. }
  assert (Hme : one_line (markEnd n)).
  { unfold markEnd. rewrite !elem_of_app. intros [H|[H|H]]; [not_elem H|done|not_elem H]. }
  rewrite write_lines_cons, <- app_assoc.
  rewrite index_after_lines by done.
  rewrite drop_app_length.
  assert (E : markBegin n ++ (x0a :: write_lines (ls ++ [markEnd n])) ++ write_lines after =
              write_lines (markBegin n :: ls) ++ markEnd n ++ x0a :: write_lines after).
  { rewrite write_lines_cons, write_lines_app, write_lines_cons. cbn [app].
    by rewrite <- !app_assoc. }
  rewrite E, index_after_lines by done.
  set (k := (length (write_lines before) + length (write_lines (markBegin n :: ls)) +
             length (markEnd n))%nat).
  assert (Hk : drop k (write_lines before ++ write_lines (markBegin n :: ls) ++ markEnd n ++
                 x0a :: write_lines after) = x0a :: write_lines after).
  { subst k. rewrite !app_assoc. rewrite drop_app_length'; [done|]. by rewrite !length_app. }
  rewrite Hk. f_equal. rewrite take_app_length. f_equal.
  apply (f_equal (drop 1)) in Hk. rewrite drop_drop in Hk. replace (k + 1)%nat with (S k) in Hk by lia.
  exact Hk.
Qed.

(** ** The lines of a text *)

(** Without the empty line after a final newline. *)
Definition text_lines (s : gostring) : list gostring :=
  match last (split_on x0a s) with
  | Some [] => removelast (split_on x0a s)
  | _ => split_on x0a s
  end.

(** A final newline, unless there is nothing. *)
Definition closed (s : gostring) : gostring :=
  if negb (eqb_str s []) && negb (has_suffix s [x0a]) then s ++ [x0a] else s.

Lemma split_last s : exists init e,
  split_on x0a s = init ++ [e] /\ s = write_lines init ++ e /\ Forall (fun l => one_line l) init /\
  one_line e.
Proof.
  induction s as [|x s (init & e & E & Es & Hi & He)].
  - exists [], []. split_and!; [done|done|constructor|apply not_elem_of_nil].
  - cbn [split_on]. case_decide as D.
    + subst x. exists ([] :: init), e. rewrite E, write_lines_cons. cbn [app].
      split_and!; [done|by rewrite Es at 1|constructor; [apply not_elem_of_nil|done]|done].
    + rewrite E. destruct init as [|l init]; cbn [app].
      * exists [], (x :: e). cbn in Es. subst s. split_and!; [done|done|constructor|set_solver].
      * exists ((x :: l) :: init), e. rewrite write_lines_cons in *. cbn [app] in *.
        rewrite <- Es. apply Forall_cons in Hi as [Hl Hi].
        split_and!; [done|done|constructor; [set_solver|done]|done].
Qed.

Lemma split_write_lines ls e : Forall (fun l => one_line l) ls -> one_line e ->
  split_on x0a (write_lines ls ++ e) = ls ++ [e].
Proof.
  intros Hls He. induction Hls as [|l ls Hl Hls IH]; [by apply split_on_no_sep|].
  rewrite write_lines_cons, <- app_assoc. cbn [app]. by rewrite split_on_app, IH.
Qed.

Lemma text_lines_app ls e : Forall (fun l => one_line l) ls -> one_line e ->
  text_lines (write_lines ls ++ e) = match e with [] => ls | _ => ls ++ [e] end.
Proof.
  intros Hls He. unfold text_lines. rewrite split_write_lines by done.
  rewrite last_snoc. destruct e; [apply removelast_last|done].
Qed.

Lemma has_suffix_newline s e : one_line e -> e <> [] -> has_suffix (s ++ e) [x0a] = false.
Proof.
  intros He Hne. destruct (has_suffix _ _) eqn:E; [|done]. unfold has_suffix in E.
  apply has_prefix_spec in E as [k Ek]. destruct e as [|x e' _] using rev_ind; [done|].
  rewrite app_assoc, reverse_snoc in Ek. change (reverse [x0a]) with [x0a] in Ek.
  cbn in Ek. injection Ek as -> _. set_solver.
Qed.

Lemma closed_lines s : closed s = write_lines (text_lines s).
Proof.
  destruct (split_last s) as (init & e & _ & -> & Hi & He). rewrite text_lines_app by done.
  unfold closed. destruct e as [|x e].
  - rewrite app_nil_r. destruct init as [|l init _] using rev_ind; [done|].
    rewrite write_lines_app, write_lines_cons. unfold has_suffix.
    change (write_lines []) with (@nil byte). rewrite app_assoc, reverse_snoc.
    change (reverse [x0a]) with [x0a]. cbn [app has_prefix].
    rewrite decide_True by done. cbn. by rewrite andb_false_r.
  - rewrite has_suffix_newline by done.
    replace (eqb_str _ _) with false.
    2:{ symmetry. apply eqb_str_false. by destruct (write_lines init). }
    cbn [negb andb]. rewrite write_lines_app, write_lines_cons, <- app_assoc. done.
Qed.

Lemma text_lines_one_line s : Forall (fun l => one_line l) (text_lines s).
Proof.
  destruct (split_last s) as (init & e & _ & -> & Hi & He). rewrite text_lines_app by done.
  destruct e; [done|]. apply Forall_app. split; [done|]. by repeat constructor.
Qed.

Lemma text_lines_write ls : Forall (fun l => one_line l) ls -> text_lines (write_lines ls) = ls.
Proof.
  intros Hls. rewrite <- (app_nil_r (write_lines ls)). rewrite text_lines_app; [done|done|].
  apply not_elem_of_nil.
Qed.

(** A change of single lines. *)
Class LineMap (f : gostring -> gostring) : Prop := {
  lm_one_line : forall l, one_line l -> one_line (f l);
  lm_nil : f [] = [];
}.

Lemma on_lines_write f ls `{!LineMap f} : Forall (fun l => one_line l) ls ->
  on_lines f (write_lines ls) = write_lines (f <$> ls).
Proof.
  intros Hls. unfold on_lines. rewrite <- (app_nil_r (write_lines ls)).
  rewrite split_write_lines by (done || apply not_elem_of_nil).
  rewrite fmap_app. cbn. rewrite (@lm_nil f _). clear Hls.
  induction ls as [|l ls IH]; [done|]. rewrite fmap_cons, write_lines_cons, <- IH.
  destruct ls; cbn; by rewrite ?app_nil_r.
Qed.

Lemma on_lines_split f s init e :
  split_on x0a s = init ++ [e] -> on_lines f s = write_lines (f <$> init) ++ f e.
Proof.
  intros E. unfold on_lines. rewrite E, fmap_app. cbn. clear E.
  induction init as [|l init IH]; [done|]. rewrite fmap_cons, write_lines_cons, <- app_assoc.
  cbn [app]. rewrite <- IH. destruct (f <$> init) eqn:E; [by destruct init|]. done.
Qed.

Lemma text_lines_on_lines f s `{!LineMap f} : (forall l, f l = [] -> l = []) ->
  text_lines (on_lines f s) = f <$> text_lines s.
Proof.
  intros Hf. destruct (split_last s) as (init & e & E & Es & Hi & He).
  rewrite (on_lines_split f s init e E), Es.
  assert (Forall (fun l => one_line l) (f <$> init)).
  { apply Forall_fmap. eapply Forall_impl; [exact Hi|]. intros l. apply lm_one_line. }
  rewrite !text_lines_app by (done || by apply lm_one_line).
  destruct e as [|x e]; [by rewrite (@lm_nil f _)|].
  rewrite fmap_app. destruct (f (x :: e)) eqn:Ef; [by apply Hf in Ef|]. cbn. by rewrite Ef.
Qed.

(** ** Port lines *)

Lemma span_spec f s a b : span f s = (a, b) -> s = a ++ b /\ Forall (fun x => f x = true) a.
Proof.
  revert a b. induction s as [|x s IH]; intros a b E; cbn in E; [by simplify_eq|].
  destruct (f x) eqn:Fx; [|by simplify_eq].
  destruct (span f s) as [a' b']. destruct (IH a' b') as [-> Ha]; [done|]. simplify_eq.
  split; [done|by constructor].
Qed.

(** The bytes of a port line. *)
Definition port_byte (b : byte) : bool := is_blank b || is_num b || existsb (Byte.eqb b) (bs "Port").

Lemma port_line_bytes l : port_line l = true -> Forall (fun b => port_byte b = true) l.
Proof.
  unfold port_line. destruct (span is_blank l) as [a r] eqn:E1.
  apply span_spec in E1 as [-> Ha].
  destruct (has_prefix r (bs "Port")) eqn:Hp; [|done]. apply has_prefix_spec in Hp as [k ->].
  change (drop 4 (bs "Port" ++ k)) with k.
  destruct (span is_blank k) as [b r] eqn:E2. apply span_spec in E2 as [-> Hb].
  destruct (span is_num r) as [n r'] eqn:E3. apply span_spec in E3 as [-> Hn].
  destruct (span is_blank r') as [c r] eqn:E4. apply span_spec in E4 as [-> Hc].
  cbn [andb]. rewrite !andb_true_iff. intros [_ ->%eqb_str_true].
  assert (Hblank : forall x, is_blank x = true -> port_byte x = true).
  { intros x Hx. unfold port_byte. by rewrite Hx. }
  assert (Hnum : forall x, is_num x = true -> port_byte x = true).
  { intros x Hx. unfold port_byte. by rewrite Hx, orb_true_r. }
  rewrite !Forall_app. split_and!; [by eapply Forall_impl|by repeat constructor|by eapply Forall_impl| | |done];
    by eapply Forall_impl.
Qed.

Lemma port_line_free l x : port_byte x = false -> port_line l = true -> x ∉ l.
Proof.
  intros Hx Hl Hin. apply port_line_bytes in Hl. rewrite Forall_forall in Hl.
  by rewrite (Hl x Hin) in Hx.
Qed.

Definition comment_line (l : gostring) : gostring :=
  if port_line l then portComment ++ l else l.
Definition uncomment_line (l : gostring) : gostring := trim_prefix l portComment.

#[export] Instance comment_LineMap : LineMap comment_line.
Proof.
  split; [|done]. intros l Hl. unfold comment_line. destruct (port_line l); [|done].
  apply not_elem_of_app. split; [intros H; not_elem H|done].
Qed.
#[export] Instance uncomment_LineMap : LineMap uncomment_line.
Proof.
  split; [|done]. intros l Hl. unfold uncomment_line, trim_prefix.
  destruct (has_prefix l portComment); [|done]. intros Hin. apply Hl.
  rewrite <- (take_drop (length portComment) l). apply elem_of_app. by right.
Qed.

Lemma comment_line_nil l : comment_line l = [] -> l = [].
Proof. unfold comment_line. by destruct (port_line l). Qed.

(** A line that is commented is no port line any more. *)
Lemma comment_line_twice l : comment_line (comment_line l) = comment_line l.
Proof.
  unfold comment_line at 1. destruct (port_line (comment_line l)) eqn:E; [|done].
  exfalso. unfold comment_line in E. destruct (port_line l) eqn:E'; [|congruence].
  eapply (port_line_free _ x23); [done|exact E|]. apply elem_of_app. left. by left.
Qed.

Lemma uncomment_comment l : has_prefix l portComment = false -> uncomment_line (comment_line l) = l.
Proof.
  intros Hl. unfold uncomment_line, comment_line, trim_prefix. destruct (port_line l).
  - by rewrite has_prefix_app, drop_app_length.
  - by rewrite Hl.
Qed.

(** ** Texts without marks *)

Lemma no_paren_plain s : x28 ∉ s -> plain s.
Proof.
  intros Hs u w ->. apply Hs, elem_of_app. right. apply elem_of_app. left.
  unfold tag. vm_compute. repeat ((by left) || right).
Qed.

Lemma closed_plain s : contains s tag = false -> plain s.
Proof. apply absent_contains. Qed.

Lemma itoa_no_paren n : x28 ∉ itoa n.
Proof.
  intros Hin. pose proof (itoa_bytes n) as H. rewrite Forall_forall in H.
  by destruct (H _ Hin) as [[d Hd]|?].
Qed.

(** The texts of the configuration that end up in the directives. *)
Definition no_marks (cfg : Config) : Prop :=
  (x28 ∉ ssh_MaxStartups (SSH cfg)) /\ (x28 ∉ ud_Group (UserDefaults cfg)).

Ltac plain_line :=
  first [ by apply closed_plain
        | apply no_paren_plain, not_elem_of_app; split;
          [ let H := fresh in intros H; not_elem H | apply itoa_no_paren || assumption ] ].

Lemma render_global_plain cfg v level : no_marks cfg -> Forall plain (render_global cfg v level).
Proof.
  intros [Hm _]. unfold render_global. repeat (apply Forall_app; split).
  - apply Forall_fmap, Forall_forall. intros p _. plain_line.
  - destruct (ssh_PasswordAuth _); repeat constructor; plain_line.
  - destruct (_ && _); [|constructor]. repeat (apply Forall_app; split).
    + repeat constructor; plain_line.
    + destruct (negb _); repeat constructor; plain_line.
    + destruct (_ && _); repeat constructor; plain_line.
Qed.

Lemma render_match_plain cfg v level : no_marks cfg -> Forall plain (render_match cfg v level).
Proof.
  intros [_ Hg]. unfold render_match. repeat (apply Forall_app; split).
  - repeat constructor; try plain_line. destruct (_ <? 2); plain_line.
  - destruct (_ =? 0); [|constructor]. apply Forall_app. split; [repeat constructor; plain_line|].
    destruct (AtLeast _ _ _); repeat constructor; plain_line.
  - destruct (trim_space _); repeat constructor. plain_line.
Qed.

Lemma Forall_absent (p : gostring) ls :
  (exists a b, p = a ++ tag ++ b) -> Forall plain ls -> Forall (absent p) ls.
Proof. intros Hp Hls. eapply Forall_impl; [exact Hls|]. intros l Hl. by eapply absent_sub. Qed.

(** ** Stripping *)

Lemma strip_one_None b e s : absent b s -> strip_one b e s = None.
Proof.
  intros Hb. unfold strip_one. destruct (index s b) as [i|] eqn:E; [|done].
  apply index_Some in E as [(u & w & Hs & _) _]. by destruct (Hb u w).
Qed.

Lemma strip_loop_None fuel b e s : absent b s -> strip_loop fuel b e s = s.
Proof. intros Hb. destruct fuel; [done|]. cbn. by rewrite strip_one_None. Qed.

Lemma stripBlocks_plain s : plain s -> stripBlocks s = s.
Proof.
  intros Hs. unfold stripBlocks, strip_name. cbn [foldl].
  rewrite !strip_loop_None; [done|by apply plain_marks|].
  rewrite strip_loop_None; by apply plain_marks.
Qed.

(** One block and no other mark of its name. *)
Lemma strip_name_block n before ls after :
  one_line n -> Forall (absent (markBegin n)) before -> Forall (absent (markBegin n)) after ->
  Forall (absent (markEnd n)) (markBegin n :: ls) ->
  strip_name (write_lines before ++ write_lines (block_lines n ls) ++ write_lines after) n =
  write_lines before ++ write_lines after.
Proof.
  intros Hn Hb Ha He. unfold strip_name.
  assert (Hlen : exists k, length (write_lines before ++ write_lines (block_lines n ls) ++
                                   write_lines after) = S k).
  { destruct (length _) as [|k] eqn:E; [|by exists k]. exfalso. revert E.
    unfold block_lines. rewrite write_lines_cons, !length_app. cbn [length]. lia. }
  destruct Hlen as [k ->]. cbn [strip_loop]. rewrite strip_one_block by done.
  apply strip_loop_None. rewrite <- write_lines_app. apply absent_lines; [|done|by apply Forall_app].
  unfold markBegin. rewrite !elem_of_app. intros [H|[H|H]]; [not_elem H|done|not_elem H].
Qed.

Lemma header_plain : Forall plain header.
Proof. repeat constructor; by apply closed_plain. Qed.

Lemma not_sub (p s : gostring) : contains s p = false -> absent p s.
Proof. apply absent_contains. Qed.

(** Every round of the loop shortens the text. *)
Lemma strip_one_shorter b e s s' : b <> [] -> e <> [] -> strip_one b e s = Some s' -> (length s' < length s)%nat.
Proof.
  intros Hb He. unfold strip_one. destruct (index s b) as [i|] eqn:Ei; [|done].
  destruct (index (drop i s) e) as [j|] eqn:Ej; [|done].
  apply index_Some in Ei as [(u & w & -> & Hu) _]. apply index_Some in Ej as [(u' & w' & Ed & Hu') _].
  intros [= <-]. rewrite length_app, length_drop, length_take, !length_app.
  assert (0 < length b)%nat by (destruct b; [done|cbn; lia]).
  assert (0 < length e)%nat by (destruct e; [done|cbn; lia]).
  case_match; [lia|]. case_match; lia.
Qed.

Lemma strip_loop_done fuel b e s : b <> [] -> e <> [] -> (length s <= fuel)%nat ->
  strip_one b e (strip_loop fuel b e s) = None.
Proof.
  intros Hb He. revert s. induction fuel as [|fuel IH]; intros s Hl.
  - destruct s; [|cbn in Hl; lia]. cbn. by destruct b.
  - cbn. destruct (strip_one b e s) as [s'|] eqn:E; [|done]. apply IH.
    apply strip_one_shorter in E; [lia|done|done].
Qed.

Lemma strip_loop_more fuel b e s : b <> [] -> e <> [] -> (length s <= fuel)%nat ->
  strip_loop fuel b e s = strip_loop (length s) b e s.
Proof.
  intros Hb He. revert s. induction (lt_wf fuel) as [fuel _ IH]. intros s Hl.
  destruct fuel as [|fuel]; [by replace (length s) with 0%nat by lia|].
  destruct (length s) as [|k] eqn:Ek; cbn.
  - destruct s; [|done]. by destruct b.
  - destruct (strip_one b e s) as [s'|] eqn:E; [|done].
    apply strip_one_shorter in E; [|done|done].
    rewrite (IH fuel) by lia. symmetry. apply IH; lia.
Qed.

(** The loop of [stripBlocks] ends for every text, however the marks are ordered,
    repeated or nested: after at most as many rounds as the text has bytes nothing is
    left to remove, no further round would change the result, and no complete block
    with this name is left. *)
Theorem strip_name_terminates s name rounds :
  (length s <= rounds)%nat ->
  strip_loop rounds (markBegin name) (markEnd name) s = strip_name s name /\
  strip_one (markBegin name) (markEnd name) (strip_name s name) = None.
Proof.
  intros Hr. unfold strip_name. split; [by apply strip_loop_more|by apply strip_loop_done].
Qed.

Lemma strip_name_terminates_witness :
  let b := markBegin (bs "match") in let e := markEnd (bs "match") in
  strip_loop 500 b e (e ++ b ++ b ++ e ++ [x0a] ++ e) = e ++ e.
Proof.
  intros b e. subst b e.
  assert (Hl : forall s, (length s <= 500)%nat -> forall r,
    strip_name s (bs "match") = r -> strip_loop 500 (markBegin (bs "match")) (markEnd (bs "match")) s = r).
  { intros s Hs r <-. apply (strip_name_terminates s (bs "match") 500 Hs). }
  apply Hl; vm_compute; [lia|reflexivity].
Defined.

(** The blocks around a text go away, and only they. *)
Lemma strip_with b g m : Forall plain (text_lines b) -> Forall plain g -> Forall plain m ->
  stripBlocks (withInlineBlocks b g m) = closed b.
Proof.
  intros Hb Hg Hm. unfold stripBlocks. cbn [foldl].
  pose proof (fun n ls => Forall_absent _ ls (markBegin_tag n)) as HB.
  pose proof (fun n ls => Forall_absent _ ls (markEnd_tag n)) as HE.
  replace (withInlineBlocks b g m) with
    (write_lines [] ++ write_lines (block_lines (bs "global") (header ++ g)) ++
     write_lines (text_lines b ++ block_lines (bs "match") m)).
  2:{ unfold withInlineBlocks, block_lines. cbv zeta.
      rewrite !write_lines_app, !write_lines_cons, !write_lines_app, !write_lines_cons.
      rewrite <- closed_lines. unfold closed. change (write_lines []) with (@nil byte).
      repeat (rewrite <- app_assoc || cbn [app]). done. }
  rewrite strip_name_block.
  - change (write_lines [] ++ ?x) with x. rewrite write_lines_app.
    rewrite <- (app_nil_r (write_lines (block_lines _ _))).
    change (@nil byte) with (write_lines []) at 1. rewrite strip_name_block.
    + by rewrite closed_lines, app_nil_r.
    + intros H. not_elem H.
    + by apply HB.
    + constructor.
    + constructor; [by apply not_sub|by apply HE].
  - intros H. not_elem H.
  - constructor.
  - apply Forall_app. split; [by apply HB|]. constructor; [by apply not_sub|].
    apply Forall_app. split; [by apply HB|]. constructor; [by apply not_sub|constructor].
  - constructor; [by apply not_sub|]. apply HE, Forall_app. split; [apply header_plain|done].
Qed.

(** ** The whole file *)

Lemma split_on_sub s l : l ∈ split_on x0a s -> exists a b, s = a ++ l ++ b.
Proof.
  enough (H : forall ks, l ∈ ks -> exists a b, join [x0a] ks = a ++ l ++ b).
  { intros Hl. destruct (H _ Hl) as (a & b & E). exists a, b. by rewrite <- E, join_split. }
  clear s. induction ks as [|k ks IH]; [by intros ?%elem_of_nil|]. intros [->|Hl]%elem_of_cons.
  - destruct ks as [|k' ks]; [exists [], []; by rewrite app_nil_r|].
    by exists [], ([x0a] ++ join [x0a] (k' :: ks)).
  - destruct (IH Hl) as (a & b & E). destruct ks; [by apply elem_of_nil in Hl|].
    exists (k ++ [x0a] ++ a), b. cbn [join] in *. rewrite E. by rewrite <- !app_assoc.
Qed.

Lemma text_lines_plain s : plain s -> Forall plain (text_lines s).
Proof.
  intros Hs. apply Forall_forall. intros l Hl.
  assert (Hin : l ∈ split_on x0a s).
  { destruct (split_last s) as (init & e & E & Es & Hi & He). rewrite E.
    rewrite Es, text_lines_app in Hl by done. destruct e; [|done].
    apply elem_of_app. by left. }
  destruct (split_on_sub s l Hin) as (a & b & ->). intros u w ->.
  apply (Hs (a ++ u) (w ++ b)). by rewrite <- !app_assoc.
Qed.

Lemma comment_line_plain l : plain l -> plain (comment_line l).
Proof.
  intros Hl. unfold comment_line. destruct (port_line l) eqn:E; [|done].
  apply no_paren_plain, not_elem_of_app. split; [intros H; not_elem H|].
  by apply port_line_free.
Qed.

Lemma commentPorts_lines s : text_lines (commentPorts s) = comment_line <$> text_lines s.
Proof. exact (text_lines_on_lines comment_line s comment_line_nil). Qed.

Lemma commented_plain s : plain s -> Forall plain (text_lines (commentPorts s)).
Proof.
  intros Hs. rewrite commentPorts_lines. apply Forall_fmap.
  eapply Forall_impl; [by apply text_lines_plain|]. intros l. apply comment_line_plain.
Qed.

Lemma commented_one_line s : Forall (fun l => one_line l) (comment_line <$> text_lines s).
Proof. rewrite <- commentPorts_lines. apply text_lines_one_line. Qed.

Lemma strip_new_main cfg v level orig : no_marks cfg -> plain orig ->
  stripBlocks (new_main cfg v false orig level) = write_lines (comment_line <$> text_lines orig).
Proof.
  intros Hc Hp. unfold new_main. cbv zeta. rewrite (stripBlocks_plain orig) by done.
  rewrite strip_with, closed_lines, commentPorts_lines; [done| | |].
  - by apply commented_plain.
  - by apply render_global_plain.
  - by apply render_match_plain.
Qed.

(** The blocks see their text only through its lines. *)
Lemma withInlineBlocks_lines a b g m :
  text_lines a = text_lines b -> withInlineBlocks a g m = withInlineBlocks b g m.
Proof.
  intros E. assert (Ec : closed a = closed b) by by rewrite !closed_lines, E.
  assert (W : forall c, withInlineBlocks c g m =
    markBegin (bs "global") ++ [x0a] ++ write_lines (header ++ g) ++
    markEnd (bs "global") ++ [x0a] ++ closed c ++
    markBegin (bs "match") ++ [x0a] ++ write_lines m ++ markEnd (bs "match") ++ [x0a]) by done.
  by rewrite !W, Ec.
Qed.

Lemma write_lines_plain ls : Forall plain ls -> plain (write_lines ls).
Proof. intros Hls. apply absent_lines; [intros H; not_elem H|done|done]. Qed.

Lemma comment_twice (ls : list gostring) : comment_line <$> (comment_line <$> ls) = comment_line <$> ls.
Proof. rewrite <- list_fmap_compose. apply list_fmap_ext. intros i l _. apply comment_line_twice. Qed.

Lemma uncomment_lines (ls : list gostring) :
  Forall (fun l => has_prefix l portComment = false) ls -> uncomment_line <$> (comment_line <$> ls) = ls.
Proof.
  induction 1 as [|l ls Hl _ IH]; [done|]. rewrite !fmap_cons, IH. by rewrite uncomment_comment.
Qed.

(** Applying to a file that was written before is applying to the original. *)
Lemma inline_again cfg cfg' v v' level level' orig : no_marks cfg -> plain orig ->
  new_main cfg' v' false (new_main cfg v false orig level) level' = new_main cfg' v' false orig level'.
Proof.
  intros Hc Hp. pose proof (commented_one_line orig) as Ho.
  unfold new_main at 1 3. cbv zeta. apply withInlineBlocks_lines.
  rewrite strip_new_main, (stripBlocks_plain orig) by done.
  rewrite !commentPorts_lines, text_lines_write by done. apply comment_twice.
Qed.

Lemma plain_closed s : plain (closed s) -> plain s.
Proof.
  intros Hs u w ->. unfold closed in Hs. destruct (_ && _); [|by eapply Hs].
  apply (Hs u (w ++ [x0a])). by rewrite <- !app_assoc.
Qed.

Lemma commentPorts_plain s : plain s -> plain (commentPorts s).
Proof. intros Hs. apply plain_closed. rewrite closed_lines. by apply write_lines_plain, commented_plain. Qed.

Lemma commentPorts_twice s : commentPorts (commentPorts s) = commentPorts s.
Proof.
  destruct (split_last s) as (init & e & E & _ & Hi & He). unfold commentPorts. fold comment_line.
  rewrite (on_lines_split comment_line s init e E).
  assert (E2 : split_on x0a (write_lines (comment_line <$> init) ++ comment_line e) =
    (comment_line <$> init) ++ [comment_line e]).
  { apply split_write_lines; [|by apply lm_one_line].
    apply Forall_fmap. eapply Forall_impl; [exact Hi|]. intros l. apply lm_one_line. }
  rewrite (on_lines_split comment_line _ _ _ E2), comment_twice. by rewrite comment_line_twice.
Qed.

Lemma new_main_again cfg cfg' v v' drop level level' orig : no_marks cfg -> plain orig ->
  new_main cfg' v' drop (new_main cfg v drop orig level) level' = new_main cfg' v' drop orig level'.
Proof.
  intros Hc Hp. destruct drop; [|by apply inline_again]. unfold new_main. cbv zeta.
  rewrite (stripBlocks_plain orig) by done.
  rewrite stripBlocks_plain by by apply commentPorts_plain. apply commentPorts_twice.
Qed.

Lemma uncomment_commentPorts s : Forall (fun l => has_prefix l portComment = false) (text_lines s) ->
  uncommentPorts (commentPorts s) = s.
Proof.
  destruct (split_last s) as (init & e & E & Es & Hi & He). intros Hf.
  assert (Hall : Forall (fun l => has_prefix l portComment = false) init /\ has_prefix e portComment = false).
  { rewrite Es, text_lines_app in Hf by done. destruct e; [by split|]. by apply Forall_app in Hf as [? [? _]%Forall_cons]. }
  destruct Hall as [Hinit He']. unfold uncommentPorts, commentPorts. fold comment_line. fold uncomment_line.
  rewrite (on_lines_split comment_line s init e E).
  assert (E2 : split_on x0a (write_lines (comment_line <$> init) ++ comment_line e) =
    (comment_line <$> init) ++ [comment_line e]).
  { apply split_write_lines; [|by apply lm_one_line].
    apply Forall_fmap. eapply Forall_impl; [exact Hi|]. intros l. apply lm_one_line. }
  rewrite (on_lines_split uncomment_line _ _ _ E2), uncomment_lines, uncomment_comment by done. by rewrite <- Es.
Qed.

(** What removal makes of a main file that was written. *)
Lemma removed_main cfg v drop level orig : no_marks cfg -> plain orig ->
  Forall (fun l => has_prefix l portComment = false) (text_lines orig) ->
  uncommentPorts (stripBlocks (new_main cfg v drop orig level)) = if drop then orig else closed orig.
Proof.
  intros Hc Hp Hf. destruct drop.
  - unfold new_main. cbv zeta. rewrite (stripBlocks_plain orig) by done.
    rewrite stripBlocks_plain by by apply commentPorts_plain. by apply uncomment_commentPorts.
  - rewrite strip_new_main by done. unfold uncommentPorts. fold uncomment_line.
    rewrite (on_lines_write uncomment_line _ (commented_one_line orig)), closed_lines. f_equal.
    by apply uncomment_lines.
Qed.

(** Without an Include line, the settings are kept in the main file, and without a
    trace: when they are removed the file is what it was (with a final newline), the
    Port lines are active again, and applying new settings gives what applying them to
    the original file gives, whatever was applied before. *)
Theorem Inline_reversible cfg cfg' v v' level level' orig :
  no_marks cfg -> plain orig ->
  Forall (fun l => has_prefix l portComment = false) (text_lines orig) ->
  let written := new_main cfg v false orig level in
  uncommentPorts (stripBlocks written) = closed orig /\
  new_main cfg' v' false written level' = new_main cfg' v' false orig level'.
Proof.
  intros Hc Hp Hf written. subst written. split; [by apply (removed_main cfg v false)|by apply inline_again].
Qed.

Definition small_config : gostring :=
  bs "Port 22" ++ [x0a] ++ bs "  PermitRootLogin no" ++ [x0a] ++ bs "port 23".

Lemma Inline_reversible_witness :
  uncommentPorts (stripBlocks (new_main Defaults (mkVersion 9 9 []) false small_config 0)) =
  small_config ++ [x0a].
Proof.
  destruct (Inline_reversible Defaults Defaults (mkVersion 9 9 []) (mkVersion 7 2 []) 0 1 small_config)
    as [H _].
  - split; intros H; not_elem H.
  - by apply closed_plain.
  - by repeat constructor.
  - exact H.
Defined.
