(* ===== verification/SshdApply.v ===== *)
(** [Apply] of [Sshd] on a disk that works: which level it settles on, and that sshd
    is left with files it accepts. *)
From S2P Require Import Prelude GoStrings Paths Files Config Sshd.

Section working.
Context `{Disk}.
Hypothesis works : forall n, op_fails n = false.

(** ** The loop over the levels *)

Section apply.
Variable cfg : Config.
Variable v : Version.
Variable sshd_test : files -> bool * gostring.
Variable mainOrig : gostring.

Abbreviation main := (mainPath cfg).
Definition is_drop (drop : option (gostring * gostring)) : bool :=
  match drop with Some _ => true | None => false end.

(** The files sshd is tested with at a level. *)
Definition tried (drop : option (gostring * gostring)) (level : Z) (m : files) : files :=
  <[main := new_main cfg v (is_drop drop) mainOrig level]>
    (match drop with Some (_, p) => <[p := drop_body cfg v level]> m | None => m end).

Lemma tried_again drop l l' m : tried drop l' (tried drop l m) = tried drop l' m.
Proof.
  unfold tried. apply map_eq. intros q. destruct drop as [[d p]|];
    rewrite !lookup_insert; repeat case_decide; congruence.
Qed.

Lemma tried_other drop level m q : q <> main -> Some q <> (snd <$> drop) ->
  tried drop level m !! q = m !! q.
Proof.
  intros Hm Hd. unfold tried. rewrite lookup_insert_ne by done.
  destruct drop as [[d p]|]; [|done]. rewrite lookup_insert_ne; [done|]. cbn in Hd. congruence.
Qed.

(** The first of the levels that sshd accepts. *)
Fixpoint first_accepted drop (levels : list Z) (m : files) : option Z :=
  match levels with
  | [] => None
  | l :: ls => if (sshd_test (tried drop l m)).1 then Some l else first_accepted drop ls m
  end.

(** What the files are when the loop ends. *)
Fixpoint last_tried drop (levels : list Z) (m : files) : files :=
  match levels with
  | [] => m
  | l :: ls => if (sshd_test (tried drop l m)).1 then tried drop l m
               else last_tried drop ls (tried drop l m)
  end.
Fixpoint last_out drop (levels : list Z) (last : gostring) (m : files) : loop_end :=
  match levels with
  | [] => allRejected last
  | l :: ls => let t := sshd_test (tried drop l m) in
               if t.1 then accepted l else last_out drop ls t.2 (tried drop l m)
  end.

Lemma first_accepted_again drop l ls m :
  first_accepted drop ls (tried drop l m) = first_accepted drop ls m.
Proof.
  induction ls as [|l' ls IH]; [done|]. cbn. by rewrite tried_again, IH.
Qed.

Lemma last_out_first drop ls last m :
  match first_accepted drop ls m with
  | Some l => last_out drop ls last m = accepted l /\ last_tried drop ls m = tried drop l m
  | None => exists out, last_out drop ls last m = allRejected out
  end.
Proof.
  revert last m. induction ls as [|l ls IH]; intros last m; [by exists last|]. cbn.
  destruct (sshd_test (tried drop l m)).1 eqn:E; [done|].
  specialize (IH (sshd_test (tried drop l m)).2 (tried drop l m)).
  rewrite first_accepted_again in IH. destruct (first_accepted drop ls m) as [l'|]; [|done].
  destruct IH as [-> ->]. by rewrite tried_again.
Qed.

Lemma first_accepted_ok drop ls m l :
  first_accepted drop ls m = Some l -> (sshd_test (tried drop l m)).1 = true.
Proof.
  induction ls as [|l' ls IH]; cbn; [done|].
  destruct (sshd_test (tried drop l' m)).1 eqn:E; [by intros [= <-]|done].
Qed.

Lemma last_tried_other drop ls m q : q <> main -> Some q <> (snd <$> drop) ->
  last_tried drop ls m !! q = m !! q.
Proof.
  intros Hm Hd. revert m. induction ls as [|l ls IH]; intros m; [done|]. cbn.
  case_match; [by apply tried_other|]. rewrite IH. by apply tried_other.
Qed.

Lemma does_write_drop d p body : does (write_drop d p body) (fun m => (<[p := body]> m, true)).
Proof.
  eapply does_ext; [|apply does_bind; [by apply (does_try_op works)|]].
  2:{ intros a. instantiate (1 := fun (a : bool) m => if a then (<[p := body]> m, true) else (m, false)).
      destruct a; [by apply (does_WriteFileAtomic works)|apply does_ret]. }
  done.
Qed.

Lemma does_try_levels levels drop dropOrig last :
  does (try_levels cfg v sshd_test levels mainOrig drop dropOrig last)
       (fun m => (last_tried drop levels m, last_out drop levels last m)).
Proof.
  revert last. induction levels as [|l ls IH]; intros last; [apply does_ret|].
  intros fs. cbn [try_levels]. unfold mbind, F_bind.
  assert (Hp : exists fs1, (match drop with
             | Some (dir, p) => write_drop dir p (drop_body cfg v l)
             | None => mret true
             end) fs = (fs1, true) /\
           f_files fs1 = match drop with Some (_, p) => <[p := drop_body cfg v l]> (f_files fs)
                         | None => f_files fs end).
  { destruct drop as [[d p]|]; [apply does_write_drop|by exists fs]. }
  destruct Hp as (fs1 & E1 & F1). rewrite E1. cbn [negb].
  destruct ((does_WriteFileAtomic works) main (new_main cfg v (is_drop drop) mainOrig l) fs1)
    as (fs2 & E2 & F2). cbn in E2, F2. fold (is_drop drop). rewrite E2. cbn [negb run_test].
  assert (Ft : f_files fs2 = tried drop l (f_files fs)) by (by rewrite F2, F1).
  unfold run_test. rewrite Ft. cbn [last_tried last_out fst].
  destruct (sshd_test (tried drop l (f_files fs))) as [ok out]. cbn.
  destruct ok; cbn; [by exists fs2|]. rewrite <- Ft. apply IH.
Qed.

Lemma does_rollback (drop : option (gostring * gostring)) dropOrig :
  does (rollback cfg mainOrig (snd <$> drop) dropOrig)
    (fun m => (match drop with
               | None => <[main := mainOrig]> m
               | Some (_, p) => match dropOrig with
                                | Some d => <[p := d]> (<[main := mainOrig]> m)
                                | None => delete p (<[main := mainOrig]> m)
                                end
               end, tt)).
Proof.
  intros fs. unfold rollback, mbind, F_bind.
  destruct ((does_WriteFile works) main mainOrig fs) as (fs1 & E1 & F1). rewrite E1. cbn in F1.
  destruct drop as [[d p]|]; cbn; [|exists fs1; by rewrite F1]. destruct dropOrig as [o|].
  - destruct ((does_WriteFile works) p o fs1) as (fs2 & E2 & F2). rewrite E2. exists fs2.
    cbn in F2. by rewrite F2, F1.
  - destruct ((does_change works) (delete p) fs1) as (fs2 & E2 & F2). unfold Remove. rewrite E2.
    exists fs2. cbn in F2. by rewrite F2, F1.
Qed.

(** A failed run leaves every file but the two that precede the loop as it was. *)
Lemma rolled_back (drop : option (gostring * gostring)) ls (m m0 : files) q :
  m0 !! main = Some mainOrig -> m !! q = m0 !! q ->
  (match drop with
   | None => <[main := mainOrig]> (last_tried drop ls m)
   | Some (_, p) => match m !! p with
                    | Some d => <[p := d]> (<[main := mainOrig]> (last_tried drop ls m))
                    | None => delete p (<[main := mainOrig]> (last_tried drop ls m))
                    end
   end) !! q = m0 !! q.
Proof.
  intros Hm0 Hq. destruct drop as [[d p]|].
  - destruct (decide (q = p)) as [->|Hp].
    + destruct (m !! p) as [o|] eqn:Eo; [rewrite lookup_insert_eq; congruence|].
      by rewrite lookup_delete_eq, <- Hq.
    + assert (E : (<[main := mainOrig]> (last_tried (Some (d, p)) ls m)) !! q = m0 !! q).
      { destruct (decide (q = main)) as [->|Hne]; [by rewrite lookup_insert_eq|].
        rewrite lookup_insert_ne by done. rewrite last_tried_other; [done|done|]. cbn. congruence. }
      destruct (m !! p); [by rewrite lookup_insert_ne|by rewrite lookup_delete_ne].
  - destruct (decide (q = main)) as [->|Hne]; [by rewrite lookup_insert_eq|].
    rewrite lookup_insert_ne by done. by rewrite last_tried_other.
Qed.

(** ** The parts before and after the loop *)

Definition limits_path (sv : services) : gostring :=
  bs "/etc/systemd/system/" ++ svc_name sv ++ bs ".service.d/sshvpn.conf".
Definition orig_copy : gostring := main ++ bs ".sshvpn-orig".

(** The pristine copy, unless there is one, and the banner. *)
Definition prepared_files (m : files) : files :=
  let m := if bool_decide (is_Some (m !! orig_copy)) then m else <[orig_copy := mainOrig]> m in
  match trim_space (ssh_Banner (SSH cfg)) with
  | [] => m
  | text => <[bannerPath := text ++ [x0a]]> m
  end.

Lemma prepared_other m q : q <> orig_copy -> q <> bannerPath -> prepared_files m !! q = m !! q.
Proof.
  intros Ho Hb. unfold prepared_files.
  destruct (trim_space _), (bool_decide _); by rewrite ?lookup_insert_ne.
Qed.

Lemma does_writeBanner : does (writeBanner cfg) (fun m => (
  match trim_space (ssh_Banner (SSH cfg)) with
  | [] => m
  | text => <[bannerPath := text ++ [x0a]]> m
  end, true)).
Proof.
  unfold writeBanner. destruct (trim_space _) as [|x t]; [apply does_ret|].
  pose proof ((does_WriteIfChanged works) bannerPath ((x :: t) ++ [x0a])) as Hg.
  eapply does_ext; [|apply does_bind; [exact Hg|intros a; apply does_ret]]. done.
Qed.

Definition limits_text : gostring := bs "[Service]" ++ [x0a] ++ bs "LimitNOFILE=1048576" ++ [x0a].
Definition with_limits (noSystemd : bool) (sv : services) (m : files) : files :=
  if noSystemd then m else <[limits_path sv := limits_text]> m.

(** What systemd is asked to do, and the result that is reported. *)
Definition served (noSystemd : bool) (sv : services) (res : Result) (m : files) : Result * option apply_err :=
  if noSystemd then (res, None)
  else
    let with_flags (restarted : bool) :=
      mkResult (r_Mode res) (r_File res) (r_Level res) (r_Changed res)
        (restarted || r_Restarted res) (sv_socket sv) (r_Warnings res) (r_SSHVersion res) in
    if sv_socket sv || changes (limits_path sv) limits_text m
    then if sv_restart_ok sv then (with_flags true, None) else (with_flags false, Some restartFailed)
    else if r_Changed res
    then if sv_reload_ok sv then (with_flags true, None) else (with_flags false, Some reloadFailed)
    else (with_flags false, None).

Lemma does_finish noSystemd sv res :
  does (finish noSystemd sv res) (fun m => (with_limits noSystemd sv m, served noSystemd sv res m)).
Proof.
  unfold finish, with_limits, served. destruct noSystemd; [apply does_ret|].
  intros fs. unfold mbind, F_bind. fold limits_text. fold (limits_path sv).
  destruct ((does_WriteIfChanged works) (limits_path sv) limits_text fs) as (fs1 & E & F1).
  exists fs1. rewrite E. cbn [fst snd] in F1 |- *. split; [|exact F1]. rewrite andb_true_r. cbv zeta.
  by destruct (sv_socket sv), (changes _ _ _), (r_Changed res), (sv_restart_ok sv), (sv_reload_ok sv).
Qed.

Lemma served_level noSystemd sv res m : r_Level (served noSystemd sv res m).1 = r_Level res.
Proof. unfold served. cbv zeta. by repeat case_match. Qed.
End apply.

Definition drop_in cfg (data : option gostring) : option (gostring * gostring) :=
  (fun d => (d, path_join d dropInName)) <$> dropInDir (mainPath cfg) data.
Definition drop_file (drop : option (gostring * gostring)) (m : files) : option gostring :=
  match drop with Some (_, p) => m !! p | None => None end.

Lemma does_drop_file drop :
  does (match drop with Some (_, p) => ReadFile p | None => mret None end) (fun m => (m, drop_file drop m)).
Proof. destruct drop as [[d p]|]; [apply (does_ReadFile works)|apply does_ret]. Qed.

(** What is reported for an accepted level, before systemd has its say. *)
Definition level_result cfg v (drop : option (gostring * gostring)) orig level (m : files) : Result :=
  let t := tried cfg v orig drop level m in
  let changed := negb (eqb_str (default [] (t !! mainPath cfg)) orig) ||
    match drop with
    | Some _ => negb (eqb_str (default [] (drop_file drop t)) (default [] (drop_file drop m)))
    | None => false
    end in
  mkResult (match drop with Some _ => bs "drop-in" | None => bs "inline" end)
    (match drop with Some (_, p) => p | None => mainPath cfg end) level changed false false
    (if 0 <? level then [bs "old OpenSSH (" ++ Raw v ++ bs "): used compatibility level " ++ itoa level] else [])
    (Raw v).

(** The whole of [Apply]. *)
Lemma Apply_cases cfg v sshd_test sv banner_err noSystemd fs fs' orig r e :
  f_files fs !! mainPath cfg = Some orig ->
  Apply cfg true true noSystemd v sshd_test sv banner_err fs = (fs', (r, e)) ->
  let m := prepared_files cfg orig (f_files fs) in
  let drop := drop_in cfg (m !! mainPath cfg) in
  match first_accepted cfg v sshd_test orig drop [0; 1; 2] m with
  | Some level =>
      let t := tried cfg v orig drop level m in
      let s := served noSystemd sv (level_result cfg v drop orig level m) t in
      f_files fs' = with_limits noSystemd sv t /\ r = Some s.1 /\ e = s.2
  | None => r = None /\ (exists out, e = Some (rejected out)) /\
      forall q, q <> orig_copy cfg -> q <> bannerPath -> f_files fs' !! q = f_files fs !! q
  end.
Proof.
  intros Horig HA m drop. unfold Apply in HA. cbn [negb] in HA.
  apply (does_step _ _ _ _ _ ((does_ReadFile works) _)) in HA as (fs1 & F1 & HA). cbn [fst snd] in F1, HA.
  rewrite Horig in HA. fold (orig_copy cfg) in HA.
  apply (does_step _ _ _ _ _ ((does_FileExists works) _)) in HA as (fs2 & F2 & HA). cbn [fst snd] in F2, HA.
  rewrite F1 in HA, F2. set (bk := bool_decide (is_Some (f_files fs !! orig_copy cfg))) in *.
  eapply (does_step _ (fun m => (if bk then m else <[orig_copy cfg := orig]> m, true))) in HA
    as (fs3 & F3 & HA).
  2:{ destruct bk; [apply does_ret|apply (does_WriteFile works)]. }
  apply (does_step _ _ _ _ _ (does_writeBanner cfg)) in HA as (fs4 & F4 & HA).
  cbn [fst snd] in F3, F4, HA. rewrite F3, F2 in F4.
  apply (does_step _ _ _ _ _ ((does_ReadFile works) _)) in HA as (fs5 & F5 & HA). cbn [fst snd] in F5, HA.
  assert (Fm : f_files fs4 = m) by done. rewrite Fm in HA, F5. fold (drop_in cfg (m !! mainPath cfg)) in HA.
  fold drop in HA. clear F1 F2 F3 F4 Fm.
  apply (does_step _ _ _ _ _ (does_drop_file drop)) in HA as (fs6 & F6 & HA).
  cbn [fst snd] in F6, HA. rewrite F5 in F6, HA.
  apply (does_step _ _ _ _ _ (does_try_levels cfg v sshd_test orig _ _ _ _)) in HA as (fs7 & F7 & HA).
  cbn [fst snd] in F7, HA. rewrite F6 in F7, HA.
  pose proof (last_out_first cfg v sshd_test orig drop [0; 1; 2] [] m) as Hlast.
  destruct (first_accepted cfg v sshd_test orig drop [0; 1; 2] m) as [level|] eqn:Ea.
  - destruct Hlast as [Eo Et]. rewrite Eo in HA. rewrite Et in F7.
    apply (does_step _ _ _ _ _ ((does_ReadFile works) _)) in HA as (fs8 & F8 & HA). cbn [fst snd] in F8, HA.
    rewrite F7 in F8, HA.
    apply (does_step _ _ _ _ _ (does_drop_file drop)) in HA as (fs9 & F9 & HA).
    cbn [fst snd] in F9, HA. rewrite F8 in F9, HA.
    apply (does_step _ _ _ _ _ (does_finish noSystemd sv _)) in HA as (fsf & Ff & HA).
    rewrite F9 in Ff, HA. cbv zeta. cbn [fst snd] in Ff. injection HA as <- <- <-. by split_and!.
  - destruct Hlast as [out Eo]. rewrite Eo in HA.
    apply (does_step _ _ _ _ _ (does_rollback cfg orig drop (drop_file drop m))) in HA as (fs8 & F8 & HA).
    injection HA as <- <- <-. split; [done|]. split; [by exists out|]. intros q Ho Hb.
    rewrite F8. cbn [fst]. rewrite F7.
    pose proof (rolled_back cfg v sshd_test orig drop [0; 1; 2] m (f_files fs) q Horig
      (prepared_other _ _ _ _ Ho Hb)) as Hr.
    rewrite <- Hr. destruct drop as [[d p]|]; done.
Qed.

(** C27 On a working disk [Apply] settles on the first of the levels 0 (full), 1
    (compatible) and 2 (minimal) whose configuration sshd accepts, and then the files
    it leaves are ones sshd accepts; when sshd rejects all three, the main file and
    the drop-in are exactly as before (removed if there was none), the error carries
    sshd's message, and nothing but the pristine copy and the banner was written. *)
Theorem Apply_settles cfg v sshd_test sv banner_err noSystemd fs fs' orig r e :
  f_files fs !! mainPath cfg = Some orig ->
  (forall m d, sshd_test (<[limits_path sv := d]> m) = sshd_test m) ->
  Apply cfg true true noSystemd v sshd_test sv banner_err fs = (fs', (r, e)) ->
  let m := prepared_files cfg orig (f_files fs) in
  let drop := (fun d => (d, path_join d dropInName)) <$> dropInDir (mainPath cfg) (m !! mainPath cfg) in
  match first_accepted cfg v sshd_test orig drop [0; 1; 2] m with
  | Some level => (exists res, r = Some res /\ r_Level res = level) /\
      (sshd_test (f_files fs')).1 = true
  | None => r = None /\ (exists out, e = Some (rejected out)) /\
      forall q, q <> orig_copy cfg -> q <> bannerPath -> f_files fs' !! q = f_files fs !! q
  end.
Proof.
  intros Horig Hlim HA m drop.
  pose proof (Apply_cases _ _ _ _ _ _ _ _ _ _ _ Horig HA) as Hc. cbv zeta in Hc.
  fold m in Hc. change (drop_in cfg (m !! mainPath cfg)) with drop in Hc.
  destruct (first_accepted _ _ _ _ _ _ _) as [level|] eqn:Ea; [|done]. destruct Hc as (-> & -> & _).
  split; [eexists; split; [done|apply served_level]|].
  unfold with_limits. destruct noSystemd; rewrite ?Hlim; eapply first_accepted_ok, Ea.
Qed.
End working.

(* ------------------------------------------------------------------ *)
(** * Concrete runs                                                      *)
(* ------------------------------------------------------------------ *)

(** A disk whose operations all work. *)
Definition good_disk : Disk :=
  {| op_fails _ := false;
     torn := @torn (breaks_at 0);
     temp_name := @temp_name (breaks_at 0);
     temp_fresh := @temp_fresh (breaks_at 0) |}.

Definition etc_config : gostring := ssh_ConfigPath (SSH Defaults).
Definition etc_files : files :=
  {[etc_config := bs "Include /etc/ssh/sshd_config.d/*.conf" ++ [x0a]]}.
Definition drop_path : gostring := bs "/etc/ssh/sshd_config.d/00-sshvpn.conf".

(** An sshd that knows no PerSourcePenalties. *)
Definition old_sshd (m : files) : bool * gostring :=
  (negb (contains (default [] (m !! drop_path)) (bs "PerSourcePenalties")), bs "bad option").
Definition systemd : services := mkServices true false true true.
Definition run_apply (D : Disk) : fsys * (option Result * option apply_err) :=
  @Apply D Defaults true true false (mkVersion 0 0 []) old_sshd systemd [] (mkFs etc_files 0 []).

Lemma Apply_settles_witness :
  let r := run_apply good_disk in
  (exists res, r.2.1 = Some res /\ r_Level res = 1) /\ (old_sshd (f_files r.1)).1 = true.
Proof.
  destruct (run_apply good_disk) as [fs' [r e]] eqn:E. cbv zeta. cbn [fst snd].
  exact (@Apply_settles good_disk (fun _ => eq_refl) Defaults (mkVersion 0 0 []) old_sshd systemd []
    false (mkFs etc_files 0 []) fs' (bs "Include /etc/ssh/sshd_config.d/*.conf" ++ [x0a]) r e
    eq_refl (fun m d => f_equal (fun o : option gostring => (negb (contains (default [] o) (bs "PerSourcePenalties")), bs "bad option"))
       (lookup_insert_ne m (limits_path systemd) drop_path d ltac:(discriminate))) E).
Defined.

(* ------------------------------------------------------------------ *)
(** * Remove                                                             *)
(* ------------------------------------------------------------------ *)

Section remove.
Context `{Disk}.
Hypothesis works : forall n, op_fails n = false.
Variable cfg : Config.
Variable have_sshd : bool.
Variable sshd_test : files -> bool * gostring.

(** The drop-in that the main file's text leads to. *)
Definition drop_of (data : gostring) : option gostring :=
  (fun dir => path_join dir dropInName) <$> dropInDir (mainPath cfg) (Some data).
Definition without_drop (data : gostring) (m : files) : files :=
  match drop_of data with Some p => delete p m | None => m end.
(** What sshd is asked to accept. *)
Definition restored_files (data : gostring) (m : files) : files :=
  <[mainPath cfg := uncommentPorts (stripBlocks data)]> (without_drop data m).

Definition removal (m : files) : files * option apply_err :=
  match m !! mainPath cfg with
  | None => (m, Some cannotRead)
  | Some data =>
      let m' := restored_files data m in
      if have_sshd && negb (sshd_test m').1
      then (<[mainPath cfg := data]> m', Some (rejected (sshd_test m').2)) else (m', None)
  end.

Lemma does_RemoveAll : does (RemoveAll cfg have_sshd sshd_test) removal.
Proof.
  intros fs. unfold RemoveAll, removal, mbind, F_bind.
  destruct (does_ReadFile works (mainPath cfg) fs) as (fs1 & E1 & F1). rewrite E1. cbn [fst snd] in F1 |- *.
  destruct (f_files fs !! mainPath cfg) as [data|] eqn:Ed; [|by exists fs1].
  destruct (does_ReadFile works (mainPath cfg) fs1) as (fs2 & E2 & F2). rewrite E2. cbn [fst snd] in F2 |- *.
  rewrite F1, Ed. unfold restored_files, without_drop, drop_of.
  assert (Hd : exists fs3 b, (match dropInDir (mainPath cfg) (Some data) with
             | Some dir => Remove (path_join dir dropInName)
             | None => mret true
             end) fs2 = (fs3, b) /\ f_files fs3 = match (fun dir => path_join dir dropInName) <$> dropInDir (mainPath cfg) (Some data)
                         with Some p => delete p (f_files fs) | None => f_files fs end).
  { destruct (dropInDir _ _) as [dir|]; cbn [fmap option_fmap option_map].
    - destruct (does_change works (delete (path_join dir dropInName)) fs2) as (fs3 & E3 & F3).
      exists fs3, true. unfold Remove. rewrite E3. cbn in F3. by rewrite F3, F2, F1.
    - exists fs2, true. by rewrite F2, F1. }
  destruct Hd as (fs3 & b & E3 & F3). rewrite E3.
  destruct (does_WriteFileAtomic works (mainPath cfg) (uncommentPorts (stripBlocks data)) fs3)
    as (fs4 & E4 & F4). rewrite E4. cbn [fst snd] in F4 |- *. cbn [negb].
  rewrite F3 in F4. unfold run_test.
  destruct have_sshd; cbn [negb andb]; [|by exists fs4]. rewrite F4.
  destruct (sshd_test _) as [ok out]. cbn [fst snd]. destruct ok; cbn [negb]; [by exists fs4|].
  destruct (does_WriteFile works (mainPath cfg) data fs4) as (fs5 & E5 & F5). rewrite E5.
  cbn in F5. exists fs5. by rewrite F5, F4.
Qed.

(** [Remove] is documented to delete everything [Apply] added. It touches the main
    file and the drop-in only: the raised file limit of sshd's unit, the banner and the
    pristine copy stay. *)
Lemma RemoveAll_leaves (m : files) q : q <> mainPath cfg ->
  (forall data p, m !! mainPath cfg = Some data -> drop_of data = Some p -> q <> p) ->
  (removal m).1 !! q = m !! q.
Proof.
  intros Hm Hd. unfold removal. destruct (m !! mainPath cfg) as [data|] eqn:Ed; [|done].
  assert (E : restored_files data m !! q = m !! q).
  { unfold restored_files, without_drop. rewrite lookup_insert_ne by done.
    destruct (drop_of data) as [p|] eqn:Ep; [|done]. rewrite lookup_delete_ne; [done|].
    intros ->. by eapply Hd. }
  destruct (have_sshd && _); cbn [fst]; [|exact E]. by rewrite lookup_insert_ne.
Qed.

(** When sshd rejects the restored file, the message says that the current settings
    are kept; the main file is, but the drop-in has already been deleted. *)
Lemma RemoveAll_rejected (m : files) data p : m !! mainPath cfg = Some data ->
  have_sshd = true -> (sshd_test (restored_files data m)).1 = false ->
  drop_of data = Some p -> p <> mainPath cfg ->
  (removal m).1 !! mainPath cfg = Some data /\ (removal m).1 !! p = None.
Proof.
  intros Ed Hh Ht Hp Hne. unfold removal. rewrite Ed, Hh, Ht. cbn [andb negb fst].
  rewrite lookup_insert_eq. split; [done|]. rewrite lookup_insert_ne by done.
  unfold restored_files, without_drop. rewrite Hp, lookup_insert_ne by done. by rewrite lookup_delete_eq.
Qed.
End remove.

(** When the directory or the drop-in cannot be written at a later level, [Apply]
    returns without restoring anything: no operation follows the failed one, and the
    drop-in of the level before, which sshd has rejected, stays. *)
Lemma Apply_leaves_rejected :
  let r := run_apply (breaks_at 23) in
  r.2 = (None, Some cannotWrite) /\ f_ops r.1 = 24%nat /\
  (old_sshd etc_files).1 = true /\ (old_sshd (f_files r.1)).1 = false.
Proof. vm_compute. by repeat split. Qed.
