(* ===== verification/SshdAgain.v ===== *)
(** Running [Apply] of [Sshd] again changes nothing. *)
From S2P Require Import Prelude GoStrings Paths Files Config Sshd SshdProps SshdApply.

Lemma eqb_str_refl s : eqb_str s s = true.
Proof. by apply eqb_str_true. Qed.

Section again.
Context `{Disk}.
Hypothesis works : forall n, op_fails n = false.
Variable cfg : Config.
Variable v : Version.
Variable sshd_test : files -> bool * gostring.
Variable sv : services.
Variable banner_err : gostring.
Variable noSystemd : bool.
Hypothesis limits_ignored : forall m d, sshd_test (<[limits_path sv := d]> m) = sshd_test m.

Abbreviation main := (mainPath cfg).
Abbreviation lim := (limits_path sv).

(** The files that [Apply] writes are different ones. *)
Definition own_paths (drop : option (gostring * gostring)) : Prop :=
  NoDup (main :: bannerPath :: lim :: match drop with Some (_, p) => [p] | None => [] end).

Lemma with_limits_other m q : q <> lim -> with_limits noSystemd sv m !! q = m !! q.
Proof. intros Hq. unfold with_limits. destruct noSystemd; [done|]. by rewrite lookup_insert_ne. Qed.
Lemma with_limits_twice m : with_limits noSystemd sv (with_limits noSystemd sv m) = with_limits noSystemd sv m.
Proof. unfold with_limits. destruct noSystemd; [done|]. by rewrite insert_insert_eq. Qed.

Lemma limits_tested m : sshd_test (with_limits noSystemd sv m) = sshd_test m.
Proof. unfold with_limits. destruct noSystemd; [done|apply limits_ignored]. Qed.

Section paths.
Variable drop : option (gostring * gostring).
Variable orig : gostring.
Hypothesis Hown : own_paths drop.

Lemma main_ne_lim : main <> lim.
Proof. intros E. apply NoDup_cons in Hown as [Hn _]. apply Hn. rewrite E. set_solver. Qed.
Lemma main_ne_banner : main <> bannerPath.
Proof. intros E. apply NoDup_cons in Hown as [Hn _]. apply Hn. rewrite E. set_solver. Qed.
Lemma banner_ne_lim : bannerPath <> lim.
Proof. intros E. apply NoDup_cons in Hown as [_ [Hn _]%NoDup_cons]. apply Hn. rewrite E. set_solver. Qed.
Lemma drop_ne d p : drop = Some (d, p) -> p <> main /\ p <> bannerPath /\ p <> lim.
Proof.
  intros ->. unfold own_paths in Hown. rewrite !NoDup_cons in Hown. destruct Hown as (H1 & H2 & H3 & _).
  split_and!; intros ->; set_solver.
Qed.

(** Writing the limits file before or after a level's files is the same. *)
Lemma tried_limits l m :
  tried cfg v orig drop l (with_limits noSystemd sv m) = with_limits noSystemd sv (tried cfg v orig drop l m).
Proof.
  pose proof drop_ne as Hd. pose proof main_ne_lim as Hml.
  unfold with_limits. destruct noSystemd; [done|]. unfold tried. apply map_eq. intros q.
  destruct drop as [[d p]|]; rewrite !lookup_insert; repeat case_decide; try congruence.
  destruct (Hd d p eq_refl) as (_ & _ & Hp). congruence.
Qed.

(** The files of an accepted level have their pristine copy and their banner. *)
Lemma prepared_again l orig' m :
  let t := with_limits noSystemd sv (tried cfg v orig drop l (prepared_files cfg orig m)) in
  prepared_files cfg orig' t = t.
Proof.
  intros t. assert (Hcopy : is_Some (t !! orig_copy cfg)).
  { assert (Hi : forall (m : files) p q (d : gostring), is_Some (m !! q) -> is_Some (<[p := d]> m !! q))
      by (intros; apply lookup_insert_is_Some'; by right).
    assert (Hm : is_Some (prepared_files cfg orig m !! orig_copy cfg)).
    { unfold prepared_files. case_bool_decide; destruct (trim_space _); [done|by apply Hi| |apply Hi];
        rewrite lookup_insert_eq; by eexists. }
    unfold t, with_limits, tried. destruct noSystemd, drop as [[d p]|]; auto 10. }
  unfold prepared_files at 1. rewrite bool_decide_true by done.
  destruct (trim_space (ssh_Banner (SSH cfg))) as [|x text] eqn:Eb; [done|]. apply insert_id.
  pose proof drop_ne as Hd. pose proof main_ne_banner as Hmb.
  unfold t. rewrite with_limits_other by apply banner_ne_lim. unfold tried.
  rewrite lookup_insert_ne by done.
  assert (Hp : prepared_files cfg orig m !! bannerPath = Some ((x :: text) ++ [x0a])).
  { unfold prepared_files. rewrite Eb. by rewrite lookup_insert_eq. }
  destruct drop as [[d p]|]; [|exact Hp]. destruct (Hd d p eq_refl) as (_ & Hb & _).
  by rewrite lookup_insert_ne.
Qed.
End paths.

Lemma level_again drop orig l l' m : no_marks cfg -> plain orig ->
  tried cfg v (new_main cfg v (is_drop drop) orig l) drop l' m = tried cfg v orig drop l' m.
Proof. intros Hc Hp. unfold tried. by rewrite new_main_again. Qed.

Lemma accepted_again drop orig ls m m' : own_paths drop ->
  m' = with_limits noSystemd sv m ->
  first_accepted cfg v sshd_test orig drop ls m' = first_accepted cfg v sshd_test orig drop ls m.
Proof.
  intros Hown ->. induction ls as [|l ls IH]; [done|]. cbn [first_accepted].
  by rewrite tried_limits, limits_tested, IH.
Qed.

Lemma served_idle res m : r_Changed res = false -> r_Restarted res = false ->
  changes lim limits_text (with_limits false sv m) = false /\
  let '(res', e) := served noSystemd sv res (with_limits noSystemd sv m) in
  r_Changed res' = false /\ (sv_socket sv = false -> r_Restarted res' = false /\ e = None).
Proof.
  intros Hc Hr. assert (Hn : changes lim limits_text (with_limits false sv m) = false).
  { unfold changes, with_limits. rewrite lookup_insert_eq. by rewrite eqb_str_refl. }
  split; [done|]. unfold served. destruct noSystemd; [done|]. rewrite Hn, orb_false_r, Hc, Hr. cbv zeta.
  destruct (sv_socket sv); [by destruct (sv_restart_ok sv)|done].
Qed.

Lemma same_levels drop orig orig' ls m :
  (forall l m, tried cfg v orig' drop l m = tried cfg v orig drop l m) ->
  first_accepted cfg v sshd_test orig' drop ls m = first_accepted cfg v sshd_test orig drop ls m.
Proof. intros Ht. induction ls as [|l ls IH]; [done|]. cbn [first_accepted]. by rewrite Ht, IH. Qed.

(** C28 Applying is idempotent: on a working disk, after a run that sshd accepted, a second
    run settles on the same level and leaves every file as it is; it reports no change,
    and unless a socket unit has to be switched off it neither reloads nor restarts sshd.
    The conditions: the original file has no marks of its own and the settings contain
    no parenthesis, the files written are different ones, the test of sshd does not read
    the limits of its unit, and the main file includes the same directory as before. *)
Theorem Apply_idempotent orig fs fs1 fs2 res e r2 e2 :
  let drop := drop_in cfg (Some orig) in
  f_files fs !! main = Some orig -> no_marks cfg -> plain orig -> own_paths drop ->
  (forall l, drop_in cfg (Some (new_main cfg v (is_drop drop) orig l)) = drop) ->
  Apply cfg true true noSystemd v sshd_test sv banner_err fs = (fs1, (Some res, e)) ->
  Apply cfg true true noSystemd v sshd_test sv banner_err fs1 = (fs2, (r2, e2)) ->
  f_files fs2 = f_files fs1 /\
  exists res2, r2 = Some res2 /\ r_Level res2 = r_Level res /\ r_Changed res2 = false /\
    (sv_socket sv = false -> r_Restarted res2 = false /\ e2 = None).
Proof.
  intros drop Horig Hc Hp Hown Hinc H1 H2.
  pose proof (Apply_cases works _ _ _ _ _ _ _ _ _ _ _ Horig H1) as C1. cbv zeta in C1.
  set (m := prepared_files cfg orig (f_files fs)) in C1.
  assert (Hm : m !! main = Some orig).
  { unfold m. rewrite prepared_other; [done| |by eapply main_ne_banner].
    intros E. apply (f_equal length) in E. unfold orig_copy in E. rewrite length_app in E. cbn in E. lia. }
  rewrite Hm in C1. fold drop in C1.
  destruct (first_accepted cfg v sshd_test orig drop [0; 1; 2] m) as [level|] eqn:Ea; [|by destruct C1].
  destruct C1 as (F1 & Eres & _). set (t := with_limits noSystemd sv (tried cfg v orig drop level m)) in F1.
  assert (Hmain : t !! main = Some (new_main cfg v (is_drop drop) orig level)).
  { unfold t. rewrite with_limits_other by by eapply main_ne_lim. unfold tried. by rewrite lookup_insert_eq. }
  assert (Hmain1 : f_files fs1 !! main = Some (new_main cfg v (is_drop drop) orig level)) by by rewrite F1.
  pose proof (Apply_cases works _ _ _ _ _ _ _ _ _ _ _ Hmain1 H2) as C2. cbv zeta in C2.
  rewrite F1 in C2. fold m in t. pose proof (prepared_again drop orig Hown level
    (new_main cfg v (is_drop drop) orig level) (f_files fs)) as Hprep. cbv zeta in Hprep.
  fold m in Hprep. fold t in Hprep. rewrite Hprep, Hmain, Hinc in C2.
  set (orig1 := new_main cfg v (is_drop drop) orig level) in *.
  assert (Ht : forall l m, tried cfg v orig1 drop l m = tried cfg v orig drop l m)
    by (intros; by apply level_again).
  rewrite (same_levels drop orig orig1), (accepted_again drop orig _ _ t Hown eq_refl),
    first_accepted_again, Ea, Ht in C2 by done.
  assert (Hself : tried cfg v orig drop level t = t) by (unfold t; by rewrite tried_limits, tried_again).
  rewrite Hself in C2. destruct C2 as (F2 & -> & ->).
  split; [rewrite F2, F1; unfold t; apply with_limits_twice|].
  injection Eres as ->. eexists. split; [done|]. rewrite !served_level. split; [done|].
  set (res2 := level_result cfg v drop orig1 level t).
  assert (Hch : r_Changed res2 = false).
  { unfold res2, level_result. cbv zeta. cbn [r_Changed]. rewrite Ht, Hself.
    apply orb_false_intro; [apply negb_false_iff, eqb_str_true; exact (f_equal (default []) Hmain)|].
    destruct drop as [[d p]|]; [by rewrite eqb_str_refl|done]. }
  destruct (served_idle res2 (tried cfg v orig drop level m) Hch eq_refl) as [_ Hs]. fold t in Hs.
  by destruct (served noSystemd sv res2 t) as [res' e'].
Qed.
End again.

(* ------------------------------------------------------------------ *)
(** * A second run                                                       *)
(* ------------------------------------------------------------------ *)

Definition main_text : gostring :=
  bs "Include /etc/ssh/sshd_config.d/*.conf" ++ [x0a] ++ bs "Port 2222" ++ [x0a].
Definition one_apply (fs : fsys) : fsys * (option Result * option apply_err) :=
  @Apply good_disk Defaults true true false (mkVersion 0 0 []) old_sshd systemd [] fs.
Definition main_only : fsys := mkFs {[etc_config := main_text]} 0 [].

Lemma defaults_no_marks : no_marks Defaults.
Proof. split; intros Hn; not_elem Hn. Qed.
Lemma main_text_plain : plain main_text.
Proof. by apply closed_plain. Qed.
Lemma main_text_paths : own_paths Defaults systemd (drop_in Defaults (Some main_text)).
Proof. apply (bool_decide_unpack _). vm_compute. exact I. Qed.

Lemma Apply_idempotent_witness :
  let r1 := one_apply main_only in
  let r2 := one_apply r1.1 in
  f_files r2.1 = f_files r1.1 /\ r_Level <$> r2.2.1 = Some 1 /\ r_Changed <$> r2.2.1 = Some false.
Proof.
  cbv zeta. destruct (one_apply main_only) as [fs1 [r e]] eqn:E1. cbn [fst].
  destruct (one_apply fs1) as [fs2 [r2 e2]] eqn:E2. cbn [fst snd].
  assert (Hr : r_Level <$> r = Some 1).
  { apply (f_equal (fun x => r_Level <$> x.2.1)) in E1. cbn [fst snd] in E1. rewrite <- E1. vm_compute. reflexivity. }
  destruct r as [res|]; [|done]. injection Hr as Hr.
  destruct (@Apply_idempotent good_disk (fun _ => eq_refl) Defaults (mkVersion 0 0 []) old_sshd systemd []
    false (fun m d => f_equal (fun o : option gostring => (negb (contains (default [] o) (bs "PerSourcePenalties")), bs "bad option"))
       (lookup_insert_ne m (limits_path systemd) drop_path d ltac:(discriminate)))
    main_text main_only fs1 fs2 res e r2 e2) as (Hf & res2 & -> & Hl & Hch & _).
  - reflexivity.
  - exact defaults_no_marks.
  - exact main_text_plain.
  - exact main_text_paths.
  - intros l. vm_compute. reflexivity.
  - exact E1.
  - exact E2.
  - exact (conj Hf (conj (f_equal Some (eq_trans Hl Hr)) (f_equal Some Hch))).
Defined.
