(* ===== verification/Security.v ===== *)
(** Input validation and generated passwords
    ([src/internal/security/sanitize.go] and [credentials.go]). *)
From S2P Require Import Prelude GoStrings NetAddr NetParse.

(* ------------------------------------------------------------------ *)
(** * User names                                                         *)
(* ------------------------------------------------------------------ *)

Definition is_letter (b : byte) : bool :=
  let n := b2z b in ((97 <=? n) && (n <=? 122)) || ((65 <=? n) && (n <=? 90)).
Definition is_digit (b : byte) : bool := (48 <=? b2z b) && (b2z b <=? 57).

(** [^[a-zA-Z][a-zA-Z0-9_-]{2,31}$] (Go's [$] is the end of the text). *)
Definition usernameRegex (s : gostring) : bool :=
  match s with
  | [] => false
  | c :: rest =>
      is_letter c &&
      forallb (fun b => is_letter b || is_digit b || bool_decide (b = x5f) || bool_decide (b = x2d)) rest &&
      (2 <=? len rest) && (len rest <=? 31)
  end.

Definition reserved : gset gostring := list_to_set (bs <$>
  ["root"; "admin"; "daemon"; "bin"; "sys"; "sync"; "games"; "man"; "mail"; "news";
   "uucp"; "proxy"; "www-data"; "nobody"; "sshd"; "systemd-network"; "sshvpn";
   "ubuntu"; "debian"; "centos"; "postgres"; "mysql"]%string).

Inductive usererr : Type := emptyName | invalidName | reservedName.

Definition ValidateUsername `{Unicode} (username : gostring) : option usererr :=
  match username with
  | [] => Some emptyName
  | _ =>
      if negb (usernameRegex username) then Some invalidName
      else if decide (to_lower username ∈ reserved) then Some reservedName
      else None
  end.

Definition ValidatePort (port : Z) : bool := negb ((port <? 1) || (65535 <? port)).

Definition ValidateIP (ip : gostring) : bool := ParseIP_ok ip.
(** The port is not looked at. *)
Definition ValidateListenAddr (addr : gostring) : bool :=
  match SplitHostPort addr with
  | None => false
  | Some ([], _) => true
  | Some (host, _) => ValidateIP host
  end.

(* ------------------------------------------------------------------ *)
(** * Shell arguments and passwords                                      *)
(* ------------------------------------------------------------------ *)

Definition shellDangerChars : list byte :=
  [x3b; x7c; x26; x60; x24; x28; x29; x7b; x7d; x3c; x3e; x0a; x0d; x5c; x27; x22].

Definition SanitizeShellArg (s : gostring) : gostring :=
  trim_space (foldl (fun r ch => replace_all r [ch] []) s shellDangerChars).

Inductive pwerr : Type :=
| tooShort
| tooLong
| notPrintable
| disallowedChar (c : byte).

(** The loop over the runes of the password: any byte above 0x7e starts a rune
    above it, so the first offending rune is found at its first byte. *)
Fixpoint check_password_chars (s : gostring) : option pwerr :=
  match s with
  | [] => None
  | c :: s =>
      if (b2z c <? 33) || (126 <? b2z c) then Some notPrintable
      else if bool_decide (c ∈ [x3a; x22; x27; x5c; x60]) then Some (disallowedChar c)
      else check_password_chars s
  end.

Definition ValidatePassword (password : gostring) : option pwerr :=
  if len password <? 6 then Some tooShort
  else if 128 <? len password then Some tooLong
  else check_password_chars password.

Definition charset : gostring :=
  bs "abcdefghijkmnopqrstuvwxyzABCDEFGHJKLMNPQRSTUVWXYZ23456789".

(** [GenerateRandomPassword], given the numbers that [rand.Int] draws (each below
    the size of the character set), or [None] for its error. *)
Fixpoint draw (n : nat) (rand : nat -> option Z) (i : nat) : option gostring :=
  match n with
  | O => Some []
  | S n =>
      match rand i with
      | None => None
      | Some k => match draw n rand (S i) with
                  | Some s => Some (byte_at k charset :: s)
                  | None => None
                  end
      end
  end.

Definition GenerateRandomPassword (length : Z) (rand : nat -> option Z) : option gostring :=
  draw (Z.to_nat (if length <? 8 then 8 else length)) rand 0.

(* ------------------------------------------------------------------ *)
(** * Properties                                                         *)
(* ------------------------------------------------------------------ *)

Lemma replace_go_delete ch s x : x ∈ replace_go 0 [ch] [] s <-> x ∈ s /\ x <> ch.
Proof.
  induction s as [|y s IH]; cbn [replace_go has_prefix length Nat.sub]; [set_solver|].
  destruct (decide (y = ch)) as [->|Hne]; cbn [app]; rewrite !elem_of_cons, ?IH; naive_solver.
Qed.

Lemma sanitize_fold l s x :
  x ∈ foldl (fun r ch => replace_all r [ch] []) s l <-> x ∈ s /\ x ∉ l.
Proof.
  revert s. induction l as [|ch l IH]; intros s; cbn [foldl]; [set_solver|].
  rewrite IH. unfold replace_all. rewrite replace_go_delete, not_elem_of_cons. naive_solver.
Qed.

(** A sanitised argument has no character a shell gives a meaning to, and none
    that was not in the argument. *)
Lemma SanitizeShellArg_safe s x :
  x ∈ SanitizeShellArg s -> x ∈ s /\ x ∉ shellDangerChars.
Proof. intros Hx%trim_space_elem. by apply sanitize_fold. Qed.

Lemma usernameRegex_chars s x : usernameRegex s = true -> x ∈ s ->
  is_letter x = true \/ is_digit x = true \/ x = x5f \/ x = x2d.
Proof.
  destruct s as [|c rest]; [done|]. cbn [usernameRegex].
  rewrite !andb_true_iff. intros (((Hc & Hall) & _) & _) [->|Hx]%elem_of_cons; [by left|].
  rewrite forallb_forall in Hall. specialize (Hall x (proj1 (list_elem_of_In _ _) Hx)).
  rewrite !orb_true_iff in Hall. rewrite !bool_decide_eq_true in Hall. tauto.
Qed.

Lemma name_char_safe x :
  is_letter x = true \/ is_digit x = true \/ x = x5f \/ x = x2d ->
  b2z x < 128 /\ (x ∉ [x3a; x0a; x20; x2f; x00]) /\ (x ∉ shellDangerChars).
Proof.
  intros H. assert (Hb : is_letter x || is_digit x || bool_decide (x = x5f) || bool_decide (x = x2d) = true).
  { rewrite !orb_true_iff, !bool_decide_eq_true. tauto. }
  clear H. assert (Hall : bool_decide (b2z x < 128 /\ (x ∉ [x3a; x0a; x20; x2f; x00]) /\ (x ∉ shellDangerChars)) = true).
  { revert Hb. destruct x; intros Hb; (discriminate Hb || (vm_compute; reflexivity)). }
  by apply bool_decide_eq_true in Hall.
Qed.

Lemma username_no_colon `{Unicode} u : ValidateUsername u = None -> x3a ∉ u.
Proof.
  unfold ValidateUsername. destruct u as [|c rest]; [done|].
  destruct (usernameRegex (c :: rest)) eqn:E; [|done]. intros _ Hx.
  destruct (name_char_safe _ (usernameRegex_chars _ _ E Hx)) as (_ & Hn & _). apply Hn. left.
Qed.

(** C16 A validated user name is safe wherever the program puts it: 3 to 32 ASCII
    characters starting with a letter (so no command takes it for an option),
    without colon, newline, blank, slash or any shell metacharacter, hence one
    field of [/etc/passwd] and of [chpasswd]'s input; and not reserved in any
    spelling of its case. *)
Theorem ValidateUsername_safe `{Unicode} u :
  ValidateUsername u = None ->
  3 <= len u <= 32 /\
  (exists c rest, u = c :: rest /\ is_letter c = true) /\
  (forall x, x ∈ u -> b2z x < 128 /\ (x ∉ [x3a; x0a; x20; x2f; x00]) /\ (x ∉ shellDangerChars)) /\
  (lower_byte <$> u) ∉ reserved.
Proof.
  unfold ValidateUsername. destruct u as [|c rest]; [done|].
  destruct (usernameRegex (c :: rest)) eqn:E; [|done]. cbn [negb].
  case_decide as Hres; [done|]. intros _.
  assert (Hch : forall x, x ∈ c :: rest ->
    b2z x < 128 /\ (x ∉ [x3a; x0a; x20; x2f; x00]) /\ (x ∉ shellDangerChars)).
  { intros x Hx. by apply name_char_safe, (usernameRegex_chars (c :: rest)). }
  split; [|split; [|split; [exact Hch|]]].
  - cbn [usernameRegex] in E. rewrite len_cons. lia.
  - exists c, rest. split; [done|]. cbn [usernameRegex] in E.
    rewrite !andb_true_iff in E. tauto.
  - assert (Ha : is_ascii (c :: rest) = true).
    { unfold is_ascii. apply forallb_forall. intros x Hx%list_elem_of_In.
      apply Z.ltb_lt, (Hch x Hx). }
    unfold to_lower in Hres. by rewrite Ha in Hres.
Qed.

Lemma ValidateUsername_safe_witness :
  3 <= len (bs "alice-1") <= 32 /\ (lower_byte <$> bs "alice-1") ∉ reserved.
Proof.
  destruct (@ValidateUsername_safe {| lower_unicode := id; upper_unicode := id |} (bs "alice-1"))
    as (H1 & _ & _ & H2); [vm_compute; reflexivity|]. split; [exact H1|exact H2].
Defined.

Lemma draw_spec n rand i s :
  draw n rand i = Some s -> (forall j k, rand j = Some k -> 0 <= k < len charset) ->
  length s = n /\ forall x, x ∈ s -> x ∈ charset.
Proof.
  intros Hd Hr. revert i s Hd. induction n as [|n IH]; intros i s; cbn [draw].
  - intros [= <-]. split; [done|set_solver].
  - destruct (rand i) as [k|] eqn:Ek; [|done].
    destruct (draw n rand (S i)) as [s'|] eqn:Es; [|done]. intros [= <-].
    destruct (IH _ _ Es) as [<- Hx]. split; [done|].
    intros x [->|?]%elem_of_cons; [|auto].
    unfold byte_at. apply list_elem_of_In, nth_In. apply Hr in Ek. unfold len in Ek. lia.
Qed.

Lemma charset_chars x :
  x ∈ charset -> 33 <= b2z x <= 126 /\ (x ∉ [x3a; x22; x27; x5c; x60]) /\
                 (x ∉ [x30; x4f; x31; x6c; x49]).
Proof.
  intros Hx. assert (Hall : forallb (fun x => bool_decide (33 <= b2z x <= 126 /\
      (x ∉ [x3a; x22; x27; x5c; x60]) /\ (x ∉ [x30; x4f; x31; x6c; x49]))) charset = true)
    by (vm_compute; reflexivity).
  rewrite forallb_forall in Hall. apply list_elem_of_In, Hall in Hx.
  by apply bool_decide_eq_true in Hx.
Qed.

Lemma check_password_chars_ok s :
  (forall x, x ∈ s -> 33 <= b2z x <= 126 /\ x ∉ [x3a; x22; x27; x5c; x60]) ->
  check_password_chars s = None.
Proof.
  induction s as [|c s IH]; intros Hs; [done|]. cbn [check_password_chars].
  destruct (Hs c) as [Hc1 Hc2]; [left|].
  rewrite (proj2 (Z.ltb_ge _ _)), (proj2 (Z.ltb_ge _ _)) by lia. cbn [orb].
  rewrite bool_decide_eq_false_2 by done. apply IH. intros x Hx. apply Hs. by right.
Qed.

(** Generated passwords are accepted by the program's own validation (for every
    requested length up to the maximum), are at least eight characters long, and
    contain none of the characters that look alike. *)
Theorem GenerateRandomPassword_valid n rand p :
  GenerateRandomPassword n rand = Some p -> n <= 128 ->
  (forall j k, rand j = Some k -> 0 <= k < len charset) ->
  ValidatePassword p = None /\ len p = Z.max 8 n /\
  forall x, x ∈ p -> x ∉ [x30; x4f; x31; x6c; x49].
Proof.
  unfold GenerateRandomPassword. intros Hd Hn Hr.
  destruct (draw_spec _ _ _ _ Hd Hr) as [Hl Hx].
  assert (Hlen : len p = Z.max 8 n) by (unfold len; rewrite Hl; case_if; lia).
  split_and!; [|done|].
  - unfold ValidatePassword. rewrite (proj2 (Z.ltb_ge _ _)), (proj2 (Z.ltb_ge _ _)) by lia.
    apply check_password_chars_ok. intros x Hin. apply Hx, charset_chars in Hin. tauto.
  - intros x Hin. apply Hx, charset_chars in Hin. tauto.
Qed.

Lemma GenerateRandomPassword_valid_witness :
  ValidatePassword (bs "aaaaaaaaaa") = None.
Proof.
  apply (GenerateRandomPassword_valid 10 (fun _ => Some 0) (bs "aaaaaaaaaa"));
    [vm_compute; reflexivity|lia|].
  intros j k [= <-]. by vm_compute.
Defined.

(** [ValidateListenAddr] is about addresses in host:port form, and leaves the port
    to [SplitHostPort], which does not look at it either: any text passes. *)
Lemma ValidateListenAddr_any_port port :
  x3a ∉ port -> x5b ∉ port -> x5d ∉ port -> ValidateListenAddr (bs "127.0.0.1:" ++ port) = true.
Proof.
  intros Hc Ho Hb. unfold ValidateListenAddr.
  change (bs "127.0.0.1:" ++ port) with (bs "127.0.0.1" ++ x3a :: port).
  rewrite SplitHostPort_plain; [vm_compute; reflexivity| |done..].
  assert (Hall : forallb (fun c => bool_decide (c <> x3a /\ c <> x5b /\ c <> x5d)) (bs "127.0.0.1") = true)
    by (vm_compute; reflexivity).
  rewrite forallb_forall in Hall. intros c Hin%list_elem_of_In.
  exact (bool_decide_eq_true_1 _ (Hall c Hin)).
Qed.
