(* ===== verification/Credentials.v ===== *)
(** Password hashes ([src/internal/security/credentials.go]): the encoded form
    [$argon2id$salt$hash] and its verification. Argon2 is a third-party package and a
    parameter; raw base64 is the library's own text format and executable. *)
From S2P Require Import Prelude GoStrings GoCrypto.

(* ------------------------------------------------------------------ *)
(** * Raw base64                                                         *)
(* ------------------------------------------------------------------ *)

(** [base64.RawStdEncoding.EncodeToString] *)
Fixpoint raw64 (m : gostring) : gostring :=
  match m with
  | a :: b :: c :: m =>
      let n := be_num [a; b; c] in
      base64_char (n / 2 ^ 18) :: base64_char (n / 2 ^ 12) ::
      base64_char (n / 2 ^ 6) :: base64_char n :: raw64 m
  | [a; b] =>
      let n := be_num [a; b; x00] in
      [base64_char (n / 2 ^ 18); base64_char (n / 2 ^ 12); base64_char (n / 2 ^ 6)]
  | [a] =>
      let n := be_num [a; x00; x00] in
      [base64_char (n / 2 ^ 18); base64_char (n / 2 ^ 12)]
  | [] => []
  end.

Definition base64_value (c : byte) : option Z := Z.of_nat <$> index_byte base64_alphabet c.

(** Four characters, or the two or three of the end, whose superfluous bits are
    ignored (the encoding is not [Strict]); one character alone is an error. *)
Fixpoint raw64_values (vs : list Z) : option gostring :=
  match vs with
  | [] => Some []
  | [_] => None
  | [a; b] => Some [z2b ((a * 2 ^ 18 + b * 2 ^ 12) / 2 ^ 16)]
  | [a; b; c] =>
      let n := a * 2 ^ 18 + b * 2 ^ 12 + c * 2 ^ 6 in Some [z2b (n / 2 ^ 16); z2b (n / 2 ^ 8)]
  | a :: b :: c :: d :: vs =>
      let n := a * 2 ^ 18 + b * 2 ^ 12 + c * 2 ^ 6 + d in
      rest ← raw64_values vs; Some (z2b (n / 2 ^ 16) :: z2b (n / 2 ^ 8) :: z2b n :: rest)
  end.
(** [DecodeString]: line ends are skipped, any other character outside of the
    alphabet is an error. *)
Definition raw64_decode (s : gostring) : option gostring :=
  vs ← mapM base64_value (filter (fun c => c <> x0a /\ c <> x0d) s); raw64_values vs.

(* ------------------------------------------------------------------ *)
(** * Hashing and verifying                                              *)
(* ------------------------------------------------------------------ *)

Definition saltLen : nat := 16.
Definition argonKeyLen : nat := 32.

Inductive hasherr : Type := invalidFormat | badSalt | badHash.

Section credentials.
(** [argon2.IDKey] with the parameters of the package. *)
Variable IDKey : gostring -> gostring -> gostring.

(** [rand.Read] gives the salt, or fails. *)
Definition HashPassword (password : gostring) (salt : option gostring) : option gostring :=
  match salt with
  | None => None
  | Some salt =>
      Some (bs "$argon2id$" ++ raw64 salt ++ bs "$" ++ raw64 (IDKey password salt))
  end.

(** [subtle.ConstantTimeCompare] of texts of different lengths is 0. *)
Definition VerifyPassword (password encoded : gostring) : result hasherr bool :=
  match split_on x24 encoded with
  | [_; kind; salt64; hash64] =>
      if negb (eqb_str kind (bs "argon2id")) then Err invalidFormat
      else match raw64_decode salt64 with
           | None => Err badSalt
           | Some salt =>
               match raw64_decode hash64 with
               | None => Err badHash
               | Some expected => Ok (eqb_str (IDKey password salt) expected)
               end
           end
  | _ => Err invalidFormat
  end.
End credentials.

(* ------------------------------------------------------------------ *)
(** * Properties                                                         *)
(* ------------------------------------------------------------------ *)

Lemma base64_value_char n : base64_value (base64_char n) = Some (n mod 64).
Proof.
  unfold base64_char. pose proof (Z.mod_pos_bound n 64 ltac:(lia)) as Hb.
  assert (Hall : forallb (fun k => bool_decide (base64_value (byte_at (Z.of_nat k) base64_alphabet)
                                                = Some (Z.of_nat k))) (seq 0 64) = true)
    by (vm_compute; reflexivity).
  rewrite forallb_forall in Hall.
  specialize (Hall (Z.to_nat (n mod 64)) ltac:(apply in_seq; lia)).
  apply bool_decide_eq_true in Hall. by rewrite Z2Nat.id in Hall by lia.
Qed.

Lemma base64_char_plain n : base64_char n <> x0a /\ base64_char n <> x0d /\ base64_char n <> x24.
Proof.
  assert (Hall : forallb (fun c => bool_decide (c <> x0a /\ c <> x0d /\ c <> x24)) base64_alphabet = true)
    by (vm_compute; reflexivity).
  rewrite forallb_forall in Hall. pose proof (base64_char_in n) as Hx.
  apply list_elem_of_In, Hall in Hx. by apply bool_decide_eq_true in Hx.
Qed.

(** The characters of raw base64, and the digits behind them. *)
Fixpoint raw64_digits (m : gostring) : list Z :=
  match m with
  | a :: b :: c :: m =>
      let n := be_num [a; b; c] in n / 2 ^ 18 :: n / 2 ^ 12 :: n / 2 ^ 6 :: n :: raw64_digits m
  | [a; b] => let n := be_num [a; b; x00] in [n / 2 ^ 18; n / 2 ^ 12; n / 2 ^ 6]
  | [a] => let n := be_num [a; x00; x00] in [n / 2 ^ 18; n / 2 ^ 12]
  | [] => []
  end.

(** Lists three at a time. *)
Lemma by_threes {A} (P : list A -> Prop) :
  P [] -> (forall a, P [a]) -> (forall a b, P [a; b]) ->
  (forall a b c l, P l -> P (a :: b :: c :: l)) -> forall l, P l.
Proof.
  intros H0 H1 H2 H3 l. enough (Hn : forall n l, (length l <= n)%nat -> P l) by eauto. clear l.
  intros n. induction n as [|n IH]; intros [|a [|b [|c l]]] Hl; cbn [length] in *; auto; try lia.
  apply H3, IH. lia.
Qed.

Lemma raw64_chars m : raw64 m = base64_char <$> raw64_digits m.
Proof.
  induction m as [| | |a b c m IH] using by_threes; cbn [raw64 raw64_digits]; [done..|].
  cbv zeta. by rewrite IH.
Qed.

Lemma raw64_no_dollar m : x24 ∉ raw64 m.
Proof.
  rewrite raw64_chars. intros (n & E & _)%list_elem_of_fmap.
  by destruct (base64_char_plain n) as (_ & _ & ?).
Qed.

(** A group of 24 bits and its four digits. *)
Lemma four_digits n : 0 <= n < 2 ^ 24 ->
  (n / 2 ^ 18) mod 64 * 2 ^ 18 + (n / 2 ^ 12) mod 64 * 2 ^ 12 + (n / 2 ^ 6) mod 64 * 2 ^ 6 + n mod 64 = n.
Proof.
  intros. change (2 ^ 18) with 262144. change (2 ^ 12) with 4096. change (2 ^ 6) with 64.
  change (2 ^ 24) with 16777216 in *. Z.to_euclidean_division_equations. lia.
Qed.
Lemma be_num_three a b c : be_num [a; b; c] = 65536 * b2z a + 256 * b2z b + b2z c.
Proof. unfold be_num. cbn [foldl]. lia. Qed.

Lemma z2b_is n b : n mod 256 = b2z b -> z2b n = b.
Proof. intros E. apply b2z_inj. by rewrite b2z_z2b. Qed.

Lemma three_bytes a b c n : n = be_num [a; b; c] ->
  z2b (n / 2 ^ 16) = a /\ z2b (n / 2 ^ 8) = b /\ z2b n = c.
Proof.
  rewrite be_num_three. intros ->.
  pose proof (b2z_range a). pose proof (b2z_range b). pose proof (b2z_range c).
  change (2 ^ 16) with 65536. change (2 ^ 8) with 256.
  split_and!; apply z2b_is; Z.to_euclidean_division_equations; lia.
Qed.

Lemma be_num_bound a b c : 0 <= be_num [a; b; c] < 2 ^ 24.
Proof.
  rewrite be_num_three.
  pose proof (b2z_range a). pose proof (b2z_range b). pose proof (b2z_range c).
  change (2 ^ 24) with 16777216. lia.
Qed.

Lemma raw64_values_digits m : raw64_values ((fun n => n mod 64) <$> raw64_digits m) = Some m.
Proof.
  induction m as [|a|a b|a b c m IH] using by_threes; [done|..];
    cbn [raw64_digits]; cbv zeta; cbn [fmap list_fmap raw64_values].
  - pose proof (be_num_bound a x00 x00). pose proof (be_num_three a x00 x00) as E.
    do 2 f_equal. apply z2b_is. change (b2z x00) with 0 in E. rewrite E in *.
    pose proof (b2z_range a). change (2 ^ 18) with 262144. change (2 ^ 12) with 4096.
    change (2 ^ 16) with 65536. Z.to_euclidean_division_equations. lia.
  - pose proof (be_num_three a b x00) as E. change (b2z x00) with 0 in E. rewrite E.
    pose proof (b2z_range a). pose proof (b2z_range b).
    change (2 ^ 18) with 262144. change (2 ^ 12) with 4096. change (2 ^ 6) with 64.
    change (2 ^ 16) with 65536. change (2 ^ 8) with 256.
    do 2 f_equal; [|f_equal]; apply z2b_is; Z.to_euclidean_division_equations; lia.
  - rewrite IH. cbn [mbind option_bind]. rewrite four_digits by apply be_num_bound.
    by destruct (three_bytes a b c _ eq_refl) as (-> & -> & ->).
Qed.

Lemma filter_plain (l : list Z) :
  filter (fun c => c <> x0a /\ c <> x0d) (base64_char <$> l) = base64_char <$> l.
Proof.
  induction l as [|n l IH]; [done|]. cbn [fmap list_fmap]. rewrite filter_cons_True, IH; [done|].
  by destruct (base64_char_plain n) as (? & ? & _).
Qed.

Lemma raw64_decode_encode m : raw64_decode (raw64 m) = Some m.
Proof.
  unfold raw64_decode. rewrite raw64_chars, filter_plain.
  assert (E : mapM base64_value (base64_char <$> raw64_digits m) =
              Some ((fun n => n mod 64) <$> raw64_digits m)).
  { apply mapM_Some. induction (raw64_digits m) as [|n l IH]; cbn; constructor; [|done].
    apply base64_value_char. }
  rewrite E. apply raw64_values_digits.
Qed.

(** C39 A password is verified against its own hash, and no other one is: for every
    salt, checking any password against the encoded hash of another compares their
    Argon2 keys under the salt of the encoding, so the right one is always accepted
    and a wrong one only when the keys collide; the encoding is never reported as
    malformed. *)
Theorem Hash_Verify IDKey password other salt encoded :
  HashPassword IDKey password (Some salt) = Some encoded ->
  VerifyPassword IDKey other encoded = Ok (eqb_str (IDKey other salt) (IDKey password salt)).
Proof.
  intros Hash. unfold VerifyPassword.
  assert (E : encoded =
              [] ++ x24 :: (bs "argon2id" ++ x24 :: (raw64 salt ++ x24 :: raw64 (IDKey password salt))))
    by (by injection Hash as <-).
  rewrite E, split_on_app, split_on_app, split_on_app, split_on_no_sep;
    try apply raw64_no_dollar; [|apply (bool_decide_unpack (x24 ∉ bs "argon2id")); by vm_compute|set_solver].
  replace (eqb_str (bs "argon2id") (bs "argon2id")) with true by (by symmetry; apply eqb_str_true).
  cbn [negb]. by rewrite !raw64_decode_encode.
Qed.

(** A key that is the salt and the length of the password. *)
Definition toy_key (password salt : gostring) : gostring := salt ++ itoa (len password).

Definition toy_hash : gostring :=
  default [] (HashPassword toy_key (bs "secret1") (Some (bs "0123456789abcdef"))).

Lemma Hash_Verify_witness :
  VerifyPassword toy_key (bs "secret1") toy_hash = Ok true /\
  VerifyPassword toy_key (bs "secret12") toy_hash = Ok false.
Proof.
  assert (E : HashPassword toy_key (bs "secret1") (Some (bs "0123456789abcdef")) = Some toy_hash)
    by reflexivity.
  split.
  - exact (eq_trans (Hash_Verify toy_key _ (bs "secret1") _ _ E) eq_refl).
  - exact (eq_trans (Hash_Verify toy_key _ (bs "secret12") _ _ E) eq_refl).
Defined.
