(* ===== verification/Store.v ===== *)
(** The embedded database ([src/internal/store/store.go]). The bolt library and
    the JSON encoding are interfaces: a database file is a set of buckets, a
    transaction either commits or leaves the file as it was, and a codec turns
    records into bytes and back. *)
From S2P Require Import Prelude GoStrings.

(* ------------------------------------------------------------------ *)
(** * Records                                                            *)
(* ------------------------------------------------------------------ *)

Definition LockManual : gostring := bs "manual".
Definition LockExpired : gostring := bs "expired".
Definition LockQuota : gostring := bs "quota".

(** Times are nanoseconds since 1970; the zero time of Go is 0 here, and comes
    before every other one. *)
Record UserRecord : Type := mkUser {
  Username : gostring;
  MaxConnections : Z;
  ExpiresAt : Z;
  CreatedAt : Z;
  Disabled : bool;
  LockReason : gostring;
  Notes : gostring;
  TrafficLimit : Z;
  TrafficUsed : Z;
  LastSeen : Z
}.

#[export] Instance UserRecord_eq_dec : EqDecision UserRecord.
Proof. solve_decision. Defined.

Definition set_expiry t u := mkUser (Username u) (MaxConnections u) t (CreatedAt u)
  (Disabled u) (LockReason u) (Notes u) (TrafficLimit u) (TrafficUsed u) (LastSeen u).
Definition set_lock b r u := mkUser (Username u) (MaxConnections u) (ExpiresAt u) (CreatedAt u)
  b r (Notes u) (TrafficLimit u) (TrafficUsed u) (LastSeen u).
Definition set_max n u := mkUser (Username u) n (ExpiresAt u) (CreatedAt u)
  (Disabled u) (LockReason u) (Notes u) (TrafficLimit u) (TrafficUsed u) (LastSeen u).
Definition set_limit n u := mkUser (Username u) (MaxConnections u) (ExpiresAt u) (CreatedAt u)
  (Disabled u) (LockReason u) (Notes u) n (TrafficUsed u) (LastSeen u).
Definition set_used n u := mkUser (Username u) (MaxConnections u) (ExpiresAt u) (CreatedAt u)
  (Disabled u) (LockReason u) (Notes u) (TrafficLimit u) n (LastSeen u).
Definition set_seen t u := mkUser (Username u) (MaxConnections u) (ExpiresAt u) (CreatedAt u)
  (Disabled u) (LockReason u) (Notes u) (TrafficLimit u) (TrafficUsed u) t.

Definition IsExpired (u : UserRecord) (now : Z) : bool :=
  negb (ExpiresAt u =? 0) && negb (now <? ExpiresAt u).
Definition QuotaExceeded (u : UserRecord) : bool :=
  (0 <? TrafficLimit u) && (TrafficLimit u <=? TrafficUsed u).

Record BackupRecord : Type := mkBackup {
  bk_ID : gostring;
  bk_FilePath : gostring;
  bk_CreatedAt : Z;
  bk_SizeBytes : Z;
  bk_UserCount : Z
}.

(* ------------------------------------------------------------------ *)
(** * The libraries                                                      *)
(* ------------------------------------------------------------------ *)

(** [json.Marshal] and [json.Unmarshal] for one type of record: what was encoded
    decodes to the same record, for the records that JSON can represent
    ([stable]: the strings are valid UTF-8); decoding gives such records only. *)
Class Codec (A : Type) : Type := {
  marshal : A -> option gostring;
  unmarshal : gostring -> option A;
  stable : A -> Prop;
  codec_law : forall a d, stable a -> marshal a = Some d -> unmarshal d = Some a;
  codec_stable : forall a d, unmarshal d = Some a -> stable a
}.

(** What bolt does with a write: [put_ok k v] tells whether [Put] accepts the pair
    (the key must not be empty, and sizes are limited). *)
Class Bolt : Type := { put_ok : gostring -> gostring -> bool }.

Abbreviation bucket := (gmap gostring gostring).

(** The database file: three buckets in use. *)
Record DB : Type := mkDB {
  db_users : bucket;
  db_settings : bucket;
  db_backups : bucket
}.

Definition set_users m db := mkDB m (db_settings db) (db_backups db).
Definition set_settings m db := mkDB (db_users db) m (db_backups db).
Definition set_backups m db := mkDB (db_users db) (db_settings db) m.

Inductive dberr : Type :=
| errOpen
| errMarshal
| errUnmarshal
| errPut
| ErrNotFound
| errCallback (msg : gostring).

#[export] Instance dberr_eq_dec : EqDecision dberr.
Proof. solve_decision. Defined.

(** [db.update] and [db.view]: [opened] tells whether the file lock was obtained. A
    transaction function returns the new state; an error rolls back. *)
Definition update {A} (opened : bool) (fn : DB -> result dberr (DB * A)) (db : DB)
    : DB * result dberr A :=
  if negb opened then (db, Err errOpen)
  else match fn db with
       | Ok (db', a) => (db', Ok a)
       | Err e => (db, Err e)
       end.
Definition view {A} (opened : bool) (fn : DB -> result dberr A) (db : DB) : result dberr A :=
  if negb opened then Err errOpen else fn db.

(** Go's [<] on strings, as an order for sorting. *)
Definition str_le (a b : gostring) : Prop := str_ltb b a = false.
#[export] Instance str_le_dec : RelDecision str_le := fun a b => decide (str_ltb b a = false).
#[export] Instance str_le_total : Total str_le.
Proof.
  intros a. unfold str_le. induction a as [|x a IH]; intros [|y b]; [by left..|by right|].
  cbn [str_ltb]. destruct (Z.ltb_spec (b2z x) (b2z y)), (Z.ltb_spec (b2z y) (b2z x)); auto; lia.
Qed.
Definition user_le (a b : UserRecord) : Prop := str_le (Username a) (Username b).
#[export] Instance user_le_dec : RelDecision user_le := fun a b => decide (str_le _ _).
Definition backup_le (a b : BackupRecord) : Prop := bk_CreatedAt b <= bk_CreatedAt a.
#[export] Instance backup_le_dec : RelDecision backup_le := fun a b => decide (_ <= _).

(* ------------------------------------------------------------------ *)
(** * Operations                                                         *)
(* ------------------------------------------------------------------ *)

Section store.
Context `{Codec UserRecord, Codec BackupRecord, Bolt}.
Implicit Types db : DB.

(** [Open]: a transaction that creates the buckets that are missing; a missing bucket and
    an empty one are the same here. *)
Definition Open (opened : bool) (db : DB) : DB * result dberr () := update opened (fun db => Ok (db, tt)) db.

Definition PutUser (opened : bool) (u : UserRecord) (db : DB) : DB * result dberr () :=
  match marshal u with
  | None => (db, Err errMarshal)
  | Some data =>
      update opened (fun db =>
        if put_ok (Username u) data
        then Ok (set_users (<[Username u := data]> (db_users db)) db, tt)
        else Err errPut) db
  end.

Definition GetUser (opened : bool) (username : gostring) (db : DB) : result dberr UserRecord :=
  view opened (fun db =>
    match db_users db !! username with
    | None => Err ErrNotFound
    | Some data => match unmarshal data with Some u => Ok u | None => Err errUnmarshal end
    end) db.

Definition UpdateUser (opened : bool) (username : gostring)
    (fn : UserRecord -> result gostring UserRecord) (db : DB) : DB * result dberr UserRecord :=
  update opened (fun db =>
    match db_users db !! username with
    | None => Err ErrNotFound
    | Some data =>
        match unmarshal data with
        | None => Err errUnmarshal
        | Some u =>
            match fn u with
            | Err msg => Err (errCallback msg)
            | Ok u =>
                match marshal u with
                | None => Err errMarshal
                | Some enc =>
                    if put_ok username enc
                    then Ok (set_users (<[username := enc]> (db_users db)) db, u)
                    else Err errPut
                end
            end
        end
    end) db.

(** One iteration of the loop of [AddTraffic]. *)
Definition add_one (seen : Z) (name : gostring) (delta : Z) (db : DB) : result dberr DB :=
  match db_users db !! name with
  | None => Ok db
  | Some data =>
      match unmarshal data with
      | None => Ok db
      | Some u =>
          let u := if 0 <? delta then set_used (i64 (TrafficUsed u + delta)) u else u in
          let u := set_seen seen u in
          match marshal u with
          | None => Err errMarshal
          | Some enc =>
              if put_ok name enc then Ok (set_users (<[name := enc]> (db_users db)) db)
              else Err errPut
          end
      end
  end.

Fixpoint add_all (seen : Z) (deltas : list (gostring * Z)) (db : DB) : result dberr DB :=
  match deltas with
  | [] => Ok db
  | (name, delta) :: deltas => db ← add_one seen name delta db; add_all seen deltas db
  end.

(** [AddTraffic]; the deltas come in the order Go happens to walk the map. *)
Definition AddTraffic (opened : bool) (deltas : list (gostring * Z)) (seen : Z) (db : DB)
    : DB * result dberr () :=
  match deltas with
  | [] => (db, Ok tt)
  | _ => update opened (fun db => db' ← add_all seen deltas db; Ok (db', tt)) db
  end.

Definition DeleteUser (opened : bool) (username : gostring) (db : DB) : DB * result dberr () :=
  update opened (fun db => Ok (set_users (delete username (db_users db)) db, tt)) db.

(** Decoding a bucket in key order: what was decoded before the first error, and
    that error. *)
Fixpoint decode_all {A} `{Codec A} (l : list (gostring * gostring)) : list A * option dberr :=
  match l with
  | [] => ([], None)
  | (_, v) :: l =>
      match unmarshal v with
      | None => ([], Some errUnmarshal)
      | Some a => let '(as_, e) := decode_all l in (a :: as_, e)
      end
  end.

Definition entry_le (a b : gostring * gostring) : Prop := str_le a.1 b.1.
#[local] Instance entry_le_dec : RelDecision entry_le := fun a b => decide (str_le _ _).
Definition for_each (b : bucket) : list (gostring * gostring) :=
  merge_sort entry_le (map_to_list b).

Definition ListUsers (opened : bool) (db : DB) : list UserRecord * option dberr :=
  if negb opened then ([], Some errOpen)
  else let '(us, e) := decode_all (for_each (db_users db)) in (merge_sort user_le us, e).

Definition PutSetting (opened : bool) (key value : gostring) (db : DB) : DB * result dberr () :=
  update opened (fun db =>
    if put_ok key value then Ok (set_settings (<[key := value]> (db_settings db)) db, tt)
    else Err errPut) db.

Definition GetSetting (opened : bool) (key : gostring) (db : DB) : result dberr gostring :=
  view opened (fun db =>
    match db_settings db !! key with Some v => Ok v | None => Err ErrNotFound end) db.

Definition PutBackup (opened : bool) (b : BackupRecord) (db : DB) : DB * result dberr () :=
  match marshal b with
  | None => (db, Err errMarshal)
  | Some data =>
      update opened (fun db =>
        if put_ok (bk_ID b) data
        then Ok (set_backups (<[bk_ID b := data]> (db_backups db)) db, tt) else Err errPut) db
  end.

Definition ListBackups (opened : bool) (db : DB) : list BackupRecord * option dberr :=
  if negb opened then ([], Some errOpen)
  else let '(l, e) := decode_all (for_each (db_backups db)) in (merge_sort backup_le l, e).

Definition DeleteBackup (opened : bool) (id : gostring) (db : DB) : DB * result dberr () :=
  update opened (fun db => Ok (set_backups (delete id (db_backups db)) db, tt)) db.

(* ------------------------------------------------------------------ *)
(** * Properties                                                         *)
(* ------------------------------------------------------------------ *)

(** What the users bucket means: the decoded record of each name. *)
Definition user (db : DB) (name : gostring) : option UserRecord :=
  data ← db_users db !! name; unmarshal data.

(** A failed operation leaves the file as it was. *)
Lemma update_err {A} opened (fn : DB -> result dberr (DB * A)) db db' e :
  update opened fn db = (db', Err e) -> db' = db.
Proof.
  unfold update. destruct opened; [|by intros [= <-]]. cbn [negb].
  destruct (fn db) as [[? ?]|]; [done|]. by intros [= <-].
Qed.

Lemma user_insert db name u enc other :
  stable u -> marshal u = Some enc ->
  user (set_users (<[name := enc]> (db_users db)) db) other =
  if decide (name = other) then Some u else user db other.
Proof.
  intros Hs Hm. unfold user. cbn [db_users set_users]. case_decide as E.
  - subst. rewrite lookup_insert_eq. cbn. by apply codec_law.
  - by rewrite lookup_insert_ne.
Qed.

Lemma PutUser_user opened u db db' r :
  stable u -> PutUser opened u db = (db', r) ->
  match r with
  | Ok _ => GetUser true (Username u) db' = Ok u /\
            forall n, n <> Username u -> GetUser true n db' = GetUser true n db
  | Err _ => db' = db
  end.
Proof.
  intros Hs. unfold PutUser. destruct (marshal u) as [data|] eqn:Em; [|by intros [= <- <-]].
  unfold update. destruct opened; [|by intros [= <- <-]]. cbn [negb].
  destruct (put_ok (Username u) data); [|by intros [= <- <-]].
  intros [= <- <-]. unfold GetUser, view. cbn [negb db_users set_users]. split.
  - by rewrite lookup_insert_eq, (codec_law _ _ Hs Em).
  - intros n Hn. by rewrite lookup_insert_ne.
Qed.

(** Put and get: a record that was stored is what [GetUser] returns for its
    name, every other user is as before, and a failed put (the file could not be
    opened, encoding or the write failed) changes nothing. *)
Theorem PutUser_GetUser opened u db db' r :
  stable u -> PutUser opened u db = (db', r) ->
  match r with
  | Ok _ => GetUser true (Username u) db' = Ok u /\
            forall n, n <> Username u -> GetUser true n db' = GetUser true n db
  | Err _ => db' = db
  end.
Proof. apply PutUser_user. Qed.

Lemma UpdateUser_user opened name fn db db' r :
  UpdateUser opened name fn db = (db', r) ->
  (forall u v, stable u -> fn u = Ok v -> stable v) ->
  match r with
  | Ok v => (exists u, user db name = Some u /\ fn u = Ok v) /\ user db' name = Some v /\
            forall n, n <> name -> user db' n = user db n
  | Err _ => db' = db
  end.
Proof.
  intros E Hst. destruct r as [v|e]; [|by eapply update_err].
  unfold UpdateUser, update in E. destruct opened; [|done]. cbn [negb] in E.
  unfold user at 1.
  destruct (db_users db !! name) as [data|] eqn:Ed; [|done]. cbn.
  destruct (unmarshal data) as [u|] eqn:Eu; [|done].
  destruct (fn u) as [v'|] eqn:Ef; [|done].
  destruct (marshal v') as [enc|] eqn:Em; [|done].
  destruct (put_ok name enc); [|done]. injection E as <- <-.
  split; [by exists u|]. split.
  - rewrite (user_insert _ _ v') by (done || by eapply Hst, Ef; eapply codec_stable). by rewrite decide_True.
  - intros n Hn. rewrite (user_insert _ _ v') by (done || by eapply Hst, Ef; eapply codec_stable).
    by rewrite decide_False by congruence.
Qed.

(** Updates are atomic: when [UpdateUser] succeeds exactly the named record
    changed, to what the callback made of the stored one; when anything fails
    (no such user, the callback, encoding, the write) the database is unchanged. *)
Theorem UpdateUser_atomic opened name fn db db' r :
  UpdateUser opened name fn db = (db', r) ->
  (forall u v, stable u -> fn u = Ok v -> stable v) ->
  match r with
  | Ok v => (exists u, user db name = Some u /\ fn u = Ok v) /\ user db' name = Some v /\
            forall n, n <> name -> user db' n = user db n
  | Err _ => db' = db
  end.
Proof. apply UpdateUser_user. Qed.

(** What accounting makes of a record. *)
Definition accounted (seen delta : Z) (u : UserRecord) : UserRecord :=
  set_seen seen (if 0 <? delta then set_used (i64 (TrafficUsed u + delta)) u else u).

Lemma add_one_user seen name delta db db' :
  add_one seen name delta db = Ok db' -> (forall u d, stable u -> stable (accounted seen d u)) ->
  forall n, user db' n = if decide (name = n) then accounted seen delta <$> user db n
                         else user db n.
Proof.
  unfold add_one. intros E Hst n.
  destruct (db_users db !! name) as [data|] eqn:Ed.
  2:{ injection E as <-. case_decide; [subst|done]. unfold user. by rewrite Ed. }
  destruct (unmarshal data) as [u|] eqn:Eu.
  2:{ injection E as <-. case_decide; [subst|done]. unfold user. rewrite Ed. cbn. by rewrite Eu. }
  fold (accounted seen delta u) in E.
  destruct (marshal (accounted seen delta u)) as [enc|] eqn:Em; [|done].
  destruct (put_ok name enc); [|done]. injection E as <-.
  rewrite (user_insert _ _ (accounted seen delta u)) by (done || by eapply Hst, codec_stable).
  case_decide; [subst|done]. unfold user. rewrite Ed. cbn. by rewrite Eu.
Qed.

Lemma add_all_user seen deltas db db' :
  add_all seen deltas db = Ok db' -> (forall u d, stable u -> stable (accounted seen d u)) ->
  NoDup deltas.*1 ->
  forall n, user db' n =
    match (list_to_map deltas : gmap gostring Z) !! n with
    | Some d => accounted seen d <$> user db n
    | None => user db n
    end.
Proof.
  intros E Hst. revert db E. induction deltas as [|[name d] deltas IH]; intros db E Hnd n.
  - injection E as <-. by rewrite list_to_map_nil, lookup_empty.
  - cbn [add_all] in E. destruct (add_one seen name d db) as [db1|] eqn:E1; [|done].
    cbn in E. apply NoDup_cons in Hnd as [Hni Hnd].
    rewrite (IH db1 E Hnd), (add_one_user _ _ _ _ _ E1 Hst), list_to_map_cons.
    case_decide as Hn.
    + subst. rewrite lookup_insert_eq.
      by rewrite (proj1 (not_elem_of_list_to_map _ _) Hni).
    + by rewrite lookup_insert_ne.
Qed.

Lemma AddTraffic_user opened deltas seen db db' r :
  AddTraffic opened deltas seen db = (db', r) -> NoDup deltas.*1 ->
  (forall u d, stable u -> stable (accounted seen d u)) ->
  match r with
  | Ok _ => forall n, user db' n =
      match (list_to_map deltas : gmap gostring Z) !! n with
      | Some d => accounted seen d <$> user db n
      | None => user db n
      end
  | Err _ => db' = db
  end.
Proof.
  intros E Hnd Hst. unfold AddTraffic in E. destruct deltas as [|p deltas].
  { injection E as <- <-. intros n. by rewrite list_to_map_nil, lookup_empty. }
  destruct r as [[]|e]; [|by eapply update_err].
  unfold update in E. destruct opened; [|done]. cbn [negb] in E.
  destruct (add_all seen (p :: deltas) db) as [db1|] eqn:E1; [|done].
  cbn in E. injection E as <-. by apply add_all_user.
Qed.

(** C17 Accounting is exact and all or nothing: after [AddTraffic] every user with
    an entry has exactly its (positive) delta added and its last-seen time set,
    every other user is unchanged, no user appears or disappears, and the order
    in which the entries are processed does not matter; on an error nothing is
    changed. *)
Theorem AddTraffic_exact opened deltas seen db db' r :
  AddTraffic opened deltas seen db = (db', r) -> NoDup deltas.*1 ->
  (forall u d, stable u -> stable (accounted seen d u)) ->
  match r with
  | Ok _ => forall n, user db' n =
      match (list_to_map deltas : gmap gostring Z) !! n with
      | Some d => accounted seen d <$> user db n
      | None => user db n
      end
  | Err _ => db' = db
  end.
Proof. apply AddTraffic_user. Qed.

Lemma decode_all_elem {A} `{Codec A} l (a : A) :
  a ∈ (decode_all l).1 -> exists k v, (k, v) ∈ l /\ unmarshal v = Some a.
Proof.
  induction l as [|[k v] l IH]; cbn [decode_all]; [set_solver|].
  destruct (unmarshal v) as [x|] eqn:E; [|set_solver].
  destruct (decode_all l) as [xs e]. cbn [fst] in *. intros [->|Hx]%elem_of_cons.
  - exists k, v. split; [left|done].
  - destruct (IH Hx) as (k' & v' & ? & ?). exists k', v'. split; [by right|done].
Qed.

(** What [ListUsers] returns is stored. *)
Lemma ListUsers_stored opened db u :
  u ∈ (ListUsers opened db).1 -> exists n, user db n = Some u.
Proof.
  unfold ListUsers. destruct opened; [|cbn; set_solver]. cbn [negb].
  pose proof (decode_all_elem (for_each (db_users db)) u) as Hd.
  destruct (decode_all (for_each (db_users db))) as [us e]. cbn [fst] in *.
  rewrite merge_sort_Permutation. intros (k & v & Hk & Hv)%Hd. exists k.
  unfold for_each in Hk. rewrite merge_sort_Permutation in Hk.
  apply elem_of_map_to_list in Hk. unfold user. rewrite Hk. done.
Qed.

(** What is stored is what [ListUsers] returns, when it gives no error. *)
Lemma decode_all_complete {A} `{Codec A} l (a : A) k v :
  (decode_all l).2 = None -> (k, v) ∈ l -> unmarshal v = Some a -> a ∈ (decode_all l).1.
Proof.
  induction l as [|[k' v'] l IH]; cbn [decode_all]; [set_solver|].
  destruct (unmarshal v') as [x|] eqn:E; [|done].
  destruct (decode_all l) as [xs e]. cbn [fst snd] in *. intros He [[= -> ->]|Hin]%elem_of_cons Hv.
  - rewrite E in Hv. injection Hv as ->. left.
  - right. by apply IH.
Qed.
Lemma ListUsers_complete opened db n u :
  (ListUsers opened db).2 = None -> user db n = Some u -> u ∈ (ListUsers opened db).1.
Proof.
  unfold ListUsers. destruct opened; [|done]. cbn [negb]. intros He Hu.
  unfold user in Hu. destruct (db_users db !! n) as [v|] eqn:Ev; [|done]. cbn in Hu.
  assert (Hin : (n, v) ∈ for_each (db_users db)).
  { unfold for_each. rewrite merge_sort_Permutation. by apply elem_of_map_to_list. }
  pose proof (decode_all_complete (for_each (db_users db)) u n v) as Hd.
  destruct (decode_all (for_each (db_users db))) as [us e]. cbn [fst snd] in *.
  rewrite merge_sort_Permutation. by apply Hd.
Qed.

(** [ListUsers] is sorted by name. *)
Lemma ListUsers_sorted opened db : Sorted user_le (ListUsers opened db).1.
Proof.
  unfold ListUsers. destruct opened; [|constructor]. cbn [negb].
  destruct (decode_all _) as [us e]. cbn [fst]. apply Sorted_merge_sort.
  intros a b. apply str_le_total.
Qed.
End store.

(* ------------------------------------------------------------------ *)
(** * Concrete instances                                                 *)
(* ------------------------------------------------------------------ *)

(** A codec for any countable type, its code written as a string of bits, and a
    bolt that takes every pair with a key: the laws above can hold. *)
Fixpoint bits (p : positive) : gostring :=
  match p with xH => [] | xO p => x00 :: bits p | xI p => x01 :: bits p end.
Fixpoint of_bits (s : gostring) : positive :=
  match s with
  | [] => xH
  | c :: s => if bool_decide (c = x01) then xI (of_bits s) else xO (of_bits s)
  end.

Lemma of_bits_bits p : of_bits (bits p) = p.
Proof. induction p as [p IH|p IH|]; cbn [bits of_bits]; [..|done]; case_bool_decide; congruence. Qed.

Definition any_codec A `{Countable A} : Codec A.
Proof.
  refine {| marshal := fun x => Some (bits (encode x));
            unmarshal := fun d => decode (of_bits d);
            stable := fun _ => True |}.
  - intros a d _ [= <-]. by rewrite of_bits_bits, decode_encode.
  - done.
Defined.

#[export] Instance BackupRecord_eq_dec : EqDecision BackupRecord.
Proof. solve_decision. Defined.

Definition keyed_bolt : Bolt := {| put_ok := fun k _ => negb (eqb_str k []) |}.

#[export] Instance UserRecord_countable : Countable UserRecord.
Proof.
  refine (inj_countable
    (fun u => [b2z <$> Username u; [MaxConnections u]; [ExpiresAt u]; [CreatedAt u];
               [Z.b2z (Disabled u)]; b2z <$> LockReason u; b2z <$> Notes u;
               [TrafficLimit u]; [TrafficUsed u]; [LastSeen u]])
    (fun l => match l with
              | [n; [m]; [e]; [c]; [d]; r; t; [l]; [x]; [s]] =>
                  Some (mkUser (z2b <$> n) m e c (d =? 1) (z2b <$> r) (z2b <$> t) l x s)
              | _ => None
              end) _).
  intros [n m e c d r t l x s]. cbn.
  assert (H : forall s : gostring, z2b <$> (b2z <$> s) = s).
  { intros w. rewrite <- list_fmap_compose, (list_fmap_ext _ id); [by rewrite list_fmap_id|].
    intros _ y _. apply z2b_b2z. }
  rewrite !H. by destruct d.
Defined.

Definition user_codec : Codec UserRecord := any_codec UserRecord.
Lemma user_codec_stable u : @stable _ user_codec u.
Proof. exact I. Qed.
Definition alice : UserRecord :=
  mkUser (bs "alice") 2 5000 1 false [] [] 100 10 0.
Definition empty_db : DB := mkDB ∅ ∅ ∅.
Definition with_user (u : UserRecord) (db : DB) : DB :=
  (@PutUser user_codec keyed_bolt true u db).1.
Definition alice_db : DB := with_user alice empty_db.

Lemma PutUser_GetUser_witness : @GetUser user_codec true (bs "alice") alice_db = Ok alice.
Proof.
  assert (E : @PutUser user_codec keyed_bolt true alice empty_db = (alice_db, Ok tt))
    by (vm_compute; reflexivity).
  exact (proj1 (@PutUser_GetUser user_codec keyed_bolt _ _ _ _ _ I E)).
Defined.

Lemma UpdateUser_atomic_witness :
  @user user_codec (with_user (set_max 3 alice) alice_db) (bs "alice") = Some (set_max 3 alice).
Proof.
  assert (E : @UpdateUser user_codec keyed_bolt true (bs "alice") (fun u => Ok (set_max 3 u))
    alice_db = (with_user (set_max 3 alice) alice_db, Ok (set_max 3 alice)))
    by (vm_compute; reflexivity).
  exact (proj1 (proj2 (@UpdateUser_atomic user_codec keyed_bolt _ _ _ _ _ _ E
    (fun _ _ _ _ => I)))).
Defined.

Lemma AddTraffic_exact_witness :
  @user user_codec (with_user (accounted 7 30 alice) alice_db) (bs "alice")
    = Some (set_seen 7 (set_used 40 alice)).
Proof.
  pose proof (@AddTraffic_exact user_codec keyed_bolt true [(bs "alice", 30)] 7 alice_db
    (with_user (accounted 7 30 alice) alice_db) (Ok tt)) as Hx.
  specialize (Hx ltac:(vm_compute; reflexivity)
    ltac:(repeat constructor; set_solver) (fun _ _ _ => I) (bs "alice")).
  etransitivity; [exact Hx|vm_compute; reflexivity].
Defined.
