(* ===== verification/Procfs.v ===== *)
(** Reading /proc ([src/internal/procfs/procfs.go]): the parsers, and the queries
    over the files they read. The files are the environment: a [procenv] gives
    the content of each of them, or [None] when it cannot be read. *)
From S2P Require Import Prelude GoStrings NetAddr.

Definition clockTicks : Z := 100.
Definition TCPEstablished : Z := 1.
Definition TCPListen : Z := 10.

(** One process; times are nanoseconds. *)
Record Proc : Type := mkProc {
  p_PID : Z;
  p_PPID : Z;
  p_UID : Z;
  p_Comm : gostring;
  p_StartTime : Z
}.

Record procenv : Type := mkProcenv {
  pe_dir : option (list gostring);
  pe_stat : Z -> option gostring;
  pe_owner : Z -> option Z;
  pe_btime : option gostring;
  pe_io : Z -> option gostring;
  pe_fds : Z -> option (list (option gostring));
  pe_tcp : option gostring;
  pe_tcp6 : option gostring;
  pe_passwd : option gostring
}.

(* ------------------------------------------------------------------ *)
(** * Processes                                                          *)
(* ------------------------------------------------------------------ *)

Inductive staterr : Type := malformedStat | shortStat.

(** [statFields], the fields that [parseStat] sets. *)
Record statFields : Type := mkStat { sf_Comm : gostring; sf_PPID : Z; sf_startTicks : Z }.

(** [strconv.Atoi] and [ParseUint] return 0, or the nearest value in range, next
    to an error that the code drops. *)
Definition digits_clamped (hi : Z) (s : gostring) : Z :=
  match digits s with Some n => if hi <? n then hi else n | None => 0 end.
Definition atoi_or0 (s : gostring) : Z :=
  match s with
  | x2d :: s' => - digits_clamped (2 ^ 63) s'
  | x2b :: s' => digits_clamped (2 ^ 63 - 1) s'
  | _ => digits_clamped (2 ^ 63 - 1) s
  end.
Definition parse_uint_or0 (s : gostring) : Z := digits_clamped (2 ^ 64 - 1) s.

Definition parseStat (data : gostring) : result staterr statFields :=
  match index_byte data x28, last_index_byte data x29 with
  | Some open, Some closeIdx =>
      if decide (closeIdx < open)%nat then Err malformedStat
      else
        let comm := take (closeIdx - (open + 1)) (drop (open + 1) data) in
        let rest := fields (drop (closeIdx + 1) data) in
        if (length rest <? 20)%nat then Err shortStat
        else Ok (mkStat comm (atoi_or0 (nth 1 rest [])) (parse_uint_or0 (nth 19 rest [])))
  | _, _ => Err malformedStat
  end.

(** [bufio.Scanner] over lines: a line of [max] bytes or more stops the scan; a
    carriage return before the newline is dropped. *)
Definition drop_cr (l : gostring) : gostring := trim_suffix l [x0d].
Fixpoint take_lines (max : Z) (ls : list gostring) : list gostring :=
  match ls with
  | [] => []
  | [[]] => []
  | l :: ls => if max <=? len l then [] else drop_cr l :: take_lines max ls
  end.
Definition scan_lines (max : Z) (s : gostring) : list gostring :=
  take_lines max (split_on x0a s).

(** [BootTime]: seconds of the first [btime] line, as nanoseconds; the zero time
    when it is missing (0 here). *)
Fixpoint btime_line (ls : list gostring) : Z :=
  match ls with
  | [] => 0
  | l :: ls =>
      if has_prefix l (bs "btime ")
      then match atoi (trim_space (drop 6 l)) with
           | Some v => v * 1000000000
           | None => 0
           end
      else btime_line ls
  end.
Definition BootTime (e : procenv) : Z :=
  match pe_btime e with
  | None => 0
  | Some s => btime_line (scan_lines 65536 s)
  end.

(** [time.Duration(ticks) * time.Second / clockTicks]: the product is an [int64],
    and Go's division truncates towards zero. *)
Definition ticks_duration (ticks : Z) : Z :=
  Z.quot (i64 (i64 ticks * 1000000000)) clockTicks.

Definition ReadProc (e : procenv) (pid : Z) : option Proc :=
  match pe_stat e pid with
  | None => None
  | Some data =>
      match parseStat data with
      | Err _ => None
      | Ok sf =>
          match pe_owner e pid with
          | None => None
          | Some uid =>
              Some (mkProc pid (sf_PPID sf) uid (sf_Comm sf)
                      (BootTime e + ticks_duration (sf_startTicks sf)))
          end
      end
  end.

Definition ListProcs (e : procenv) (matches : gostring -> bool) : option (list Proc) :=
  match pe_dir e with
  | None => None
  | Some names =>
      Some (omap (fun name =>
        match atoi name with
        | Some pid =>
            if pid <=? 0 then None
            else match ReadProc e pid with
                 | Some p => if matches (p_Comm p) then Some p else None
                 | None => None
                 end
        | None => None
        end) names)
  end.

(* ------------------------------------------------------------------ *)
(** * I/O counters and sockets                                           *)
(* ------------------------------------------------------------------ *)

Record IO : Type := mkIO { RChar : Z; WChar : Z }.

Definition io_line (io : IO) (line : gostring) : IO :=
  match cut x3a line with
  | None => io
  | Some (k, v) =>
      let n := parse_uint_or0 (trim_space v) in
      if eqb_str k (bs "rchar") then mkIO n (WChar io)
      else if eqb_str k (bs "wchar") then mkIO (RChar io) n
      else io
  end.

Definition ReadIO (e : procenv) (pid : Z) : option IO :=
  match pe_io e pid with
  | None => None
  | Some data => Some (foldl io_line (mkIO 0 0) (split_on x0a data))
  end.

Definition socket_inode (link : option gostring) : option Z :=
  match link with
  | Some link =>
      if has_prefix link (bs "socket:[")
      then parse_uint 64 (trim_suffix (drop 8 link) (bs "]"))
      else None
  | None => None
  end.

Definition SocketInodes (e : procenv) (pid : Z) : list Z :=
  match pe_fds e pid with
  | None => []
  | Some links => omap socket_inode links
  end.

Record TCPSock : Type := mkTCPSock {
  Local : AddrPort;
  Remote : AddrPort;
  State : Z;
  sk_UID : Z;
  Inode : Z
}.

Record TCPTable : Type := mkTCPTable {
  ByInode : gmap Z TCPSock;
  ListenPorts : gset Z
}.

(** [hex.DecodeString]. *)
Fixpoint hex_decode (s : gostring) : option (list byte) :=
  match s with
  | [] => Some []
  | [_] => None
  | a :: b :: s =>
      match hex_digit a, hex_digit b, hex_decode s with
      | Some x, Some y, Some l => Some (z2b (16 * x + y) :: l)
      | _, _, _ => None
      end
  end.

(** [NativeEndian.PutUint32(BigEndian.Uint32(w))]: on a little-endian host the
    four bytes change places. *)
Definition native_word (little : bool) (w : list byte) : list byte :=
  if little then reverse w else w.

Definition parseHexAddr (little : bool) (s : gostring) : option AddrPort :=
  match cut x3a s with
  | None => None
  | Some (ipHex, portHex) =>
      match parse_hex 16 portHex with
      | None => None
      | Some port =>
          match hex_decode ipHex with
          | None => None
          | Some raw =>
              if len raw =? 4 then
                Some (AddrPortFrom (AddrFrom4 (native_word little raw)) port)
              else if len raw =? 16 then
                let b := native_word little (slice 0 4 raw) ++
                         native_word little (slice 4 8 raw) ++
                         native_word little (slice 8 12 raw) ++
                         native_word little (slice 12 16 raw) in
                Some (AddrPortFrom (Unmap (AddrFrom16 b)) port)
              else None
          end
      end
  end.

(** One row of the table; rows that do not parse are skipped. *)
Definition tcp_row (little : bool) (t : TCPTable) (line : gostring) : TCPTable :=
  let f := fields line in
  if (length f <? 10)%nat then t
  else
    match parseHexAddr little (nth 1 f []), parseHexAddr little (nth 2 f []),
          parse_hex 8 (nth 3 f []), parse_uint 64 (nth 9 f []) with
    | Some local, Some remote, Some state, Some inode =>
        let s := mkTCPSock local remote state (atoi_or0 (nth 7 f [])) inode in
        mkTCPTable
          (if inode =? 0 then ByInode t else <[inode := s]> (ByInode t))
          (if state =? TCPListen then {[ap_port local]} ∪ ListenPorts t
           else ListenPorts t)
    | _, _, _, _ => t
    end.

Definition parseTCP (little : bool) (data : gostring) (t : TCPTable) : TCPTable :=
  foldl (tcp_row little) t (tail (scan_lines (1024 * 1024) data)).

Definition ReadTCP (little : bool) (e : procenv) : option TCPTable :=
  let t := mkTCPTable ∅ ∅ in
  let t := match pe_tcp e with Some d => parseTCP little d t | None => t end in
  let t := match pe_tcp6 e with Some d => parseTCP little d t | None => t end in
  match pe_tcp e with
  | None => if decide (ByInode t = ∅) then None else Some t
  | Some _ => Some t
  end.

(** [Passwd]: the first entry of a uid names it. *)
Definition passwd_line (m : gmap Z gostring) (line : gostring) : gmap Z gostring :=
  match split_on x3a line with
  | f0 :: _ :: f2 :: _ =>
      match atoi f2 with
      | Some uid => match m !! uid with Some _ => m | None => <[uid := f0]> m end
      | None => m
      end
  | _ => m
  end.
Definition Passwd (e : procenv) : gmap Z gostring :=
  match pe_passwd e with
  | None => ∅
  | Some data => foldl passwd_line ∅ (split_on x0a data)
  end.

(* ------------------------------------------------------------------ *)
(** * Properties                                                         *)
(* ------------------------------------------------------------------ *)

(** The process line parser is robust against process names: for any command
    name, even one with blanks and parentheses in it, the fields after the last
    parenthesis are the ones the kernel printed there. *)
Theorem parseStat_any_comm pre comm ws :
  x28 ∉ pre -> Forall printable ws -> Forall (fun w => x29 ∉ w) ws -> (20 <= length ws)%nat ->
  parseStat (pre ++ x28 :: comm ++ x29 :: x20 :: join (bs " ") ws ++ [x0a]) =
  Ok (mkStat comm (atoi_or0 (nth 1 ws [])) (parse_uint_or0 (nth 19 ws []))).
Proof.
  intros Hpre Hws Hpar Hlen. unfold parseStat. rewrite index_byte_app by done.
  assert (Hj : x29 ∉ join (bs " ") ws).
  { clear Hws Hlen. induction Hpar as [|w ws Hw Hpar IH]; [set_solver|].
    destruct ws as [|w' ws]; [done|].
    change (join (bs " ") (w :: w' :: ws)) with (w ++ x20 :: join (bs " ") (w' :: ws)).
    rewrite elem_of_app, elem_of_cons. naive_solver. }
  assert (Hr : x29 ∉ x20 :: join (bs " ") ws ++ [x0a]).
  { rewrite elem_of_cons, elem_of_app, list_elem_of_singleton. naive_solver. }
  change (pre ++ x28 :: comm ++ x29 :: x20 :: join (bs " ") ws ++ [x0a])
    with (pre ++ (x28 :: comm) ++ x29 :: x20 :: join (bs " ") ws ++ [x0a]).
  rewrite app_assoc, last_index_byte_app by done.
  rewrite decide_False by length_lia.
  replace (drop (length pre + 1) _)
    with (comm ++ x29 :: x20 :: join (bs " ") ws ++ [x0a]).
  2:{ rewrite <- app_assoc. rewrite drop_app_add'; [done|done]. }
  replace (length (pre ++ x28 :: comm) - (length pre + 1))%nat with (length comm) by length_lia.
  rewrite take_app_length.
  replace (drop (length (pre ++ x28 :: comm) + 1) _)
    with (x20 :: join (bs " ") ws ++ [x0a]).
  2:{ rewrite drop_app_add'; done. }
  unfold fields. rewrite fields_blank.
  rewrite fields_join by (done || by left). cbn [flush].
  by rewrite (proj2 (Nat.ltb_ge _ _)).
Qed.

Definition demo_stat_words : list gostring :=
  bs "S" :: bs "17" :: replicate 17 (bs "0") ++ [bs "4242"].

Lemma parseStat_any_comm_witness :
  parseStat (bs "99 (a) b( c) S 17 0 0 0 0 0 0 0 0 0 0 0 0 0 0 0 0 0 4242" ++ [x0a]) =
  Ok (mkStat (bs "a) b( c") 17 4242).
Proof.
  apply (parseStat_any_comm (bs "99 ") (bs "a) b( c") demo_stat_words).
  - intros Hx. not_elem Hx.
  - repeat constructor; done.
  - repeat (constructor; [intros Hx; not_elem Hx|]). constructor.
  - apply Nat.leb_le. reflexivity.
Defined.

(** Start times are exact up to an uptime of 9223372036 ticks (about 1067 days)
    and wrong for every process started later: the multiplication by one second
    overflows [int64] before the division by the clock rate. *)
Theorem ticks_duration_exact ticks :
  0 <= ticks < 2 ^ 63 ->
  (ticks_duration ticks = ticks * (1000000000 / clockTicks) <-> ticks <= 9223372036).
Proof.
  intros Ht. unfold ticks_duration, clockTicks.
  rewrite (swrap_small 64 ticks) by lia. change (1000000000 / 100) with 10000000. split.
  - intros E. destruct (Z.le_gt_cases ticks 9223372036) as [|Hgt]; [done|]. exfalso.
    assert (Hb : i64 (ticks * 1000000000) <= 2 ^ 63 - 1).
    { unfold swrap. pose proof (Z.mod_pos_bound (ticks * 1000000000 + 2 ^ (64 - 1)) (2 ^ 64)).
      simpl in *. lia. }
    pose proof (Z.quot_le_mono (i64 (ticks * 1000000000)) (2 ^ 63 - 1) 100 ltac:(lia) Hb) as Hq.
    change ((2 ^ 63 - 1) ÷ 100) with 92233720368547758 in Hq. lia.
  - intros Hle. rewrite swrap_small by lia.
    replace (ticks * 1000000000) with (ticks * 10000000 * 100) by lia.
    by rewrite Z.quot_mul.
Qed.

Lemma ticks_duration_exact_witness :
  ticks_duration 4242 = 42420000000 /\ ticks_duration 9223372037 <> 92233720370000000.
Proof.
  split.
  - apply (proj2 (ticks_duration_exact 4242 ltac:(lia))). lia.
  - intros E. apply (proj1 (ticks_duration_exact 9223372037 ltac:(lia))) in E. lia.
Defined.

(** The kernel's way of printing an address (upper case hexadecimal, each 32-bit
    word in host order) and a port. *)
Definition HEX : gostring := bs "0123456789ABCDEF".
Definition hex_byte (b : byte) : gostring :=
  [byte_at (b2z b / 16) HEX; byte_at (b2z b mod 16) HEX].
Definition hex_bytes (l : list byte) : gostring := concat (hex_byte <$> l).
Definition kernel_ip (little : bool) (a : Addr) : gostring :=
  match a with
  | AddrZero => []
  | Addr4 ip => hex_bytes (native_word little ip)
  | Addr6 ip _ => hex_bytes (native_word little (slice 0 4 ip) ++
      native_word little (slice 4 8 ip) ++ native_word little (slice 8 12 ip) ++
      native_word little (slice 12 16 ip))
  end.
Definition kernel_addr (little : bool) (ap : AddrPort) : gostring :=
  kernel_ip little (ap_addr ap) ++ bs ":" ++ hex_bytes (put_be16 (ap_port ap)).

Lemma hex_byte_digits b :
  exists h l, hex_byte b = [h; l] /\ hex_digit h = Some (b2z b / 16) /\
              hex_digit l = Some (b2z b mod 16) /\ h <> x3a /\ l <> x3a.
Proof. destruct b; (eexists _, _; split_and!; [reflexivity|reflexivity|reflexivity|done|done]). Qed.

Lemma hex_decode_bytes l : hex_decode (hex_bytes l) = Some l.
Proof.
  induction l as [|b l IH]; [done|].
  destruct (hex_byte_digits b) as (h & h' & E & H1 & H2 & _).
  unfold hex_bytes in *. rewrite fmap_cons. cbn [concat]. rewrite E. cbn [app hex_decode].
  rewrite H1, H2, IH. do 2 f_equal.
  rewrite <- (z2b_b2z b) at 3. f_equal. pose proof (Z.div_mod (b2z b) 16). lia.
Qed.

Lemma hex_bytes_no_colon l : x3a ∉ hex_bytes l.
Proof.
  induction l as [|b l IH]; [set_solver|].
  destruct (hex_byte_digits b) as (h & h' & E & _ & _ & H1 & H2).
  unfold hex_bytes in *. rewrite fmap_cons. cbn [concat]. rewrite E.
  rewrite elem_of_app, !elem_of_cons. set_solver.
Qed.

Lemma parse_hex_port p : 0 <= p < 65536 -> parse_hex 16 (hex_bytes (put_be16 p)) = Some p.
Proof.
  intros Hp. unfold put_be16, hex_bytes. rewrite !fmap_cons, fmap_nil. cbn [concat].
  destruct (hex_byte_digits (z2b (p / 256))) as (h1 & l1 & -> & H1 & H2 & _).
  destruct (hex_byte_digits (z2b p)) as (h2 & l2 & -> & H3 & H4 & _).
  cbn [app parse_hex hex_go]. rewrite H1, H2, H3, H4, !b2z_z2b.
  assert (Hdiv : 0 <= p / 256 < 256)
    by (split; [apply Z.div_pos; lia|apply Z.div_lt_upper_bound; lia]).
  rewrite (Z.mod_small (p / 256)) by lia.
  match goal with |- context [Some ?e] => replace e with p end.
  - cbn. by rewrite (proj2 (Z.ltb_lt _ _)) by lia.
  - pose proof (Z.div_mod p 256). pose proof (Z.div_mod (p / 256) 16).
    pose proof (Z.div_mod (p mod 256) 16). lia.
Qed.

(** Socket addresses: on hosts of either byte order, the address the kernel
    prints for a socket is the address [parseHexAddr] returns, except that an
    IPv4-mapped IPv6 address becomes the IPv4 one. *)
Theorem parseHexAddr_kernel little ap :
  AddrPort_wf ap ->
  parseHexAddr little (kernel_addr little ap) =
  Some (AddrPortFrom (Unmap (ap_addr (drop_zone ap))) (ap_port ap)).
Proof.
  destruct ap as [a p]. intros [Ha Hp]. cbn [ap_addr ap_port] in *.
  unfold parseHexAddr, kernel_addr. cbn [ap_addr ap_port].
  change (bs ":" ++ hex_bytes (put_be16 p)) with (x3a :: hex_bytes (put_be16 p)).
  rewrite cut_app by (destruct a; [set_solver|apply hex_bytes_no_colon..]).
  rewrite parse_hex_port by done.
  destruct a as [|ip|ip zone]; [done| |]; cbn [kernel_ip]; rewrite hex_decode_bytes;
    cbn in Ha.
  - assert (len (native_word little ip) = 4) as ->.
    { unfold native_word, len. destruct little; rewrite ?length_reverse; lia. }
    cbn. do 3 f_equal. unfold native_word. destruct little; [apply reverse_involutive|done].
  - do 16 (destruct ip as [|? ip]; [done|]). destruct ip; [|done].
    by destruct little.
Qed.

Lemma parseHexAddr_kernel_witness :
  parseHexAddr true (bs "0100007F:1F90") =
  Some (AddrPortFrom (Addr4 [x7f; x00; x00; x01]) 8080).
Proof.
  apply (parseHexAddr_kernel true (AddrPortFrom (Addr4 [x7f; x00; x00; x01]) 8080)).
  split; [done|cbn; lia].
Defined.
