(* ===== verification/Session.v ===== *)
(** Live SSH sessions ([src/internal/session/session.go]): found among the
    processes, ordered by start, and killed. *)
From S2P Require Import Prelude GoStrings NetAddr Procfs.

Record Session : Type := mkSession {
  ss_PID : Z;
  ss_MonitorPID : Z;
  ss_Username : gostring;
  ss_UID : Z;
  ss_ClientIP : gostring;
  ss_ClientPort : Z;
  ss_ServerPort : Z;
  ss_Via : gostring;
  ss_StartedAt : Z;
  ss_Bytes : Z;
  ss_UDPGWPorts : list Z
}.

Record Peer : Type := mkPeer { peer_IP : gostring; peer_Port : Z; peer_Via : gostring }.

(** [PeerLookup] is a function (the nil function finds nothing). *)
Record Scanner : Type := mkScanner {
  PeerLookup : Z -> option Peer;
  UDPGWPorts : list Z;
  SkipUsers : option (gset gostring)
}.

Definition isSSHD (comm : gostring) : bool :=
  eqb_str comm (bs "sshd") || eqb_str comm (bs "sshd-session").

(** [attachSockets]: one socket of the process. *)
Definition attach_socket (tcp : TCPTable) (udpgw : gset Z) (sess : Session) (ino : Z)
    : Session :=
  match ByInode tcp !! ino with
  | None => sess
  | Some sk =>
      if negb (State sk =? TCPEstablished) then sess
      else if bool_decide (ap_port (Remote sk) ∈ udpgw) && IsLoopback (ap_addr (Remote sk))
      then mkSession (ss_PID sess) (ss_MonitorPID sess) (ss_Username sess) (ss_UID sess)
             (ss_ClientIP sess) (ss_ClientPort sess) (ss_ServerPort sess) (ss_Via sess)
             (ss_StartedAt sess) (ss_Bytes sess)
             (ss_UDPGWPorts sess ++ [ap_port (Local sk)])
      else if eqb_str (ss_ClientIP sess) [] && bool_decide (ap_port (Local sk) ∈ ListenPorts tcp)
      then mkSession (ss_PID sess) (ss_MonitorPID sess) (ss_Username sess) (ss_UID sess)
             (addr_string (Unmap (ap_addr (Remote sk)))) (ap_port (Remote sk))
             (ap_port (Local sk)) (ss_Via sess)
             (ss_StartedAt sess) (ss_Bytes sess) (ss_UDPGWPorts sess)
      else sess
  end.

Definition attachSockets (e : procenv) (tcp : TCPTable) (udpgw : gset Z) (sess : Session)
    : Session :=
  foldl (attach_socket tcp udpgw) sess (SocketInodes e (ss_PID sess)).

(** What the gateway knows about the connection overrides the socket table. *)
Definition apply_peer (peer : option Peer) (sess : Session) : Session :=
  match peer with
  | None => sess
  | Some p =>
      let '(ip, port) := match peer_IP p with
                         | [] => (ss_ClientIP sess, ss_ClientPort sess)
                         | ip => (ip, peer_Port p)
                         end in
      let via := match peer_Via p with [] => ss_Via sess | via => via end in
      mkSession (ss_PID sess) (ss_MonitorPID sess) (ss_Username sess) (ss_UID sess)
        ip port (ss_ServerPort sess) via (ss_StartedAt sess) (ss_Bytes sess)
        (ss_UDPGWPorts sess)
  end.

(** The filter of the loop: the user name of a session's process. *)
Definition session_user (byPID : gmap Z Proc) (passwd : gmap Z gostring)
    (skip : gset gostring) (p : Proc) : option gostring :=
  if p_UID p =? 0 then None
  else match passwd !! p_UID p with
       | None => None
       | Some name =>
           if decide (name ∈ skip) then None
           else match byPID !! p_PPID p with
                | Some parent => if p_UID parent =? 0 then Some name else None
                | None => None
                end
       end.

(** One iteration of the loop over the processes. *)
Definition scan_proc (s : Scanner) (e : procenv) (tcp : TCPTable) (udpgw : gset Z)
    (byPID : gmap Z Proc) (passwd : gmap Z gostring) (skip : gset gostring) (p : Proc)
    : option Session :=
  match session_user byPID passwd skip p with
  | None => None
  | Some name =>
      let bytes := match ReadIO e (p_PID p) with
                   | Some io => u64 (RChar io + WChar io) / 2
                   | None => 0
                   end in
      let sess := mkSession (p_PID p) (p_PPID p) name (p_UID p) [] 0 0 (bs "ssh")
                    (p_StartTime p) bytes [] in
      let sess := attachSockets e tcp udpgw sess in
      Some (apply_peer (PeerLookup s (ss_MonitorPID sess)) sess)
  end.

(** The order of [sort.Slice]: by start time, then by pid. *)
Definition session_le (a b : Session) : Prop :=
  ss_StartedAt a < ss_StartedAt b \/
  ss_StartedAt a = ss_StartedAt b /\ ss_PID a <= ss_PID b.
#[export] Instance session_le_dec : RelDecision session_le.
Proof. unfold RelDecision, session_le. intros. apply _. Defined.

Definition default_skip : gset gostring := {[bs "sshd"; bs "nobody"]}.

Definition Scan (little : bool) (s : Scanner) (e : procenv) : option (list Session) :=
  match ListProcs e isSSHD with
  | None => None
  | Some procs =>
      let byPID := foldl (fun m p => <[p_PID p := p]> m) ∅ procs in
      let passwd := Passwd e in
      let skip := default default_skip (SkipUsers s) in
      let udpgw := list_to_set (u16 <$> UDPGWPorts s) in
      let tcp := default (mkTCPTable ∅ ∅) (ReadTCP little e) in
      Some (merge_sort session_le
              (omap (scan_proc s e tcp udpgw byPID passwd skip) procs))
  end.

(** [ByUser]. *)
Definition by_user_add (m : gmap gostring (list Session)) (s : Session) :=
  <[ss_Username s := default [] (m !! ss_Username s) ++ [s]]> m.
Definition ByUser (sessions : list Session) : gmap gostring (list Session) :=
  foldl by_user_add ∅ sessions.

(* ------------------------------------------------------------------ *)
(** * Kill                                                               *)
(* ------------------------------------------------------------------ *)

Inductive signal : Type := SIGTERM | SIGKILL.
Inductive killerr : Type := ESRCH | EPERM.

(** What [Kill] does, given the start time of the process before (if it exists),
    what the two signals answer, and the start times seen by the polls: the
    error and the signals it sent. *)
Fixpoint kill_polls (n : nat) (before : Z) (polls : nat -> option Z) (i : nat) : bool :=
  match n with
  | O => true
  | S n =>
      match polls i with
      | None => false
      | Some t => if t =? before then kill_polls n before polls (S i) else false
      end
  end.

Definition kill_err (e : option killerr) : option killerr :=
  match e with Some ESRCH => None | e => e end.

Definition Kill (pid : Z) (start : option Z) (term kill : option killerr)
    (polls : nat -> option Z) : option killerr * list signal :=
  if pid <=? 1 then (None, [])
  else match start with
       | None => (None, [])
       | Some before =>
           match term with
           | Some e => (kill_err (Some e), [SIGTERM])
           | None =>
               if kill_polls 15 before polls 0
               then (kill_err kill, [SIGTERM; SIGKILL])
               else (None, [SIGTERM])
           end
       end.

Definition KillNow (pid : Z) (kill : option killerr) : option killerr * list signal :=
  if pid <=? 1 then (None, []) else (kill_err kill, [SIGKILL]).

(* ------------------------------------------------------------------ *)
(** * Properties                                                         *)
(* ------------------------------------------------------------------ *)

(** What identifies a session; the socket table and the gateway do not touch it. *)
Definition identity (x : Session) : Z * Z * gostring * Z * Z :=
  (ss_PID x, ss_MonitorPID x, ss_Username x, ss_UID x, ss_StartedAt x).

Lemma attachSockets_identity e tcp udpgw x :
  identity (attachSockets e tcp udpgw x) = identity x.
Proof.
  unfold attachSockets. generalize (SocketInodes e (ss_PID x)). intros l.
  revert x. induction l as [|ino l IH]; intros x; [done|]. cbn [foldl]. rewrite IH.
  unfold attach_socket. destruct (ByInode tcp !! ino); [|done].
  repeat case_if; done.
Qed.

Lemma apply_peer_identity p x : identity (apply_peer p x) = identity x.
Proof. destruct p as [[[|? ?] ? ?]|]; done. Qed.

Lemma scan_proc_identity s e tcp udpgw byPID passwd skip p x :
  scan_proc s e tcp udpgw byPID passwd skip p = Some x ->
  session_user byPID passwd skip p = Some (ss_Username x) /\
  identity x = (p_PID p, p_PPID p, ss_Username x, p_UID p, p_StartTime p).
Proof.
  unfold scan_proc. destruct (session_user byPID passwd skip p) as [name|]; [|done].
  intros [= E]. apply (f_equal identity) in E.
  rewrite apply_peer_identity, attachSockets_identity in E. unfold identity in *.
  simplify_eq/=. split; congruence.
Qed.

(** The map from pids to processes. *)
Definition by_pid (procs : list Proc) : gmap Z Proc :=
  foldl (fun m p => <[p_PID p := p]> m) ∅ procs.

Lemma by_pid_elem procs pid p :
  by_pid procs !! pid = Some p -> p ∈ procs /\ p_PID p = pid.
Proof.
  unfold by_pid.
  assert (H : forall m : gmap Z Proc,
            foldl (fun m p => <[p_PID p := p]> m) m procs !! pid = Some p ->
            (p ∈ procs /\ p_PID p = pid) \/ m !! pid = Some p).
  { induction procs as [|q procs IH]; intros m; [by right|]. cbn [foldl]. intros Hm.
    destruct (IH _ Hm) as [[? ?]|Hq]; [left; split; [by right|done]|].
    apply lookup_insert_Some in Hq as [[<- <-]|[_ ?]]; [left; split; [left|done]|by right]. }
  intros Hm. destruct (H _ Hm) as [?|Hn]; [done|]. by rewrite lookup_empty in Hn.
Qed.

Lemma session_user_Some byPID passwd skip p name :
  session_user byPID passwd skip p = Some name <->
  p_UID p <> 0 /\ passwd !! p_UID p = Some name /\ name ∉ skip /\
  exists parent, byPID !! p_PPID p = Some parent /\ p_UID parent = 0.
Proof.
  unfold session_user. case_bool (p_UID p =? 0); [naive_solver|].
  destruct (passwd !! p_UID p) as [n|]; [|naive_solver].
  case_decide; [naive_solver|].
  destruct (byPID !! p_PPID p) as [parent|]; [|naive_solver].
  case_if; naive_solver.
Qed.

Lemma ListProcs_comm e f procs p :
  ListProcs e f = Some procs -> p ∈ procs -> f (p_Comm p) = true.
Proof.
  unfold ListProcs. destruct (pe_dir e) as [names|]; [|done]. intros [= <-].
  rewrite list_elem_of_omap. intros (name & _ & Hn).
  destruct (atoi name) as [pid|]; [|done]. case_if_in Hn; [done|].
  destruct (ReadProc e pid) as [q|]; [|done]. case_if_in Hn; [|done]. by simplify_eq.
Qed.

#[export] Instance session_le_total : Total session_le.
Proof. intros x y. unfold session_le. lia. Qed.

(** C14 The scanner reports exactly the user sessions: a process is reported if and
    only if it is an sshd process of a known, non-root, not skipped user whose
    parent is a root sshd process; the report is ordered by start time (then
    pid), and each entry carries the pid, monitor, user and start of its process. *)
Theorem Scan_sessions little s e ss :
  Scan little s e = Some ss ->
  exists procs, ListProcs e isSSHD = Some procs /\ Sorted session_le ss /\
    (forall p, p ∈ procs -> isSSHD (p_Comm p) = true) /\
    forall pid ppid name uid start,
      (exists x, x ∈ ss /\ identity x = (pid, ppid, name, uid, start)) <->
      (exists p, p ∈ procs /\ pid = p_PID p /\ ppid = p_PPID p /\ uid = p_UID p /\
         start = p_StartTime p /\ uid <> 0 /\ Passwd e !! uid = Some name /\
         name ∉ default default_skip (SkipUsers s) /\
         exists parent, by_pid procs !! ppid = Some parent /\ p_UID parent = 0).
Proof.
  unfold Scan. destruct (ListProcs e isSSHD) as [procs|] eqn:El; [|done].
  fold (by_pid procs). intros [= <-]. exists procs.
  split; [done|]. split; [apply Sorted_merge_sort, _|].
  split; [by intros p Hp; apply (ListProcs_comm e _ procs)|].
  intros pid ppid name uid start. split.
  - intros (x & Hx & Hid). rewrite merge_sort_Permutation, list_elem_of_omap in Hx.
    destruct Hx as (p & Hp & Hs). apply scan_proc_identity in Hs as [Hu Hi].
    rewrite Hi in Hid. simplify_eq. apply session_user_Some in Hu as (? & ? & ? & ?).
    by exists p.
  - intros (p & Hp & -> & -> & -> & -> & Hu & Hn & Hsk & Hpar).
    assert (Hs : session_user (by_pid procs) (Passwd e)
                   (default default_skip (SkipUsers s)) p = Some name).
    { by apply session_user_Some. }
    destruct (scan_proc s e (default (mkTCPTable ∅ ∅) (ReadTCP little e))
      (list_to_set (u16 <$> UDPGWPorts s)) (by_pid procs) (Passwd e)
      (default default_skip (SkipUsers s)) p) as [x|] eqn:Ex.
    + exists x. split.
      * rewrite merge_sort_Permutation. apply list_elem_of_omap. by exists p.
      * apply scan_proc_identity in Ex as [Hu' ->]. congruence.
    + unfold scan_proc in Ex. by rewrite Hs in Ex.
Qed.

(** [ByUser] loses, invents and reorders nothing. *)
Lemma ByUser_lookup ss u :
  default [] (ByUser ss !! u) = filter (fun x => ss_Username x = u) ss.
Proof.
  unfold ByUser.
  assert (H : forall m, default [] (foldl by_user_add m ss !! u) =
    default [] (m !! u) ++ filter (fun x => ss_Username x = u) ss).
  { induction ss as [|x ss IH]; intros m; [by rewrite app_nil_r|].
    cbn [foldl]. rewrite IH. unfold by_user_add. rewrite filter_cons.
    destruct (decide (ss_Username x = u)) as [<-|Hne].
    - rewrite lookup_insert_eq. cbn. by rewrite <- app_assoc.
    - by rewrite lookup_insert_ne. }
  rewrite H, lookup_empty. done.
Qed.

(** [Kill] never sends SIGKILL to a recycled pid: it does so exactly when the
    process was there, took SIGTERM, and all fifteen polls still saw the
    process with the same start time. *)
Lemma Kill_sigkill pid start term kill polls :
  SIGKILL ∈ (Kill pid start term kill polls).2 <->
  1 < pid /\ term = None /\
  exists t, start = Some t /\ forall i, (i < 15)%nat -> polls i = Some t.
Proof.
  assert (Hp : forall n i t, kill_polls n t polls i = true <->
             forall j, (j < n)%nat -> polls (i + j)%nat = Some t).
  { induction n as [|n IH]; intros i t; cbn [kill_polls]; [split; [lia|done]|].
    destruct (polls i) as [t'|] eqn:Ei.
    - destruct (Z.eqb_spec t' t) as [->|Hne].
      + rewrite IH. split; intros Hj [|j] Hlt.
        * by rewrite Nat.add_0_r.
        * rewrite <- Nat.add_succ_comm. apply Hj. lia.
        * rewrite Nat.add_succ_comm. apply Hj. lia.
        * rewrite Nat.add_succ_comm. apply Hj. lia.
      + split; [done|]. intros Hj. specialize (Hj 0%nat ltac:(lia)).
        rewrite Nat.add_0_r in Hj. congruence.
    - split; [done|]. intros Hj. specialize (Hj 0%nat ltac:(lia)).
      rewrite Nat.add_0_r in Hj. congruence. }
  unfold Kill. case_bool (pid <=? 1); [split; [set_solver|lia]|].
  destruct start as [t|]; [|split; [set_solver|naive_solver]].
  destruct term as [er|]; [split; [set_solver|naive_solver]|].
  specialize (Hp 15%nat 0%nat t). destruct (kill_polls 15 t polls 0).
  - split; [|set_solver]. intros _. split_and!; [lia|done|]. exists t. split; [done|].
    by apply Hp.
  - split; [set_solver|]. intros (_ & _ & t' & [= <-] & Hall).
    by apply Hp in Hall.
Qed.

(** A host with one session of the user alice: the monitor 10 and the process 11. *)
Definition demo_proc : procenv :=
  let tail := bs " 0 0 0 0 0 0 0 0 0 0 0 0 0 0 0 0 0 500" in
  mkProcenv (Some [bs "10"; bs "11"; bs "self"])
    (fun pid => if pid =? 10 then Some (bs "10 (sshd) S 1" ++ tail)
                else if pid =? 11 then Some (bs "11 (sshd) S 10" ++ tail) else None)
    (fun pid => if pid =? 10 then Some 0 else Some 1001)
    (Some (bs "btime 1700000000")) (fun _ => None) (fun _ => None) None None
    (Some (bs "root:x:0:0::/:/bin/sh" ++ [x0a] ++ bs "alice:x:1001:1001::/:/bin/false")).

Lemma Scan_sessions_witness :
  exists ss x, Scan true (mkScanner (fun _ => None) [] None) demo_proc = Some ss /\
    x ∈ ss /\ ss_PID x = 11 /\ ss_Username x = bs "alice".
Proof.
  destruct (Scan true (mkScanner (fun _ => None) [] None) demo_proc) as [ss|] eqn:E;
    [|vm_compute in E; discriminate E].
  destruct (Scan_sessions _ _ _ _ E) as (procs & Hl & _ & _ & Hx).
  specialize (Hx 11 10 (bs "alice") 1001 1700000005000000000).
  vm_compute in Hl. injection Hl as <-.
  destruct (proj2 Hx) as (x & Hin & Hid).
  - eexists. split; [right; left|]. do 4 (split; [reflexivity|]).
    split; [done|]. split; [vm_compute; reflexivity|].
    split; [intros Hn; not_elem Hn|].
    eexists. split; vm_compute; reflexivity.
  - unfold identity in Hid. injection Hid as H1 _ H2 _ _.
    exists ss, x. split_and!; done.
Defined.
