(* ===== verification/Users.v ===== *)
(** The account manager ([src/internal/user/manager.go]) on top of the database,
    the session scanner and the commands of the operating system. What the
    system answers is an interface; the commands that were run are recorded. *)
From S2P Require Import Prelude GoStrings Config Security Store NetAddr Procfs Session.

(* ------------------------------------------------------------------ *)
(** * The operating system and the calendar                              *)
(* ------------------------------------------------------------------ *)

(** What the manager asks of the system. [exec stdin argv] runs a command: its
    trimmed output and whether it succeeded. [db_lock] tries to open the database
    file. [kill_answers] is what [session.Kill] sees of a process. Converting a
    [float64] that does not fit an [int64] gives what the processor likes. *)
Class System : Type := {
  world : Type;
  euid : world -> Z;
  read_file : gostring -> world -> option gostring;
  exec : gostring -> list gostring -> world -> world * (gostring * bool);
  db_lock : world -> world * bool;
  little_endian : bool;
  proc_env : world -> procenv;
  kill_answers : Z -> world ->
    world * (option Z * option killerr * option killerr * (nat -> option Z));
  float_overflow : float -> Z
}.

(** Calendar arithmetic of the [time] package in the local time zone: [add_days t n]
    is [t.AddDate(0, 0, n)], which is later than [t] for positive [n] (up to
    [max_days], beyond which years overflow); [format_date] is
    [t.Format("2006-01-02")]; [ceil_days d] is [math.Ceil(d.Hours() / 24)]. *)
Class Calendar : Type := {
  max_days : Z;
  add_days : Z -> Z -> Z;
  format_date : Z -> gostring;
  ceil_days : Z -> Z;
  add_days_later : forall t n, 0 < n <= max_days -> t < add_days t n
}.

Definition Hour : Z := 3600 * 1000000000.
Definition shadowDate `{Calendar} (t : Z) : gostring := format_date (t + 24 * Hour).

(* ------------------------------------------------------------------ *)
(** * Data                                                               *)
(* ------------------------------------------------------------------ *)

Record Manager : Type := mkManager { mgr_cfg : Config; mgr_Scanner : Scanner }.

Definition NewManager (cfg : Config) : Manager :=
  mkManager cfg (mkScanner (fun _ => None) (udpgw_Ports (UDPGW cfg)) None).

Record CreateUserOpts : Type := mkOpts {
  opt_Username : gostring;
  opt_Password : gostring;
  opt_MaxConnections : Z;
  opt_ExpirationDays : Z;
  opt_TrafficGB : float;
  opt_Notes : gostring
}.

Definition StatusActive : gostring := bs "active".
Definition StatusExpired : gostring := bs "expired".
Definition StatusLocked : gostring := bs "locked".
Definition StatusQuota : gostring := bs "quota".

Record UserInfo : Type := mkInfo {
  info_record : UserRecord;
  info_ActiveSessions : Z;
  info_IsExpired : bool;
  info_Status : gostring;
  info_DaysLeft : Z;
  info_Sessions : list Session
}.

Definition statusOf (u : UserRecord) (now : Z) : gostring :=
  if Disabled u && eqb_str (LockReason u) LockQuota then StatusQuota
  else if IsExpired u now || (Disabled u && eqb_str (LockReason u) LockExpired)
  then StatusExpired
  else if Disabled u then StatusLocked
  else if QuotaExceeded u then StatusQuota
  else StatusActive.

Definition infoOf `{Calendar} (r : UserRecord) (sessions : list Session) (now : Z) : UserInfo :=
  let days := ceil_days (ExpiresAt r - now) in
  let days := if ExpiresAt r <? now then 0 else days in
  mkInfo r (len sessions) (IsExpired r now) (statusOf r now) days sessions.

(* ------------------------------------------------------------------ *)
(** * Effects                                                            *)
(* ------------------------------------------------------------------ *)

Inductive merr : Type :=
| ErrNotRoot
| badUser (e : usererr)
| badPassword (e : pwerr)
| noRandom
| userExists
| linuxUserExists
| dbFailed (e : dberr)
| cmdFailed (argv : list gostring)
| scanFailed
| refused (msg : gostring)
| groupNotFound.

(** A command that was run: standard input, arguments, success. *)
Record command : Type := mkCommand { c_stdin : gostring; c_argv : list gostring; c_ok : bool }.

Section users.
Context `{System, Calendar, Unicode, Codec UserRecord, Bolt}.

Record mgr : Type := mkMgr { m_db : DB; m_world : world; m_ran : list command }.

Definition set_db (d : DB) (s : mgr) : mgr := mkMgr d (m_world s) (m_ran s).
Definition set_world (w : world) (s : mgr) : mgr := mkMgr (m_db s) w (m_ran s).

(** Computations that may fail; the state survives a failure. *)
Definition M (A : Type) : Type := mgr -> mgr * result merr A.

#[export] Instance M_ret : MRet M := fun A a s => (s, Ok a).
#[export] Instance M_bind : MBind M := fun A B f m s =>
  match m s with
  | (s, Ok a) => f a s
  | (s, Err e) => (s, Err e)
  end.

Definition fail {A} (e : merr) : M A := fun s => (s, Err e).
Definition guard (b : bool) (e : merr) : M () := if b then mret tt else fail e.
(** [_ = m]: the error is dropped. *)
Definition attempt {A} (m : M A) : M (result merr A) := fun s =>
  let '(s, r) := m s in (s, Ok r).
Definition asks {A} (f : world -> A) : M A := fun s => (s, Ok (f (m_world s))).
Definition lift {A} (r : result merr A) : M A := fun s => (s, r).

Definition RunInput (stdin : gostring) (argv : list gostring) : M gostring := fun s =>
  let '(w, (out, ok)) := exec stdin argv (m_world s) in
  let s := mkMgr (m_db s) w (m_ran s ++ [mkCommand stdin argv ok]) in
  (s, if ok then Ok out else Err (cmdFailed argv)).
Definition Run (argv : list gostring) : M gostring := RunInput [] argv.

(** "[out, _ := sysx.Run(...)]": the output is there even when the command failed. *)
Definition Output (argv : list gostring) : M gostring := fun s =>
  let '(w, (out, ok)) := exec [] argv (m_world s) in
  (mkMgr (m_db s) w (m_ran s ++ [mkCommand [] argv ok]), Ok out).

Definition RequireRoot : M () := root ← asks (fun w => euid w =? 0); guard root ErrNotRoot.

(** A read or a write of the database: the file is opened first. *)
Definition db_read {A} (op : bool -> DB -> result dberr A) : M A := fun s =>
  let '(w, opened) := db_lock (m_world s) in
  (set_world w s, match op opened (m_db s) with Ok a => Ok a | Err e => Err (dbFailed e) end).
Definition db_write {A} (op : bool -> DB -> DB * result dberr A) : M A := fun s =>
  let '(w, opened) := db_lock (m_world s) in
  let '(d, r) := op opened (m_db s) in
  (set_db d (set_world w s), match r with Ok a => Ok a | Err e => Err (dbFailed e) end).

Definition getUser (name : gostring) : M UserRecord := db_read (fun o => GetUser o name).
Definition updateUser (name : gostring) (fn : UserRecord -> result gostring UserRecord)
    : M UserRecord := db_write (fun o => UpdateUser o name fn).
Definition listUsers : M (list UserRecord) :=
  db_read (fun o db => match ListUsers o db with (l, None) => Ok l | (_, Some e) => Err e end).

(* ------------------------------------------------------------------ *)
(** * Operations                                                         *)
(* ------------------------------------------------------------------ *)

Variable m : Manager.

Definition EnsureGroup : M () :=
  let g := ud_Group (UserDefaults (mgr_cfg m)) in
  data ← asks (read_file (bs "/etc/group"));
  let found := match data with
               | Some data => existsb (fun line => has_prefix line (g ++ bs ":")) (split_on x0a data)
               | None => false
               end in
  if found then mret tt
  else _ ← Run [bs "groupadd"; bs "--system"; g]; mret tt.

Definition systemUserExists (name : gostring) : M bool :=
  asks (fun w => match read_file (bs "/etc/passwd") w with
                 | None => false
                 | Some data => contains (x0a :: data) (x0a :: name ++ bs ":")
                 end).

Definition lockSystem (name : gostring) : M () :=
  uid ← asks euid;
  there ← systemUserExists name;
  if negb (uid =? 0) || negb there then mret tt
  else _ ← Run [bs "usermod"; bs "-L"; name]; mret tt.

Definition syncSystem (u : UserRecord) : M () :=
  uid ← asks euid;
  there ← systemUserExists (Username u);
  if negb (uid =? 0) || negb there then mret tt
  else if Disabled u then lockSystem (Username u)
  else
    _ ← attempt (Run [bs "usermod"; bs "-U"; Username u]);
    _ ← Run [bs "chage"; bs "-E"; shadowDate (ExpiresAt u); Username u];
    mret tt.

(** [session.Kill] of one pid: whether it gave no error. *)
Definition killPID (pid : Z) : M bool := fun s =>
  let '(w, (start, term, kill, polls)) := kill_answers pid (m_world s) in
  (set_world w s, Ok (match (Kill pid start term kill polls).1 with None => true | _ => false end)).

Fixpoint kick_all (name : gostring) (sessions : list Session) (n : Z) : M Z :=
  match sessions with
  | [] => mret n
  | s :: sessions =>
      if eqb_str (ss_Username s) name
      then ok ← killPID (ss_PID s); kick_all name sessions (if (ok : bool) then n + 1 else n)
      else kick_all name sessions n
  end.

Definition Kick (name : gostring) : M Z :=
  found ← asks (fun w => Scan little_endian (mgr_Scanner m) (proc_env w));
  match found with
  | None => fail scanFailed
  | Some sessions => kick_all name sessions 0
  end.

(** The limit in bytes that [Create] stores. *)
Definition gb (f : float) : Z := default (float_overflow f) (GB f).
Definition create_limit (wanted dflt : float) : Z :=
  if 0 <? fl_m wanted then gb wanted
  else if (fl_m wanted =? 0) && (0 <? fl_m dflt) then gb dflt
  else 0.

Definition Create (opts : CreateUserOpts) (rand : nat -> option Z) (now : Z)
    : M (UserRecord * gostring) :=
  RequireRoot ;;
  match ValidateUsername (opt_Username opts) with
  | Some e => fail (badUser e)
  | None =>
  let name := opt_Username opts in
  pw ← match opt_Password opts with
       | [] => match GenerateRandomPassword 10 rand with
               | Some pw => mret pw
               | None => fail noRandom
               end
       | pw => mret pw
       end;
  match ValidatePassword pw with
  | Some e => fail (badPassword e)
  | None =>
  known ← attempt (getUser name);
  guard (negb (is_ok known)) userExists ;;
  there ← systemUserExists name;
  guard (negb there) linuxUserExists ;;
  let d := UserDefaults (mgr_cfg m) in
  let maxc := or_pos (opt_MaxConnections opts) (ud_DefaultMaxConnections d) in
  let days := or_pos (opt_ExpirationDays opts) (ud_DefaultExpirationDays d) in
  let limit := create_limit (opt_TrafficGB opts) (ud_DefaultTrafficGB d) in
  EnsureGroup ;;
  let expires := add_days now days in
  let shell := or_str (ud_Shell d) (bs "/bin/false") in
  _ ← Run [bs "useradd"; bs "-M"; bs "-N"; bs "-g"; ud_Group d; bs "-s"; shell;
           bs "-e"; shadowDate expires; bs "-c"; bs "SSH-VPN user"; name];
  set ← attempt (RunInput (name ++ bs ":" ++ pw ++ [x0a]) [bs "chpasswd"]);
  match set with
  | Err e => _ ← attempt (Run [bs "userdel"; bs "-f"; name]); fail e
  | Ok _ =>
      let rec := mkUser name maxc expires now false [] (opt_Notes opts) limit 0 0 in
      saved ← attempt (db_write (fun o => PutUser o rec));
      match saved with
      | Err e => _ ← attempt (Run [bs "userdel"; bs "-f"; name]); fail e
      | Ok _ => mret (rec, pw)
      end
  end
  end
  end.

Definition Delete (name : gostring) : M () :=
  RequireRoot ;;
  match ValidateUsername name with
  | Some e => fail (badUser e)
  | None =>
  _ ← getUser name;
  _ ← attempt (lockSystem name);
  _ ← attempt (Kick name);
  there ← systemUserExists name;
  (if (there : bool) then _ ← Run [bs "userdel"; bs "-f"; name]; mret tt else mret tt) ;;
  db_write (fun o => DeleteUser o name)
  end.

Definition SetPassword (name pw : gostring) (rand : nat -> option Z) : M gostring :=
  RequireRoot ;;
  _ ← getUser name;
  pw ← match pw with
       | [] => match GenerateRandomPassword 10 rand with
               | Some pw => mret pw
               | None => fail noRandom
               end
       | pw => mret pw
       end;
  match ValidatePassword pw with
  | Some e => fail (badPassword e)
  | None =>
  _ ← RunInput (name ++ bs ":" ++ pw ++ [x0a]) [bs "chpasswd"];
  u ← attempt (getUser name);
  (match u with
   | Ok u => if Disabled u then _ ← attempt (lockSystem name); mret tt else mret tt
   | Err _ => mret tt
   end) ;;
  mret pw
  end.

(** Disabled and the lock reason are cleared when the lock has the given reason. *)
Definition lift_lock (reason : gostring) (u : UserRecord) : UserRecord :=
  if Disabled u && eqb_str (LockReason u) reason then set_lock false [] u else u.

Definition renew_record (days now : Z) (u : UserRecord) : UserRecord :=
  let base := if ExpiresAt u <? now then now else ExpiresAt u in
  lift_lock LockExpired (set_expiry (add_days base days) u).

Definition Renew (name : gostring) (days now : Z) : M UserRecord :=
  if days <=? 0 then fail (refused (bs "days must be positive"))
  else
    u ← updateUser name (fun u => Ok (renew_record days now u));
    syncSystem u ;; mret u.

Definition expiry_record (t now : Z) (u : UserRecord) : UserRecord :=
  let u := set_expiry t u in
  if Disabled u && eqb_str (LockReason u) LockExpired && (now <? t) then set_lock false [] u else u.

Definition SetExpiry (name : gostring) (t now : Z) : M UserRecord :=
  u ← updateUser name (fun u => Ok (expiry_record t now u));
  syncSystem u ;; mret u.

Definition SetMaxConnections (name : gostring) (n : Z) : M () :=
  if n <? 1 then fail (refused (bs "max connections must be at least 1"))
  else _ ← updateUser name (fun u => Ok (set_max n u)); mret tt.

Definition limit_record (bytes : Z) (u : UserRecord) : UserRecord :=
  let u := set_limit bytes u in
  if Disabled u && eqb_str (LockReason u) LockQuota && negb (QuotaExceeded u)
  then set_lock false [] u else u.

Definition SetTrafficLimit (name : gostring) (bytes : Z) : M UserRecord :=
  let bytes := if bytes <? 0 then 0 else bytes in
  u ← updateUser name (fun u => Ok (limit_record bytes u));
  syncSystem u ;; mret u.

Definition ResetTraffic (name : gostring) : M UserRecord :=
  u ← updateUser name (fun u => Ok (lift_lock LockQuota (set_used 0 u)));
  syncSystem u ;; mret u.

Definition Lock (name reason : gostring) : M () :=
  let reason := or_str reason LockManual in
  u ← updateUser name (fun u => Ok (set_lock true reason u));
  syncSystem u ;;
  _ ← attempt (Kick name);
  mret tt.

Definition unlock_record (name : gostring) (now : Z) (u : UserRecord)
    : result gostring UserRecord :=
  if IsExpired u now
  then Err (name ++ bs " expired on " ++ format_date (ExpiresAt u) ++ bs " — renew it instead")
  else if QuotaExceeded u
  then Err (name ++ bs " used its whole traffic quota — reset traffic or raise the limit")
  else Ok (set_lock false [] u).

Definition Unlock (name : gostring) (now : Z) : M () :=
  u ← updateUser name (unlock_record name now);
  syncSystem u.

Definition List (now : Z) : M (list UserInfo) :=
  records ← listUsers;
  found ← asks (fun w => Scan little_endian (mgr_Scanner m) (proc_env w));
  let byUser := match found with Some sessions => ByUser sessions | None => ∅ end in
  mret ((fun r => infoOf r (default [] (byUser !! Username r)) now) <$> records).

Definition Get (name : gostring) (now : Z) : M UserInfo :=
  r ← getUser name;
  found ← asks (fun w => Scan little_endian (mgr_Scanner m) (proc_env w));
  let mine := match found with
              | Some sessions => default [] (ByUser sessions !! name)
              | None => []
              end in
  mret (infoOf r mine now).

Fixpoint purge (cutoff : Z) (records : list UserRecord) : M (list gostring) :=
  match records with
  | [] => mret []
  | r :: records =>
      if negb (ExpiresAt r =? 0) && (ExpiresAt r <? cutoff)
      then done ← attempt (Delete (Username r));
           removed ← purge cutoff records;
           mret (if is_ok done then Username r :: removed else removed)
      else purge cutoff records
  end.

Definition PurgeExpired (graceDays now : Z) : M (list gostring) :=
  records ← listUsers;
  purge (add_days now (- graceDays)) records.

(** The records a line of the password file moves into the group. *)
Fixpoint migrate_line (p : list gostring) (gid : gostring) (records : list UserRecord) (n : Z)
    : M Z :=
  match records with
  | [] => mret n
  | r :: records =>
      if eqb_str (default [] (p !! 0%nat)) (Username r) && negb (eqb_str (default [] (p !! 3%nat)) gid)
      then done ← attempt (Run [bs "usermod"; bs "-g"; ud_Group (UserDefaults (mgr_cfg m)); Username r]);
           migrate_line p gid records (if is_ok done then n + 1 else n)
      else migrate_line p gid records n
  end.

Fixpoint migrate_lines (lines : list gostring) (gid : gostring) (records : list UserRecord) (n : Z)
    : M Z :=
  match lines with
  | [] => mret n
  | line :: lines =>
      let p := split_on x3a line in
      if len p <? 4 then migrate_lines lines gid records n
      else n ← migrate_line p gid records n; migrate_lines lines gid records n
  end.

Definition MigrateGroups : M Z :=
  uid ← asks euid;
  if negb (uid =? 0) then mret 0
  else
    EnsureGroup ;;
    records ← listUsers;
    out ← Output [bs "getent"; bs "group"; ud_Group (UserDefaults (mgr_cfg m))];
    let f := split_on x3a out in
    if len f <? 3 then fail groupNotFound
    else
      passwd ← asks (read_file (bs "/etc/passwd"));
      migrate_lines (split_on x0a (default [] passwd)) (default [] (f !! 2%nat)) records 0.
End users.
