(* ===== verification/UsersProps.v ===== *)
(** What the account manager guarantees ([Users]): creation is all or nothing,
    an administrator's lock stays, renewals extend, and the Linux account agrees
    with the record. *)
From S2P Require Import Prelude GoStrings Config Security Store NetAddr Procfs Session Users.

Create HintDb keeps.

Section steps.
Context `{Sys : System}.
Implicit Types s : mgr.

(* ------------------------------------------------------------------ *)
(** * Steps of a computation                                             *)
(* ------------------------------------------------------------------ *)

Lemma bind_inv {A B} (c : M A) (f : A -> M B) s s' r :
  (c ≫= f) s = (s', r) ->
  (exists e, c s = (s', Err e) /\ r = Err e) \/
  (exists a s1, c s = (s1, Ok a) /\ f a s1 = (s', r)).
Proof.
  unfold mbind, M_bind. destruct (c s) as [s1 [a|e]]; [by right; eauto|].
  intros [= <- <-]. left. eauto.
Qed.

Lemma attempt_inv {A} (c : M A) s s' r :
  attempt c s = (s', r) -> exists r0, c s = (s', r0) /\ r = Ok r0.
Proof. unfold attempt. destruct (c s) as [s1 r1]. intros [= <- <-]. eauto. Qed.

(** A computation keeps a relation between the databases before and after it,
    and the same for the worlds or the commands. *)
Definition keeps {A} (R : mgr -> mgr -> Prop) (c : M A) : Prop := forall s, R s (c s).1.

Section keeps.
Context (R : mgr -> mgr -> Prop) `{!PreOrder R}.

Lemma keeps_ret {A} (a : A) : keeps R (mret a).
Proof. intros s. cbn. reflexivity. Qed.
Lemma keeps_fail {A} e : keeps R (fail (A := A) e).
Proof. intros s. cbn. reflexivity. Qed.
Lemma keeps_asks {A} (f : world -> A) : keeps R (asks f).
Proof. intros s. cbn. reflexivity. Qed.
Lemma keeps_bind {A B} (c : M A) (f : A -> M B) :
  keeps R c -> (forall a, keeps R (f a)) -> keeps R (c ≫= f).
Proof.
  intros Hc Hf s. unfold mbind, M_bind. pose proof (Hc s) as H1.
  destruct (c s) as [s1 [a|e]]; [|done]. etransitivity; [exact H1|apply Hf].
Qed.
Lemma keeps_attempt {A} (c : M A) : keeps R c -> keeps R (attempt c).
Proof. intros Hc s. unfold attempt. pose proof (Hc s). by destruct (c s). Qed.
Lemma keeps_guard b e : keeps R (guard b e).
Proof. unfold guard. destruct b; [apply keeps_ret|apply keeps_fail]. Qed.
End keeps.

Lemma keeps_run {A} R (c : M A) s s' r : keeps R c -> c s = (s', r) -> R s s'.
Proof. intros Hc E. specialize (Hc s). by rewrite E in Hc. Qed.

Lemma RunInput_inv stdin argv s s' r :
  RunInput stdin argv s = (s', r) ->
  m_db s' = m_db s /\ m_ran s' = m_ran s ++ [mkCommand stdin argv (is_ok r)].
Proof. unfold RunInput. destruct (exec _ _ _) as [w [out ok]]. intros [= <- <-]. by destruct ok. Qed.

Lemma db_write_inv {A} (o : bool -> DB -> DB * result dberr A) s s' r :
  db_write o s = (s', r) ->
  exists b x, o b (m_db s) = (m_db s', x) /\
    match x with Ok a => r = Ok a | Err e => r = Err (dbFailed e) end.
Proof.
  unfold db_write. destruct (db_lock _) as [w b]. destruct (o b (m_db s)) as [d x] eqn:E.
  intros [= <- <-]. exists b, x. by destruct x.
Qed.
End steps.

#[export] Hint Resolve keeps_ret keeps_fail keeps_asks keeps_bind keeps_attempt keeps_guard : keeps.

(** Splits a computation into its steps. *)
Ltac keep_step :=
  match goal with
  | |- forall _, _ => intros ?
  | |- keeps _ (mret _) => apply keeps_ret
  | |- keeps _ (fail _) => apply keeps_fail
  | |- keeps _ (asks _) => apply keeps_asks
  | |- keeps _ (guard _ _) => apply keeps_guard
  | |- keeps _ (attempt _) => apply keeps_attempt
  | |- keeps _ (_ ≫= _) => apply keeps_bind
  | |- keeps _ (match ?x with _ => _ end) => destruct x
  | |- keeps _ (let _ := _ in _) => cbv zeta
  end.
Ltac keep := repeat (keep_step; try apply _; cbv beta); eauto with keeps.

(** The first step of a computation in a hypothesis: it fails there, or goes on. *)
Ltac cstep H :=
  let e := fresh "e" in let a := fresh "a" in let s1 := fresh "s" in
  let Hc := fresh "Hc" in
  apply bind_inv in H as [(e & Hc & ->)|(a & s1 & Hc & H)].
(** The same for a computation that succeeded. *)
Ltac ok_step H :=
  let e := fresh "e" in let a := fresh "a" in let s1 := fresh "s" in
  let Hc := fresh "Hc" in let He := fresh "He" in
  apply bind_inv in H as [(e & Hc & He)|(a & s1 & Hc & H)]; [discriminate He|].

Section proofs.
Context `{Sys : System, Cal : Calendar, Uni : Unicode, Cod : Codec UserRecord, Blt : Bolt}.
Variable m : Manager.
Implicit Types s : mgr.

(** ** Computations that do not write the database *)

Definition same_db (s s' : mgr) : Prop := m_db s' = m_db s.
#[local] Instance same_db_preorder : PreOrder same_db.
Proof. split; [by intros s|intros s1 s2 s3]. unfold same_db. congruence. Qed.

Lemma same_RunInput stdin argv : keeps same_db (RunInput stdin argv).
Proof. intros s. unfold RunInput, same_db. destruct (exec _ _ _) as [w [out ok]]. by destruct ok. Qed.
Lemma same_Run argv : keeps same_db (Run argv).
Proof. apply same_RunInput. Qed.
Lemma same_db_read {A} (op : bool -> DB -> result dberr A) : keeps same_db (db_read op).
Proof. intros s. unfold db_read, same_db. by destruct (db_lock _). Qed.
Lemma same_killPID pid : keeps same_db (killPID pid).
Proof. intros s. unfold killPID, same_db. by destruct (kill_answers _ _) as [w [[[? ?] ?] ?]]. Qed.
#[local] Hint Resolve same_RunInput same_Run same_db_read same_killPID : keeps.

Lemma same_RequireRoot : keeps same_db RequireRoot.
Proof. unfold RequireRoot. keep. Qed.
Lemma same_systemUserExists n : keeps same_db (systemUserExists n).
Proof. unfold systemUserExists. keep. Qed.
#[local] Hint Resolve same_RequireRoot same_systemUserExists : keeps.
Lemma same_lockSystem n : keeps same_db (lockSystem n).
Proof. unfold lockSystem. keep. Qed.
#[local] Hint Resolve same_lockSystem : keeps.
Lemma same_syncSystem u : keeps same_db (syncSystem u).
Proof. unfold syncSystem. keep. Qed.
Lemma same_kick_all n l k : keeps same_db (kick_all n l k).
Proof. revert k. induction l as [|x l IH]; intros k; cbn [kick_all]; keep. Qed.
#[local] Hint Resolve same_syncSystem same_kick_all : keeps.
Lemma same_Kick n : keeps same_db (Kick m n).
Proof. unfold Kick. keep. Qed.
Lemma same_EnsureGroup : keeps same_db (EnsureGroup m).
Proof. unfold EnsureGroup. keep. Qed.
Lemma same_Output argv : keeps same_db (Output argv).
Proof. intros s. unfold Output, same_db. by destruct (exec _ _ _) as [w [out ok]]. Qed.
#[local] Hint Resolve same_Kick same_EnsureGroup same_Output : keeps.
Lemma same_migrate_line p gid l k : keeps same_db (migrate_line m p gid l k).
Proof. revert k. induction l as [|x l IH]; intros k; cbn [migrate_line]; keep. Qed.
#[local] Hint Resolve same_migrate_line : keeps.
Lemma same_migrate_lines ls gid l k : keeps same_db (migrate_lines m ls gid l k).
Proof. revert k. induction ls as [|x ls IH]; intros k; cbn [migrate_lines]; keep. Qed.
#[local] Hint Resolve same_migrate_lines : keeps.
Lemma same_MigrateGroups : keeps same_db (MigrateGroups m).
Proof. unfold MigrateGroups, listUsers. keep. Qed.
#[local] Hint Resolve same_MigrateGroups : keeps.

(* ------------------------------------------------------------------ *)
(** * Every operation, and sequences of them                             *)
(* ------------------------------------------------------------------ *)

Inductive op : Type :=
| opCreate (opts : CreateUserOpts) (rand : nat -> option Z) (now : Z)
| opDelete (name : gostring)
| opSetPassword (name pw : gostring) (rand : nat -> option Z)
| opRenew (name : gostring) (days now : Z)
| opSetExpiry (name : gostring) (t now : Z)
| opSetMaxConnections (name : gostring) (n : Z)
| opSetTrafficLimit (name : gostring) (bytes : Z)
| opResetTraffic (name : gostring)
| opLock (name reason : gostring)
| opUnlock (name : gostring) (now : Z)
| opKick (name : gostring)
| opPurgeExpired (graceDays now : Z)
| opMigrateGroups
| opAddTraffic (deltas : list (gostring * Z)) (seen : Z).

Definition run_op (o : op) : M () :=
  match o with
  | opCreate opts rand now => _ ← Create m opts rand now; mret tt
  | opDelete n => Delete m n
  | opSetPassword n pw rand => _ ← SetPassword n pw rand; mret tt
  | opRenew n days now => _ ← Renew n days now; mret tt
  | opSetExpiry n t now => _ ← SetExpiry n t now; mret tt
  | opSetMaxConnections n k => SetMaxConnections n k
  | opSetTrafficLimit n b => _ ← SetTrafficLimit n b; mret tt
  | opResetTraffic n => _ ← ResetTraffic n; mret tt
  | opLock n reason => Lock m n reason
  | opUnlock n now => Unlock n now
  | opKick n => _ ← Kick m n; mret tt
  | opPurgeExpired g now => _ ← PurgeExpired m g now; mret tt
  | opMigrateGroups => _ ← MigrateGroups m; mret tt
  | opAddTraffic deltas seen => db_write (fun o => AddTraffic o deltas seen)
  end.

Definition run_ops (ops : list op) (s : mgr) : mgr := foldl (fun s o => (run_op o s).1) s ops.

(** The keys of a Go map are distinct. *)
Definition op_wf (o : op) : Prop :=
  match o with opAddTraffic deltas _ => NoDup deltas.*1 | _ => True end.

(** The operations that an administrator uses to change the lock, or to remove
    the account. *)
Definition changes_lock (name : gostring) (o : op) : Prop :=
  match o with
  | opCreate opts _ _ => opt_Username opts = name
  | opDelete n | opLock n _ | opUnlock n _ => n = name
  | opPurgeExpired _ _ => True
  | _ => False
  end.

(** ** A property of one record *)

Section record.
Context (name : gostring) (P : UserRecord -> Prop).

Definition holds (s s' : mgr) : Prop :=
  forall u, user (m_db s) name = Some u -> P u ->
  exists u', user (m_db s') name = Some u' /\ P u'.

#[local] Instance holds_preorder : PreOrder holds.
Proof.
  split.
  - intros s u Hu Hp. eauto.
  - intros s1 s2 s3 H12 H23 u Hu Hp. destruct (H12 u Hu Hp) as (u2 & H2 & Hp2). eauto.
Qed.

Lemma holds_same {A} (c : M A) : keeps same_db c -> keeps holds c.
Proof. intros Hc s u Hu Hp. rewrite (Hc s). eauto. Qed.

Lemma holds_write {A} (o : bool -> DB -> DB * result dberr A) :
  (forall b db u, user db name = Some u -> P u ->
    exists u', user (o b db).1 name = Some u' /\ P u') -> keeps holds (db_write o).
Proof.
  intros Ho s u Hu Hp. unfold db_write. destruct (db_lock (m_world s)) as [w b].
  destruct (Ho b (m_db s) u Hu Hp) as (u' & Hu' & Hp').
  destruct (o b (m_db s)) as [d r]. cbn in *. eauto.
Qed.

Lemma holds_update n fn :
  (n = name -> forall u v, stable u -> P u -> fn u = Ok v -> stable v /\ P v) ->
  keeps holds (updateUser n fn).
Proof.
  intros Hfn. apply holds_write. intros b db u Hu Hp. cbv beta.
  unfold UpdateUser, update. destruct b; cbn [negb fst]; [|by eauto].
  destruct (db_users db !! n) as [data|] eqn:Ed; [|by eauto].
  destruct (unmarshal data) as [u0|] eqn:Eu; [|by eauto].
  destruct (fn u0) as [v|] eqn:Ef; [|by eauto].
  destruct (marshal v) as [enc|] eqn:Em; [|by eauto].
  destruct (put_ok n enc); [|by eauto]. cbn [fst].
  destruct (decide (n = name)) as [->|Hne].
  - unfold user in Hu. rewrite Ed in Hu. cbn in Hu. simplify_eq.
    destruct (Hfn eq_refl u v) as [Hs Hv]; [by eapply codec_stable|done..|].
    exists v. split; [|done]. rewrite (user_insert _ _ v) by done. by rewrite decide_True.
  - exists u. split; [|done]. unfold user in *. cbn [db_users set_users].
    by rewrite lookup_insert_ne.
Qed.

Lemma holds_put u0 : Username u0 <> name -> keeps holds (db_write (fun o => PutUser o u0)).
Proof.
  intros Hne. apply holds_write. intros b db u Hu Hp. exists u. split; [|done]. cbv beta.
  unfold PutUser, update. destruct (marshal u0); [|done]. destruct b; [|done]. cbn [negb].
  destruct (put_ok _ _); [|done]. unfold user in *. cbn [fst db_users set_users].
  by rewrite lookup_insert_ne.
Qed.

Lemma holds_delete n : n <> name -> keeps holds (db_write (fun o => DeleteUser o n)).
Proof.
  intros Hne. apply holds_write. intros b db u Hu Hp. exists u. split; [|done].
  unfold DeleteUser, update. destruct b; [|done]. cbn [negb fst].
  unfold user in *. cbn [db_users set_users]. by rewrite lookup_delete_ne.
Qed.
End record.

(** ** Locks *)

(** Whether a record survives JSON depends on its strings only. *)
Definition text_stable : Prop := forall u v : UserRecord,
  stable u -> Username v = Username u -> Notes v = Notes u ->
  LockReason v ∈ [LockReason u; []; LockManual; LockExpired; LockQuota] -> stable v.

Definition locked_for (r : gostring) (u : UserRecord) : Prop :=
  Disabled u = true /\ LockReason u = r.

(** What the updates of the other operations do to a lock with reason [r]. *)
Definition lock_safe (r : gostring) (fn : UserRecord -> UserRecord) : Prop := forall u,
  locked_for r u -> Username (fn u) = Username u /\ Notes (fn u) = Notes u /\ locked_for r (fn u).

Lemma lift_lock_safe r r' fn : r <> r' -> lock_safe r fn -> lock_safe r (fun u => lift_lock r' (fn u)).
Proof.
  intros Hr Hf u Hu. destruct (Hf u Hu) as (H1 & H2 & H3). unfold lift_lock.
  destruct H3 as [Hd Hl]. unfold eqb_str. rewrite Hd, Hl, (bool_decide_eq_false_2 (r = r')) by done. done.
Qed.

Lemma expiry_lock_safe r t now : r <> LockExpired -> lock_safe r (expiry_record t now).
Proof.
  intros Hr u [Hd Hl]. unfold expiry_record, locked_for. cbn [Disabled LockReason set_expiry].
  rewrite Hd, Hl. unfold eqb_str. by rewrite (bool_decide_eq_false_2 (r = LockExpired)).
Qed.

Lemma limit_lock_safe r b : r <> LockQuota -> lock_safe r (limit_record b).
Proof.
  intros Hr u [Hd Hl]. unfold limit_record, locked_for. cbn [Disabled LockReason set_limit].
  rewrite Hd, Hl. unfold eqb_str. by rewrite (bool_decide_eq_false_2 (r = LockQuota)).
Qed.

Lemma holds_lock_update name r n fn :
  text_stable -> lock_safe r fn ->
  keeps (holds name (locked_for r)) (updateUser n (fun u => Ok (fn u))).
Proof.
  intros Ht Hf. apply holds_update. intros _ u v Hs Hu [= <-].
  destruct (Hf u Hu) as (H1 & H2 & H3). split; [|done]. apply (Ht u); try done.
  destruct Hu as [_ ->], H3 as [_ ->]. left.
Qed.

Lemma holds_traffic name r deltas seen :
  text_stable -> NoDup deltas.*1 ->
  keeps (holds name (locked_for r)) (db_write (fun o => AddTraffic o deltas seen)).
Proof.
  intros Ht Hnd. apply holds_write. intros b db u Hu Hp. cbv beta.
  assert (Ha : forall d v, Username (accounted seen d v) = Username v /\
    Notes (accounted seen d v) = Notes v /\ LockReason (accounted seen d v) = LockReason v /\
    Disabled (accounted seen d v) = Disabled v).
  { intros d v. unfold accounted. by case_if. }
  destruct (AddTraffic b deltas seen db) as [db' x] eqn:E.
  apply AddTraffic_user in E; [|done|].
  2:{ intros v d Hs. destruct (Ha d v) as (? & ? & ? & ?). apply (Ht v); try done.
      rewrite (proj1 (proj2 (proj2 (Ha d v)))). left. }
  cbn [fst]. destruct x as [[]|]; [|subst; eauto].
  rewrite E, Hu. destruct (_ !! name) as [d|]; [|by eauto]. cbn. eexists. split; [done|].
  destruct (Ha d u) as (? & ? & ? & ?), Hp. split; congruence.
Qed.

Lemma run_op_lock name r o :
  text_stable -> r <> LockExpired -> r <> LockQuota -> op_wf o -> ~ changes_lock name o ->
  keeps (holds name (locked_for r)) (run_op o).
Proof.
  intros Ht He Hq Hwf Hc.
  assert (PreOrder (holds name (locked_for r))) by apply holds_preorder.
  pose proof (fun A (c : M A) => holds_same name (locked_for r) c) as Hsame.
  pose proof (fun n fn => holds_lock_update name r n fn Ht) as Hupd.
  destruct o; cbn [run_op changes_lock op_wf] in *; try done.
  - unfold Create. repeat (keep_step; try apply _; cbv beta); eauto with keeps.
    by apply holds_put.
  - unfold Delete. repeat (keep_step; try apply _; cbv beta); eauto with keeps.
    by apply holds_delete.
  - unfold SetPassword. keep.
  - unfold Renew. keep. apply Hupd. unfold renew_record. by apply lift_lock_safe.
  - unfold SetExpiry. keep. apply Hupd. by apply expiry_lock_safe.
  - unfold SetMaxConnections. keep. by apply Hupd.
  - unfold SetTrafficLimit. keep. apply Hupd. by apply limit_lock_safe.
  - unfold ResetTraffic. keep. apply Hupd. by apply lift_lock_safe.
  - unfold Lock. keep. apply holds_update. done.
  - unfold Unlock. keep. apply holds_update. done.
  - keep.
  - keep.
  - by apply holds_traffic.
Qed.

(** C20 An administrator's lock stays: whatever sequence of operations runs
    (renewals, new limits, traffic resets, password changes, accounting,
    operations on other accounts, successful or not), an account locked for a
    reason other than expiry or quota remains locked for that reason, unless the
    sequence locks, unlocks, re-creates or removes that account. *)
Theorem admin_lock_stays name r ops s u :
  text_stable -> r <> LockExpired -> r <> LockQuota ->
  Forall (fun o => op_wf o /\ ~ changes_lock name o) ops ->
  user (m_db s) name = Some u -> Disabled u = true -> LockReason u = r ->
  exists u', user (m_db (run_ops ops s)) name = Some u' /\
    Disabled u' = true /\ LockReason u' = r.
Proof.
  intros Ht He Hq Hops Hu Hd Hr. revert s u Hu Hd Hr.
  induction Hops as [|o ops [Hwf Hc] _ IH]; intros s u Hu Hd Hr; cbn [run_ops foldl]; [by eauto|].
  destruct (run_op_lock name r o Ht He Hq Hwf Hc s u Hu (conj Hd Hr)) as (u' & Hu' & Hd' & Hr').
  by apply (IH _ u').
Qed.

(* ------------------------------------------------------------------ *)
(** * Creation                                                           *)
(* ------------------------------------------------------------------ *)

Definition is_cmd (name : gostring) (c : command) : bool :=
  match c_argv c with a :: _ => eqb_str a name | [] => false end.

(** Before the account is added only [groupadd] may run. *)
Definition only_groupadd (s s' : mgr) : Prop :=
  m_db s' = m_db s /\
  exists new, m_ran s' = m_ran s ++ new /\ Forall (fun c => is_cmd (bs "groupadd") c = true) new.

#[local] Instance only_groupadd_preorder : PreOrder only_groupadd.
Proof.
  split.
  - intros s. split; [done|]. exists []. by rewrite app_nil_r.
  - intros s1 s2 s3 [D1 (n1 & E1 & F1)] [D2 (n2 & E2 & F2)]. split; [congruence|].
    exists (n1 ++ n2). rewrite E2, E1, app_assoc. split; [done|]. by apply Forall_app.
Qed.

Lemma group_db_read {A} (o : bool -> DB -> result dberr A) : keeps only_groupadd (db_read o).
Proof.
  intros s. unfold db_read. destruct (db_lock _). split; [done|]. exists []. by rewrite app_nil_r.
Qed.
Lemma group_EnsureGroup : keeps only_groupadd (EnsureGroup m).
Proof.
  unfold EnsureGroup. keep. intros s. unfold Run, RunInput.
  destruct (exec _ _ _) as [w [out ok]]. split; [by destruct ok|].
  eexists [_]. split; [by destruct ok|]. by repeat constructor.
Qed.
Lemma group_RequireRoot : keeps only_groupadd RequireRoot.
Proof. unfold RequireRoot. keep. Qed.
Lemma group_systemUserExists n : keeps only_groupadd (systemUserExists n).
Proof. unfold systemUserExists. keep. Qed.
#[local] Hint Resolve group_db_read group_EnsureGroup group_RequireRoot group_systemUserExists : keeps.

(** What [Create] leaves behind. *)
Definition useradd_argv (opts : CreateUserOpts) (expires : Z) : list gostring :=
  let d := UserDefaults (mgr_cfg m) in
  [bs "useradd"; bs "-M"; bs "-N"; bs "-g"; ud_Group d; bs "-s"; or_str (ud_Shell d) (bs "/bin/false");
   bs "-e"; shadowDate expires; bs "-c"; bs "SSH-VPN user"; opt_Username opts].

Definition created_record (opts : CreateUserOpts) (now : Z) : UserRecord :=
  let d := UserDefaults (mgr_cfg m) in
  mkUser (opt_Username opts)
    (or_pos (opt_MaxConnections opts) (ud_DefaultMaxConnections d))
    (add_days now (or_pos (opt_ExpirationDays opts) (ud_DefaultExpirationDays d))) now
    false [] (opt_Notes opts) (create_limit (opt_TrafficGB opts) (ud_DefaultTrafficGB d)) 0 0.

Definition create_post (opts : CreateUserOpts) (now : Z) (s s' : mgr)
    (r : result merr (UserRecord * gostring)) : Prop :=
  let name := opt_Username opts in
  exists group new, Forall (fun c => is_cmd (bs "groupadd") c = true) group /\
  m_ran s' = m_ran s ++ group ++ new /\
  match r with
  | Err _ =>
      m_db s' = m_db s /\
      (Forall (fun c => c_ok c = false \/ is_cmd (bs "useradd") c = false) new \/
       exists ok, last new = Some (mkCommand [] [bs "userdel"; bs "-f"; name] ok))
  | Ok (rec, pw) =>
      ValidateUsername name = None /\ ValidatePassword pw = None /\
      rec = created_record opts now /\
      new = [mkCommand [] (useradd_argv opts (ExpiresAt rec)) true;
             mkCommand (name ++ bs ":" ++ pw ++ [x0a]) [bs "chpasswd"] true] /\
      exists o, PutUser o rec (m_db s) = (m_db s', Ok tt)
  end.

Lemma create_post_early opts now s s' e : only_groupadd s s' -> create_post opts now s s' (Err e).
Proof.
  intros [Hdb (new & Hr & Hf)]. exists new, []. rewrite app_nil_r. split_and!; [done..|]. by left.
Qed.

(** The part of [Create] after the account was added, for a record and a password. *)
Definition create_tail (name pw : gostring) (rec : UserRecord) : M (UserRecord * gostring) :=
  set ← attempt (RunInput (name ++ bs ":" ++ pw ++ [x0a]) [bs "chpasswd"]);
  match set with
  | Err e => _ ← attempt (Run [bs "userdel"; bs "-f"; name]); fail e
  | Ok _ =>
      saved ← attempt (db_write (fun o => PutUser o rec));
      match saved with
      | Err e => _ ← attempt (Run [bs "userdel"; bs "-f"; name]); fail e
      | Ok _ => mret (rec, pw)
      end
  end.

Lemma create_tail_inv name pw rec s s' r :
  create_tail name pw rec s = (s', r) ->
  exists new, m_ran s' = m_ran s ++ new /\
  match r with
  | Err _ => m_db s' = m_db s /\
      exists ok, last new = Some (mkCommand [] [bs "userdel"; bs "-f"; name] ok)
  | Ok (rec', pw') => rec' = rec /\ pw' = pw /\
      new = [mkCommand (name ++ bs ":" ++ pw ++ [x0a]) [bs "chpasswd"] true] /\
      exists o, PutUser o rec (m_db s) = (m_db s', Ok tt)
  end.
Proof.
  assert (Hdel : forall s s' e r, (attempt (Run [bs "userdel"; bs "-f"; name]) ≫= fun _ =>
      fail (A := UserRecord * gostring) e) s = (s', r) ->
    r = Err e /\ m_db s' = m_db s /\
    exists ok, m_ran s' = m_ran s ++ [mkCommand [] [bs "userdel"; bs "-f"; name] ok]).
  { clear. intros s s' e r H. cstep H; apply attempt_inv in Hc as (r0 & Hc & [=]); subst.
    apply RunInput_inv in Hc as [Hd Hr]. injection H as <- <-. eauto. }
  unfold create_tail. intros H. cstep H; apply attempt_inv in Hc as (r0 & Hc & [=]); subst.
  apply RunInput_inv in Hc as [Hd1 Hr1]. destruct r0 as [out|e].
  - cstep H; apply attempt_inv in Hc as (r0 & Hc & [=]); subst. unfold db_write in Hc.
    destruct (db_lock (m_world s0)) as [w o]. destruct (PutUser o rec (m_db s0)) as [d x] eqn:Ep.
    destruct x as [[]|e].
    + injection Hc as <- <-. injection H as <- <-. eexists. split; [exact Hr1|].
      split_and!; [done..|]. exists o. by rewrite <- Hd1.
    + injection Hc as <- <-. apply Hdel in H as (-> & Hd & ok & Hr). cbn in Hd, Hr.
      assert (d = m_db s0) as ->.
      { unfold PutUser in Ep. destruct (marshal rec); [by eapply update_err|by injection Ep]. }
      exists [mkCommand (name ++ bs ":" ++ pw ++ [x0a]) [bs "chpasswd"] true;
              mkCommand [] [bs "userdel"; bs "-f"; name] ok].
      rewrite Hr, Hr1, <- app_assoc. split; [done|]. split; [congruence|]. by eexists.
  - apply Hdel in H as (-> & Hd & ok & Hr).
    exists [mkCommand (name ++ bs ":" ++ pw ++ [x0a]) [bs "chpasswd"] false;
            mkCommand [] [bs "userdel"; bs "-f"; name] ok].
    rewrite Hr, Hr1, <- app_assoc. split; [done|]. split; [congruence|]. by eexists.
Qed.

(** The steps of [Create] before the account is added: the computation ends here, or
    goes on. *)
Ltac early := match goal with
  | Hc : ?c ?s0 = (?s', Err _), G : only_groupadd _ ?s0, Hearly : _ |- create_post _ _ _ ?s' _ =>
      apply (Hearly _ c s0 _ G); [unfold getUser; keep|exact Hc]
  end.
Ltac next := match goal with
  | Hc : ?c ?s0 = (?s1, _), G : only_groupadd _ ?s0, Hnext : _ |- _ =>
      apply (Hnext _ c s0 s1 _ G ltac:(unfold getUser; keep)) in Hc; clear G; rename Hc into G
  end.

Lemma Create_post opts rand now s s' r :
  Create m opts rand now s = (s', r) -> create_post opts now s s' r.
Proof.
  assert (Hearly : forall A (c : M A) s0 e, only_groupadd s s0 -> keeps only_groupadd c ->
    c s0 = (s', Err e) -> create_post opts now s s' (Err e)).
  { intros A c s0 e G K Hc. apply create_post_early. etransitivity; [exact G|].
    by eapply keeps_run. }
  assert (Hnext : forall A (c : M A) s0 s1 x, only_groupadd s s0 -> keeps only_groupadd c ->
    c s0 = (s1, x) -> only_groupadd s s1).
  { intros A c s0 s1 x G K Hc. etransitivity; [exact G|]. by eapply keeps_run. }
  assert (G : only_groupadd s s) by reflexivity.
  intros H. unfold Create in H.
  cstep H; [early|next].
  destruct (ValidateUsername (opt_Username opts)) eqn:Eu.
  { injection H as <- <-. by apply create_post_early. }
  cstep H; [early|next].
  destruct (ValidatePassword _) eqn:Ew in H.
  { injection H as <- <-. by apply create_post_early. }
  do 5 (cstep H; [early|next]).
  destruct G as [Hdb (group & Hr & Hg)].
  cstep H; apply RunInput_inv in Hc as [Hd1 Hr1].
  - exists group, [mkCommand [] (useradd_argv opts (ExpiresAt (created_record opts now))) false].
    rewrite Hr1, Hr, <- app_assoc. split_and!; [done..|congruence|]. left. repeat constructor.
  - apply (create_tail_inv _ _ (created_record opts now)) in H as (new & Hr2 & Hp).
    exists group, (mkCommand [] (useradd_argv opts (ExpiresAt (created_record opts now))) true :: new).
    split; [done|]. split; [by rewrite Hr2, Hr1, Hr, <- !app_assoc|]. destruct r as [[rec pw]|e].
    + destruct Hp as (-> & -> & -> & o & Ho). split_and!; [done..|]. exists o. congruence.
    + destruct Hp as (Hd2 & ok & Hl). split; [congruence|]. right. exists ok.
      by rewrite last_cons, Hl.
Qed.

(** C18 Creating an account is all or nothing. When [Create] fails, the database is
    as before and either no [useradd] succeeded or the last command it ran is
    [userdel] of that account. When it succeeds, name and password passed
    validation, the account was added and its password set by exactly one line
    of [chpasswd] input, the record has the asked values or the configured
    defaults and expires in the future, [GetUser] gives it back and no other
    record changed. *)
Theorem Create_all_or_nothing opts rand now s s' r :
  Create m opts rand now s = (s', r) ->
  stable (created_record opts now) ->
  0 < or_pos (opt_ExpirationDays opts) (ud_DefaultExpirationDays (UserDefaults (mgr_cfg m)))
    <= max_days ->
  let name := opt_Username opts in
  exists group new, Forall (fun c => is_cmd (bs "groupadd") c = true) group /\
  m_ran s' = m_ran s ++ group ++ new /\
  match r with
  | Err _ =>
      m_db s' = m_db s /\
      (Forall (fun c => c_ok c = false \/ is_cmd (bs "useradd") c = false) new \/
       exists ok, last new = Some (mkCommand [] [bs "userdel"; bs "-f"; name] ok))
  | Ok (rec, pw) =>
      ValidateUsername name = None /\ ValidatePassword pw = None /\
      rec = created_record opts now /\ IsExpired rec now = false /\
      new = [mkCommand [] (useradd_argv opts (ExpiresAt rec)) true;
             mkCommand (name ++ bs ":" ++ pw ++ [x0a]) [bs "chpasswd"] true] /\
      GetUser true name (m_db s') = Ok rec /\
      forall n, n <> name -> GetUser true n (m_db s') = GetUser true n (m_db s)
  end.
Proof.
  intros H Hst Hdays name. apply Create_post in H as (group & new & Hg & Hr & Hp).
  exists group, new. split_and!; [done..|]. destruct r as [[rec pw]|e]; [|done].
  destruct Hp as (Hu & Hw & -> & -> & o & Ho). split_and!; try done.
  - unfold IsExpired. cbn [created_record ExpiresAt]. pose proof (add_days_later now _ Hdays).
    apply andb_false_iff. right. apply negb_false_iff. lia.
  - destruct (PutUser_user _ _ _ _ _ Hst Ho) as [Hget _]. exact Hget.
  - destruct (PutUser_user _ _ _ _ _ Hst Ho) as [_ Hoth]. exact Hoth.
Qed.

(* ------------------------------------------------------------------ *)
(** * Renewal and removal                                                *)
(* ------------------------------------------------------------------ *)

(** A successful update, and what follows it without writing. *)
Lemma update_then {B} name fn (c : UserRecord -> M B) s s' b :
  (forall u v, stable u -> fn u = Ok v -> stable v) -> (forall u, keeps same_db (c u)) ->
  (updateUser name fn ≫= c) s = (s', Ok b) ->
  exists u v s1, user (m_db s) name = Some u /\ fn u = Ok v /\
    user (m_db s') name = Some v /\ (forall n, n <> name -> user (m_db s') n = user (m_db s) n) /\
    updateUser name fn s = (s1, Ok v) /\ c v s1 = (s', Ok b).
Proof.
  intros Hst Hc H. ok_step H. pose proof Hc0 as Hw.
  apply db_write_inv in Hc0 as (o & x & E & Hx).
  destruct x as [v|]; [|done]. injection Hx as ->.
  apply UpdateUser_user in E as ((u & Hu & Hf) & Hv & Hoth); [|done].
  pose proof (keeps_run _ _ _ _ _ (Hc v) H) as Hs. unfold same_db in Hs.
  exists u, v, s0. by rewrite !Hs.
Qed.

Lemma renew_stable days now : text_stable -> forall u v, stable u ->
  Ok (E := gostring) (renew_record days now u) = Ok v -> stable v.
Proof.
  intros Ht u v Hu [= <-]. apply (Ht u); [done|..]; unfold renew_record, lift_lock; case_if;
    cbn; try done; set_solver.
Qed.


(** An account that never expired (the zero time) gets an end by a renewal. *)
Lemma Renew_ends_unlimited days now u :
  0 < days <= max_days -> 0 < now -> ExpiresAt u = 0 ->
  forall t, IsExpired u t = false /\
    (ExpiresAt (renew_record days now u) <= t -> IsExpired (renew_record days now u) t = true).
Proof.
  intros Hd Hn Hz t. pose proof (add_days_later now days Hd) as Hl.
  unfold IsExpired at 1. rewrite Hz. split; [done|].
  assert (ExpiresAt (renew_record days now u) = add_days now days) as E.
  { unfold renew_record, lift_lock. rewrite Hz. rewrite (proj2 (Z.ltb_lt 0 now)) by lia. by case_if. }
  rewrite E. unfold IsExpired. rewrite E. intros. apply andb_true_iff. split; apply negb_true_iff; lia.
Qed.

Lemma Delete_db name s s' r :
  Delete m name s = (s', r) ->
  m_db s' = if is_ok r then set_users (delete name (db_users (m_db s))) (m_db s) else m_db s.
Proof.
  assert (Hbefore : forall A (c : M A) (k : A -> M ()) s0, keeps same_db c ->
    (forall a s1, m_db s1 = m_db s0 -> k a s1 = (s', r) ->
       m_db s' = if is_ok r then set_users (delete name (db_users (m_db s0))) (m_db s0) else m_db s0) ->
    (c ≫= k) s0 = (s', r) ->
    m_db s' = if is_ok r then set_users (delete name (db_users (m_db s0))) (m_db s0) else m_db s0).
  { intros A c k s0 Hc Hk E. cstep E; [by apply (keeps_run _ _ _ _ _ Hc) in Hc0|].
    apply (Hk a s1); [by apply (keeps_run _ _ _ _ _ Hc) in Hc0|done]. }
  unfold Delete. apply Hbefore; [keep|]. intros _ s1 E1 H. rewrite <- E1. clear E1. revert H.
  destruct (ValidateUsername name). { by intros [= <- <-]. }
  apply Hbefore; [unfold getUser; keep|]. intros _ s2 E2 H. rewrite <- E2. clear E2. revert H.
  apply Hbefore; [keep|]. intros _ s3 E3 H. rewrite <- E3. clear E3. revert H.
  apply Hbefore; [keep|]. intros _ s4 E4 H. rewrite <- E4. clear E4. revert H.
  apply Hbefore; [keep|]. intros there s5 E5 H. rewrite <- E5. clear E5. revert H.
  apply Hbefore; [keep|]. intros _ s6 E6 H. rewrite <- E6. clear E6. revert H.
  intros H. apply db_write_inv in H as (b & x & E & Hx). unfold DeleteUser, update in E.
  destruct b; cbn [negb] in E; [|by injection E as <- <-; subst].
  injection E as Ed <-. subst. by rewrite <- Ed.
Qed.

Lemma purge_inv cutoff records s s' r :
  purge m cutoff records s = (s', r) ->
  exists removed, r = Ok removed /\
    (forall n, n ∈ removed -> user (m_db s') n = None /\
       exists u, u ∈ records /\ Username u = n /\ ExpiresAt u <> 0 /\ ExpiresAt u < cutoff) /\
    (forall n, n ∉ removed -> user (m_db s') n = user (m_db s) n) /\
    (forall n, user (m_db s) n = None -> user (m_db s') n = None).
Proof.
  revert s s' r. induction records as [|u records IH]; intros s s' r; cbn [purge].
  { intros [= <- <-]. exists []. split_and!; [done|set_solver|done|done]. }
  destruct (negb (ExpiresAt u =? 0) && (ExpiresAt u <? cutoff)) eqn:Ec.
  2:{ intros (removed & -> & Hin & Hout & Hn)%IH. exists removed. split_and!; [done|..|done|done].
      intros n Hr. destruct (Hin n Hr) as (? & v & ? & ?). split; [done|]. exists v.
      split; [by right|done]. }
  apply andb_true_iff in Ec as [Ez Ec]. intros H.
  cstep H; apply attempt_inv in Hc as (x & Hc & [= ->]).
  apply Delete_db in Hc. cstep H; apply IH in Hc0 as (removed & Hr & Hin & Hout & Hn); [done|].
  injection Hr as ->. injection H as <- <-. eexists. split; [done|].
  assert (Hd : forall n, user (m_db s0) n = if is_ok x && bool_decide (n = Username u) then None
                                        else user (m_db s) n).
  { intros n. rewrite Hc. destruct (is_ok x); [|done]. unfold user. cbn [db_users set_users andb].
    case_bool_decide; [subst; by rewrite lookup_delete_eq|by rewrite lookup_delete_ne]. }
  assert (Hin' : forall n, n ∈ removed -> user (m_db s1) n = None /\
    exists v, v ∈ u :: records /\ Username v = n /\ ExpiresAt v <> 0 /\ ExpiresAt v < cutoff).
  { intros n Hr. destruct (Hin n Hr) as (? & v & ? & ?). split; [done|]. exists v.
    split; [by right|done]. }
  destruct (is_ok x); split_and!.
  - intros n [->|Hr]%elem_of_cons; [|by apply Hin'].
    split; [apply Hn; rewrite Hd; by rewrite bool_decide_eq_true_2|]. exists u.
    split_and!; [left|done|lia|lia].
  - intros n [Hne Hr]%not_elem_of_cons. rewrite (Hout n Hr), Hd. by rewrite bool_decide_eq_false_2.
  - intros n Hu. apply Hn. rewrite Hd. by case_bool_decide.
  - done.
  - intros n Hr. by rewrite (Hout n Hr), Hd.
  - intros n Hu. apply Hn. by rewrite Hd.
Qed.

(** The names in the records are the keys they are stored under. *)
Definition keyed (db : DB) : Prop := forall n u, user db n = Some u -> Username u = n.

(** Purging removes expired accounts only: every name [PurgeExpired] reports was
    the name of an account that expired before the grace period, and is gone;
    every account it does not report is exactly as before. *)
Theorem PurgeExpired_sound graceDays now s s' r :
  keyed (m_db s) -> PurgeExpired m graceDays now s = (s', r) ->
  match r with
  | Err _ => m_db s' = m_db s
  | Ok removed => forall n,
      (n ∈ removed -> user (m_db s') n = None /\ exists u, user (m_db s) n = Some u /\
         ExpiresAt u <> 0 /\ ExpiresAt u < add_days now (- graceDays)) /\
      (n ∉ removed -> user (m_db s') n = user (m_db s) n)
  end.
Proof.
  intros Hk H. unfold PurgeExpired in H. cstep H.
  { by apply (keeps_run same_db) in Hc; [|apply same_db_read]. }
  apply purge_inv in H as (removed & -> & Hin & Hout & _).
  assert (Hl : m_db s0 = m_db s /\ forall u, u ∈ a -> user (m_db s) (Username u) = Some u).
  { unfold listUsers, db_read in Hc. destruct (db_lock _) as [w b].
    destruct (ListUsers b (m_db s)) as [l [e|]] eqn:El; [done|]. injection Hc as <- <-.
    split; [done|]. intros u Hu. destruct (ListUsers_stored b (m_db s) u) as [n Hn].
    { by rewrite El. }
    by rewrite (Hk _ _ Hn). }
  destruct Hl as [Edb Hl]. intros n. split.
  - intros (Hnone & u & Hu & <- & ? & ?)%Hin. split; [done|]. exists u. by rewrite (Hl u Hu).
  - intros Hn. by rewrite (Hout n Hn), Edb.
Qed.
End proofs.

#[export] Hint Resolve same_RunInput same_Run same_Output same_db_read same_killPID
  same_RequireRoot same_systemUserExists same_lockSystem same_syncSystem same_kick_all
  same_Kick same_EnsureGroup same_MigrateGroups : keeps.
#[export] Existing Instance same_db_preorder.
