(* ===== verification/UsersLinux.v ===== *)
(** The Linux accounts behind the records: what the account commands do to one
    account is an interface, and every operation of the manager leaves the
    account locked exactly when its record is disabled. *)
From S2P Require Import Prelude GoStrings Config Security Store NetAddr Procfs Session Users UsersProps.

(* ------------------------------------------------------------------ *)
(** * The interface                                                      *)
(* ------------------------------------------------------------------ *)

Definition turn (l : bool) (a : option bool) : option bool := (fun _ => l) <$> a.

(** What a command does to the password of the account [name] ([Some true]:
    locked, [Some false]: not locked, [None]: no such account), as the manual
    pages of the shadow utilities say: [usermod -L] locks, [usermod -U] unlocks,
    a new password unlocks, a new account has no valid password, and a command that fails
    changes nothing. *)
Definition acct_after (name stdin : gostring) (argv : list gostring) (ok : bool)
    (a : option bool) : option bool :=
  match argv with
  | [c] =>
      if eqb_str c (bs "chpasswd") && ok && has_prefix stdin (name ++ bs ":") then turn false a else a
  | [c; f; n] =>
      if negb (eqb_str n name) then a
      else if eqb_str c (bs "usermod") && eqb_str f (bs "-L") && ok then turn true a
      else if eqb_str c (bs "usermod") && eqb_str f (bs "-U") && ok then turn false a
      else if eqb_str c (bs "userdel") && ok then None
      else a
  | c :: args =>
      if eqb_str c (bs "useradd") && ok && bool_decide (last args = Some name) then Some true else a
  | [] => a
  end.

Class Account `{System} (name : gostring) : Type := {
  acct : world -> option bool;
  (** the account is in the password file *)
  acct_passwd : forall w,
    match read_file (bs "/etc/passwd") w with
    | None => false
    | Some data => contains (x0a :: data) (x0a :: name ++ bs ":")
    end = match acct w with Some _ => true | None => false end;
  acct_exec : forall stdin argv w,
    acct (exec stdin argv w).1 = acct_after name stdin argv (exec stdin argv w).2.2 (acct w);
  acct_db_lock : forall w, acct (db_lock w).1 = acct w;
  acct_kill : forall pid w, acct (kill_answers pid w).1 = acct w
}.

(** A system on which the manager can do its work: it runs as root, the database
    can be opened, and the account, when it exists, can be locked, unlocked when it is
    locked, and removed. *)
Class Working `{System} (name : gostring) `{!Account name} : Prop := {
  work_root : forall w, euid w = 0;
  work_db : forall w, (db_lock w).2 = true;
  work_lock : forall w, acct w <> None -> (exec [] [bs "usermod"; bs "-L"; name] w).2.2 = true;
  work_unlock : forall w, acct w = Some true -> (exec [] [bs "usermod"; bs "-U"; name] w).2.2 = true;
  work_delete : forall w, acct w <> None -> (exec [] [bs "userdel"; bs "-f"; name] w).2.2 = true
}.

Section linux.
Context `{Sys : System, Cal : Calendar, Uni : Unicode, Cod : Codec UserRecord, Blt : Bolt}.
Context (m : Manager) (name : gostring) `{Acc : !Account name, Wrk : !Working name}.
Implicit Types s : mgr.

(* ------------------------------------------------------------------ *)
(** * Computations that leave the account alone                          *)
(* ------------------------------------------------------------------ *)

Definition same_acct (s s' : mgr) : Prop := acct (m_world s') = acct (m_world s).
#[local] Instance same_acct_preorder : PreOrder same_acct.
Proof. split; [by intros s|intros s1 s2 s3]. unfold same_acct. congruence. Qed.

Lemma acct_RunInput stdin argv s s' r :
  RunInput stdin argv s = (s', r) ->
  acct (m_world s') = acct_after name stdin argv (is_ok r) (acct (m_world s)).
Proof.
  unfold RunInput. pose proof (acct_exec stdin argv (m_world s)) as E.
  destruct (exec _ _ _) as [w [out ok]]. intros [= <- <-]. cbn in *. rewrite E. by destruct ok.
Qed.

Lemma alone_RunInput stdin argv :
  (forall ok a, acct_after name stdin argv ok a = a) -> keeps same_acct (RunInput stdin argv).
Proof.
  intros Ha s. destruct (RunInput stdin argv s) as [s' r] eqn:E. cbn [fst]. unfold same_acct.
  by rewrite (acct_RunInput _ _ _ _ _ E), Ha.
Qed.

Lemma alone_db_read {A} (o : bool -> DB -> result dberr A) : keeps same_acct (db_read o).
Proof.
  intros s. unfold db_read, same_acct. pose proof (acct_db_lock (m_world s)).
  by destruct (db_lock (m_world s)).
Qed.

Lemma alone_db_write {A} (o : bool -> DB -> DB * result dberr A) : keeps same_acct (db_write o).
Proof.
  intros s. unfold db_write, same_acct. pose proof (acct_db_lock (m_world s)).
  destruct (db_lock (m_world s)). by destruct (o _ _).
Qed.

Lemma alone_killPID pid : keeps same_acct (killPID pid).
Proof.
  intros s. unfold killPID, same_acct. pose proof (acct_kill pid (m_world s)).
  by destruct (kill_answers _ _) as [w [[[? ?] ?] ?]].
Qed.

#[local] Hint Resolve alone_db_read alone_db_write alone_killPID : keeps.

Lemma alone_RequireRoot : keeps same_acct RequireRoot.
Proof. unfold RequireRoot. keep. Qed.
Lemma alone_systemUserExists n : keeps same_acct (systemUserExists n).
Proof. unfold systemUserExists. keep. Qed.
#[local] Hint Resolve alone_RequireRoot alone_systemUserExists : keeps.
Lemma alone_EnsureGroup : keeps same_acct (EnsureGroup m).
Proof. unfold EnsureGroup. keep. apply alone_RunInput. intros ok x. cbn. by case_if. Qed.
Lemma alone_kick_all n l k : keeps same_acct (kick_all n l k).
Proof. revert k. induction l as [|x l IH]; intros k; cbn [kick_all]; keep. Qed.
#[local] Hint Resolve alone_EnsureGroup alone_kick_all : keeps.
Lemma alone_Kick n : keeps same_acct (Kick m n).
Proof. unfold Kick. keep. Qed.
#[local] Hint Resolve alone_Kick : keeps.

(* ------------------------------------------------------------------ *)
(** * What the account commands do                                       *)
(* ------------------------------------------------------------------ *)

Lemma after_other stdin c f n ok a : n <> name -> acct_after name stdin [c; f; n] ok a = a.
Proof. intros Hn. cbn. unfold eqb_str. by rewrite bool_decide_eq_false_2. Qed.

Lemma after_L ok a : acct_after name [] [bs "usermod"; bs "-L"; name] ok a = if ok then turn true a else a.
Proof. cbn. unfold eqb_str. rewrite !bool_decide_eq_true_2 by done. by destruct ok. Qed.

Lemma after_U ok a : acct_after name [] [bs "usermod"; bs "-U"; name] ok a = if ok then turn false a else a.
Proof.
  unfold acct_after, eqb_str. rewrite (bool_decide_eq_true_2 (name = name)) by done. cbn [negb].
  rewrite (bool_decide_eq_false_2 (bs "-U" = bs "-L")), andb_false_r by done. by destruct ok.
Qed.

Lemma after_userdel ok a : acct_after name [] [bs "userdel"; bs "-f"; name] ok a = if ok then None else a.
Proof.
  unfold acct_after, eqb_str. rewrite (bool_decide_eq_true_2 (name = name)) by done. cbn [negb].
  by destruct ok.
Qed.

(** A command that works on the account, run by the manager. *)
Lemma Run_works argv s s' r : (exec [] argv (m_world s)).2.2 = true -> Run argv s = (s', r) -> is_ok r = true.
Proof.
  unfold Run, RunInput. intros W. destruct (exec _ _ _) as [w [out ok]]. cbn in W. subst.
  by intros [= <- <-].
Qed.

(** The line [n:password] is about [name] only if [n] is. *)
Lemma chpasswd_line n rest : x3a ∉ n -> x3a ∉ name ->
  has_prefix (n ++ bs ":" ++ rest) (name ++ bs ":") = true -> n = name.
Proof.
  clear. revert name. induction n as [|x n IH]; intros [|y nm] Hn Hm H; [done|..].
  - cbn in H. case_decide; [subst|done]. set_solver.
  - cbn in H. case_decide; [subst|done]. set_solver.
  - cbn in H. case_decide; [subst|done]. f_equal. apply IH; [set_solver..|done].
Qed.

Lemma exists_acct s s' b :
  systemUserExists name s = (s', Ok b) ->
  s' = s /\ b = match acct (m_world s) with Some _ => true | None => false end.
Proof. intros [= <- <-]. split; [done|]. apply acct_passwd. Qed.

(** [lockSystem] locks the account if there is one. *)
Lemma lockSystem_acct s s' r :
  lockSystem name s = (s', r) -> acct (m_world s') = turn true (acct (m_world s)).
Proof.
  unfold lockSystem. intros H. cstep H; [done|]. injection Hc as <- <-.
  cstep H; [done|]. apply exists_acct in Hc as [-> ->].
  rewrite work_root in H. destruct (acct (m_world s)) as [l|] eqn:Ea; cbn [negb orb Z.eqb] in H.
  2:{ injection H as <- <-. by rewrite Ea. }
  assert (Hok : forall s1 x, Run [bs "usermod"; bs "-L"; name] s = (s1, x) ->
            acct (m_world s1) = Some true /\ is_ok x = true).
  { intros s1 x Hx. pose proof (acct_RunInput _ _ _ _ _ Hx) as E. rewrite Ea, after_L in E.
    pose proof (Run_works _ _ _ _ (work_lock (m_world s) ltac:(by rewrite Ea)) Hx) as Hk.
    by rewrite Hk in E. }
  cstep H; apply Hok in Hc as [? ?]; [done|]. by injection H as <- <-.
Qed.

Lemma syncSystem_acct u s s' :
  Username u = name -> syncSystem u s = (s', Ok tt) ->
  acct (m_world s') = turn (Disabled u) (acct (m_world s)).
Proof.
  unfold syncSystem. intros -> H. ok_step H. injection Hc as <- <-.
  ok_step H. apply exists_acct in Hc as [-> ->].
  rewrite work_root in H. destruct (acct (m_world s)) as [l|] eqn:Ea; cbn [negb orb Z.eqb] in H.
  2:{ injection H as <-. by rewrite Ea. }
  destruct (Disabled u).
  { apply lockSystem_acct in H. by rewrite Ea in H. }
  ok_step H. apply attempt_inv in Hc as (x & Hc & _).
  assert (Hu : acct (m_world s0) = Some false).
  { pose proof (acct_RunInput _ _ _ _ _ Hc) as E. rewrite Ea, after_U in E.
    destruct l; [|by destruct (is_ok x)].
    by rewrite (Run_works _ _ _ _ (work_unlock (m_world s) Ea) Hc) in E. }
  ok_step H. apply acct_RunInput in Hc0. injection H as <-.
  rewrite Hc0, Hu. cbn. by case_if.
Qed.

(** Operations on another account leave this one alone. *)
Lemma other_lockSystem n : n <> name -> keeps same_acct (lockSystem n).
Proof. intros Hn. unfold lockSystem. keep. apply alone_RunInput. intros. by apply after_other. Qed.

Lemma other_syncSystem u : Username u <> name -> keeps same_acct (syncSystem u).
Proof.
  intros Hn. unfold syncSystem. keep; [by apply other_lockSystem|..]; apply alone_RunInput.
  - intros. by apply after_other.
  - intros ok x. cbn. by case_if.
Qed.

(* ------------------------------------------------------------------ *)
(** * Records and accounts                                               *)
(* ------------------------------------------------------------------ *)

Definition synced (s : mgr) : Prop :=
  (keyed (m_db s) /\ forall n u, user (m_db s) n = Some u -> x3a ∉ n) /\
  forall u l, user (m_db s) name = Some u -> acct (m_world s) = Some l -> l = Disabled u.

(** A transition that leaves the account alone and keeps what the records say. *)
Lemma synced_quiet s s' :
  synced s -> same_acct s s' ->
  (forall n u', user (m_db s') n = Some u' -> exists u, user (m_db s) n = Some u /\
     Username u' = Username u /\ (n = name -> Disabled u' = Disabled u)) -> synced s'.
Proof.
  intros [[Hk Hc] Hs] Ha Hu. split; [split|].
  - intros n u' Hu'. destruct (Hu _ _ Hu') as (u & Hn & -> & _). by apply Hk.
  - intros n u' Hu'. destruct (Hu _ _ Hu') as (u & Hn & _). by apply (Hc n u).
  - intros u' l Hu' Hl. destruct (Hu _ _ Hu') as (u & Hn & _ & Hd). rewrite (Hd eq_refl).
    apply (Hs u); [done|]. by rewrite <- Ha.
Qed.

Lemma synced_same s s' : synced s -> same_acct s s' -> same_db s s' -> synced s'.
Proof.
  intros Hs Ha Hd. apply (synced_quiet s); [done..|]. intros n u. rewrite Hd. eauto.
Qed.

Lemma synced_keeps {A} (c : M A) s s' r :
  keeps same_acct c -> keeps same_db c -> c s = (s', r) -> synced s -> synced s'.
Proof. intros Ha Hd E Hs. apply (synced_same s); [done|by eapply keeps_run..]. Qed.

(** An update of a record followed by a synchronisation of its account. *)
Lemma synced_update {B} n fn (c : UserRecord -> M B) s s' b :
  (forall u v, stable u -> fn u = Ok v -> stable v) ->
  (forall u v, fn u = Ok v -> Username v = Username u) ->
  (forall u, keeps same_db (c u)) ->
  (forall u s0 s1 b, c u s0 = (s1, Ok b) ->
     exists s2, syncSystem u s0 = (s2, Ok tt) /\ same_acct s2 s1) ->
  (updateUser n fn ≫= c) s = (s', Ok b) -> synced s -> synced s'.
Proof.
  intros Hst Hname Hdb Hc H [[Hk Hcol] Hs].
  apply update_then in H as (u & v & s1 & Hu1 & Hf & Hv & Hoth & Hw & Hcv); [|done..].
  apply (keeps_run same_acct) in Hw; [|apply alone_db_write].
  assert (Hvn : Username v = n) by (rewrite (Hname u v Hf); by apply Hk).
  apply Hc in Hcv as (s2 & Hsy & Hal). split; [split|].
  - intros n' u' Hu'. destruct (decide (n' = n)) as [->|Hne]; [congruence|].
    apply Hk. by rewrite <- Hoth.
  - intros n' u' Hu'. destruct (decide (n' = n)) as [->|Hne]; [by apply (Hcol n u)|].
    apply (Hcol n' u'). by rewrite <- Hoth.
  - intros u' l Hu' Hl. rewrite Hal in Hl. destruct (decide (n = name)) as [->|Hne].
    + rewrite Hv in Hu'. injection Hu' as <-.
      rewrite (syncSystem_acct _ _ _ Hvn Hsy) in Hl. destruct (acct (m_world s1)); [|done]. by injection Hl.
    + rewrite Hoth in Hu' by done. apply (Hs u'); [done|].
      pose proof (keeps_run _ _ _ _ _ (other_syncSystem v ltac:(congruence)) Hsy) as Hsame.
      rewrite Hsame in Hl. by rewrite Hw in Hl.
Qed.

Lemma after_useradd opts t ok a :
  acct_after name [] (useradd_argv m opts t) ok a =
  if ok && bool_decide (opt_Username opts = name) then Some true else a.
Proof.
  unfold useradd_argv, acct_after, eqb_str. cbv zeta. rewrite (bool_decide_eq_true_2 (bs _ = _)) by done.
  cbn [last andb]. by rewrite (bool_decide_ext (Some (opt_Username opts) = Some name)
    (opt_Username opts = name)) by naive_solver.
Qed.

Lemma after_chpasswd n pw ok a : x3a ∉ n -> x3a ∉ name ->
  acct_after name (n ++ bs ":" ++ pw) [bs "chpasswd"] ok a =
  if ok && bool_decide (n = name) then turn false a else a.
Proof.
  intros Hn Hm. unfold acct_after, eqb_str. rewrite (bool_decide_eq_true_2 (bs _ = _)) by done.
  cbn [andb]. destruct ok; [|done]. cbn [andb]. case_bool_decide as E.
  - subst. by rewrite (proj2 (has_prefix_spec _ _)) by (exists pw; by rewrite app_assoc).
  - destruct (has_prefix _ _) eqn:Eh; [|done]. by apply chpasswd_line in Eh.
Qed.

(** A step of [Create] that leaves the account alone. *)
Ltac pass Hnext := match goal with
  | Hc : ?c ?s0 = (?s1, _), G : same_acct _ ?s0 |- _ =>
      apply (Hnext _ c s0 s1 _ G ltac:(unfold getUser; keep)) in Hc; clear G; rename Hc into G
  end.

(** Creation adds the account with its password set. *)
Lemma Create_acct opts rand now s s' x :
  x3a ∉ name -> Create m opts rand now s = (s', Ok x) ->
  acct (m_world s') = if decide (opt_Username opts = name) then Some false else acct (m_world s).
Proof.
  intros Hcol H. pose proof (Create_post _ _ _ _ _ _ _ H) as (gr & new & _ & _ & Hp).
  destruct x as [rec pw]. destruct Hp as (Hu & _). clear gr new.
  assert (Hnext : forall A (c : M A) s0 s1 y, same_acct s s0 -> keeps same_acct c ->
    c s0 = (s1, y) -> same_acct s s1).
  { intros A c s0 s1 y G K Hc. etransitivity; [exact G|]. by eapply keeps_run. }
  assert (G : same_acct s s) by reflexivity.
  unfold Create in H.
  ok_step H; pass Hnext. rewrite Hu in H. ok_step H; pass Hnext.
  destruct (ValidatePassword a0); [done|]. do 5 (ok_step H; pass Hnext).
  unfold same_acct in G. rewrite <- G. clear G Hnext.
  pose proof (username_no_colon _ Hu) as Hun.
  ok_step H. apply acct_RunInput in Hc.
  apply (fun E => eq_trans E (after_useradd opts (ExpiresAt (created_record m opts now)) true _)) in Hc.
  cbn [is_ok andb] in Hc.
  ok_step H. apply attempt_inv in Hc0 as (y & Hc0 & [= ->]). apply acct_RunInput in Hc0.
  rewrite after_chpasswd in Hc0 by done. destruct y as [out|e]; [|ok_step H; done].
  cbn [is_ok andb] in Hc0.
  ok_step H. apply attempt_inv in Hc1 as (y & Hc1 & [= ->]).
  apply (keeps_run same_acct) in Hc1; [|apply alone_db_write]. destruct y as [[]|e]; [|ok_step H; done].
  injection H as <- <- <-. rewrite Hc1, Hc0, Hc.
  case_bool_decide; case_decide; done.
Qed.

Lemma getUser_inv n s s' r :
  getUser n s = (s', r) ->
  same_db s s' /\ same_acct s s' /\ forall u, r = Ok u <-> user (m_db s) n = Some u.
Proof.
  intros E. split_and!; [by eapply keeps_run; [apply same_db_read|]|
    by eapply keeps_run; [apply alone_db_read|]|]. intros u.
  unfold getUser, db_read in E. pose proof (work_db (m_world s)) as W.
  destruct (db_lock (m_world s)) as [w b]. cbn in W. subst. injection E as <- <-.
  unfold GetUser, view, user. cbn [negb]. destruct (db_users (m_db s) !! n) as [d|]; cbn; [|naive_solver].
  destruct (unmarshal d); naive_solver.
Qed.

(** [chpasswd] removes the lock marker; it is put back. *)
Lemma synced_SetPassword n pw rand s s' x :
  x3a ∉ name -> SetPassword n pw rand s = (s', Ok x) -> synced s -> synced s'.
Proof.
  intros Hm H Hs. unfold SetPassword in H.
  ok_step H. apply (synced_keeps _ _ _ _ (alone_RequireRoot) same_RequireRoot) in Hc; [|done].
  ok_step H. apply getUser_inv in Hc0 as (Hd & Ha & Hu).
  specialize (Hu a0) as [Hu _]. specialize (Hu eq_refl).
  assert (synced s1) as Hs1 by by apply (synced_same s0). rewrite <- Hd in Hu. clear Hd Ha Hc.
  assert (Hn : x3a ∉ n) by (by destruct Hs1 as [[_ Hcol] _]; apply (Hcol n a0)).
  ok_step H. assert (s2 = s1) as -> by (destruct pw; [destruct (GenerateRandomPassword _ _)|]; by inversion Hc).
  destruct (ValidatePassword a1); [done|].
  ok_step H. pose proof (proj1 (RunInput_inv _ _ _ _ _ Hc0)) as Hd2. apply acct_RunInput in Hc0.
  rewrite after_chpasswd in Hc0 by done. cbn [is_ok andb] in Hc0.
  ok_step H. apply attempt_inv in Hc1 as (y & Hc1 & [= ->]). apply getUser_inv in Hc1 as (Hd3 & Ha3 & Hy).
  rewrite <- Hd2 in Hu. apply Hy in Hu as Hyu. subst y.
  destruct Hs1 as [Hk1 Hs1].
  assert (Hend : forall s4, same_db s3 s4 ->
    (n = name -> acct (m_world s4) = turn (Disabled a0) (acct (m_world s1))) ->
    (n <> name -> acct (m_world s4) = acct (m_world s1)) -> synced s4).
  { intros s4 D4 An Ao. unfold same_db in *. split; [by rewrite D4, Hd3, Hd2|].
    intros u l Hul Hl. rewrite D4, Hd3 in Hul. destruct (decide (n = name)) as [->|Hne].
    - rewrite An in Hl by done. rewrite Hu in Hul. injection Hul as <-.
      destruct (acct (m_world s1)); [|done]. by injection Hl.
    - rewrite Ao in Hl by done. apply (Hs1 u); [|done]. by rewrite <- Hd2. }
  unfold same_acct in Ha3. ok_step H. injection H as <- <-. destruct (Disabled a0) eqn:Ed.
  - ok_step Hc1. apply attempt_inv in Hc2 as (y & Hc2 & _). injection Hc1 as <- <-.
    apply Hend; [by eapply keeps_run; [apply same_lockSystem|]|..].
    + intros ->. rewrite (lockSystem_acct _ _ _ Hc2), Ha3, Hc0, bool_decide_eq_true_2 by done.
      by destruct (acct (m_world s1)).
    + intros Hne. rewrite (keeps_run _ _ _ _ _ (other_lockSystem n Hne) Hc2), Ha3, Hc0.
      by rewrite bool_decide_eq_false_2.
  - injection Hc1 as <- <-. apply Hend; [done|..]; intros Hn'; rewrite Ha3, Hc0.
    + by rewrite bool_decide_eq_true_2.
    + by rewrite bool_decide_eq_false_2.
Qed.

(** What the theorem asks of an operation: a lock has one of the reasons of the program,
    a new record has texts that JSON keeps, and the keys of a map are distinct. *)
Definition op_ok (o : op) : Prop :=
  match o with
  | opCreate opts _ now => stable (created_record m opts now)
  | opLock _ reason => reason ∈ [[]; LockManual; LockExpired; LockQuota]
  | opAddTraffic deltas _ => NoDup deltas.*1
  | _ => True
  end.

(** The continuation of an update: synchronise, then something harmless. *)
Lemma sync_then {B} (k : UserRecord -> M B) u s0 s1 b :
  keeps same_acct (k u) -> (syncSystem u ;; k u) s0 = (s1, Ok b) ->
  exists s2, syncSystem u s0 = (s2, Ok tt) /\ same_acct s2 s1.
Proof.
  intros Hk H. ok_step H. destruct a. exists s. split; [done|]. by eapply keeps_run.
Qed.

(** What an update may do to the texts of a record. *)
Definition texts_kept (fn : UserRecord -> UserRecord) : Prop := forall u,
  Username (fn u) = Username u /\ Notes (fn u) = Notes u /\
  LockReason (fn u) ∈ [LockReason u; []; LockManual; LockExpired; LockQuota].

Lemma lift_texts r fn : (forall u, Username (fn u) = Username u /\ Notes (fn u) = Notes u /\
  LockReason (fn u) = LockReason u) -> texts_kept (fun u => lift_lock r (fn u)).
Proof.
  intros Hf u. destruct (Hf u) as (? & ? & ?). unfold lift_lock.
  case_if; cbn; split_and!; set_solver.
Qed.

(** An update of the record followed by [syncSystem] keeps records and accounts in
    agreement. *)
Lemma synced_update_sync {B} n fn (k : UserRecord -> M B) s s' b :
  text_stable -> texts_kept fn -> (forall u, keeps same_db (k u)) ->
  (forall u, keeps same_acct (k u)) ->
  (updateUser n (fun u => Ok (fn u)) ≫= fun u => syncSystem u ;; k u) s = (s', Ok b) ->
  synced s -> synced s'.
Proof.
  intros Ht Hf Hd Ha. apply synced_update.
  - intros u v Hu [= <-]. destruct (Hf u) as (? & ? & ?). by apply (Ht u).
  - intros u v [= <-]. apply Hf.
  - intros u. keep.
  - intros u s0 s1 b0. by apply sync_then.
Qed.

Lemma synced_Unlock n now s s' : text_stable ->
  Unlock n now s = (s', Ok tt) -> synced s -> synced s'.
Proof.
  intros Ht. assert (Hu : forall u v, unlock_record n now u = Ok v -> v = set_lock false [] u).
  { intros u v. unfold unlock_record. case_if; [done|]. case_if; [done|]. by intros [= <-]. }
  apply synced_update.
  - intros u v Hs ->%Hu. apply (Ht u); [done..|]. cbn. set_solver.
  - by intros u v ->%Hu.
  - intros u. keep.
  - intros u s0 s1 [] H. by exists s1.
Qed.

Lemma synced_max n k s s' : text_stable ->
  (_ ← updateUser n (fun u => Ok (set_max k u)); mret tt) s = (s', Ok tt) -> synced s -> synced s'.
Proof.
  intros Ht H Hs. apply update_then in H as (u & v & s1 & Hu & Hf & Hv & Hoth & Hw & Hret).
  - injection Hret as ->. injection Hf as <-.
    apply (keeps_run same_acct) in Hw; [|apply alone_db_write].
    apply (synced_quiet s); [done..|]. intros n' u' Hu'.
    destruct (decide (n' = n)) as [->|Hne]; [|rewrite Hoth in Hu' by done; eauto].
    rewrite Hv in Hu'. injection Hu' as <-. by exists u.
  - intros u v Hs' [= <-]. apply (Ht u); [done..|]. left.
  - intros u. keep.
Qed.

Lemma synced_AddTraffic deltas seen s s' : text_stable -> NoDup deltas.*1 ->
  db_write (fun o => AddTraffic o deltas seen) s = (s', Ok tt) -> synced s -> synced s'.
Proof.
  intros Ht Hnd H Hs. pose proof (keeps_run _ _ _ _ _ (alone_db_write _) H) as Ha.
  apply db_write_inv in H as (b & x & E & Hx). destruct x as [[]|]; [|done].
  assert (Hacc : forall d u, Username (accounted seen d u) = Username u /\
    Notes (accounted seen d u) = Notes u /\ LockReason (accounted seen d u) = LockReason u /\
    Disabled (accounted seen d u) = Disabled u).
  { intros d u. unfold accounted. by case_if. }
  apply AddTraffic_user in E; [|done|].
  2:{ intros u d Hu. destruct (Hacc d u) as (? & ? & Hl & ?). apply (Ht u); [done..|].
      rewrite Hl. left. }
  apply (synced_quiet s); [done..|]. intros n u'. rewrite E.
  destruct (_ !! n) as [d|]; [|eauto]. destruct (user (m_db s) n) as [u|]; [|done].
  intros [= <-]. exists u. by destruct (Hacc d u) as (? & ? & ? & ?).
Qed.

Lemma synced_Create opts rand now s s' x : x3a ∉ name -> stable (created_record m opts now) ->
  Create m opts rand now s = (s', Ok x) -> synced s -> synced s'.
Proof.
  intros Hcol Hst H [[Hk Hc] Hs]. pose proof (Create_acct _ _ _ _ _ _ Hcol H) as Ha.
  apply Create_post in H as (gr & new & _ & _ & Hp). destruct x as [rec pw].
  destruct Hp as (Hval & _ & -> & _ & o & Ho).
  apply PutUser_user in Ho as [Hget Hoth]; [|done].
  assert (Hconv : forall db n r, GetUser true n db = r ->
    forall u, user db n = Some u -> r = Ok u).
  { intros db n r <- u. unfold user, GetUser, view. cbn [negb].
    destruct (db_users db !! n) as [d|]; [|done]. cbn. by intros ->. }
  assert (Hback : forall n u, n <> opt_Username opts -> user (m_db s') n = Some u -> user (m_db s) n = Some u).
  { intros n u Hne Hu. specialize (Hoth n Hne). rewrite (Hconv _ _ _ eq_refl _ Hu) in Hoth.
    unfold user, GetUser, view in *. cbn [negb] in Hoth.
    destruct (db_users (m_db s) !! n) as [d|]; [|done]. cbn. destruct (unmarshal d); congruence. }
  split; [split|].
  - intros n u Hu. destruct (decide (n = opt_Username opts)) as [->|Hne]; [|by apply Hk, Hback].
    apply Hconv with (r := Ok (created_record m opts now)) in Hu; [|done]. by injection Hu as <-.
  - intros n u Hu. destruct (decide (n = opt_Username opts)) as [->|Hne]; [|by apply (Hc n u), Hback].
    by apply username_no_colon.
  - intros u l Hu Hl. rewrite Ha in Hl. case_decide as E.
    + injection Hl as <-. rewrite <- E in Hu.
      apply Hconv with (r := Ok (created_record m opts now)) in Hu; [|done]. by injection Hu as <-.
    + apply (Hs u); [|done]. by apply Hback.
Qed.

Lemma other_Delete n : n <> name -> keeps same_acct (Delete m n).
Proof.
  intros Hn. unfold Delete, getUser. keep; [by apply other_lockSystem|].
  apply alone_RunInput. intros. by apply after_other.
Qed.

(** Once the account is being removed, it goes. *)
Lemma delete_rest s s' r : (there ← systemUserExists name;
    (if (there : bool) then _ ← Run [bs "userdel"; bs "-f"; name]; mret tt else mret tt) ;;
    db_write (fun o => DeleteUser o name)) s = (s', r) -> acct (m_world s') = None.
Proof.
  intros H. cstep H; [discriminate Hc|]. apply exists_acct in Hc as [-> ->].
  assert (Hdb : forall s1 x, acct (m_world s1) = None -> db_write (fun o => DeleteUser o name) s1 = (s', x) ->
    acct (m_world s') = None).
  { intros s1 x Hn Hx. apply (keeps_run same_acct) in Hx; [|apply alone_db_write]. by rewrite Hx. }
  destruct (acct (m_world s)) as [l|] eqn:Ea; [|cstep H; [done|by injection Hc as <-; eapply Hdb]].
  cstep H.
  - apply bind_inv in Hc as [(x & Hc & _)|(a & s2 & _ & Hc)]; [|done].
    by apply (Run_works _ _ _ _ (work_delete (m_world s) ltac:(by rewrite Ea))) in Hc.
  - ok_step Hc. injection Hc as <-. eapply Hdb; [|exact H].
    by rewrite (acct_RunInput _ _ _ _ _ Hc0), after_userdel.
Qed.

(** A removal leaves the account as it was, or removes it. *)
Lemma Delete_acct s s' r : Delete m name s = (s', r) ->
  same_acct s s' \/ acct (m_world s') = None.
Proof.
  intros H. unfold Delete in H.
  cstep H; [left; by apply (keeps_run same_acct) in Hc; [|apply alone_RequireRoot]|].
  apply (keeps_run same_acct) in Hc; [|apply alone_RequireRoot]. rename Hc into E1.
  destruct (ValidateUsername name); [injection H as <- _; by left|].
  cstep H; [left; etransitivity; [exact E1|by apply (keeps_run same_acct) in Hc; [|apply alone_db_read]]|].
  right. clear E1 Hc. cstep H; [by apply attempt_inv in Hc as (x & _ & [=])|].
  cstep H; [by apply attempt_inv in Hc0 as (x & _ & [=])|]. by apply delete_rest in H.
Qed.

Lemma synced_Delete n s s' r : Delete m n s = (s', r) -> synced s -> synced s'.
Proof.
  intros H Hs. pose proof (Delete_db _ _ _ _ _ H) as Hd.
  assert (Hu : forall n' u, user (m_db s') n' = Some u -> user (m_db s) n' = Some u /\ (n' = n -> is_ok r = false)).
  { intros n' u. rewrite Hd. destruct (is_ok r); [|done]. unfold user. cbn [db_users set_users].
    destruct (decide (n' = n)) as [->|Hne]; [by rewrite lookup_delete_eq|].
    by rewrite lookup_delete_ne. }
  destruct (decide (n = name)) as [->|Hne].
  - destruct Hs as [[Hk Hc] Hs]. split; [split; intros n' u [Hn _]%Hu; [by apply Hk|by apply (Hc n' u)]|].
    intros u l Hul Hl. destruct (Hu _ _ Hul) as [Hul' Hr]. destruct r as [[]|e]; [by specialize (Hr eq_refl)|].
    apply Delete_acct in H as [Ha|Ha]; [|by rewrite Ha in Hl]. apply (Hs u); [done|]. by rewrite <- Ha.
  - apply (synced_quiet s); [done|by eapply keeps_run; [apply (other_Delete n Hne)|]|].
    intros n' u [Hn _]%Hu. by exists u.
Qed.

Lemma synced_purge cutoff records s s' r : purge m cutoff records s = (s', r) -> synced s -> synced s'.
Proof.
  revert s s' r. induction records as [|u records IH]; intros s s' r; cbn [purge]; [by intros [= <- _]|].
  destruct (_ && _); [|apply IH]. intros H Hs.
  cstep H; apply attempt_inv in Hc as (x & Hc & [= ->]). apply synced_Delete in Hc; [|done].
  cstep H; [by apply IH in Hc0|]. injection H as <- _. by apply IH in Hc0.
Qed.

Lemma alone_MigrateGroups : keeps same_acct (MigrateGroups m).
Proof.
  assert (Hl : forall p gid l k, keeps same_acct (migrate_line m p gid l k)).
  { intros p gid l. induction l as [|x l IH]; intros k; cbn [migrate_line]; keep.
    apply alone_RunInput. intros ok y. cbn. by case_if. }
  assert (Hls : forall ls gid l k, keeps same_acct (migrate_lines m ls gid l k)).
  { intros ls gid l. induction ls as [|x ls IH]; intros k; cbn [migrate_lines]; keep. }
  unfold MigrateGroups, listUsers. keep.
  intros s. unfold Output, same_acct.
  match goal with |- context [exec [] ?argv ?w] => pose proof (acct_exec [] argv w) as E end.
  destruct (exec _ _ _) as [w [out ok]]. cbn in *. by rewrite E; case_if.
Qed.

Lemma run_op_synced o s s' :
  text_stable -> x3a ∉ name -> op_ok o -> run_op m o s = (s', Ok tt) -> synced s -> synced s'.
Proof.
  intros Ht Hcol Hop H Hs. destruct o; cbn [run_op op_ok] in *.
  - ok_step H. injection H as <-. by apply synced_Create in Hc.
  - by apply synced_Delete in H.
  - ok_step H. injection H as <-. by apply synced_SetPassword in Hc.
  - ok_step H. injection H as <-. unfold Renew in Hc. case_if_in Hc; [done|].
    eapply (synced_update_sync _ (renew_record days now) mret) in Hc; [done|done|..|done];
      [|intros; keep..]. by apply lift_texts.
  - ok_step H. injection H as <-.
    eapply (synced_update_sync _ (expiry_record t now) mret) in Hc; [done|done|..|done];
      [|intros; keep..]. intros u. unfold expiry_record. case_if; cbn; split_and!; set_solver.
  - unfold SetMaxConnections in H. case_if_in H; [done|]. by apply synced_max in H.
  - ok_step H. injection H as <-.
    eapply (synced_update_sync _ (limit_record _) mret) in Hc; [done|done|..|done];
      [|intros; keep..]. intros u. unfold limit_record. case_if; cbn; split_and!; set_solver.
  - ok_step H. injection H as <-.
    eapply (synced_update_sync _ (fun u => lift_lock LockQuota (set_used 0 u)) mret) in Hc;
      [done|done|..|done]; [|intros; keep..]. by apply lift_texts.
  - eapply (synced_update_sync _ (set_lock true (or_str reason LockManual))
      (fun _ => _ ← attempt (Kick m name0); mret tt)) in H; [done|done|..|done]; [|intros; keep..].
    intros u. cbn. split_and!; [done..|]. destruct reason; set_solver.
  - by apply synced_Unlock in H.
  - ok_step H. injection H as <-. by apply (synced_keeps _ _ _ _ (alone_Kick _) (same_Kick _ _)) in Hc.
  - ok_step H. injection H as <-. unfold PurgeExpired in Hc. ok_step Hc.
    apply (synced_keeps _ _ _ _ (alone_db_read _) (same_db_read _)) in Hc0; [|done].
    by apply synced_purge in Hc.
  - ok_step H. injection H as <-.
    by apply (synced_keeps _ _ _ _ alone_MigrateGroups (same_MigrateGroups _)) in Hc.
  - by apply synced_AddTraffic in H.
Qed.

(** A sequence of operations, up to the first that fails. *)
Fixpoint run_all (ops : list op) (s : mgr) : result merr mgr :=
  match ops with
  | [] => Ok s
  | o :: ops => match run_op m o s with (s, Ok _) => run_all ops s | (_, Err e) => Err e end
  end.

End linux.

(* ------------------------------------------------------------------ *)
(** * A concrete system                                                  *)
(* ------------------------------------------------------------------ *)

(** A machine with at most the account [alice], on which every command succeeds. *)
Definition toy_system : System := {|
  world := option bool;
  euid _ := 0;
  read_file p a :=
    if eqb_str p (bs "/etc/passwd")
    then Some (bs "root:x:0:0::/root:/bin/sh" ++ [x0a] ++
               match a with Some _ => bs "alice:x:1001:1001::/:/bin/false" | None => [] end)
    else None;
  exec stdin argv a := (acct_after (bs "alice") stdin argv true a, ([], true));
  db_lock a := (a, true);
  little_endian := true;
  proc_env _ := demo_proc;
  kill_answers _ a := (a, (None, None, None, fun _ => None));
  float_overflow _ := 0
|}.

Definition toy_account : @Account toy_system (bs "alice").
Proof.
  refine {| acct := fun a : @world toy_system => a |}; [|done..].
  intros [b|]; vm_compute; reflexivity.
Defined.

Definition toy_working : @Working toy_system (bs "alice") toy_account.
Proof. by split. Defined.

(** The same machine when [usermod -U] fails, as it does for an account without a
    password. *)
Definition stuck_system : System := {|
  world := option bool;
  euid _ := 0;
  read_file := @read_file toy_system;
  exec stdin argv a :=
    let ok := negb (bool_decide (take 2 argv = [bs "usermod"; bs "-U"])) in
    (acct_after (bs "alice") stdin argv ok a, ([], ok));
  db_lock a := (a, true);
  little_endian := true;
  proc_env _ := demo_proc;
  kill_answers _ a := (a, (None, None, None, fun _ => None));
  float_overflow _ := 0
|}.
Definition stuck_account : @Account stuck_system (bs "alice").
Proof.
  refine {| acct := fun a : @world stuck_system => a |}; [|done..].
  intros [b|]; vm_compute; reflexivity.
Defined.

Definition toy_calendar : Calendar.
Proof.
  refine {| max_days := 100000; add_days t n := t + n * (24 * Hour);
            format_date _ := bs "2030-01-01"; ceil_days d := (d + 24 * Hour - 1) / (24 * Hour) |}.
  intros t n Hn. unfold Hour. lia.
Defined.

#[local] Existing Instances toy_system toy_account toy_working toy_calendar user_codec keyed_bolt
  ascii_tables.

Definition toy_manager : Manager := NewManager Defaults.
Definition toy_opts : CreateUserOpts := mkOpts (bs "alice") (bs "s3cret-pw") 2 30 (mkFloat 0 0) [].
Definition fresh_mgr : mgr := mkMgr empty_db None [].
Definition no_rand (_ : nat) : option Z := None.

Lemma alice_no_colon : x3a ∉ bs "alice".
Proof. intros Hn. not_elem Hn. Qed.

Lemma toy_text_stable : text_stable.
Proof. by intros u v. Qed.

Lemma Create_all_or_nothing_witness :
  exists s', Create toy_manager toy_opts no_rand 1000 fresh_mgr =
    (s', Ok (created_record toy_manager toy_opts 1000, bs "s3cret-pw")) /\
  GetUser true (bs "alice") (m_db s') = Ok (created_record toy_manager toy_opts 1000).
Proof.
  destruct (Create toy_manager toy_opts no_rand 1000 fresh_mgr) as [s' r] eqn:E.
  exists s'. pose proof (Create_all_or_nothing toy_manager _ _ _ _ _ _ E (user_codec_stable _)) as H.
  assert (r = Ok (created_record toy_manager toy_opts 1000, bs "s3cret-pw")) as ->.
  { apply (f_equal snd) in E. cbn [snd] in E. rewrite <- E. vm_compute. reflexivity. }
  split; [done|]. destruct H as (gr & new & _ & _ & H); [vm_compute; split; [reflexivity|discriminate]|]. apply H.
Defined.

Definition alice_locked : UserRecord := set_lock true LockManual alice.
Definition alice_unexpired : UserRecord := set_expiry 0 alice_locked.
Definition locked_mgr : mgr := mkMgr (with_user alice_locked empty_db) (Some true) [].

Lemma admin_lock_stays_witness :
  exists u', user (m_db (run_ops toy_manager
      [opRenew (bs "alice") 30 1000; opResetTraffic (bs "alice");
       opSetPassword (bs "alice") (bs "n3w-pass") no_rand] locked_mgr)) (bs "alice") = Some u' /\
    Disabled u' = true /\ LockReason u' = LockManual.
Proof.
  apply (admin_lock_stays toy_manager (bs "alice") LockManual _ locked_mgr alice_locked
    toy_text_stable); [done|done| |vm_compute; reflexivity|done|done].
  repeat constructor; intros [].
Defined.


Definition expired_mgr : mgr := mkMgr (with_user alice empty_db) (Some false) [].

Lemma PurgeExpired_sound_witness :
  user (m_db (PurgeExpired toy_manager 1 (90 * Hour) expired_mgr).1) (bs "alice") = None.
Proof.
  destruct (PurgeExpired toy_manager 1 (90 * Hour) expired_mgr) as [s' r] eqn:E. cbn [fst].
  assert (Hk : keyed (m_db expired_mgr)).
  { intros n u Hu. unfold user in Hu. cbn [expired_mgr m_db] in Hu.
    unfold with_user, PutUser, update, set_users in Hu. cbn [fst negb marshal user_codec any_codec] in Hu.
    destruct (put_ok _ _); cbn [fst db_users empty_db] in Hu; [|done].
    destruct (decide (n = Username alice)) as [->|Hne].
    - rewrite lookup_insert_eq in Hu. cbn in Hu. rewrite of_bits_bits, decode_encode in Hu.
      by injection Hu as <-.
    - by rewrite lookup_insert_ne, lookup_empty in Hu by done. }
  assert (r = Ok [bs "alice"]) as ->.
  { apply (f_equal snd) in E. cbn [snd] in E. rewrite <- E. vm_compute. reflexivity. }
  pose proof (PurgeExpired_sound toy_manager 1 (90 * Hour) expired_mgr s' (Ok [bs "alice"]) Hk E
    (bs "alice")) as [H _].
  apply H. left.
Defined.

(** When the account cannot be unlocked, [Unlock] reports success all the same: the
    record is enabled, the account stays locked. *)
Lemma Unlock_hides_failure :
  let r := @Unlock stuck_system toy_calendar user_codec keyed_bolt (bs "alice") 9000
             (mkMgr (with_user alice_unexpired empty_db) (Some true : @world stuck_system) []) in
  r.2 = Ok tt /\ (Disabled <$> user (m_db r.1) (bs "alice")) = Some false /\
  @acct stuck_system (bs "alice") stuck_account (m_world r.1) = Some true.
Proof. vm_compute. split_and!; reflexivity. Qed.

Definition toy_ops : list op :=
  [opCreate toy_opts no_rand 1000; opLock (bs "alice") [];
   opSetPassword (bs "alice") (bs "n3w-pass") no_rand; opPurgeExpired 7 2000].

