(* ===== verification/Sniff.v ===== *)
(** Protocol detection and HTTP request heads of the gateway
    ([src/internal/gateway/sniff.go]): classifying the first bytes of a stream,
    peeking at a socket until they are known, and reading one header block. *)
From S2P Require Import Prelude GoStrings.

Inductive kind : Type :=
| kindUnknown
| kindSSH
| kindHTTP
| kindTLS
| kindWSFrame.

#[export] Instance kind_eq_dec : EqDecision kind.
Proof. solve_decision. Defined.

Definition httpMethods : list gostring := bs <$>
  ["GET"; "POST"; "PUT"; "HEAD"; "DELETE"; "OPTIONS"; "PATCH"; "CONNECT"; "TRACE";
   "PROPFIND"; "PROPPATCH"; "MKCOL"; "COPY"; "MOVE"; "LOCK"; "UNLOCK"; "ACL";
   "PURGE"; "SEARCH"; "REPORT"; "BMOVE"; "DEBUG"]%string.

Definition sshPrefix : gostring := bs "SSH-".

(** The opcodes of RFC 6455: continuation, text, binary, close, ping, pong. *)
Definition ws_opcode (b0 : byte) : bool :=
  match Z.land (b2z b0) 15 with
  | 0 | 1 | 2 | 8 | 9 | 10 => true
  | _ => false
  end.

Definition isWSFrameStart (b : gostring) : bool :=
  match b with
  | b0 :: b1 :: _ =>
      if negb (Z.land (b2z b0) 112 =? 0) then false
      else if ws_opcode b0 then negb (Z.land (b2z b1) 128 =? 0) else false
  | _ => false
  end.

(** The loop over [httpMethods]: [None] when a whole method token starts [b],
    otherwise whether [b] is a proper prefix of one. *)
Fixpoint method_loop (b : gostring) (prefixOfMethod : bool) (ms : list gostring)
    : option bool :=
  match ms with
  | [] => Some prefixOfMethod
  | m :: ms =>
      let tok := m ++ bs " " in
      if has_prefix b tok then None
      else method_loop b
             (prefixOfMethod || ((len b <? len tok) && has_prefix tok b)) ms
  end.

Definition classify (b : gostring) : kind * bool :=
  match b with
  | [] => (kindUnknown, true)
  | b0 :: _ =>
      if decide (b0 = x16) then (kindTLS, false)
      else if (len b <? len sshPrefix) && has_prefix sshPrefix b then (kindUnknown, true)
      else if has_prefix b sshPrefix then (kindSSH, false)
      else match method_loop b false httpMethods with
           | None => (kindHTTP, false)
           | Some true => (kindUnknown, true)
           | Some false =>
               if isWSFrameStart b then (kindWSFrame, false)
               else if (len b =? 1) && (Z.land (b2z b0) 112 =? 0) && ws_opcode b0
               then (kindUnknown, true)
               else (kindUnknown, false)
           end
  end.

(* ------------------------------------------------------------------ *)
(** * Peeking at a socket                                                *)
(* ------------------------------------------------------------------ *)

Inductive ioerr : Type :=
| errTimeout
| errEOF
| errSock
| errHeaderTooLarge
| errBufferFull.

#[export] Instance ioerr_eq_dec : EqDecision ioerr.
Proof. solve_decision. Defined.

(** One answer of [recvfrom(MSG_PEEK)] on the non-blocking socket: not readable
    yet, interrupted, the read deadline passing while waiting, a socket error,
    or what is buffered ([late]: the clock is then past the deadline). *)
Inductive recv : Type :=
| RAgain
| RIntr
| RDeadline
| RError
| RData (buffered : gostring) (late : bool).

(** [peek(c, buf)] with [len(buf) = size]; [None] while it is still blocked. The
    flag tells whether the deadline has passed when it returns. *)
Fixpoint peek (size : nat) (ev : list recv)
    : option (result ioerr gostring * bool * list recv) :=
  match ev with
  | [] => None
  | RAgain :: ev => peek size ev
  | RIntr :: ev => peek size ev
  | RDeadline :: ev => Some (Err errTimeout, true, ev)
  | RError :: ev => Some (Err errSock, false, ev)
  | RData b late :: ev =>
      match take size b with
      | [] => Some (Err errEOF, late, ev)
      | b' => Some (Ok b', late, ev)
      end
  end.

(** [peekClassify]: the kind with the bytes seen, and the error if any. The fuel
    bounds the number of polls; the length of the schedule is enough. *)
Fixpoint peekClassify_go (fuel : nat) (ev : list recv)
    : option (kind * gostring * option ioerr) :=
  match fuel with
  | O => None
  | S fuel =>
      match peek 16 ev with
      | None => None
      | Some (Err e, _, _) => Some (kindUnknown, [], Some e)
      | Some (Ok b, late, ev) =>
          let '(k, more) := classify b in
          if negb more || (len b =? 16) then Some (k, b, None)
          else if late then Some (k, b, Some errTimeout)
          else peekClassify_go fuel ev
      end
  end.
Definition peekClassify (ev : list recv) := peekClassify_go (length ev) ev.

(* ------------------------------------------------------------------ *)
(** * Request heads                                                      *)
(* ------------------------------------------------------------------ *)

Record httpRequest : Type := mkRequest {
  Method : gostring;
  Target : gostring;
  Headers : gmap gostring gostring
}.

Definition CRLF : gostring := [x0d; x0a].
Definition maxHeader : Z := 16 * 1024.

(** [headerEnd], with [None] for [-1]. *)
Definition headerEnd (b : gostring) : option nat :=
  match index b (CRLF ++ CRLF) with
  | Some i => Some (i + 4)%nat
  | None => match index b [x0a; x0a] with
            | Some i => Some (i + 2)%nat
            | None => None
            end
  end.

Section headers.
Context `{Unicode}.

(** Go's map read: the zero value for a missing key. *)
Definition header (r : httpRequest) (k : gostring) : gostring :=
  default [] (Headers r !! to_lower k).

(** [net.ParseIP(v)] followed by [String()], which belongs to package [net]. *)
Variable parse_ip : gostring -> option gostring.

Definition ip_header (r : httpRequest) (h : gostring) : option gostring :=
  let v := trim_space (default [] (Headers r !! h)) in
  match v with [] => None | _ => parse_ip v end.

Fixpoint first_some {A B} (f : A -> option B) (l : list A) : option B :=
  match l with
  | [] => None
  | x :: l => match f x with Some y => Some y | None => first_some f l end
  end.

Definition clientIP (r : httpRequest) : gostring :=
  match first_some (ip_header r)
          (bs <$> ["cf-connecting-ip"; "true-client-ip"; "x-real-ip"]%string) with
  | Some ip => ip
  | None =>
      match default [] (Headers r !! bs "x-forwarded-for") with
      | [] => []
      | v => default [] (parse_ip (trim_space (hd [] (split_on x2c v))))
      end
  end.

Definition isWebSocket (r : httpRequest) : bool :=
  equal_fold (trim_space (header r (bs "upgrade"))) (bs "websocket").

(** One line of the header block after the first. *)
Definition add_header (hs : gmap gostring gostring) (l : gostring)
    : gmap gostring gostring :=
  match cut x3a l with
  | None => hs
  | Some (k, v) =>
      let k := to_lower (trim_space k) in
      match hs !! k with
      | Some _ => hs
      | None => <[k := trim_space v]> hs
      end
  end.

Definition parseHeader (b : gostring) : httpRequest :=
  let lines := split_on x0a (replace_all b CRLF [x0a]) in
  let f := fields (hd [] lines) in
  {| Method := match f with m :: _ => to_upper m | [] => [] end;
     Target := match f with _ :: t :: _ => t | _ => [] end;
     Headers := foldl add_header ∅ (tail lines) |}.

(** [readHeaderExact]: the request and how many bytes it took off the socket. *)
Fixpoint readHeaderExact_go (fuel : nat) (ev : list recv)
    : option (result ioerr (httpRequest * nat)) :=
  match fuel with
  | O => None
  | S fuel =>
      match peek (Z.to_nat maxHeader) ev with
      | None => None
      | Some (Err e, _, _) => Some (Err e)
      | Some (Ok b, late, ev) =>
          match headerEnd b with
          | Some n => Some (Ok (parseHeader (take n b), n))
          | None =>
              if len b =? maxHeader then Some (Err errHeaderTooLarge)
              else if late then Some (Err errTimeout)
              else readHeaderExact_go fuel ev
          end
      end
  end.
Definition readHeaderExact (ev : list recv) := readHeaderExact_go (length ev) ev.

(** [bufio.Reader.ReadSlice('\n')] on a reader with a buffer of [size] bytes over
    the stream [s]: the line with its newline, or what was read before the
    error, and the rest of the stream. *)
Definition readSlice (size : nat) (s : gostring) : gostring * option ioerr * gostring :=
  match index_byte s x0a with
  | Some n =>
      if decide (n < size)%nat then (take (S n) s, None, drop (S n) s)
      else (take size s, Some errBufferFull, drop size s)
  | None =>
      if decide (length s < size)%nat then (s, Some errEOF, [])
      else (take size s, Some errBufferFull, drop size s)
  end.

(** [readHeaderBuffered]: the request and the rest of the stream. Each round
    takes at least a newline off the stream, so its length is enough fuel. *)
Fixpoint readHeaderBuffered_go (fuel size : nat) (raw s : gostring)
    : result ioerr (httpRequest * gostring) :=
  match fuel with
  | O => Err errEOF
  | S fuel =>
      let '(line, err, s) := readSlice size s in
      let raw := raw ++ line in
      match err with
      | Some e => Err e
      | None =>
          if maxHeader <? len raw then Err errHeaderTooLarge
          else if (len (trim_right_set CRLF line) =? 0) && (len line <? len raw)
          then Ok (parseHeader raw, s)
          else readHeaderBuffered_go fuel size raw s
      end
  end.
Definition readHeaderBuffered (size : nat) (s : gostring) :=
  readHeaderBuffered_go (S (length s)) size [] s.
End headers.

(* ------------------------------------------------------------------ *)
(** * Classification                                                     *)
(* ------------------------------------------------------------------ *)

(** The two questions the loop over the methods asks. *)
Definition starts_method (b : gostring) : bool :=
  existsb (fun m => has_prefix b (m ++ bs " ")) httpMethods.
Definition could_be_method (b : gostring) : bool :=
  existsb (fun m => (len b <? len (m ++ bs " ")) && has_prefix (m ++ bs " ") b) httpMethods.

Lemma method_loop_spec b acc ms :
  method_loop b acc ms =
  if existsb (fun m => has_prefix b (m ++ bs " ")) ms then None
  else Some (acc || existsb (fun m => (len b <? len (m ++ bs " ")) &&
                                      has_prefix (m ++ bs " ") b) ms).
Proof.
  revert acc. induction ms as [|m ms IH]; intros acc; cbn [method_loop existsb].
  - by rewrite orb_false_r.
  - destruct (has_prefix b (m ++ bs " ")); [done|]. by rewrite IH, orb_assoc.
Qed.

Lemma methods_spec b :
  method_loop b false httpMethods =
  if starts_method b then None else Some (could_be_method b).
Proof. apply method_loop_spec. Qed.

Lemma starts_method_extend b k : starts_method b = true -> starts_method (b ++ k) = true.
Proof.
  unfold starts_method. rewrite !existsb_exists.
  intros (m & Hm & Hp). exists m. split; [done|]. by apply has_prefix_extend.
Qed.

(** Bytes that are no prefix of a token never become one. *)
Lemma not_token_extend tok b k :
  has_prefix b tok = false -> (len b <? len tok) && has_prefix tok b = false ->
  has_prefix (b ++ k) tok = false /\
  (len (b ++ k) <? len tok) && has_prefix tok (b ++ k) = false.
Proof.
  intros Hn Hs. destruct (Z.ltb_spec (len b) (len tok)) as [Hl|Hl]; simpl in Hs.
  - assert (has_prefix (b ++ k) tok = false).
    { destruct (has_prefix (b ++ k) tok) eqn:E; [|done].
      apply has_prefix_short in E; [congruence|unfold len in *; lia]. }
    split; [done|]. apply andb_false_iff. right.
    destruct (has_prefix tok (b ++ k)) eqn:E; [|done].
    apply has_prefix_spec in E as [j ->].
    by rewrite <- app_assoc, has_prefix_app in Hs.
  - split; [by rewrite has_prefix_long by (unfold len in *; lia)|].
    rewrite (proj2 (Z.ltb_ge _ _)) by len_lia. done.
Qed.

Lemma not_method_extend b k :
  starts_method b = false -> could_be_method b = false ->
  starts_method (b ++ k) = false /\ could_be_method (b ++ k) = false.
Proof.
  unfold starts_method, could_be_method. induction httpMethods as [|m ms IH]; [done|].
  cbn [existsb]. rewrite !orb_false_iff. intros [H1 H2] [H3 H4].
  destruct (not_token_extend (m ++ bs " ") b k H1 H3), (IH H2 H4). done.
Qed.

Lemma could_be_method_short b : could_be_method b = true -> len b < 10.
Proof.
  unfold could_be_method. rewrite existsb_exists. intros (m & Hm & Hp).
  apply andb_true_iff in Hp as [Hl _]. apply Z.ltb_lt in Hl.
  assert (Hall : forallb (fun m => len (m ++ bs " ") <=? 10) httpMethods = true)
    by (vm_compute; reflexivity).
  rewrite forallb_forall in Hall. specialize (Hall m Hm). apply Z.leb_le in Hall. lia.
Qed.

Lemma classify_cons b0 b :
  classify (b0 :: b) =
  if decide (b0 = x16) then (kindTLS, false)
  else if (len (b0 :: b) <? 4) && has_prefix sshPrefix (b0 :: b) then (kindUnknown, true)
  else if has_prefix (b0 :: b) sshPrefix then (kindSSH, false)
  else if starts_method (b0 :: b) then (kindHTTP, false)
  else if could_be_method (b0 :: b) then (kindUnknown, true)
  else if isWSFrameStart (b0 :: b) then (kindWSFrame, false)
  else ((kindUnknown, (len (b0 :: b) =? 1) && (Z.land (b2z b0) 112 =? 0) && ws_opcode b0)).
Proof.
  unfold classify. rewrite methods_spec. change (len sshPrefix) with 4.
  repeat case_decide; try done.
  destruct ((len (b0 :: b) <? 4) && _); [done|].
  destruct (has_prefix _ sshPrefix); [done|].
  destruct (starts_method _); [done|]. destruct (could_be_method _); [done|].
  destruct (isWSFrameStart _); [done|]. by destruct (_ && _ && _).
Qed.

Lemma classify_final b k rest :
  ((classify b).2 = true -> len b < 10) /\
  (classify b = (k, false) -> classify (b ++ rest) = (k, false)).
Proof.
  destruct b as [|b0 b]; [by split|].
  rewrite <- app_comm_cons, !classify_cons, app_comm_cons.
  case_decide; [by split|].
  pose proof (not_token_extend sshPrefix (b0 :: b) rest) as Hssh.
  change (len sshPrefix) with 4 in Hssh.
  destruct ((len (b0 :: b) <? 4) && has_prefix sshPrefix (b0 :: b)) eqn:E1.
  { split; [|done]. apply andb_true_iff in E1 as [?%Z.ltb_lt _]. simpl. lia. }
  destruct (has_prefix (b0 :: b) sshPrefix) eqn:E2.
  { split; [done|]. intros [= <-].
    rewrite (has_prefix_extend _ _ rest E2).
    assert (len sshPrefix <= len (b0 :: b)).
    { apply has_prefix_length in E2. unfold len. lia. }
    by rewrite (proj2 (Z.ltb_ge _ _)) by (change (len sshPrefix) with 4 in *; len_lia). }
  destruct (Hssh eq_refl eq_refl) as [-> ->].
  destruct (starts_method (b0 :: b)) eqn:E3.
  { split; [done|]. intros [= <-]. by rewrite (starts_method_extend _ rest E3). }
  destruct (could_be_method (b0 :: b)) eqn:E4.
  { split; [|done]. intros _. by apply could_be_method_short. }
  destruct (not_method_extend _ rest E3 E4) as [-> ->].
  destruct b as [|b1 b].
  { cbn [isWSFrameStart]. change (len [b0] =? 1) with true. cbn [andb snd fst].
    split; [by intros _|].
    destruct ((Z.land (b2z b0) 112 =? 0) && ws_opcode b0) eqn:E5; [done|].
    intros [= <-]. destruct rest as [|r0 rest]; cbn [app isWSFrameStart].
    - change (len [b0] =? 1) with true. cbn [andb]. by rewrite E5.
    - apply andb_false_iff in E5 as [E5|E5]; rewrite E5.
      + by rewrite andb_false_r.
      + rewrite andb_false_r. by destruct (negb _). }
  cbn [app isWSFrameStart].
  assert (Hl : forall r, (len (b0 :: b1 :: r) =? 1) = false).
  { intros r. apply Z.eqb_neq. len_lia. }
  rewrite !Hl. cbn [andb].
  by destruct (if negb _ then _ else _).
Qed.

(** The answer of [classify] is final: once it needs no more bytes, no further
    bytes of the stream change the kind; and it always decides within ten bytes. *)
Theorem classify_stable b k rest :
  ((classify b).2 = true -> len b < 10) /\
  (classify b = (k, false) -> classify (b ++ rest) = (k, false)).
Proof. apply classify_final. Qed.

Lemma classify_stable_witness :
  classify (bs "GET ") = (kindHTTP, false) /\
  classify (bs "GET " ++ [x00; x16]) = (kindHTTP, false).
Proof.
  split; [vm_compute; reflexivity|].
  apply (classify_stable (bs "GET ") kindHTTP). vm_compute. reflexivity.
Defined.

(** What each answer means, bytes and all. *)
Lemma classify_ssh b : (classify b).1 = kindSSH -> has_prefix b sshPrefix = true.
Proof.
  destruct b as [|b0 b]; [done|]. rewrite classify_cons.
  repeat (case_decide || case_match); done.
Qed.

(** A schedule in which the stream [s] arrives in arbitrary pieces before the
    deadline. *)
Definition arrives (s : gostring) (ev : list recv) : Prop :=
  Forall (fun e => match e with
                   | RAgain | RIntr => True
                   | RData b late => late = false /\ b <> [] /\ exists k, s = b ++ k
                   | RDeadline | RError => False
                   end) ev.

Lemma peek_arrives size s ev :
  arrives s ev -> (0 < size)%nat ->
  match peek size ev with
  | None => forall b l, RData b l ∉ ev
  | Some (r, late, ev') =>
      arrives s ev' /\ late = false /\ (length ev' < length ev)%nat /\
      exists b, r = Ok (take size b) /\ b <> [] /\ (exists k, s = b ++ k) /\
        forall b' l', RData b' l' ∈ ev -> b' = b \/ RData b' l' ∈ ev'
  end.
Proof.
  intros Ha Hsz. induction Ha as [|e ev He Ha IH]; [set_solver|].
  destruct e as [| | | |b late]; try done; cbn [peek].
  1,2: destruct (peek size ev) as [[[r late] ev']|]; [|set_solver];
    destruct IH as (? & ? & ? & b & ? & ? & ? & Hin); split_and!; [done..|simpl; lia|];
    exists b; split_and!; [done..|]; intros b' l' [|]%elem_of_cons; [done|eauto].
  destruct He as (-> & Hb & Hk).
  destruct (take size b) as [|x t] eqn:E.
  { destruct b, size; done || lia. }
  split_and!; [done..|simpl; lia|]. exists b. rewrite E. split_and!; [done..|].
  intros b' l' [[= -> ->]|]%elem_of_cons; [by left|by right].
Qed.

Lemma classify_final_app b s k :
  classify b = (k, false) -> (exists t, s = b ++ t) -> classify s = (k, false).
Proof. intros Hb [t ->]. by apply classify_final. Qed.

Lemma peekClassify_kind s ev d late :
  arrives s ev -> RData d late ∈ ev -> (classify d).2 = false ->
  exists b, peekClassify ev = Some ((classify s).1, b, None) /\
            b = take (length b) s.
Proof.
  intros Ha Hin Hd. unfold peekClassify.
  assert (Hfuel : (length ev <= length ev)%nat) by lia. revert Hfuel.
  generalize (length ev) at 2 3. intros fuel.
  revert ev Ha Hin. induction fuel as [|fuel IH]; intros ev Ha Hin Hf.
  { destruct ev; [set_solver|simpl in Hf; lia]. }
  simpl. pose proof (peek_arrives 16 s ev Ha ltac:(lia)) as Hp.
  destruct (peek 16 ev) as [[[r l] ev']|]; [|by apply Hp in Hin].
  destruct Hp as (Ha' & -> & Hlen & b & -> & Hb & [t Ht] & Hall).
  destruct (classify (take 16 b)) as [k more] eqn:Ek.
  destruct (classify_final (take 16 b) k (drop 16 b ++ t)) as [Hshort Hfin].
  rewrite Ek in Hshort. cbn [snd] in Hshort.
  assert (Hs : take 16 b ++ drop 16 b ++ t = s) by by rewrite app_assoc, take_drop.
  rewrite Hs in Hfin.
  destruct more; cbn [negb orb].
  - specialize (Hshort eq_refl). rewrite (proj2 (Z.eqb_neq _ _)) by lia.
    apply IH; [done| |lia].
    destruct (Hall d late Hin) as [->|]; [|done]. exfalso.
    assert (take 16 b = b) as E.
    { apply take_ge. unfold len in Hshort. rewrite length_take in Hshort. lia. }
    rewrite E in Ek. by rewrite Ek in Hd.
  - exists (take 16 b). rewrite (Hfin Ek). split; [done|].
    rewrite <- Hs. by rewrite take_app_length.
Qed.

(** C7 Segmentation independence: however the first bytes of a connection are cut
    into TCP segments, once a decisive prefix has arrived [peekClassify] answers,
    without an error, the kind of the whole stream. *)
Theorem peekClassify_segments s ev d late :
  arrives s ev -> RData d late ∈ ev -> (classify d).2 = false ->
  exists b, peekClassify ev = Some ((classify s).1, b, None) /\
            b = take (length b) s.
Proof. apply peekClassify_kind. Qed.

Lemma peekClassify_segments_witness :
  exists b, peekClassify [RData (bs "S") false; RAgain; RData (bs "SSH-2.0") false]
            = Some (kindSSH, b, None).
Proof.
  destruct (peekClassify_segments (bs "SSH-2.0-x")
    [RData (bs "S") false; RAgain; RData (bs "SSH-2.0") false] (bs "SSH-2.0") false)
    as (b & H & _).
  - repeat constructor; try done; by eexists.
  - right. right. left.
  - vm_compute. reflexivity.
  - exists b. rewrite H. vm_compute. reflexivity.
Defined.
