(* ===== verification/HttpHead.v ===== *)
(** Reading and parsing one HTTP header block: what [headerEnd],
    [readHeaderExact], [readHeaderBuffered] and [parseHeader] of
    [src/internal/gateway/sniff.go] promise. *)
From S2P Require Import Prelude GoStrings Sniff.

(** A line of a header block, without its ending: not empty, no CR or LF. *)
Definition clean (l : gostring) : Prop := (x0d ∉ l) /\ (x0a ∉ l).
Definition head_line (l : gostring) : Prop := l <> [] /\ clean l.

(** The bytes of a header block with CRLF line endings. *)
Definition head_lines (ls : list gostring) : gostring :=
  concat ((fun l : gostring => app l CRLF) <$> ls).
Definition head (ls : list gostring) : gostring := head_lines ls ++ CRLF.

Lemma head_lines_cons l ls : head_lines (l :: ls) = l ++ CRLF ++ head_lines ls.
Proof. unfold head_lines. simpl. by rewrite <- app_assoc. Qed.

Lemma length_CRLF : length CRLF = 2%nat.
Proof. done. Qed.
#[local] Hint Rewrite length_CRLF : length.

(** Searching for a pattern that starts with [c] skips what has no [c]. *)
Lemma index_skip c sub l s :
  c ∉ l -> index (l ++ s) (c :: sub) = (fun n => (length l + n)%nat) <$> index s (c :: sub).
Proof.
  induction l as [|x l IH]; intros Hc.
  - simpl. by destruct (index s (c :: sub)).
  - cbn [app index has_prefix]. rewrite decide_False by set_solver.
    rewrite IH by set_solver. by destruct (index s (c :: sub)).
Qed.

Lemma head_line_cons l : head_line l -> exists x l', l = x :: l' /\ x <> x0d /\ x <> x0a.
Proof. intros [? [? ?]]. destruct l as [|x l]; [done|]. exists x, l. set_solver. Qed.

Definition end_mark : gostring := [x0d; x0a; x0d; x0a].

Lemma index_cons x s sub :
  index (x :: s) sub = if has_prefix (x :: s) sub then Some 0%nat else S <$> index s sub.
Proof. done. Qed.

Lemma index_cons_ne x s c sub :
  x <> c -> index (x :: s) (c :: sub) = S <$> index s (c :: sub).
Proof. intros. rewrite index_cons. cbn [has_prefix]. by rewrite decide_False. Qed.

Lemma index_line l x s :
  clean l -> x <> x0d ->
  index (l ++ CRLF ++ x :: s) end_mark =
  (fun n => (length l + 2 + n)%nat) <$> index (x :: s) end_mark.
Proof.
  intros [Hl _] Hx. unfold end_mark. rewrite index_skip by done.
  change (CRLF ++ x :: s) with (x0d :: x0a :: x :: s).
  rewrite index_cons.
  assert (E : has_prefix (x0d :: x0a :: x :: s) [x0d; x0a; x0d; x0a] = false).
  { cbn [has_prefix]. by rewrite 2!decide_True, decide_False by done. }
  rewrite E, index_cons_ne by done.
  destruct (index (x :: s) [x0d; x0a; x0d; x0a]); simpl; [|done]. f_equal. lia.
Qed.

(** The double CRLF of a block is where the block ends, whatever follows. *)
Lemma index_head ls rest :
  ls <> [] -> Forall head_line ls ->
  index (head ls ++ rest) end_mark = Some (length (head ls) - 4)%nat.
Proof.
  intros Hne Hls. induction Hls as [|l ls Hl Hls IH]; [done|].
  destruct Hls as [|l' ls Hl' Hls].
  - unfold head. rewrite head_lines_cons. cbn [head_lines fmap list_fmap concat].
    rewrite <- !app_assoc. unfold end_mark. rewrite index_skip by apply Hl.
    cbn. rewrite !length_app. simpl. f_equal. lia.
  - destruct (head_line_cons l' Hl') as (x & t & -> & Hx & _).
    specialize (IH ltac:(done)). unfold head in *.
    rewrite (head_lines_cons l), (head_lines_cons (x :: t)) in *.
    rewrite <- !app_assoc in *. cbn [app] in *.
    rewrite index_line by (apply Hl || done). rewrite IH. simpl. f_equal.
    length_lia.
Qed.

Lemma index_lf_head ls :
  Forall head_line ls -> index (head ls) [x0a; x0a] = None.
Proof.
  intros Hls. unfold head. induction Hls as [|l ls Hl Hls IH]; [done|].
  rewrite head_lines_cons, <- !app_assoc, index_skip by apply Hl.
  assert (E : exists y u, head_lines ls ++ CRLF = y :: u /\ y <> x0a).
  { destruct Hls as [|l' ls Hl' _]; [by eexists _, _|].
    destruct (head_line_cons l' Hl') as (x & t & -> & _ & Hx).
    rewrite head_lines_cons. by eexists _, _. }
  destruct E as (y & u & E & Hy). rewrite E in *.
  change (CRLF ++ y :: u) with (x0d :: x0a :: y :: u).
  rewrite index_cons_ne by done. rewrite index_cons. cbn [has_prefix].
  rewrite decide_True, decide_False by done. by rewrite IH.
Qed.

Lemma head_min_length ls : Forall head_line ls -> ls <> [] -> (5 <= length (head ls))%nat.
Proof.
  intros Hls Hne. destruct Hls as [|l ls Hl _]; [done|].
  destruct (head_line_cons l Hl) as (x & t & -> & _).
  unfold head. rewrite head_lines_cons, !length_app. simpl. lia.
Qed.

(** [headerEnd] on a stream that starts with a header block. *)
Lemma headerEnd_head ls rest :
  ls <> [] -> Forall head_line ls -> headerEnd (head ls ++ rest) = Some (length (head ls)).
Proof.
  intros Hne Hls. unfold headerEnd. change (CRLF ++ CRLF) with end_mark.
  rewrite index_head by done. f_equal. pose proof (head_min_length ls Hls Hne). lia.
Qed.

(** ... and on a part of it that is too short. *)
Lemma headerEnd_partial ls p k :
  ls <> [] -> Forall head_line ls -> head ls = p ++ k -> k <> [] -> headerEnd p = None.
Proof.
  intros Hne Hls E Hk. unfold headerEnd. change (CRLF ++ CRLF) with end_mark.
  destruct (index p end_mark) as [i|] eqn:Ei.
  - exfalso. apply index_Some in Ei as [(a & b & -> & <-) _].
    pose proof (index_head ls [] Hne Hls) as Hi. rewrite app_nil_r, E in Hi.
    apply (index_least _ _ _ (length a)) in Hi.
    + rewrite !length_app in Hi. simpl in Hi. destruct k; [done|simpl in *; lia].
    + rewrite <- !app_assoc, drop_app_length. apply has_prefix_app.
  - destruct (index p [x0a; x0a]) as [i|] eqn:El; [|done]. exfalso.
    apply index_Some in El as [(a & b & -> & _) _].
    apply (proj1 (index_None _ _) (index_lf_head ls Hls) a (b ++ k)).
    by rewrite E, <- !app_assoc.
Qed.

(* ------------------------------------------------------------------ *)
(** * The two readers                                                    *)
(* ------------------------------------------------------------------ *)

(** One line comes off the buffered stream. *)
Lemma readSlice_line size l s :
  clean l -> (length l + 2 <= size)%nat -> readSlice size (l ++ CRLF ++ s) = (l ++ CRLF, None, s).
Proof.
  intros [Hr Hn] Hs. unfold readSlice.
  change (l ++ CRLF ++ s) with (l ++ [x0d] ++ x0a :: s). rewrite app_assoc.
  rewrite index_byte_app by set_solver. rewrite length_app. cbn [length].
  rewrite decide_True by lia.
  replace (S (length l + 1)) with (length ((l ++ [x0d]) ++ [x0a])) by length_lia.
  change (x0a :: s) with ([x0a] ++ s). rewrite app_assoc.
  rewrite take_app_length, drop_app_length. by rewrite <- app_assoc.
Qed.

Lemma trim_right_line l : clean l -> l <> [] -> trim_right_set CRLF (l ++ CRLF) <> [].
Proof.
  intros [Hr Hn] Hne. destruct l as [|z l _] using rev_ind; [done|].
  unfold trim_right_set. rewrite !reverse_app.
  change (reverse CRLF ++ reverse [z] ++ reverse l) with (x0a :: x0d :: z :: reverse l).
  cbn [trim_left_set]. rewrite 2!decide_True, decide_False by (unfold CRLF; set_solver).
  rewrite reverse_cons.
  intros E. apply (f_equal length) in E. rewrite length_app in E. simpl in E. lia.
Qed.

Section readers.
Context `{Unicode}.

Lemma readHeaderBuffered_go_head fuel size raw ls rest :
  Forall head_line ls -> Forall (fun l => (length l + 2 <= size)%nat) ls ->
  (2 <= size)%nat -> (length ls < fuel)%nat ->
  (raw <> [] \/ ls <> []) -> len (raw ++ head ls) <= maxHeader ->
  readHeaderBuffered_go fuel size raw (head ls ++ rest) =
  Ok (parseHeader (raw ++ head ls), rest).
Proof.
  intros Hls. revert fuel raw. induction Hls as [|l ls Hl Hls IH];
    intros [|fuel] raw Hsz Hs Hf Hne Hlen; cbn [length] in Hf; try lia;
    cbn [readHeaderBuffered_go].
  - change (head [] ++ rest) with ([] ++ CRLF ++ rest).
    rewrite readSlice_line by (done || (cbn [length]; lia) || (split; set_solver)).
    change (head []) with CRLF in Hlen. rewrite app_nil_l.
    rewrite (proj2 (Z.ltb_ge _ _)) by done.
    destruct Hne as [Hraw|]; [|done].
    rewrite (proj2 (Z.ltb_lt _ _)); [done|].
    rewrite len_app. destruct raw; [done|]. rewrite len_cons. len_lia.
  - assert (E : head (l :: ls) = (l ++ CRLF) ++ head ls).
    { unfold head. by rewrite head_lines_cons, <- !app_assoc. }
    inversion Hsz as [|? ? Hsl Hsz']; subst.
    rewrite E, <- !app_assoc. rewrite readSlice_line by (done || apply Hl).
    rewrite E, app_assoc, len_app in Hlen. pose proof (len_nonneg (head ls)).
    rewrite (proj2 (Z.ltb_ge _ _)) by lia.
    rewrite (proj2 (Z.eqb_neq _ _)).
    2:{ pose proof (trim_right_line l (proj2 Hl) (proj1 Hl)) as Ht.
        destruct (trim_right_set CRLF (l ++ CRLF)); [done|]. len_lia. }
    cbn [andb]. rewrite IH; try done || lia.
    + by rewrite <- !app_assoc.
    + left. destruct raw; [|done]. by destruct l.
    + by rewrite len_app.
Qed.

Lemma length_lines_head ls : (length ls < S (length (head ls)))%nat.
Proof.
  induction ls as [|l ls IH]; [simpl; lia|].
  unfold head in *. rewrite head_lines_cons. length_lia.
Qed.

(** C8 The two ways of reading a request head agree on well-formed blocks: on a block of
    non-empty CRLF lines within the limits of both, whatever follows it and however it is
    cut into segments, once the whole block has arrived, [readHeaderExact] and [readHeaderBuffered] succeed, return the
    same request, and consume exactly the block, so that what follows reaches
    the tunnel untouched. *)
Theorem head_readers_agree ls rest size ev d late :
  ls <> [] -> Forall head_line ls -> Forall (fun l => (length l + 2 <= size)%nat) ls ->
  len (head ls) <= maxHeader ->
  arrives (head ls ++ rest) ev -> RData d late ∈ ev -> (length (head ls) <= length d)%nat ->
  readHeaderBuffered size (head ls ++ rest) = Ok (parseHeader (head ls), rest) /\
  readHeaderExact ev = Some (Ok (parseHeader (head ls), length (head ls))).
Proof.
  intros Hne Hls Hsz Hmax Ha Hin Hd. split.
  - unfold readHeaderBuffered.
    pose proof (length_lines_head ls) as Hl. pose proof (length_app (head ls) rest).
    assert (2 <= size)%nat by (destruct Hsz; [done|lia]).
    apply readHeaderBuffered_go_head; try done; [lia|by right].
  - unfold readHeaderExact.
    assert (Hfuel : (length ev <= length ev)%nat) by lia. revert Hfuel.
    generalize (length ev) at 2 3. intros fuel.
    revert ev Ha Hin. induction fuel as [|fuel IH]; intros ev Ha Hin Hf.
    { destruct ev; [set_solver|simpl in Hf; lia]. }
    cbn [readHeaderExact_go].
    pose proof (peek_arrives (Z.to_nat maxHeader) _ ev Ha ltac:(unfold maxHeader; lia)) as Hp.
    destruct (peek _ ev) as [[[r l] ev']|]; [|by apply Hp in Hin].
    destruct Hp as (Ha' & -> & Hlen & b & -> & Hb & [t Ht] & Hall).
    assert (Hm : (length (head ls) <= Z.to_nat maxHeader)%nat) by (unfold len in Hmax; lia).
    set (b' := take (Z.to_nat maxHeader) b).
    assert (Hpre : exists u, head ls ++ rest = b' ++ u).
    { exists (drop (Z.to_nat maxHeader) b ++ t). by rewrite Ht; unfold b'; rewrite app_assoc, take_drop. }
    destruct (decide (length (head ls) <= length b')%nat) as [Hlong|Hshort].
    + destruct Hpre as [u Hu]. apply app_eq_inv in Hu as [(k & E & _)|(k & E & _)].
      * assert (k = []) as ->.
        { apply (f_equal length) in E. rewrite length_app in E. destruct k; [done|].
          simpl in E. lia. }
        rewrite app_nil_r in E. rewrite <- E.
        pose proof (headerEnd_head ls [] Hne Hls) as He. rewrite app_nil_r in He.
        by rewrite He, firstn_all.
      * by rewrite E, headerEnd_head, take_app_length.
    + destruct Hpre as [u Hu]. apply app_eq_inv in Hu as [(k & E & _)|(k & E & _)].
      2:{ exfalso. apply Hshort. rewrite E, length_app. lia. }
      rewrite (headerEnd_partial ls b' k); try done.
      2:{ intros ->. apply Hshort. by rewrite E, app_nil_r. }
      rewrite (proj2 (Z.eqb_neq _ _)) by (unfold len; lia).
      apply IH; [done| |lia].
      destruct (Hall d late Hin) as [->|]; [|done]. exfalso. apply Hshort.
      subst b'. rewrite length_take. lia.
Qed.
End readers.

(* ------------------------------------------------------------------ *)
(** * Parsing a block                                                    *)
(* ------------------------------------------------------------------ *)

(** No white space at either end. *)
Definition trimmed (s : gostring) : Prop :=
  space_len s = 0%nat /\ space_len_rev (reverse s) = 0%nat.
Definition field_line (kv : gostring * gostring) : gostring := kv.1 ++ bs ": " ++ kv.2.
Definition field_ok (kv : gostring * gostring) : Prop :=
  clean kv.1 /\ (x3a ∉ kv.1) /\ trimmed kv.1 /\ clean kv.2 /\ trimmed kv.2.
Definition request_line (m t v : gostring) : gostring := m ++ bs " " ++ t ++ bs " " ++ v.

Lemma trim_space_trimmed s : trimmed s -> trim_space s = s.
Proof.
  intros [H1 H2]. unfold trim_space, trim_right, trim_left.
  assert (E : drop_spaces space_len 0 s = s) by (destruct s; [done|]; cbn [drop_spaces]; by rewrite H1).
  rewrite E.
  assert (E' : drop_spaces space_len_rev 0 (reverse s) = reverse s).
  { destruct (reverse s); [done|]. cbn [drop_spaces]. by rewrite H2. }
  by rewrite E', reverse_involutive.
Qed.

Lemma trim_space_blank s : trimmed s -> trim_space (x20 :: s) = s.
Proof.
  intros Hs. rewrite <- (trim_space_trimmed s Hs) at 2. done.
Qed.

Lemma replace_line l s :
  clean l -> replace_all (l ++ CRLF ++ s) CRLF [x0a] = l ++ x0a :: replace_all s CRLF [x0a].
Proof.
  intros [Hl _]. unfold replace_all. induction l as [|x l IH]; [done|].
  assert (E : forall u, has_prefix (x :: u) CRLF = false).
  { intros u. unfold CRLF. cbn [has_prefix]. by rewrite decide_False by set_solver. }
  cbn [app replace_go]. rewrite E, IH by set_solver. done.
Qed.

Lemma join_lines c (ls : list gostring) :
  concat ((fun l : gostring => app l [c]) <$> ls) ++ [c] = join [c] (ls ++ [[]; []]).
Proof.
  induction ls as [|l ls IH]; [done|]. cbn [fmap list_fmap concat app].
  rewrite <- !app_assoc, IH. destruct ls as [|l' ls]; done.
Qed.

Lemma lines_of_head ls :
  Forall clean ls -> split_on x0a (replace_all (head ls) CRLF [x0a]) = ls ++ [[]; []].
Proof.
  intros Hls.
  assert (E : replace_all (head ls) CRLF [x0a] =
              concat ((fun l : gostring => app l [x0a]) <$> ls) ++ [x0a]).
  { unfold head. induction Hls as [|l ls Hl _ IH]; [done|].
    rewrite head_lines_cons, <- !app_assoc, replace_line, IH by done.
    cbn [fmap list_fmap concat]. by rewrite <- !app_assoc. }
  rewrite E, join_lines. apply split_join; [by destruct ls|].
  apply Forall_app. split; [|repeat constructor; set_solver].
  eapply Forall_impl; [done|]. by intros ? [_ ?].
Qed.

Lemma fields_request m t v :
  printable m -> printable t -> printable v ->
  fields (request_line m t v) = [m; t; v].
Proof.
  intros [Hm1 Hm] [Ht1 Ht] [Hv1 Hv]. unfold fields, request_line.
  rewrite fields_go_word by done. cbn [app].
  change (bs " " ++ t ++ bs " " ++ v) with (x20 :: (t ++ x20 :: v)).
  cbn [fields_go space_len ascii_space]. rewrite fields_go_word by done.
  cbn [app fields_go space_len ascii_space].
  rewrite <- (app_nil_r v), fields_go_word by done.
  rewrite app_nil_r. cbn [app fields_go]. destruct m, t, v; done.
Qed.

Lemma printable_clean s : printable s -> clean s.
Proof.
  intros [_ Hs]. rewrite Forall_forall in Hs.
  split; intros Hin; destruct (Hs _ Hin) as [Hx%Z.leb_le _]; by vm_compute in Hx.
Qed.

Section parsing.
Context `{Unicode}.

(** The value of the first field whose name is [k] in lower case. *)
Fixpoint first_field (k : gostring) (fs : list (gostring * gostring)) : option gostring :=
  match fs with
  | [] => None
  | (k', v) :: fs => if decide (to_lower k' = k) then Some v else first_field k fs
  end.

Lemma add_header_field hs kv :
  field_ok kv ->
  add_header hs (field_line kv) =
  match hs !! to_lower kv.1 with
  | Some _ => hs
  | None => <[to_lower kv.1 := kv.2]> hs
  end.
Proof.
  destruct kv as [k v]. intros (_ & Hc & Hk & _ & Hv). unfold field_line, add_header. cbn [fst snd] in *.
  change (k ++ bs ": " ++ v) with (k ++ x3a :: (x20 :: v)).
  rewrite cut_app by done. by rewrite trim_space_trimmed, trim_space_blank.
Qed.

Lemma add_header_lookup hs fs k :
  Forall field_ok fs ->
  foldl add_header hs (field_line <$> fs) !! k =
  match hs !! k with Some v => Some v | None => first_field k fs end.
Proof.
  intros Hfs. revert hs. induction Hfs as [|[k' v] fs Hf _ IH]; intros hs.
  - cbn. by destruct (hs !! k).
  - cbn [fmap list_fmap foldl]. rewrite IH, add_header_field by done. cbn [fst snd first_field].
    destruct (hs !! to_lower k') as [v'|] eqn:E.
    + destruct (hs !! k) eqn:E'; [done|]. rewrite decide_False; [done|]. intros Ek. congruence.
    + case_decide as Ek.
      * subst. by rewrite E, lookup_insert_eq.
      * by rewrite lookup_insert_ne.
Qed.

Lemma field_line_head kv : field_ok kv -> head_line (field_line kv).
Proof.
  destruct kv as [k v]. intros ([] & _ & _ & [] & _). unfold field_line. cbn [fst snd] in *.
  split; [by destruct k|]. cbn. split; rewrite elem_of_app, !elem_of_cons; naive_solver.
Qed.

(** Parsing a request head: the method in upper case, the target, and for
    every header name (in lower case) the value of the first field of that
    name, without the blanks around it; later duplicates are ignored. *)
Theorem parseHeader_fields m t v fs k :
  printable m -> printable t -> printable v -> Forall field_ok fs ->
  let r := parseHeader (head (request_line m t v :: (field_line <$> fs))) in
  Method r = to_upper m /\ Target r = t /\ Headers r !! k = first_field k fs.
Proof.
  intros Hm Ht Hv Hfs r. subst r. unfold parseHeader.
  rewrite lines_of_head.
  - cbn [app hd tail]. rewrite fields_request by done. cbn [Method Target Headers].
    split; [done|]. split; [done|].
    rewrite foldl_app. cbn [foldl]. unfold add_header at 1 2. cbn [cut].
    by rewrite add_header_lookup, lookup_empty.
  - constructor.
    + destruct (printable_clean _ Hm), (printable_clean _ Ht), (printable_clean _ Hv).
      unfold request_line. cbn.
      split; rewrite ?elem_of_app, ?elem_of_cons, ?elem_of_app, ?elem_of_cons; naive_solver.
    + apply Forall_fmap. eapply Forall_impl; [done|].
      intros kv Hkv. apply field_line_head, Hkv.
Qed.
End parsing.

Definition demo_fields : list (gostring * gostring) :=
  [(bs "Host", bs "example.com"); (bs "Upgrade", bs "websocket"); (bs "HOST", bs "other")].

Lemma demo_fields_ok : Forall field_ok demo_fields.
Proof.
  repeat constructor; cbn; try (intros ?; set_solver); vm_compute; reflexivity.
Qed.

Definition demo_head : gostring :=
  head (request_line (bs "get") (bs "/x") (bs "HTTP/1.1") :: (field_line <$> demo_fields)).

Lemma parseHeader_fields_witness :
  let r := @parseHeader ascii_tables demo_head in
  Method r = bs "GET" /\ Target r = bs "/x" /\ Headers r !! bs "host" = Some (bs "example.com").
Proof.
  assert (Hp : forall w : gostring, w <> [] ->
    forallb (fun b => (33 <=? b2z b) && (b2z b <? 127)) w = true -> printable w).
  { intros w Hne Hw. split; [done|]. apply Forall_forall. intros b Hb.
    rewrite forallb_forall in Hw. specialize (Hw b (proj1 (list_elem_of_In _ _) Hb)). lia. }
  destruct (@parseHeader_fields ascii_tables (bs "get") (bs "/x") (bs "HTTP/1.1")
    demo_fields (bs "host")) as (H1 & H2 & H3).
  1-3: apply Hp; [done|vm_compute; reflexivity].
  - exact demo_fields_ok.
  - split; [exact H1|]. split; [exact H2|].
    etransitivity; [exact H3|vm_compute; reflexivity].
Defined.

Lemma head_readers_agree_witness :
  let rest := bs "SSH-2.0-x" in
  @readHeaderBuffered ascii_tables 4096 (demo_head ++ rest) =
    Ok (@parseHeader ascii_tables demo_head, rest) /\
  @readHeaderExact ascii_tables [RData (bs "get /") false; RData demo_head false] =
    Some (Ok (@parseHeader ascii_tables demo_head, length demo_head)).
Proof.
  set (ls := request_line (bs "get") (bs "/x") (bs "HTTP/1.1") :: (field_line <$> demo_fields)).
  assert (Hc : forall l : gostring, forallb (fun b => negb (bool_decide (b = x0d)) &&
                 negb (bool_decide (b = x0a))) l = true -> clean l).
  { intros l Hl. rewrite forallb_forall in Hl.
    split; intros Hin%list_elem_of_In; by apply Hl in Hin. }
  destruct (@head_readers_agree ascii_tables ls (bs "SSH-2.0-x") 4096
    [RData (bs "get /") false; RData demo_head false] demo_head false) as [H1 H2].
  - done.
  - repeat (constructor; [split; [done|apply Hc; vm_compute; reflexivity]|]). constructor.
  - repeat (constructor; [apply Nat.leb_le; vm_compute; reflexivity|]). constructor.
  - by vm_compute.
  - repeat constructor; try done.
    + by eexists.
    + by exists (bs "SSH-2.0-x").
  - right. left.
  - done.
  - split; [exact H1|exact H2].
Defined.

(** On a block with bare LF endings the two readers part: [headerEnd] looks for a
    CRLF CRLF anywhere in what is buffered before it looks for LF LF, so bytes
    that follow the block are consumed with it; a block that ends with LF CRLF
    is not recognised at all. *)
Lemma headerEnd_overruns :
  let h := bs "GET / HTTP/1.1" ++ [x0a; x0a] in
  let rest := bs "SSH-2.0-x" ++ CRLF ++ CRLF in
  @readHeaderBuffered ascii_tables 4096 (h ++ rest) =
    Ok (@parseHeader ascii_tables h, rest) /\
  headerEnd (h ++ rest) = Some (length (h ++ rest)) /\
  headerEnd (bs "GET / HTTP/1.1" ++ [x0a; x0d; x0a]) = None.
Proof. vm_compute. done. Qed.
