(* ===== verification/WebSocket.v ===== *)
(** WebSocket framing of the gateway ([src/internal/gateway/ws.go]): the upgrade
    reply, and [wsConn], which turns a stream of RFC 6455 frames into plain
    bytes and back. *)
From S2P Require Import Prelude GoStrings GoCrypto Sniff.

(* ------------------------------------------------------------------ *)
(** * The upgrade reply                                                  *)
(* ------------------------------------------------------------------ *)

Definition wsGUID : gostring := bs "258EAFA5-E914-47DA-95CA-C5AB0DC85B11".

Definition wsAccept (key : gostring) : gostring :=
  base64 (sha1 (trim_space key ++ wsGUID)).

Section upgrade.
Context `{Unicode}.

Definition upgradeResponse (req : httpRequest) : gostring :=
  if eqb_str (Method req) (bs "CONNECT")
  then bs "HTTP/1.1 200 Connection established" ++ CRLF ++ CRLF
  else
    bs "HTTP/1.1 101 Switching Protocols" ++ CRLF ++ bs "Upgrade: websocket" ++ CRLF ++
    bs "Connection: Upgrade" ++ CRLF ++
    (match header req (bs "sec-websocket-key") with
     | [] => []
     | key => bs "Sec-WebSocket-Accept: " ++ wsAccept key ++ CRLF
     end) ++
    (match header req (bs "sec-websocket-protocol") with
     | [] => []
     | p => bs "Sec-WebSocket-Protocol: " ++ trim_space (hd [] (split_on x2c p)) ++ CRLF
     end) ++ CRLF.
End upgrade.

(* ------------------------------------------------------------------ *)
(** * wsConn                                                             *)
(* ------------------------------------------------------------------ *)

Inductive wserr : Type :=
| wsEOF
| wsUnexpectedEOF
| wsOversized
| wsWriteError.

#[export] Instance wserr_eq_dec : EqDecision wserr.
Proof. solve_decision. Defined.

(** [ws_in] is what the peer has still to send before it closes, [ws_out] the
    calls of [w.Write], [ws_wfail] whether those fail. *)
Record wsConn : Type := mkWs {
  ws_in : gostring;
  ws_out : list gostring;
  ws_wfail : bool;
  ws_remaining : Z;
  ws_masked : bool;
  ws_mask : gostring;
  ws_maskPos : Z;
  ws_closed : bool
}.

Definition ws_set_in s c := mkWs s (ws_out c) (ws_wfail c) (ws_remaining c)
  (ws_masked c) (ws_mask c) (ws_maskPos c) (ws_closed c).
Definition ws_set_masked b c := mkWs (ws_in c) (ws_out c) (ws_wfail c) (ws_remaining c)
  b (ws_mask c) (ws_maskPos c) (ws_closed c).
Definition ws_set_mask m c := mkWs (ws_in c) (ws_out c) (ws_wfail c) (ws_remaining c)
  (ws_masked c) m (ws_maskPos c) (ws_closed c).
Definition ws_set_pos n c := mkWs (ws_in c) (ws_out c) (ws_wfail c) (ws_remaining c)
  (ws_masked c) (ws_mask c) n (ws_closed c).
Definition ws_set_remaining n c := mkWs (ws_in c) (ws_out c) (ws_wfail c) n
  (ws_masked c) (ws_mask c) (ws_maskPos c) (ws_closed c).
Definition ws_set_closed c := mkWs (ws_in c) (ws_out c) (ws_wfail c) (ws_remaining c)
  (ws_masked c) (ws_mask c) (ws_maskPos c) true.
Definition ws_add_out fr c := mkWs (ws_in c) (ws_out c ++ [fr]) (ws_wfail c)
  (ws_remaining c) (ws_masked c) (ws_mask c) (ws_maskPos c) (ws_closed c).

(** [io.ReadFull(c.r, buf)] with [len(buf) = n]: what it put into [buf], the
    error, and the rest of the stream. *)
Definition readFull (n : nat) (s : gostring) : gostring * option wserr * gostring :=
  if decide (n <= length s)%nat then (take n s, None, drop n s)
  else (s, Some (match s with [] => wsEOF | _ => wsUnexpectedEOF end), []).

Definition ws_readFull (n : nat) (c : wsConn) : gostring * option wserr * wsConn :=
  let '(b, e, s) := readFull n (ws_in c) in (b, e, ws_set_in s c).

(** [writeFrame]: one [w.Write] call. *)
Definition frame_bytes (opcode : Z) (p : gostring) : gostring :=
  let n := len p in
  [z2b (Z.lor 128 opcode)] ++
  (if n <? 126 then [z2b n]
   else if n <=? 65535 then z2b 126 :: put_be16 n
   else z2b 127 :: put_be 8 n) ++ p.

Definition writeFrame (opcode : Z) (p : gostring) (c : wsConn) : option wserr * wsConn :=
  if ws_wfail c then (Some wsWriteError, c)
  else (None, ws_add_out (frame_bytes opcode p) c).

(** XOR with the mask, starting at position [pos] of the frame. *)
Fixpoint xor_mask (mask : gostring) (pos : Z) (p : gostring) : gostring :=
  match p with
  | [] => []
  | b :: p => bxor b (byte_at (Z.land pos 3) mask) :: xor_mask mask (pos + 1) p
  end.

(** The extended payload length. *)
Definition read_length (h1 : byte) (c : wsConn) : result wserr Z * wsConn :=
  let length := Z.land (b2z h1) 127 in
  if length =? 126 then
    match ws_readFull 2 c with
    | (_, Some e, c) => (Err e, c)
    | (b, None, c) => (Ok (be16 b), c)
    end
  else if length =? 127 then
    match ws_readFull 8 c with
    | (_, Some e, c) => (Err e, c)
    | (b, None, c) => (Ok (be_num b), c)
    end
  else (Ok length, c).

(** The mask; a failed read leaves the bytes it got in [c.mask]. *)
Definition read_mask (c : wsConn) : option wserr * wsConn :=
  if ws_masked c then
    let '(b, e, c) := ws_readFull 4 c in
    (e, ws_set_mask (b ++ drop (length b) (ws_mask c)) c)
  else (None, c).

(** A control frame, after its header. *)
Definition control_frame (opcode length : Z) (c : wsConn) : option wserr * wsConn :=
  if 125 <? length then (Some wsOversized, c) else
  let '(payload, e, c) := ws_readFull (Z.to_nat length) c in
  match e with
  | Some e => (Some e, c)
  | None =>
      let payload := if ws_masked c then xor_mask (ws_mask c) 0 payload else payload in
      if opcode =? 8 then
        let '(_, c) := writeFrame 8 payload c in (Some wsEOF, ws_set_closed c)
      else if opcode =? 9 then writeFrame 10 payload c
      else (None, c)
  end.

Definition nextFrame (c : wsConn) : option wserr * wsConn :=
  let '(h, e, c) := ws_readFull 2 c in
  match e with
  | Some e => (Some e, c)
  | None =>
      let opcode := Z.land (b2z (byte_at 0 h)) 15 in
      let h1 := byte_at 1 h in
      let c := ws_set_masked (negb (Z.land (b2z h1) 128 =? 0)) c in
      match read_length h1 c with
      | (Err e, c) => (Some e, c)
      | (Ok length, c) =>
          match read_mask c with
          | (Some e, c) => (Some e, c)
          | (None, c) =>
              let c := ws_set_pos 0 c in
              if 8 <=? opcode then control_frame opcode length c
              else (None, ws_set_remaining length c)
          end
      end
  end.

(** The loop of [Read] that waits for payload. Every frame takes two bytes off
    the stream, so its length is enough fuel. *)
Fixpoint next_payload (fuel : nat) (c : wsConn) : option wserr * wsConn :=
  if ws_remaining c =? 0 then
    if ws_closed c then (Some wsEOF, c)
    else match fuel with
         | O => (None, c)
         | S fuel =>
             match nextFrame c with
             | (Some e, c) => (Some e, c)
             | (None, c) => next_payload fuel c
             end
         end
  else (None, c).

(** [Read(p)] with [len(p) = plen], where the buffered reader has at least [k]
    bytes at hand (it may return fewer than asked for, but at least one). *)
Definition Read (plen k : Z) (c : wsConn) : gostring * option wserr * wsConn :=
  match next_payload (S (length (ws_in c))) c with
  | (Some e, c) => ([], Some e, c)
  | (None, c) =>
      let plen := Z.min plen (ws_remaining c) in
      match ws_in c with
      | [] => ([], Some wsEOF, c)
      | _ =>
          let p := take (Z.to_nat (Z.min plen (Z.max 1 k))) (ws_in c) in
          let c' := ws_set_in (drop (length p) (ws_in c)) c in
          let '(p, c') :=
            if ws_masked c
            then (xor_mask (ws_mask c) (ws_maskPos c) p,
                  ws_set_pos (ws_maskPos c + len p) c')
            else (p, c') in
          (p, None, ws_set_remaining (u64 (ws_remaining c - len p)) c')
      end
  end.

Definition Write (p : gostring) (c : wsConn) : result wserr Z * wsConn :=
  match writeFrame 2 p c with
  | (Some e, c) => (Err e, c)
  | (None, c) => (Ok (len p), c)
  end.
