(* ===== verification/WebSocketProps.v ===== *)
(** What [WebSocket] guarantees: the frame reader is a plain byte stream, whatever
    the framing, masking and segmentation, and the reply to an upgrade request
    cannot be split. *)
From S2P Require Import Prelude GoStrings GoCrypto Sniff HttpHead WebSocket.

(* ------------------------------------------------------------------ *)
(** * Frames as a peer writes them                                       *)
(* ------------------------------------------------------------------ *)

(** The three ways to write a payload length. *)
Inductive lenc : Type := L7 | L16 | L64.

Record frame : Type := mkFrame {
  fr_head : byte;
  fr_enc : lenc;
  fr_mask : option gostring;
  fr_payload : gostring
}.

Definition opcode (f : frame) : Z := Z.land (b2z (fr_head f)) 15.

Definition enc_limit (e : lenc) : Z :=
  match e with L7 => 126 | L16 => 65536 | L64 => 2 ^ 64 end.

(** Any frame but a close: data, ping or pong; control frames are short. *)
Definition frame_ok (f : frame) : Prop :=
  len (fr_payload f) < enc_limit (fr_enc f) /\
  (forall m, fr_mask f = Some m -> length m = 4%nat) /\
  opcode f <> 8 /\ (8 <= opcode f -> len (fr_payload f) <= 125).

Definition wire_payload (f : frame) : gostring :=
  match fr_mask f with None => fr_payload f | Some m => xor_mask m 0 (fr_payload f) end.
Definition mask_bit (f : frame) : Z := match fr_mask f with None => 0 | Some _ => 128 end.
Definition enc_code (f : frame) : Z :=
  match fr_enc f with L7 => len (fr_payload f) | L16 => 126 | L64 => 127 end.
Definition enc_ext (f : frame) : gostring :=
  match fr_enc f with
  | L7 => [] | L16 => put_be16 (len (fr_payload f)) | L64 => put_be 8 (len (fr_payload f))
  end.

Definition encode_frame (f : frame) : gostring :=
  [fr_head f; z2b (mask_bit f + enc_code f)] ++ enc_ext f ++ default [] (fr_mask f) ++
  wire_payload f.

(** The payload a frame carries to the reader, and the reply it asks for. *)
Definition plain (f : frame) : gostring := if 8 <=? opcode f then [] else fr_payload f.
Definition reply (f : frame) : list gostring :=
  if opcode f =? 9 then [frame_bytes 10 (fr_payload f)] else [].

(* ------------------------------------------------------------------ *)
(** * Helpers                                                            *)
(* ------------------------------------------------------------------ *)

Lemma length_xor_mask m pos p : length (xor_mask m pos p) = length p.
Proof. revert pos. induction p; intros; simpl; auto. Qed.

Lemma xor_mask_app m pos p q :
  xor_mask m pos (p ++ q) = xor_mask m pos p ++ xor_mask m (pos + len p) q.
Proof.
  revert pos. induction p as [|b p IH]; intros pos; simpl.
  - by rewrite len_nil, Z.add_0_r.
  - rewrite IH, len_cons. do 3 f_equal. lia.
Qed.

(** Masking is its own inverse. *)
Lemma xor_mask_involutive m pos p : xor_mask m pos (xor_mask m pos p) = p.
Proof.
  revert pos. induction p as [|b p IH]; intros pos; simpl; [done|].
  by rewrite IH, bxor_involutive.
Qed.

(** Only the first four bytes of the mask are used. *)
Lemma xor_mask_prefix m r pos p :
  length m = 4%nat -> xor_mask (m ++ r) pos p = xor_mask m pos p.
Proof.
  intros Hm. revert pos. induction p as [|b p IH]; intros pos; simpl; [done|].
  rewrite IH. do 2 f_equal. unfold byte_at. apply app_nth1.
  change 3 with (Z.ones 2). rewrite Z.land_ones by lia.
  pose proof (Z.mod_pos_bound pos (2 ^ 2) ltac:(lia)). lia.
Qed.

Lemma readFull_app n a s : length a = n -> readFull n (a ++ s) = (a, None, s).
Proof.
  intros <-. unfold readFull. rewrite decide_True by length_lia.
  by rewrite take_app_length, drop_app_length.
Qed.

Lemma ws_readFull_app n a s c :
  length a = n -> ws_in c = a ++ s -> ws_readFull n c = (a, None, ws_set_in s c).
Proof. intros Ha Hc. unfold ws_readFull. by rewrite Hc, readFull_app. Qed.

Lemma byte_low_bits b : Z.land (b2z b) 127 = b2z b mod 128.
Proof. by destruct b. Qed.
Lemma byte_high_bit b : (Z.land (b2z b) 128 =? 0) = (b2z b <? 128).
Proof. by destruct b. Qed.

Lemma len_code_range f : frame_ok f -> 0 <= enc_code f < 128.
Proof.
  intros (Hl & _). unfold enc_code. pose proof (len_nonneg (fr_payload f)).
  destruct (fr_enc f); simpl in Hl; lia.
Qed.

Lemma head_code f :
  frame_ok f -> Z.land (b2z (z2b (mask_bit f + enc_code f))) 127 = enc_code f.
Proof.
  intros Hf%len_code_range. rewrite byte_low_bits, b2z_z2b_small
    by (unfold mask_bit; destruct (fr_mask f); lia).
  unfold mask_bit. destruct (fr_mask f).
  - replace (128 + enc_code f) with (enc_code f + 1 * 128) by lia.
    rewrite Z.mod_add by lia. by apply Z.mod_small.
  - by apply Z.mod_small.
Qed.

Lemma head_masked f :
  frame_ok f ->
  negb (Z.land (b2z (z2b (mask_bit f + enc_code f))) 128 =? 0) =
  match fr_mask f with Some _ => true | None => false end.
Proof.
  intros Hf%len_code_range. rewrite byte_high_bit, b2z_z2b_small
    by (unfold mask_bit; destruct (fr_mask f); lia).
  unfold mask_bit. destruct (fr_mask f).
  - by rewrite (proj2 (Z.ltb_ge _ _)) by lia.
  - by rewrite (proj2 (Z.ltb_lt _ _)) by lia.
Qed.

(** The header fields come back from the stream. *)
Lemma read_length_spec f c k :
  frame_ok f -> ws_in c = enc_ext f ++ k ->
  read_length (z2b (mask_bit f + enc_code f)) c =
  (Ok (len (fr_payload f)), ws_set_in k c).
Proof.
  intros Hf Hc. unfold read_length. rewrite head_code by done.
  pose proof Hf as (Hl & _). pose proof (len_nonneg (fr_payload f)).
  unfold enc_code, enc_ext in *. destruct (fr_enc f); cbn [enc_limit] in Hl.
  - rewrite (proj2 (Z.eqb_neq _ _)), (proj2 (Z.eqb_neq _ _)) by lia.
    simpl in Hc. rewrite <- Hc. by destruct c.
  - rewrite Z.eqb_refl, (ws_readFull_app 2 (put_be16 (len (fr_payload f))) k) by done.
    by rewrite <- (app_nil_r (put_be16 _)), be16_put by lia.
  - change (127 =? 126) with false. rewrite Z.eqb_refl.
    rewrite (ws_readFull_app 8 (put_be 8 (len (fr_payload f))) k)
      by (done || apply length_put_be).
    by rewrite be_num_put by (change (256 ^ Z.of_nat 8) with (2 ^ 64); lia).
Qed.

(** One frame is taken off the stream. *)
Lemma nextFrame_spec f c k :
  frame_ok f -> ws_in c = encode_frame f ++ k -> ws_wfail c = false ->
  exists c', nextFrame c = (None, c') /\ ws_wfail c' = false /\
    ws_closed c' = ws_closed c /\ ws_out c' = ws_out c ++ reply f /\
    (if 8 <=? opcode f
     then ws_in c' = k /\ ws_remaining c' = ws_remaining c
     else ws_in c' = (if ws_masked c' then xor_mask (ws_mask c') (ws_maskPos c') (fr_payload f)
                      else fr_payload f) ++ k /\
          ws_remaining c' = len (fr_payload f)).
Proof.
  intros Hf Hc Hw. pose proof Hf as (Hl & Hm & H8 & Hctl).
  unfold encode_frame in Hc. rewrite <- !app_assoc in Hc.
  unfold nextFrame. rewrite (ws_readFull_app 2 [_; _] _ c eq_refl Hc).
  rewrite byte_at_0, byte_at_1. cbv zeta. rewrite head_masked by done.
  set (c0 := ws_set_masked _ _). fold (opcode f).
  rewrite (read_length_spec f c0 (default [] (fr_mask f) ++ wire_payload f ++ k)) by done.
  set (c1 := ws_set_in _ c0).
  assert (Em : exists m, read_mask c1 = (None, ws_set_in (wire_payload f ++ k) (ws_set_mask m c1)) /\
             wire_payload f = if ws_masked c1 then xor_mask m 0 (fr_payload f) else fr_payload f).
  { unfold read_mask. subst c1 c0. cbn [ws_masked ws_set_in ws_set_masked].
    destruct (fr_mask f) as [m|] eqn:Emask.
    - rewrite (ws_readFull_app 4 m (wire_payload f ++ k)) by (done || by apply Hm).
      eexists. split; [done|]. rewrite xor_mask_prefix by by apply Hm.
      unfold wire_payload. by rewrite Emask.
    - exists (ws_mask c). split; [by destruct c|].
      unfold wire_payload. by rewrite Emask. }
  destruct Em as (m & -> & Ew). set (c2 := ws_set_pos 0 _).
  assert (Hc2 : ws_wfail c2 = false /\ ws_closed c2 = ws_closed c /\ ws_out c2 = ws_out c /\
                ws_remaining c2 = ws_remaining c /\ ws_mask c2 = m /\
                ws_masked c2 = ws_masked c1 /\ ws_in c2 = wire_payload f ++ k /\ ws_maskPos c2 = 0)
    by done.
  clearbody c2. destruct Hc2 as (? & ? & ? & ? & Hcm & Hcmm & Hcin & Hpos).
  unfold reply. destruct (Z.leb_spec 8 (opcode f)) as [H8'|H8'].
  - unfold control_frame. specialize (Hctl H8').
    rewrite (proj2 (Z.ltb_ge _ _)) by lia.
    assert (Hlw : length (wire_payload f) = Z.to_nat (len (fr_payload f))).
    { unfold wire_payload, len. rewrite Nat2Z.id. destruct (fr_mask f); [|done].
      apply length_xor_mask. }
    rewrite (ws_readFull_app _ (wire_payload f) k c2) by (done || lia).
    cbn [ws_masked ws_mask ws_set_in].
    assert (Ep : (if ws_masked c2 then xor_mask (ws_mask c2) 0 (wire_payload f)
                  else wire_payload f) = fr_payload f).
    { rewrite Hcmm, Hcm, Ew. destruct (ws_masked c1); [apply xor_mask_involutive|done]. }
    rewrite Ep, (proj2 (Z.eqb_neq _ _)) by done.
    destruct (Z.eqb_spec (opcode f) 9) as [_|_].
    + unfold writeFrame. cbn [ws_wfail ws_set_in]. rewrite H.
      eexists. split; [done|]. cbn. split_and!; congruence.
    + eexists. split; [done|]. cbn. rewrite app_nil_r. split_and!; congruence.
  - rewrite (proj2 (Z.eqb_neq _ _)) by lia. rewrite app_nil_r.
    eexists. split; [done|]. cbn. split_and!; try congruence.
    rewrite Hcin, Ew, Hcm, Hcmm, Hpos. by destruct (ws_masked c1).
Qed.

(* ------------------------------------------------------------------ *)
(** * The reader as a byte stream                                        *)
(* ------------------------------------------------------------------ *)

(** The connection [c] still has to deliver exactly the bytes [s], and by then
    will have written exactly [o]: the rest of the current payload is on the
    wire (masked if need be), followed by whole frames. *)
Definition stream_rel (c : wsConn) (s : gostring) (o : list gostring) : Prop :=
  exists cur fs,
    ws_wfail c = false /\ ws_closed c = false /\ Forall frame_ok fs /\
    ws_remaining c = len cur /\ len cur < 2 ^ 64 /\
    ws_in c = (if ws_masked c then xor_mask (ws_mask c) (ws_maskPos c) cur else cur) ++
              concat (encode_frame <$> fs) /\
    s = cur ++ concat (plain <$> fs) /\ o = ws_out c ++ concat (reply <$> fs).

Lemma enc_limit_max e : enc_limit e <= 2 ^ 64.
Proof. by destruct e. Qed.

Lemma next_payload_rel fuel c s o :
  stream_rel c s o -> (length (ws_in c) < fuel)%nat ->
  (s = [] /\ exists c', next_payload fuel c = (Some wsEOF, c') /\ ws_out c' = o) \/
  (exists c', next_payload fuel c = (None, c') /\ stream_rel c' s o /\ 0 < ws_remaining c').
Proof.
  revert c. induction fuel as [|fuel IH]; intros c Hrel Hf; [lia|].
  pose proof Hrel as (cur & fs & Hw & Hcl & Hfs & Hrem & Hlt & Hin & Hs & Ho).
  cbn [next_payload]. destruct (Z.eqb_spec (ws_remaining c) 0) as [Hz|Hz].
  2:{ right. exists c. pose proof (len_nonneg cur). split_and!; [done|done|lia]. }
  rewrite Hcl. assert (cur = []) as -> by (apply len_zero_nil; lia).
  assert (Hin' : ws_in c = concat (encode_frame <$> fs)) by (by destruct (ws_masked c)).
  destruct Hfs as [|f fs Hf1 Hfs].
  - left. split; [done|]. unfold nextFrame, ws_readFull. rewrite Hin'. cbn.
    eexists. split; [done|]. by rewrite Ho, app_nil_r.
  - cbn [fmap list_fmap concat] in *.
    destruct (nextFrame_spec f c _ Hf1 Hin' Hw) as (c' & -> & Hw' & Hcl' & Hout & Hcase).
    apply IH.
    + unfold plain at 1 in Hs.
      destruct (8 <=? opcode f).
      * destruct Hcase as [Hi Hr]. exists [], fs. rewrite Hi, Hr, Hcl', Hout, <- app_assoc.
        split_and!; try done; try congruence. by destruct (ws_masked c').
      * destruct Hcase as [Hi Hr]. exists (fr_payload f), fs.
        rewrite Hi, Hr, Hcl', Hout, <- app_assoc. split_and!; try done; try congruence.
        pose proof (enc_limit_max (fr_enc f)). destruct Hf1 as [? _]. lia.
    + rewrite Hin' in Hf. unfold encode_frame at 1 in Hf. rewrite !length_app in Hf.
      cbn [length] in Hf.
      assert (Hl : length (wire_payload f) = length (fr_payload f)).
      { unfold wire_payload. destruct (fr_mask f); [apply length_xor_mask|done]. }
      destruct (8 <=? opcode f); destruct Hcase as [-> _]; [lia|].
      rewrite length_app. destruct (ws_masked c'); rewrite ?length_xor_mask; lia.
Qed.

(** The first bytes of a masked or plain payload. *)
Lemma payload_take m pos (masked : bool) n cur k :
  (n <= length cur)%nat ->
  let q := take n ((if masked then xor_mask m pos cur else cur) ++ k) in
  (if masked then xor_mask m pos q else q) = take n cur /\
  length q = n /\
  drop n ((if masked then xor_mask m pos cur else cur) ++ k) =
  (if masked then xor_mask m (pos + Z.of_nat n) (drop n cur) else drop n cur) ++ k.
Proof.
  intros Hn. assert (Hl : length (take n cur) = n) by (rewrite length_take; lia).
  pose proof (take_drop n cur) as E. revert Hl E.
  generalize (take n cur) (drop n cur). intros a b Hl <-. destruct masked.
  - rewrite xor_mask_app, <- app_assoc. unfold len. rewrite Hl.
    rewrite take_app_length', drop_app_length' by (by rewrite length_xor_mask).
    by rewrite xor_mask_involutive, length_xor_mask.
  - rewrite <- app_assoc. by rewrite take_app_length', drop_app_length'.
Qed.

Lemma Read_step plen k c s o :
  stream_rel c s o -> 0 < plen ->
  let '(p, e, c') := Read plen k c in
  (s = [] /\ p = [] /\ e = Some wsEOF /\ ws_out c' = o) \/
  (p <> [] /\ len p <= plen /\ e = None /\
   exists s', s = p ++ s' /\ stream_rel c' s' o).
Proof.
  intros Hrel Hp. unfold Read.
  destruct (next_payload_rel (S (length (ws_in c))) c s o Hrel ltac:(lia))
    as [(-> & c' & -> & Ho)|(c' & -> & Hrel' & Hpos)]; [by left|].
  clear Hrel c. rename c' into c.
  destruct Hrel' as (cur & fs & Hw & Hcl & Hfs & Hrem & Hlt & Hin & Hs & Ho).
  set (n := Z.to_nat (Z.min (Z.min plen (ws_remaining c)) (Z.max 1 k))).
  assert (Hn : (0 < n <= length cur)%nat) by (unfold n, len in *; lia).
  assert (Hnp : Z.of_nat n <= plen) by (unfold n; lia).
  destruct (payload_take (ws_mask c) (ws_maskPos c) (ws_masked c) n cur
              (concat (encode_frame <$> fs)) ltac:(lia)) as (Eq & Hq & Ed).
  rewrite <- Hin in Eq, Hq, Ed. cbv zeta in Eq, Hq.
  assert (Hne : take n cur <> []) by (destruct cur, n; simpl in *; (done || lia)).
  destruct (ws_in c) as [|b0 rest] eqn:Ein.
  { rewrite take_nil in Hq. simpl in Hq. lia. }
  assert (Hrem' : u64 (ws_remaining c - Z.of_nat n) = len (drop n cur)).
  { rewrite Hrem. unfold len. rewrite length_drop.
    rewrite uwrap_small by (unfold len in *; lia). lia. }
  assert (Hlc : length (take n cur) = n) by (rewrite length_take; lia).
  assert (Hlen : len (take n cur) = Z.of_nat n) by (unfold len; by rewrite Hlc).
  assert (Hlq : len (take n (b0 :: rest)) = Z.of_nat n) by (unfold len; by rewrite Hq).
  destruct (ws_masked c) eqn:Em; cbn beta iota zeta.
  all: right; rewrite ?Eq; split_and!; [done|lia|done|].
  all: exists (drop n cur ++ concat (plain <$> fs)).
  all: split; [by rewrite app_assoc, take_drop|].
  all: exists (drop n cur), fs; cbn; rewrite ?Em, ?Hq, ?Hlc, ?Ed, ?Hlen, ?Hlq.
  all: assert (len (drop n cur) < 2 ^ 64) by (unfold len in *; rewrite length_drop; lia).
  all: by split_and!.
Qed.

(** C9 [wsConn] is a plain byte stream: whatever data frames, pings and pongs the
    peer sends, however it masks and encodes them and however the bytes arrive,
    each [Read] delivers the next bytes of the concatenated payloads (at least
    one, at most what was asked for), in order, without loss or duplication;
    EOF comes exactly when all were delivered, and every ping has been
    answered by a pong with its payload by then. *)
Theorem ws_Read_stream plen k c s o :
  stream_rel c s o -> 0 < plen ->
  let '(p, e, c') := Read plen k c in
  (s = [] /\ p = [] /\ e = Some wsEOF /\ ws_out c' = o) \/
  (p <> [] /\ len p <= plen /\ e = None /\
   exists s', s = p ++ s' /\ stream_rel c' s' o).
Proof. apply Read_step. Qed.

(** A reader on the bytes [s], as the gateway sets it up. *)
Definition fresh_ws (s : gostring) : wsConn :=
  mkWs s [] false 0 false (replicate 4 x00) 0 false.

Definition demo_frames : list frame :=
  [mkFrame x82 L7 (Some [x01; x02; x03; x04]) (bs "SSH"); mkFrame x89 L7 None (bs "hi");
   mkFrame x80 L16 None (bs "-2")].

Lemma demo_frames_rel :
  stream_rel (fresh_ws (concat (encode_frame <$> demo_frames))) (bs "SSH-2")
    [frame_bytes 10 (bs "hi")].
Proof.
  exists [], demo_frames. split_and!; try done.
  repeat constructor; try done; simpl; intros; simplify_eq; done.
Qed.

Lemma ws_Read_stream_witness :
  let '(p, e, c') := Read 2 2 (fresh_ws (concat (encode_frame <$> demo_frames))) in
  exists s', bs "SSH-2" = p ++ s' /\ stream_rel c' s' [frame_bytes 10 (bs "hi")].
Proof.
  pose proof (ws_Read_stream 2 2 _ _ _ demo_frames_rel ltac:(lia)) as H.
  destruct (Read 2 2 _) as [[p e] c'].
  destruct H as [(H & _)|(_ & _ & _ & H)]; [by vm_compute in H|exact H].
Defined.

(** What [writeFrame] sends is a frame of the shortest form. *)
Definition own_frame (p : gostring) : frame :=
  mkFrame x82 (if len p <? 126 then L7 else if len p <=? 65535 then L16 else L64) None p.

Lemma frame_bytes_own p : frame_bytes 2 p = encode_frame (own_frame p).
Proof.
  unfold frame_bytes, encode_frame, own_frame, enc_ext, enc_code, wire_payload, mask_bit.
  cbn [fr_head fr_mask fr_payload fr_enc default].
  repeat case_if; done.
Qed.

Lemma own_frame_ok p : len p < 2 ^ 63 -> frame_ok (own_frame p).
Proof.
  intros Hp. unfold own_frame. split_and!; cbn [fr_payload fr_enc fr_mask]; try done.
  repeat case_if; cbn [enc_limit]; lia.
Qed.

(** Reads with these buffer sizes, at most this much of the stream being there each time,
    until one gives an error: all the bytes they return together. *)
Fixpoint reads (l : list (Z * Z)) (c : wsConn) : gostring * option wserr * wsConn :=
  match l with
  | [] => ([], None, c)
  | (plen, k) :: l =>
      let '(p, e, c) := Read plen k c in
      match e with
      | Some _ => (p, e, c)
      | None => let '(q, e, c) := reads l c in (p ++ q, e, c)
      end
  end.

(** Any number of reads takes the stream off the connection in order: a byte at least per
    read, until it ends. *)
Lemma reads_stream l c s o :
  stream_rel c s o -> Forall (fun x => 0 < x.1) l ->
  let '(p, e, c') := reads l c in
  exists s', s = p ++ s' /\
    match e with
    | None => stream_rel c' s' o /\ (length l <= length p)%nat
    | Some e => e = wsEOF /\ s' = [] /\ ws_out c' = o
    end.
Proof.
  intros Hrel Hl. revert c s Hrel. induction Hl as [|[plen k] l Hp _ IH]; intros c s Hrel; cbn [reads].
  - exists s. split; [done|]. split; [done|cbn; lia].
  - pose proof (Read_step plen k c s o Hrel Hp) as Hr. destruct (Read plen k c) as [[p e] c1].
    destruct Hr as [(-> & -> & -> & Ho)|(Hne & _ & -> & s1 & -> & Hrel1)]; [by exists []|].
    specialize (IH c1 s1 Hrel1). destruct (reads l c1) as [[q e] c2].
    destruct IH as (s2 & -> & He). exists s2. split; [by rewrite app_assoc|].
    destruct e as [e|]; [done|]. destruct He as [? ?]. split; [done|].
    rewrite length_app. destruct p; [done|]. cbn [length]. lia.
Qed.

(** The stream that a sequence of writes leaves for the peer. *)
Lemma written_stream ps :
  Forall (fun p => len p < 2 ^ 63) ps ->
  let c := foldl (fun c p => (Write p c).2) (fresh_ws []) ps in
  stream_rel (fresh_ws (concat (ws_out c))) (concat ps) [].
Proof.
  intros Hps.
  assert (Hout : forall c, ws_wfail c = false ->
    ws_out (foldl (fun c p => (Write p c).2) c ps) =
    ws_out c ++ (encode_frame <$> (own_frame <$> ps))).
  { clear Hps. induction ps as [|p ps IH]; intros c Hc; simpl; [by rewrite app_nil_r|].
    unfold Write, writeFrame. rewrite Hc. cbn [snd]. rewrite IH by done.
    cbn [ws_out ws_add_out]. by rewrite <- app_assoc, frame_bytes_own. }
  cbv zeta. rewrite Hout by done. cbn [ws_out fresh_ws app].
  assert (Hpl : concat (plain <$> (own_frame <$> ps)) = concat ps).
  { clear. induction ps as [|p ps IH]; [done|].
    rewrite !fmap_cons. cbn [concat]. by rewrite IH. }
  assert (Hre : concat (reply <$> (own_frame <$> ps)) = []).
  { clear. induction ps as [|p ps IH]; [done|].
    rewrite !fmap_cons. cbn [concat]. by rewrite IH. }
  exists [], (own_frame <$> ps). rewrite Hpl, Hre. split_and!; try done.
  apply Forall_fmap. eapply Forall_impl; [done|]. intros p. apply own_frame_ok.
Qed.

(** C10 Write and read fit together: when the frames that [Write] sends for a sequence of
    byte slices (of any size an [int] can hold) are read with [Read], with whatever buffers
    and however the bytes arrive, the reads return the concatenation of the slices from its
    first byte on, without loss, change or duplication; once there were more reads than bytes
    they have returned all of it and ended with EOF, and nothing was written back. *)
Theorem ws_Write_Read ps l :
  Forall (fun p => len p < 2 ^ 63) ps -> Forall (fun x => 0 < x.1) l ->
  let c := foldl (fun c p => (Write p c).2) (fresh_ws []) ps in
  let '(p, e, c') := reads l (fresh_ws (concat (ws_out c))) in
  (exists rest, concat ps = p ++ rest /\ (e <> None -> rest = [])) /\
  ((length (concat ps) < length l)%nat -> p = concat ps /\ e = Some wsEOF /\ ws_out c' = []).
Proof.
  intros Hps Hl. cbv zeta. pose proof (reads_stream l _ _ _ (written_stream ps Hps) Hl) as Hr.
  destruct (reads l _) as [[p e] c']. destruct Hr as (rest & Hc & He). rewrite Hc.
  destruct e as [e|].
  - destruct He as (-> & -> & Ho). rewrite app_nil_r. split; [by exists []; rewrite app_nil_r|done].
  - destruct He as [_ Hle]. split; [by exists rest|]. rewrite length_app. lia.
Qed.

Lemma ws_Write_Read_witness :
  let '(p, e, c') := reads [(1, 5); (2, 1); (4, 4); (8, 8)]
    (fresh_ws (concat (ws_out (foldl (fun c p => (Write p c).2) (fresh_ws []) [bs "a"; bs "bc"])))) in
  p = bs "abc" /\ e = Some wsEOF /\ ws_out c' = [].
Proof.
  assert (Hps : Forall (fun p => len p < 2 ^ 63) [bs "a"; bs "bc"]) by (repeat constructor; by vm_compute).
  assert (Hl : Forall (fun x : Z * Z => 0 < x.1) [(1, 5); (2, 1); (4, 4); (8, 8)]) by (repeat constructor).
  pose proof (ws_Write_Read [bs "a"; bs "bc"] _ Hps Hl) as Hr. cbv zeta in Hr.
  destruct (reads _ _) as [[p e] c']. destruct Hr as [_ Hr]. apply Hr. cbn. lia.
Defined.

(** A close frame is answered with a close frame of the same payload, and the
    connection then only reports EOF. *)
Lemma ws_close_frame m p k c :
  length m = 4%nat -> len p <= 125 -> ws_wfail c = false -> ws_remaining c = 0 ->
  ws_in c = [x88; z2b (128 + len p)] ++ m ++ xor_mask m 0 p ++ k ->
  exists c', nextFrame c = (Some wsEOF, c') /\ ws_closed c' = true /\
    ws_out c' = ws_out c ++ [frame_bytes 8 p] /\ ws_in c' = k /\
    forall plen j, (Read plen j c').1.2 = Some wsEOF.
Proof.
  intros Hm Hp Hw Hr Hin. pose proof (len_nonneg p).
  unfold nextFrame. rewrite (ws_readFull_app 2 [_; _] _ c eq_refl Hin).
  rewrite byte_at_0, byte_at_1. cbv zeta. unfold read_length.
  rewrite byte_low_bits, byte_high_bit, b2z_z2b_small by lia.
  rewrite (proj2 (Z.ltb_ge _ _)) by lia.
  replace ((128 + len p) mod 128) with (len p).
  2:{ replace (128 + len p) with (len p + 1 * 128) by lia.
      rewrite Z.mod_add, Z.mod_small; lia. }
  rewrite (proj2 (Z.eqb_neq _ _)), (proj2 (Z.eqb_neq _ _)) by lia.
  unfold read_mask. cbn [ws_masked ws_set_masked negb].
  rewrite (ws_readFull_app 4 m (xor_mask m 0 p ++ k)) by done.
  change (8 <=? Z.land (b2z x88) 15) with true. cbv iota.
  unfold control_frame. rewrite (proj2 (Z.ltb_ge _ _)) by lia.
  rewrite (ws_readFull_app _ (xor_mask m 0 p) k)
    by (done || (rewrite length_xor_mask; unfold len; lia)).
  cbn. rewrite xor_mask_prefix, xor_mask_involutive by done.
  unfold writeFrame. cbn. rewrite Hw. eexists. split; [done|].
  split_and!; try done. intros. unfold Read. cbn. by rewrite Hr.
Qed.

(* ------------------------------------------------------------------ *)
(** * The upgrade reply                                                  *)
(* ------------------------------------------------------------------ *)

Lemma split_on_lines c s : Forall (fun l => c ∉ l) (split_on c s).
Proof.
  induction s as [|x s IH]; simpl; [apply Forall_singleton; set_solver|].
  case_decide; [apply Forall_cons; split; [set_solver|done]|].
  destruct IH as [|l ls Hl Hls]; [apply Forall_singleton; set_solver|].
  apply Forall_cons. split; [set_solver|done].
Qed.

Lemma split_on_subset c s l x : l ∈ split_on c s -> x ∈ l -> x ∈ s.
Proof.
  revert l. induction s as [|y s IH]; intros l; simpl.
  { by intros ->%list_elem_of_singleton. }
  case_decide.
  - intros [->|Hl]%elem_of_cons Hx; [by apply elem_of_nil in Hx|].
    right. by eapply IH.
  - pose proof (split_on_nonempty c s).
    destruct (split_on c s) as [|l0 ls]; [done|].
    intros [->|Hl]%elem_of_cons Hx.
    + apply elem_of_cons in Hx as [->|Hx]; [left|right].
      eapply IH; [left|done].
    + right. eapply IH; [by right|done].
Qed.

Section reply.
Context `{Unicode}.

Lemma parsed_values_one_line b k v :
  Headers (parseHeader b) !! k = Some v -> x0a ∉ v.
Proof.
  unfold parseHeader. cbn [Headers].
  pose proof (split_on_lines x0a (replace_all b CRLF [x0a])) as Hl.
  assert (Ht : Forall (fun l => x0a ∉ l) (tail (split_on x0a (replace_all b CRLF [x0a]))))
    by (destruct Hl; [done|done]).
  clear Hl. revert Ht. generalize (tail (split_on x0a (replace_all b CRLF [x0a]))). intros ls Hls.
  assert (Hall : forall hs, (forall k v, hs !! k = Some v -> x0a ∉ v) ->
    forall k v, foldl add_header hs ls !! k = Some v -> x0a ∉ v).
  { induction Hls as [|l ls Hl _ IH]; intros hs Hhs; [done|]. cbn [foldl].
    apply IH. intros k' v'. unfold add_header.
    destruct (cut x3a l) as [[a w]|] eqn:Ec; [|apply Hhs].
    destruct (hs !! to_lower (trim_space a)); [apply Hhs|].
    rewrite lookup_insert_Some. intros [[_ <-]|[_ Hv]]; [|by eapply Hhs].
    apply cut_Some in Ec as [-> _]. intros Hx%trim_space_elem. set_solver. }
  apply Hall. intros ? ?. by rewrite lookup_empty.
Qed.

Lemma header_one_line b k : x0a ∉ header (parseHeader b) k.
Proof.
  unfold header. destruct (_ !! _) as [v|] eqn:E; [|set_solver].
  by apply parsed_values_one_line in E.
Qed.

(** The lines the reply may have besides the fixed ones. *)
Definition reply_line (l : gostring) : bool :=
  has_prefix l (bs "Sec-WebSocket-Accept: ") || has_prefix l (bs "Sec-WebSocket-Protocol: ").

(** The reply to an upgrade request cannot be split: whatever bytes the client
    sent as request head, the 101 reply consists of the fixed status and upgrade
    lines, at most one accept and one protocol line, and one empty line at the
    end. *)
Theorem upgradeResponse_lines b :
  Method (parseHeader b) <> bs "CONNECT" ->
  exists extra,
    split_on x0a (upgradeResponse (parseHeader b)) =
      [bs "HTTP/1.1 101 Switching Protocols" ++ [x0d]; bs "Upgrade: websocket" ++ [x0d];
       bs "Connection: Upgrade" ++ [x0d]] ++ extra ++ [[x0d]; []] /\
    Forall (fun l => reply_line l = true) extra /\ (length extra <= 2)%nat.
Proof.
  intros Hm. unfold upgradeResponse. rewrite (proj2 (eqb_str_false _ _)) by done.
  pose proof (header_one_line b (bs "sec-websocket-key")) as Hk.
  pose proof (header_one_line b (bs "sec-websocket-protocol")) as Hp.
  set (key := header _ (bs "sec-websocket-key")) in *.
  set (p := header _ (bs "sec-websocket-protocol")) in *. clearbody key p.
  assert (Ha : forall key, x0a ∉ wsAccept key).
  { intros ? [Hx|Hx]%base64_clean; [|done].
    not_elem Hx. }
  assert (Hq : x0a ∉ trim_space (hd [] (split_on x2c p))).
  { intros Hx%trim_space_elem. pose proof (split_on_nonempty x2c p).
    destruct (split_on x2c p) as [|l ls] eqn:E; [done|]. simpl in Hx.
    apply Hp, (split_on_subset x2c p l); [rewrite E; left|done]. }
  set (acc := bs "Sec-WebSocket-Accept: ") in *. set (pro := bs "Sec-WebSocket-Protocol: ") in *.
  assert (Hline : forall l s, x0a ∉ l ->
    split_on x0a (l ++ CRLF ++ s) = (l ++ [x0d]) :: split_on x0a s).
  { intros l s Hl. change (CRLF ++ s) with ([x0d] ++ x0a :: s). rewrite app_assoc.
    apply split_on_app. set_solver. }
  rewrite !Hline by (intros Hx; not_elem Hx).
  assert (Hacc : x0a ∉ acc) by (intros Hx; not_elem Hx).
  assert (Hpro : x0a ∉ pro) by (intros Hx; not_elem Hx).
  assert (Hel : forall k v, x0a ∉ (k : gostring) -> x0a ∉ (v : gostring) -> x0a ∉ k ++ v)
    by set_solver.
  assert (Hr : forall k v, k = acc \/ k = pro -> reply_line ((k ++ v) ++ [x0d]) = true).
  { intros k v Hkv. unfold reply_line. rewrite <- app_assoc.
    destruct Hkv as [-> | ->]; fold acc pro; by rewrite has_prefix_app, ?orb_true_r. }
  destruct key as [|x key], p as [|y p].
  - exists []. split_and!; [done|constructor|simpl; lia].
  - exists [(pro ++ trim_space (hd [] (split_on x2c (y :: p)))) ++ [x0d]].
    cbn [app]. rewrite app_assoc, <- app_assoc, Hline by auto.
    split_and!; [done|repeat constructor; auto|simpl; lia].
  - exists [(acc ++ wsAccept (x :: key)) ++ [x0d]].
    cbn [app]. rewrite app_assoc, <- app_assoc, Hline by auto.
    split_and!; [done|repeat constructor; auto|simpl; lia].
  - exists [(acc ++ wsAccept (x :: key)) ++ [x0d];
            (pro ++ trim_space (hd [] (split_on x2c (y :: p)))) ++ [x0d]].
    rewrite <- !app_assoc. rewrite (app_assoc acc), Hline by auto.
    rewrite (app_assoc pro), Hline by auto.
    split_and!; [by rewrite <- !app_assoc|repeat constructor; auto|simpl; lia].
Qed.
End reply.

Lemma upgradeResponse_lines_witness :
  exists extra,
    split_on x0a (@upgradeResponse ascii_tables (@parseHeader ascii_tables demo_head)) =
      [bs "HTTP/1.1 101 Switching Protocols" ++ [x0d]; bs "Upgrade: websocket" ++ [x0d];
       bs "Connection: Upgrade" ++ [x0d]] ++ extra ++ [[x0d]; []].
Proof.
  destruct (@upgradeResponse_lines ascii_tables demo_head) as (extra & H & _).
  - intros H. vm_compute in H. discriminate H.
  - exists extra. exact H.
Defined.

(** The handshake example of RFC 6455. *)
Example wsAccept_rfc6455 :
  wsAccept (bs "dGhlIHNhbXBsZSBub25jZQ==") = bs "s3pPLMBiTxaQ9kYGzzhZRbK+xOo=".
Proof. vm_compute. reflexivity. Qed.
