(* ===== verification/Gateway.v ===== *)
(** The multi-protocol front door ([src/internal/gateway/gateway.go]): admission,
    routing of a connection by what its first bytes show, and the hand-off to
    sshd, with the counters that several goroutines share. *)
From S2P Require Import Prelude GoStrings NetAddr Procfs Session Sniff WebSocket.

Definition Second : Z := 1000000000.
Definition Millisecond : Z := 1000000.
Definition postSniffWait : Z := 2 * Second.

Record Config : Type := mkConfig {
  Listen : gostring;
  Ports : list Z;
  MaxConnections : Z;
  MaxStartups : Z;
  HandshakeTimeout : Z;
  LoginGrace : Z
}.

Record PeerEntry : Type := mkPeerEntry { pe_Peer : Peer; pe_Started : Z }.

Record Gateway : Type := mkGateway {
  g_cfg : Config;
  g_listeners : list Z;
  g_bound : list Z;
  g_failed : gmap gostring gostring;
  g_byVia : gmap gostring Z;
  g_closed : bool;
  g_peers : gmap Z PeerEntry;
  g_handshaking : Z;
  g_children : Z;
  g_total : Z;
  g_rejected : Z;
  g_unknown : Z
}.

Definition set_peers m g := mkGateway (g_cfg g) (g_listeners g) (g_bound g) (g_failed g)
  (g_byVia g) (g_closed g) m (g_handshaking g) (g_children g) (g_total g) (g_rejected g)
  (g_unknown g).
Definition set_byVia m g := mkGateway (g_cfg g) (g_listeners g) (g_bound g) (g_failed g)
  m (g_closed g) (g_peers g) (g_handshaking g) (g_children g) (g_total g) (g_rejected g)
  (g_unknown g).
Definition set_counters h ch t r u g := mkGateway (g_cfg g) (g_listeners g) (g_bound g)
  (g_failed g) (g_byVia g) (g_closed g) (g_peers g) h ch t r u.
Definition add_handshaking n g := set_counters (i64 (g_handshaking g + n)) (g_children g)
  (g_total g) (g_rejected g) (g_unknown g) g.
Definition add_children n g := set_counters (g_handshaking g) (i64 (g_children g + n))
  (g_total g) (g_rejected g) (g_unknown g) g.
Definition add_total g := set_counters (g_handshaking g) (g_children g)
  (u64 (g_total g + 1)) (g_rejected g) (g_unknown g) g.
Definition add_rejected g := set_counters (g_handshaking g) (g_children g)
  (g_total g) (u64 (g_rejected g + 1)) (g_unknown g) g.
Definition add_unknown g := set_counters (g_handshaking g) (g_children g)
  (g_total g) (g_rejected g) (u64 (g_unknown g + 1)) g.

(* ------------------------------------------------------------------ *)
(** * Life cycle                                                         *)
(* ------------------------------------------------------------------ *)

Inductive newerr : Type := noBackend | certError.

(** [New]: [backend] and [cert] tell whether there is a backend and whether the
    certificate could be loaded or made. *)
Definition New (backend cert : bool) (cfg : Config) : result newerr Gateway :=
  let cfg := mkConfig (Listen cfg) (Ports cfg)
    (if MaxConnections cfg <=? 0 then 4096 else MaxConnections cfg)
    (if MaxStartups cfg <=? 0 then 256 else MaxStartups cfg)
    (if HandshakeTimeout cfg <=? 0 then 15 * Second else HandshakeTimeout cfg)
    (if LoginGrace cfg <=? 0 then 30 * Second else LoginGrace cfg) in
  if negb backend then Err noBackend
  else if negb cert then Err certError
  else Ok (mkGateway cfg [] [] ∅ ∅ false ∅ 0 0 0 0 0).

(** [Start]: [listen] is what [net.Listen] answers for a port ([Some] error). *)
Definition start_port (listen : Z -> option gostring) (st : Gateway * list (Z * gostring))
    (p : Z) : Gateway * list (Z * gostring) :=
  let '(g, errs) := st in
  match listen p with
  | Some msg =>
      (mkGateway (g_cfg g) (g_listeners g) (g_bound g) (<[itoa p := msg]> (g_failed g))
         (g_byVia g) (g_closed g) (g_peers g) (g_handshaking g) (g_children g)
         (g_total g) (g_rejected g) (g_unknown g), errs ++ [(p, msg)])
  | None =>
      (mkGateway (g_cfg g) (g_listeners g ++ [p]) (g_bound g ++ [p]) (g_failed g)
         (g_byVia g) (g_closed g) (g_peers g) (g_handshaking g) (g_children g)
         (g_total g) (g_rejected g) (g_unknown g), errs)
  end.

Inductive starterr : Type :=
| noPortOpened (errs : list (Z * gostring))
| somePortsFailed (errs : list (Z * gostring)).

Definition Start (listen : Z -> option gostring) (g : Gateway)
    : Gateway * option starterr :=
  let '(g', errs) := foldl (start_port listen) (g, []) (Ports (g_cfg g)) in
  (g', match errs with
       | [] => None
       | _ => if len errs =? len (Ports (g_cfg g)) then Some (noPortOpened errs)
              else Some (somePortsFailed errs)
       end).

(** [Close]; the listeners it closes are returned. *)
Definition Close (g : Gateway) : Gateway * list Z :=
  (mkGateway (g_cfg g) [] (g_bound g) (g_failed g) (g_byVia g) true (g_peers g)
     (g_handshaking g) (g_children g) (g_total g) (g_rejected g) (g_unknown g),
   g_listeners g).

Record Stats : Type := mkStats {
  st_Ports : list Z;
  st_Failed : gmap gostring gostring;
  st_Sessions : Z;
  st_Pending : Z;
  st_Total : Z;
  st_Rejected : Z;
  st_Unknown : Z;
  st_ByVia : gmap gostring Z
}.

Definition stats (g : Gateway) : Stats :=
  mkStats (merge_sort Z.le (g_bound g)) (g_failed g) (g_children g) (g_handshaking g)
    (g_total g) (g_rejected g) (g_unknown g) (g_byVia g).

Definition peer_of_pid (g : Gateway) (pid : Z) : option Peer := pe_Peer <$> g_peers g !! pid.
Definition Peers (g : Gateway) : gmap Z PeerEntry := g_peers g.

(** [RestorePeers]: [alive] tells whether /proc has the pid. *)
Definition RestorePeers (alive : Z -> bool) (m : gmap Z PeerEntry) (g : Gateway) : Gateway :=
  set_peers (g_peers g ∪ filter (fun kv => alive kv.1 = true) m) g.

(* ------------------------------------------------------------------ *)
(** * Accepting                                                          *)
(* ------------------------------------------------------------------ *)

Inductive accepted : Type :=
| AccTCP
| AccOther
| AccErr (netClosed : bool).

Inductive accept_next : Type :=
| AccReturn
| AccSleep (backoff : Z)
| AccDrop
| AccReject
| AccHandle.

(** One round of [acceptLoop]: what it does next and the new back-off. *)
Definition accept_round (g : Gateway) (backoff : Z) (a : accepted) : accept_next * Z :=
  match a with
  | AccErr netClosed =>
      if g_closed g || netClosed then (AccReturn, backoff)
      else let b := if backoff =? 0 then 5 * Millisecond
                    else if Second <? backoff * 2 then Second else backoff * 2 in
           (AccSleep b, b)
  | AccOther => (AccDrop, 0)
  | AccTCP =>
      if MaxConnections (g_cfg g) <=? g_handshaking g + g_children g then (AccReject, 0)
      else (AccHandle, 0)
  end.

Definition accept_effect (n : accept_next) (g : Gateway) : Gateway :=
  match n with
  | AccReject => add_rejected g
  | AccHandle => add_total (add_handshaking 1 g)
  | _ => g
  end.

(** [peerOf]: the address of the socket ([None] when it is not a TCP address),
    with IPv4-mapped addresses unmapped. *)
Definition peerOf (remote : option AddrPort) (via : gostring) : Peer :=
  match remote with
  | Some ap => mkPeer (addr_string (Unmap (ap_addr ap))) (ap_port ap) via
  | None => mkPeer [] 0 via
  end.

(* ------------------------------------------------------------------ *)
(** * Routing                                                            *)
(* ------------------------------------------------------------------ *)

(** What becomes of a connection: closed, closed and counted as unknown, its
    socket handed to sshd, or pumped through a socket pair (a plain stream, or
    with WebSocket frames taken apart). *)
Inductive verdict : Type :=
| VDrop
| VUnknown
| VHandoff (peer : Peer)
| VPump (framed : bool) (peer : Peer).

#[export] Instance Peer_eq_dec : EqDecision Peer.
Proof. solve_decision. Defined.
#[export] Instance verdict_eq_dec : EqDecision verdict.
Proof. solve_decision. Defined.

Definition set_via (via : gostring) (p : Peer) : Peer := mkPeer (peer_IP p) (peer_Port p) via.

(** The answers of the environment in one round of a request loop: the header
    block (or the error), whether the reply could be written, and what the
    following [peekClassify] says. *)
Record http_round : Type := mkRound {
  hr_request : result ioerr httpRequest;
  hr_written : bool;
  hr_next : kind * option ioerr
}.

Section routing.
Context `{Unicode}.
Variable parse_ip : gostring -> option gostring.

(** A CDN's idea of the client address replaces the socket's. *)
Definition note_client (req : httpRequest) (peer : Peer) : Peer :=
  match clientIP parse_ip req with
  | [] => peer
  | ip => mkPeer ip 0 (peer_Via peer)
  end.

(** The loop of [handlePlainHTTP]; [None] when the rounds given do not reach an
    end. *)
Fixpoint plain_rounds (rounds : nat) (peer : Peer) (env : list http_round)
    : option verdict :=
  match rounds with
  | O => Some VDrop
  | S rounds =>
      match env with
      | [] => None
      | r :: env =>
          match hr_request r with
          | Err _ => Some VDrop
          | Ok req =>
              let peer := note_client req peer in
              let peer := if isWebSocket req then set_via (bs "ws") peer else peer in
              if negb (hr_written r) then Some VDrop
              else match hr_next r with
                   | (_, Some errTimeout) => Some (VHandoff peer)
                   | (_, Some _) => Some VDrop
                   | (kindSSH, None) => Some (VHandoff peer)
                   | (kindHTTP, None) => plain_rounds rounds peer env
                   | (kindWSFrame, None) => Some (VPump true (set_via (bs "ws") peer))
                   | (_, None) => Some (VHandoff peer)
                   end
          end
      end
  end.

Definition handlePlainHTTP (remote : option AddrPort) (env : list http_round)
    : option verdict := plain_rounds 4 (peerOf remote (bs "http")) env.

(** One answer of [br.Peek(want)]: the bytes it returned and the error, if fewer
    than asked for were there. *)
Definition peek_answer : Type := gostring * option ioerr.

(** [classifyReader] over the answers of [Peek]. *)
Fixpoint classifyReader (answers : list peek_answer) : option (kind * option ioerr) :=
  match answers with
  | [] => None
  | (b, err) :: answers =>
      match b, err with
      | [], Some e => Some (kindUnknown, Some e)
      | _, _ =>
          let '(k, more) := classify b in
          if negb more || (16 <=? len b) then Some (k, None)
          else match err with
               | Some _ => Some (k, Some errTimeout)
               | None => classifyReader answers
               end
      end
  end.

(** A round of [handleTLS]: what [classifyReader] says, and the rest as above.
    (A timeout counts as SSH in every round; setting [k] in the first one makes
    no difference.) *)
Record tls_round : Type := mkTLSRound {
  tr_kind : kind * option ioerr;
  tr_request : result ioerr httpRequest;
  tr_written : bool
}.

Fixpoint tls_rounds (rounds : nat) (peer : Peer) (env : list tls_round)
    : option verdict :=
  match rounds with
  | O => Some VDrop
  | S rounds =>
      match env with
      | [] => None
      | r :: env =>
          match tr_kind r with
          | (_, Some errTimeout) => Some (VPump false peer)
          | (_, Some _) => Some VDrop
          | (kindSSH, None) => Some (VPump false peer)
          | (kindHTTP, None) =>
              match tr_request r with
              | Err _ => Some VDrop
              | Ok req =>
                  let peer := set_via (if isWebSocket req then bs "tls+ws" else bs "tls+http")
                                (note_client req peer) in
                  if negb (tr_written r) then Some VDrop
                  else tls_rounds rounds peer env
              end
          | (kindWSFrame, None) => Some (VPump true (set_via (bs "tls+ws") peer))
          | (_, None) => Some VUnknown
          end
      end
  end.

Definition handleTLS (handshake : bool) (remote : option AddrPort) (env : list tls_round)
    : option verdict :=
  if negb handshake then Some VDrop else tls_rounds 4 (peerOf remote (bs "tls")) env.

(** [handle]: [sniffed] is the result of the first [peekClassify]. *)
Definition handle (remote : option AddrPort) (sniffed : kind * option ioerr)
    (http : list http_round) (handshake : bool) (tls : list tls_round) : option verdict :=
  match sniffed with
  | (_, Some errTimeout) => Some (VHandoff (peerOf remote (bs "ssh")))
  | (_, Some _) => Some VDrop
  | (kindSSH, None) => Some (VHandoff (peerOf remote (bs "ssh")))
  | (kindHTTP, None) => handlePlainHTTP remote http
  | (kindTLS, None) => handleTLS handshake remote tls
  | (_, None) => Some VUnknown
  end.
End routing.

(* ------------------------------------------------------------------ *)
(** * Starting sshd                                                      *)
(* ------------------------------------------------------------------ *)

(** [hasUserChild]: the children list of the process (if the kernel exposes it)
    and the owner of each child; [None] when not known. *)
Definition hasUserChild (pid : Z) (children : option gostring) (owner : gostring -> option Z)
    : option bool :=
  if pid <=? 0 then Some true
  else match children with
       | None => None
       | Some data =>
           Some (existsb (fun f => match owner f with
                                   | Some uid => negb (uid =? 0)
                                   | None => false
                                   end) (fields data))
       end.

(** Whether a child still counts as a pending login. *)
Definition pending (cfg : Config) (now : Z) (authed : Z -> option bool) (pid : Z)
    (e : PeerEntry) : bool :=
  if pe_Started e <? now - (LoginGrace cfg + 5 * Second) then false
  else match authed pid with
       | Some true => false
       | Some false => true
       | None => negb (10 * Second <? now - pe_Started e)
       end.

Definition pendingStartups (g : Gateway) (now : Z) (authed : Z -> option bool) : Z :=
  Z.of_nat (size (filter (fun kv => pending (g_cfg g) now authed kv.1 kv.2 = true) (g_peers g))).

(** [SSHDBackend] and its [Spawn]: [start] is what [cmd.Start] gives for the arguments and
    the environment, the pid or nothing. *)
Record SSHDBackend : Type := mkSSHDBackend { b_Path : gostring; b_Config : gostring }.
Definition spawn_argv (b : SSHDBackend) : list gostring :=
  b_Path b :: bs "-i" :: (if eqb_str (b_Config b) [] then [] else [bs "-f"; b_Config b]).
Definition spawn_env : list gostring :=
  [bs "PATH=/usr/local/sbin:/usr/local/bin:/usr/sbin:/usr/bin:/sbin:/bin"; bs "LANG=C.UTF-8"].
Definition Spawn (start : list gostring -> list gostring -> option Z) (b : SSHDBackend) : option Z :=
  start (spawn_argv b) spawn_env.

(** [spawn] up to the start of the child ([started] is what [Spawn] gives): [None] when
    it is refused or fails. *)
Definition spawn_begin (now : Z) (authed : Z -> option bool) (started : option Z)
    (g : Gateway) : Gateway * option Z :=
  if MaxStartups (g_cfg g) <=? pendingStartups g now authed then (add_rejected g, None)
  else match started with
       | None => (g, None)
       | Some pid => (add_children 1 g, Some pid)
       end.

Definition spawn_store (pid : Z) (peer : Peer) (now : Z) (g : Gateway) : Gateway :=
  set_peers (<[pid := mkPeerEntry peer now]> (g_peers g)) g.
Definition spawn_count (peer : Peer) (g : Gateway) : Gateway :=
  set_byVia (<[peer_Via peer := u64 (default 0 (g_byVia g !! peer_Via peer) + 1)]> (g_byVia g)) g.

(** The whole of [spawn], as one caller sees it. *)
Definition spawn (now : Z) (authed : Z -> option bool) (started : option Z) (peer : Peer)
    (g : Gateway) : Gateway * option Z :=
  match spawn_begin now authed started g with
  | (g, None) => (g, None)
  | (g, Some pid) => (spawn_count peer (spawn_store pid peer now g), Some pid)
  end.

(** The goroutine that waits for the child. *)
Definition child_deleted (pid : Z) (g : Gateway) : Gateway :=
  set_peers (delete pid (g_peers g)) g.
Definition child_gone (g : Gateway) : Gateway := add_children (-1) g.

(** [handoff] and [pump]: [ready] tells whether the descriptor (or the socket pair)
    could be set up; what they copy afterwards does not touch the gateway. What [pump] copies
    then is in [Pump]. *)
Definition handoff (ready : bool) (now : Z) (authed : Z -> option bool) (started : option Z)
    (peer : Peer) (g : Gateway) : Gateway * option Z :=
  if ready then spawn now authed started peer g else (g, None).
Definition pump (ready : bool) (now : Z) (authed : Z -> option bool) (started : option Z)
    (peer : Peer) (g : Gateway) : Gateway * option Z :=
  if ready then spawn now authed started peer g else (g, None).

(** The effect of [handle] on the gateway once the verdict is known; the
    handshake is finished exactly once on every path. *)
Definition conclude (v : verdict) (ready : bool) (now : Z) (authed : Z -> option bool)
    (started : option Z) (g : Gateway) : Gateway * option Z :=
  match v with
  | VDrop => (add_handshaking (-1) g, None)
  | VUnknown => (add_handshaking (-1) (add_unknown g), None)
  | VHandoff peer => handoff ready now authed started peer (add_handshaking (-1) g)
  | VPump _ peer => pump ready now authed started peer (add_handshaking (-1) g)
  end.
