(* ===== verification/GatewayProps.v ===== *)
(** The gateway under concurrency: connections as state machines whose steps
    interleave freely, what its counters mean, and how connections are routed. *)
From S2P Require Import Prelude GoStrings NetAddr Procfs Session Sniff HttpHead WebSocket Gateway.

(* ------------------------------------------------------------------ *)
(** * The interleaving model                                             *)
(* ------------------------------------------------------------------ *)

(** Where the goroutine of a connection stands: in its handshake, past
    [finishHandshake], with a started child, with the child in the table, counted
    by kind, waited for, deleted from the table, and done. *)
Inductive phase : Type :=
| PHandshake
| PFinished (peer : Peer)
| PSpawned (pid : Z) (peer : Peer)
| PStored (pid : Z) (peer : Peer)
| PLive (pid : Z)
| PReaped (pid : Z)
| PDeleted
| PGone.

(** The gateway, its connections, and the accept loops between reading the two
    counters ([gw_loads]) and between the test and the increment ([gw_tickets]). *)
Record world : Type := mkWorld {
  gw : Gateway;
  gw_conns : gmap nat phase;
  gw_loads : list Z;
  gw_tickets : nat
}.

(** The pid of a child the kernel still knows: it cannot be given out again. *)
Definition holds_pid (ph : phase) : option Z :=
  match ph with
  | PSpawned pid _ | PStored pid _ | PLive pid => Some pid
  | _ => None
  end.

Definition set_phase (i : nat) (ph : phase) (f : Gateway -> Gateway) (w : world) : world :=
  mkWorld (f (gw w)) (<[i := ph]> (gw_conns w)) (gw_loads w) (gw_tickets w).

(** One atomic action of one goroutine. *)
Inductive gw_step : world -> world -> Prop :=
| GS_load w :
    gw_step w (mkWorld (gw w) (gw_conns w) (g_handshaking (gw w) :: gw_loads w) (gw_tickets w))
| GS_pass w h l1 l2 :
    gw_loads w = l1 ++ h :: l2 ->
    h + g_children (gw w) < MaxConnections (g_cfg (gw w)) ->
    gw_step w (mkWorld (gw w) (gw_conns w) (l1 ++ l2) (S (gw_tickets w)))
| GS_reject w h l1 l2 :
    gw_loads w = l1 ++ h :: l2 ->
    MaxConnections (g_cfg (gw w)) <= h + g_children (gw w) ->
    gw_step w (mkWorld (add_rejected (gw w)) (gw_conns w) (l1 ++ l2) (gw_tickets w))
| GS_admit w n i :
    gw_tickets w = S n -> gw_conns w !! i = None ->
    gw_step w (mkWorld (add_total (add_handshaking 1 (gw w)))
                 (<[i := PHandshake]> (gw_conns w)) (gw_loads w) n)
| GS_unknown w :
    gw_step w (mkWorld (add_unknown (gw w)) (gw_conns w) (gw_loads w) (gw_tickets w))
| GS_finish w i peer :
    gw_conns w !! i = Some PHandshake ->
    gw_step w (set_phase i (PFinished peer) (add_handshaking (-1)) w)
| GS_drop w i :
    gw_conns w !! i = Some PHandshake ->
    gw_step w (set_phase i PGone (add_handshaking (-1)) w)
| GS_nospawn w i peer now authed started g' :
    gw_conns w !! i = Some (PFinished peer) ->
    spawn_begin now authed started (gw w) = (g', None) ->
    gw_step w (set_phase i PGone (fun _ => g') w)
| GS_spawn w i peer now authed pid g' :
    gw_conns w !! i = Some (PFinished peer) ->
    spawn_begin now authed (Some pid) (gw w) = (g', Some pid) ->
    (forall j ph, gw_conns w !! j = Some ph -> holds_pid ph <> Some pid) ->
    gw_step w (set_phase i (PSpawned pid peer) (fun _ => g') w)
| GS_handoff_fails w i peer :
    gw_conns w !! i = Some (PFinished peer) ->
    gw_step w (set_phase i PGone (fun g => g) w)
| GS_store w i pid peer now :
    gw_conns w !! i = Some (PSpawned pid peer) ->
    gw_step w (set_phase i (PStored pid peer) (spawn_store pid peer now) w)
| GS_count w i pid peer :
    gw_conns w !! i = Some (PStored pid peer) ->
    gw_step w (set_phase i (PLive pid) (spawn_count peer) w)
| GS_exit w i pid :
    gw_conns w !! i = Some (PLive pid) ->
    gw_step w (set_phase i (PReaped pid) (fun g => g) w)
| GS_delete w i pid :
    gw_conns w !! i = Some (PReaped pid) ->
    gw_step w (set_phase i PDeleted (child_deleted pid) w)
| GS_gone w i :
    gw_conns w !! i = Some PDeleted ->
    gw_step w (set_phase i PGone child_gone w)
| GS_restore w alive m :
    gw_step w (mkWorld (RestorePeers alive m (gw w)) (gw_conns w) (gw_loads w) (gw_tickets w)).

Definition gw_init (g : Gateway) : world := mkWorld g ∅ [] 0.
Definition gw_reachable (cfg : Config) (w : world) : Prop :=
  exists g, New true true cfg = Ok g /\ rtc gw_step (gw_init g) w.

(* ------------------------------------------------------------------ *)
(** * The counters                                                       *)
(* ------------------------------------------------------------------ *)

Definition in_handshake (ph : phase) : Z := match ph with PHandshake => 1 | _ => 0 end.
Definition has_child (ph : phase) : Z :=
  match ph with
  | PSpawned _ _ | PStored _ _ | PLive _ | PReaped _ | PDeleted => 1
  | _ => 0
  end.

Record gw_inv (w : world) : Prop := {
  gi_handshaking : g_handshaking (gw w) = i64 (map_sum in_handshake (gw_conns w));
  gi_children : g_children (gw w) = i64 (map_sum has_child (gw_conns w));
  gi_total : g_total (gw w) = u64 (map_sum (fun _ => 1) (gw_conns w))
}.

(** A step that moves one connection and adjusts the counters accordingly. *)
Lemma set_phase_inv w i ph ph' f :
  gw_inv w -> gw_conns w !! i = Some ph ->
  g_handshaking (f (gw w)) = i64 (g_handshaking (gw w) + (in_handshake ph' - in_handshake ph)) ->
  g_children (f (gw w)) = i64 (g_children (gw w) + (has_child ph' - has_child ph)) ->
  g_total (f (gw w)) = g_total (gw w) ->
  gw_inv (set_phase i ph' f w).
Proof.
  intros [H1 H2 H3] Hi E1 E2 E3. constructor; cbn [gw gw_conns set_phase].
  - by rewrite (map_sum_insert _ _ i ph), E1, H1, swrap_add_l.
  - by rewrite (map_sum_insert _ _ i ph), E2, H2, swrap_add_l.
  - rewrite (map_sum_insert _ _ i ph), E3, H3 by done. f_equal. lia.
Qed.

Lemma gw_inv_gateway w g :
  gw_inv w -> g_handshaking g = g_handshaking (gw w) -> g_children g = g_children (gw w) ->
  g_total g = g_total (gw w) ->
  forall l n, gw_inv (mkWorld g (gw_conns w) l n).
Proof. intros [H1 H2 H3] E1 E2 E3 l n. constructor; cbn [gw gw_conns]; congruence. Qed.

Lemma i64_idem x : i64 (i64 x) = i64 x.
Proof. rewrite <- (Z.add_0_r (i64 x)) at 1. by rewrite swrap_add_l, Z.add_0_r. Qed.

Lemma gw_inv_norm w : gw_inv w ->
  g_handshaking (gw w) = i64 (g_handshaking (gw w) + 0) /\
  g_children (gw w) = i64 (g_children (gw w) + 0).
Proof. intros [H1 H2 _]. rewrite H1, H2, !Z.add_0_r, !i64_idem. done. Qed.

Lemma spawn_begin_None now authed started g g' :
  spawn_begin now authed started g = (g', None) ->
  g_handshaking g' = g_handshaking g /\ g_children g' = g_children g /\ g_total g' = g_total g.
Proof.
  unfold spawn_begin. case_if; [by intros [= <-]|].
  destruct started; [done|]. by intros [= <-].
Qed.

Lemma spawn_begin_None_peers now authed started g g' :
  spawn_begin now authed started g = (g', None) -> g_peers g' = g_peers g.
Proof.
  unfold spawn_begin. case_if; [by intros [= <-]|].
  destruct started; [done|]. by intros [= <-].
Qed.

Lemma spawn_begin_Some now authed started g g' pid :
  spawn_begin now authed started g = (g', Some pid) -> g' = add_children 1 g.
Proof.
  unfold spawn_begin. case_if; [done|]. destruct started; [|done]. by intros [= <- <-].
Qed.

Lemma gw_step_inv w w' : gw_inv w -> gw_step w w' -> gw_inv w'.
Proof.
  intros Hi Hs. destruct (gw_inv_norm w Hi) as [Nh Nc].
  destruct Hs; try (by apply gw_inv_gateway); try by (eapply set_phase_inv; [done..|]).
  - destruct Hi as [H1 H2 H3]. constructor; cbn.
    + rewrite H1, map_sum_new by done. cbn. rewrite swrap_add_l. f_equal. lia.
    + by rewrite map_sum_new.
    + rewrite H3, map_sum_new by done. rewrite uwrap_add_l. f_equal. lia.
  - apply spawn_begin_None in H0 as (E1 & E2 & E3).
    eapply set_phase_inv; [done|done|..]; by rewrite ?E1, ?E2, ?E3.
  - apply spawn_begin_Some in H0 as ->. by eapply set_phase_inv.
Qed.

Lemma gw_reachable_inv cfg w : gw_reachable cfg w -> gw_inv w.
Proof.
  intros (g & Hg & Hr).
  assert (Hi : gw_inv (gw_init g)) by (unfold New in Hg; simplify_eq/=; by constructor).
  clear Hg. remember (gw_init g) as w0. clear Heqw0. revert Hi.
  induction Hr as [|? ? ? Hs _ IH]; [done|]. intros Hi. apply IH. by eapply gw_step_inv.
Qed.

(** C11 The counters that [Stats] reports are exact under every interleaving of
    accept loops, connection handlers and child reapers: [Pending] is the number
    of connections in their handshake, [Sessions] the number of children not yet
    done with, [Total] the number of connections ever admitted; when every
    connection has ended both gauges are zero. *)
Theorem gateway_counters cfg w :
  gw_reachable cfg w ->
  st_Pending (stats (gw w)) = i64 (map_sum in_handshake (gw_conns w)) /\
  st_Sessions (stats (gw w)) = i64 (map_sum has_child (gw_conns w)) /\
  st_Total (stats (gw w)) = u64 (Z.of_nat (size (gw_conns w))) /\
  ((forall i ph, gw_conns w !! i = Some ph -> ph = PGone) ->
   st_Pending (stats (gw w)) = 0 /\ st_Sessions (stats (gw w)) = 0).
Proof.
  intros [H1 H2 H3]%gw_reachable_inv. cbn [stats st_Pending st_Sessions st_Total].
  rewrite map_sum_size in H3. split_and!; [done..|]. intros Hall.
  rewrite H1, H2, !map_sum_zero; [done|..]; by intros i ph ->%Hall.
Qed.

(** A run with a limit of one connection, in which the second connection arrives
    while the first is between its handshake and its child. *)
Definition one_cfg : Config := mkConfig [] [443] 1 0 0 0.
Definition one_gateway : Gateway :=
  match New true true one_cfg with Ok g => g | Err _ => mkGateway one_cfg [] [] ∅ ∅ false ∅ 0 0 0 0 0 end.
Definition some_peer : Peer := mkPeer (bs "192.0.2.1") 40000 (bs "ssh").
Definition nobody_authed : Z -> option bool := fun _ => None.

Definition one_admitted : world :=
  mkWorld (add_total (add_handshaking 1 one_gateway)) {[0%nat := PHandshake]} [] 0.
Definition two_admitted : world :=
  mkWorld (add_total (add_handshaking 1 (add_handshaking (-1) (gw one_admitted))))
    {[0%nat := PFinished some_peer; 1%nat := PHandshake]} [] 0.
Definition one_spawned : world :=
  mkWorld (add_children 1 (gw two_admitted))
    {[0%nat := PSpawned 77 some_peer; 1%nat := PHandshake]} [] 0.

Lemma rtc_one_admitted : rtc gw_step (gw_init one_gateway) one_admitted.
Proof.
  eapply rtc_l; [apply GS_load|].
  eapply rtc_l; [apply (GS_pass _ 0 [] []); [reflexivity|by vm_compute]|].
  eapply rtc_l; [apply (GS_admit _ 0 0); reflexivity|].
  apply rtc_refl.
Qed.

Lemma rtc_one_spawned : rtc gw_step (gw_init one_gateway) one_spawned.
Proof.
  etrans; [exact rtc_one_admitted|].
  eapply rtc_l; [apply (GS_finish _ 0 some_peer); reflexivity|].
  eapply rtc_l; [apply GS_load|].
  eapply rtc_l; [apply (GS_pass _ 0 [] []); [reflexivity|by vm_compute]|].
  eapply rtc_l; [apply (GS_admit _ 0 1); reflexivity|].
  eapply rtc_l.
  - apply (GS_spawn _ 0 some_peer 0 nobody_authed 77
             (add_children 1 (gw two_admitted))); [reflexivity|vm_compute; reflexivity|].
    intros j ph Hj. destruct (decide (j = 1%nat)) as [->|].
    + vm_compute in Hj. by simplify_eq.
    + cbn in Hj. rewrite lookup_insert_ne in Hj by done.
      apply lookup_insert_Some in Hj as [[<- <-]|[_ Hj]]; [done|].
      by apply lookup_singleton_Some in Hj as [<- <-].
  - assert (E : set_phase 0 (PSpawned 77 some_peer) (fun _ => add_children 1 (gw two_admitted))
       (mkWorld (gw two_admitted)
          (<[1%nat := PHandshake]> (<[0%nat := PFinished some_peer]> {[0%nat := PHandshake]})) [] 0)
       = one_spawned) by (vm_compute; reflexivity).
    rewrite <- E. apply rtc_refl.
Qed.

Lemma gateway_counters_witness :
  st_Pending (stats (gw one_spawned)) = 1 /\ st_Sessions (stats (gw one_spawned)) = 1.
Proof.
  destruct (gateway_counters one_cfg one_spawned) as (H1 & H2 & _).
  - exists one_gateway. split; [reflexivity|exact rtc_one_spawned].
  - rewrite H1, H2. vm_compute. split; reflexivity.
Defined.

(** [MaxConnections] does not cap handshaking and live sessions: a connection
    leaves the handshake count before its child is counted, and the admission
    test is not atomic with the increment, so the sum the documentation bounds
    can exceed the limit. *)
Theorem max_connections_exceeded :
  exists cfg w, 0 < MaxConnections cfg /\ gw_reachable cfg w /\
    MaxConnections cfg < st_Pending (stats (gw w)) + st_Sessions (stats (gw w)).
Proof.
  exists one_cfg, one_spawned. split; [done|]. split; [|by vm_compute].
  exists one_gateway. split; [reflexivity|exact rtc_one_spawned].
Qed.

(** An entry of the peer table that no connection of this gateway owns (one that
    [RestorePeers] brought back) is never removed. *)
Lemma restored_peer_stays w w' pid e :
  gw_step w w' -> g_peers (gw w) !! pid = Some e ->
  (forall i ph, gw_conns w !! i = Some ph ->
     match ph with PSpawned p _ | PReaped p => p <> pid | _ => True end) ->
  g_peers (gw w') !! pid = Some e.
Proof.
  intros Hs He Hno. destruct Hs; cbn; try done.
  - apply spawn_begin_None_peers in H0. congruence.
  - apply spawn_begin_Some in H0 as ->. done.
  - rewrite lookup_insert_ne; [done|]. by apply (Hno i (PSpawned pid0 peer)).
  - rewrite lookup_delete_ne; [done|]. by apply (Hno i (PReaped pid0)).
  - by apply lookup_union_Some_l.
Qed.

(* ------------------------------------------------------------------ *)
(** * Routing                                                            *)
(* ------------------------------------------------------------------ *)

Section routes.
Context `{Unicode}.
Variable parse_ip : gostring -> option gostring.

(** What a request changes about the peer. *)
Definition note_request (peer : Peer) (req : httpRequest) : Peer :=
  let peer := note_client parse_ip req peer in
  if isWebSocket req then set_via (bs "ws") peer else peer.

Definition again (req : httpRequest) : http_round := mkRound (Ok req) true (kindHTTP, None).

Lemma note_request_via peer req :
  peer_Via (note_request peer req) =
  if isWebSocket req then bs "ws" else peer_Via peer.
Proof.
  unfold note_request. destruct (isWebSocket req); [done|].
  unfold note_client. by destruct (clientIP parse_ip req).
Qed.

Lemma plain_rounds_again reqs n peer env :
  (length reqs <= n)%nat ->
  plain_rounds parse_ip n peer ((again <$> reqs) ++ env) =
  plain_rounds parse_ip (n - length reqs) (foldl note_request peer reqs) env.
Proof.
  revert n peer. induction reqs as [|r reqs IH]; intros n peer Hn.
  - by rewrite Nat.sub_0_r.
  - destruct n as [|n]; cbn [length] in Hn; [lia|].
    rewrite fmap_cons. cbn [app plain_rounds again hr_request hr_written hr_next negb].
    rewrite IH by lia. done.
Qed.

Lemma note_requests_via reqs peer :
  peer_Via (foldl note_request peer reqs) =
  if existsb isWebSocket reqs then bs "ws" else peer_Via peer.
Proof.
  revert peer. induction reqs as [|r reqs IH]; intros peer; [done|].
  cbn [foldl existsb]. rewrite IH, note_request_via.
  by destruct (isWebSocket r), (existsb isWebSocket reqs).
Qed.

(** C13 Routing of payload and WebSocket connections: after up to three further
    requests, all answered, the connection goes where the bytes after the last
    answer say: frames to the WebSocket pump, an error to the bin, SSH or silence
    or anything else to sshd on the untouched socket; it is labelled "ws" exactly
    when some request asked for a WebSocket (or frames follow), else "http"; a
    fifth request is not served. *)
Theorem plain_http_routes remote reqs last next env :
  (length reqs <= 3)%nat ->
  let p := foldl note_request (peerOf remote (bs "http")) (reqs ++ [last]) in
  handlePlainHTTP parse_ip remote ((again <$> reqs) ++ mkRound (Ok last) true next :: env) =
    match next with
    | (_, Some errTimeout) => Some (VHandoff p)
    | (_, Some _) => Some VDrop
    | (kindWSFrame, None) => Some (VPump true (set_via (bs "ws") p))
    | (kindHTTP, None) => plain_rounds parse_ip (3 - length reqs) p env
    | (_, None) => Some (VHandoff p)
    end /\
  (length reqs = 3%nat -> next = (kindHTTP, None) ->
   handlePlainHTTP parse_ip remote ((again <$> reqs) ++ mkRound (Ok last) true next :: env) =
     Some VDrop) /\
  peer_Via p = (if existsb isWebSocket (reqs ++ [last]) then bs "ws" else bs "http").
Proof.
  intros Hn p.
  assert (E : handlePlainHTTP parse_ip remote ((again <$> reqs) ++ mkRound (Ok last) true next :: env) =
    match next with
    | (_, Some errTimeout) => Some (VHandoff p)
    | (_, Some _) => Some VDrop
    | (kindWSFrame, None) => Some (VPump true (set_via (bs "ws") p))
    | (kindHTTP, None) => plain_rounds parse_ip (3 - length reqs) p env
    | (_, None) => Some (VHandoff p)
    end).
  { unfold handlePlainHTTP. rewrite plain_rounds_again by lia.
    replace (4 - length reqs)%nat with (S (3 - length reqs)) by lia.
    subst p. rewrite foldl_app. cbn [foldl plain_rounds hr_request hr_written hr_next negb].
    fold (note_request (foldl note_request (peerOf remote (bs "http")) reqs) last).
    by destruct next as [[] [[]|]]. }
  split_and!; [done| |].
  - intros H3 ->. rewrite E, H3. done.
  - subst p. rewrite note_requests_via. by destruct remote.
Qed.

(** Raw SSH, cut into segments in any way, goes to sshd as it is. *)
Lemma ssh_routes remote s ev d late http hs tls :
  arrives s ev -> RData d late ∈ ev -> has_prefix d sshPrefix = true ->
  exists b, peekClassify ev = Some (kindSSH, b, None) /\
    handle parse_ip remote (kindSSH, None) http hs tls =
    Some (VHandoff (peerOf remote (bs "ssh"))).
Proof.
  intros Ha Hin Hp. apply has_prefix_spec in Hp as [k ->].
  assert (Hc : classify (sshPrefix ++ k) = (kindSSH, false)) by (by apply classify_final).
  destruct (peekClassify_kind s ev _ late Ha Hin) as (b & E & _); [by rewrite Hc|].
  assert (Hs : (classify s).1 = kindSSH).
  { unfold arrives in Ha. rewrite Forall_forall in Ha.
    destruct (Ha _ Hin) as (_ & _ & [t ->]). by rewrite (proj2 (classify_final _ kindSSH t) Hc). }
  exists b. by rewrite E, Hs.
Qed.
End routes.

Lemma plain_http_routes_witness :
  let r := @parseHeader ascii_tables demo_head in
  let p := @note_request ascii_tables (fun _ => None)
             (@note_request ascii_tables (fun _ => None) (peerOf None (bs "http")) r) r in
  @handlePlainHTTP ascii_tables (fun _ => None) None
    [again r; mkRound (Ok r) true (kindSSH, None)] = Some (VHandoff p) /\
  peer_Via p = bs "ws".
Proof.
  destruct (@plain_http_routes ascii_tables (fun _ => None) None
    [@parseHeader ascii_tables demo_head] (@parseHeader ascii_tables demo_head)
    (kindSSH, None) [] ltac:(simpl; lia)) as (H1 & _ & H2).
  split; [exact H1|]. etransitivity; [exact H2|vm_compute; reflexivity].
Defined.

(* ------------------------------------------------------------------ *)
(** * The cap on unauthenticated children                                *)
(* ------------------------------------------------------------------ *)

(** [MaxStartups] is a cap: starting a child never raises the number of young,
    unauthenticated children above it, and at the cap the connection is refused
    and counted as rejected without a process being started. *)
Theorem spawn_caps_startups now authed started peer g :
  pendingStartups g now authed <= MaxStartups (g_cfg g) ->
  let '(g', r) := spawn now authed started peer g in
  pendingStartups g' now authed <= MaxStartups (g_cfg g') /\
  (pendingStartups g now authed = MaxStartups (g_cfg g) ->
   r = None /\ g_children g' = g_children g /\ g_rejected g' = u64 (g_rejected g + 1)).
Proof.
  intros Hle. unfold spawn, spawn_begin.
  case_bool (MaxStartups (g_cfg g) <=? pendingStartups g now authed).
  - split; [done|]. done.
  - destruct started as [pid|]; [|split; [lia|lia]].
    split; [|lia]. unfold pendingStartups in *. cbn.
    set (P := fun kv : Z * PeerEntry => pending (g_cfg g) now authed kv.1 kv.2 = true) in *.
    set (m := g_peers g) in *. set (e := mkPeerEntry peer now).
    enough (size (filter P (<[pid := e]> m)) <= S (size (filter P m)))%nat by lia.
    destruct (decide (P (pid, e))) as [HP|HP].
    + rewrite map_filter_insert_True by done. rewrite map_size_insert. case_match; unfold id; lia.
    + rewrite map_filter_insert_False by done. rewrite map_filter_delete.
      rewrite map_size_delete. case_match; unfold id; lia.
Qed.

Lemma spawn_caps_startups_witness :
  let '(g', r) := spawn 0 nobody_authed (Some 77) some_peer one_gateway in
  pendingStartups g' 0 nobody_authed <= MaxStartups (g_cfg g').
Proof.
  pose proof (spawn_caps_startups 0 nobody_authed (Some 77) some_peer one_gateway) as H.
  destruct (spawn 0 nobody_authed (Some 77) some_peer one_gateway) as [g' r].
  destruct H as [H _]; [by vm_compute|exact H].
Defined.
