(* ===== verification/Pump.v ===== *)
(** The two copies of a connection that the gateway decrypts or de-frames ([pump] of
    [src/internal/gateway/gateway.go]): one goroutine copies from the client to sshd, one
    from sshd to the client, and the pump waits for them, all interleaved with what the
    client and sshd do. *)
From S2P Require Import Prelude GoStrings.

(* ------------------------------------------------------------------ *)
(** * One copy                                                           *)
(* ------------------------------------------------------------------ *)

(** Where a goroutine stands: [io.Copy] waits for bytes or has some to write; it has
    ended; the call after it is done; the signal is sent. *)
Inductive copier : Type :=
| cReading
| cWriting (b : list byte)
| cEnded
| cCalled
| cDone.

(** A direction: all that its source has sent, what of it has not been read, the
    goroutine, and what its destination has got. *)
Record lane : Type := mkLane {
  l_sent : list byte;
  l_queue : list byte;
  l_pc : copier;
  l_got : list byte
}.
Definition set_pc (pc : copier) (l : lane) : lane := mkLane (l_sent l) (l_queue l) pc (l_got l).

Definition send (b : list byte) (l : lane) : lane := mkLane (l_sent l ++ b) (l_queue l ++ b) (l_pc l) (l_got l).

(** [Read] gives some of the bytes that are there. *)
Definition copy_read (n : nat) (l : lane) : option lane :=
  match l_pc l with
  | cReading =>
      if bool_decide (0 < n <= length (l_queue l))%nat
      then Some (mkLane (l_sent l) (drop n (l_queue l)) (cWriting (take n (l_queue l))) (l_got l))
      else None
  | _ => None
  end.
(** [Write] goes on until everything is written. *)
Definition copy_write (k : nat) (l : lane) : option lane :=
  match l_pc l with
  | cWriting b =>
      if bool_decide (0 < k <= length b)%nat
      then Some (mkLane (l_sent l) (l_queue l)
                   (match drop k b with [] => cReading | rest => cWriting rest end) (l_got l ++ take k b))
      else None
  | _ => None
  end.
(** [io.Copy] ends when the source has nothing more to give ([over]) or the destination
    takes nothing more ([dead]). *)
Definition copy_over (over : bool) (l : lane) : option lane :=
  match l_pc l with cReading => if over then Some (set_pc cEnded l) else None | _ => None end.
Definition copy_fail (dead : bool) (l : lane) : option lane :=
  match l_pc l with cWriting _ => if dead then Some (set_pc cEnded l) else None | _ => None end.

(* ------------------------------------------------------------------ *)
(** * The pump                                                           *)
(* ------------------------------------------------------------------ *)

Inductive main_pc : Type := mWait1 | mCloseOurs | mCloseClient | mWait2 | mReturned.

(** The client has ended its stream, has reset the connection, has been closed by us;
    sshd has closed its end; [ours] is closed, or closed for writing; the pump, and the
    signals in the channel [done]. *)
Record pumping : Type := mkPumping {
  p_up : lane;
  p_down : lane;
  p_ended : bool;
  p_reset : bool;
  p_closed : bool;
  p_exited : bool;
  p_ours : bool;
  p_wclosed : bool;
  p_main : main_pc;
  p_done : nat
}.

Definition set_up l s := mkPumping l (p_down s) (p_ended s) (p_reset s) (p_closed s) (p_exited s) (p_ours s) (p_wclosed s) (p_main s) (p_done s).
Definition set_down l s := mkPumping (p_up s) l (p_ended s) (p_reset s) (p_closed s) (p_exited s) (p_ours s) (p_wclosed s) (p_main s) (p_done s).
Definition set_ended s := mkPumping (p_up s) (p_down s) true (p_reset s) (p_closed s) (p_exited s) (p_ours s) (p_wclosed s) (p_main s) (p_done s).
Definition set_reset s := mkPumping (p_up s) (p_down s) (p_ended s) true (p_closed s) (p_exited s) (p_ours s) (p_wclosed s) (p_main s) (p_done s).
Definition set_closed s := mkPumping (p_up s) (p_down s) (p_ended s) (p_reset s) true (p_exited s) (p_ours s) (p_wclosed s) (p_main s) (p_done s).
Definition set_exited s := mkPumping (p_up s) (p_down s) (p_ended s) (p_reset s) (p_closed s) true (p_ours s) (p_wclosed s) (p_main s) (p_done s).
Definition set_ours s := mkPumping (p_up s) (p_down s) (p_ended s) (p_reset s) (p_closed s) (p_exited s) true (p_wclosed s) (p_main s) (p_done s).
Definition set_wclosed s := mkPumping (p_up s) (p_down s) (p_ended s) (p_reset s) (p_closed s) (p_exited s) (p_ours s) true (p_main s) (p_done s).
Definition set_main pc n s := mkPumping (p_up s) (p_down s) (p_ended s) (p_reset s) (p_closed s) (p_exited s) (p_ours s) (p_wclosed s) pc n.

Inductive side : Type := Up | Down.
Definition lane_of (w : side) (s : pumping) : lane := match w with Up => p_up s | Down => p_down s end.
Definition set_lane (w : side) (l : lane) (s : pumping) : pumping :=
  match w with Up => set_up l s | Down => set_down l s end.

(** When reading from the source of a copy fails or ends, and when writing to its
    destination fails: a closed descriptor, the end of the stream, a reset. *)
Definition over (w : side) (s : pumping) : bool :=
  match w with
  | Up => p_closed s || p_reset s || (p_ended s && bool_decide (l_queue (p_up s) = []))
  | Down => p_ours s || (p_exited s && bool_decide (l_queue (p_down s) = []))
  end.
Definition dead (w : side) (s : pumping) : bool :=
  match w with
  | Up => p_ours s || p_exited s
  | Down => p_closed s || p_reset s
  end.

(** After its close the client's stream can still give what is buffered; our end of the
    socket pair gives nothing. *)
Definition readable (w : side) (s : pumping) : bool :=
  match w with Up => true | Down => negb (p_ours s) end.

(** What the client and sshd do, and what the three goroutines do. *)
Inductive action : Type :=
| aSend (b : list byte)
| aEnd
| aReset
| aReply (b : list byte)
| aExit
| aRead (w : side) (n : nat)
| aWrite (w : side) (k : nat)
| aOver (w : side)
| aFail (w : side)
| aCall (w : side)
| aSignal (w : side)
| aMain.

(** The call after a copy: [CloseWrite] towards sshd, [closeClient] towards the client. *)
Definition after_copy (w : side) (s : pumping) : pumping :=
  match w with Up => set_wclosed s | Down => set_closed s end.

(** The pump itself: [<-done], [ours.Close()], [closeClient()], [<-done]. *)
Definition main_step (s : pumping) : option pumping :=
  match p_main s, p_done s with
  | mWait1, S n => Some (set_main mCloseOurs n s)
  | mCloseOurs, n => Some (set_main mCloseClient n (set_ours s))
  | mCloseClient, n => Some (set_main mWait2 n (set_closed s))
  | mWait2, S n => Some (set_main mReturned n s)
  | _, _ => None
  end.

Definition step (a : action) (s : pumping) : option pumping :=
  match a with
  | aSend b => if p_ended s || p_reset s || p_closed s then None else Some (set_up (send b (p_up s)) s)
  | aEnd => Some (set_ended s)
  | aReset => Some (set_reset s)
  | aReply b => if p_exited s || p_ours s then None else Some (set_down (send b (p_down s)) s)
  | aExit => Some (set_exited s)
  | aRead w n => if negb (readable w s) then None else l ← copy_read n (lane_of w s); Some (set_lane w l s)
  | aWrite w k => if dead w s then None else l ← copy_write k (lane_of w s); Some (set_lane w l s)
  | aOver w => l ← copy_over (over w s) (lane_of w s); Some (set_lane w l s)
  | aFail w => l ← copy_fail (dead w s) (lane_of w s); Some (set_lane w l s)
  | aCall w => match l_pc (lane_of w s) with
               | cEnded => Some (after_copy w (set_lane w (set_pc cCalled (lane_of w s)) s))
               | _ => None
               end
  | aSignal w => match l_pc (lane_of w s) with
                 | cCalled => let s := set_lane w (set_pc cDone (lane_of w s)) s in
                              Some (set_main (p_main s) (S (p_done s)) s)
                 | _ => None
                 end
  | aMain => main_step s
  end.

Fixpoint run (acts : list action) (s : pumping) : option pumping :=
  match acts with
  | [] => Some s
  | a :: acts => s ← step a s; run acts s
  end.

(** Both sides are connected, nothing has been sent. *)
Definition empty_lane : lane := mkLane [] [] cReading [].
Definition pump_start : pumping := mkPumping empty_lane empty_lane false false false false false false mWait1 0.
