(* ===== verification/PumpProps.v ===== *)
(** What the pump guarantees: the bytes arrive in order, nothing is left open, what sshd
    said is delivered, and it always ends. *)
From S2P Require Import Prelude GoStrings Pump.

(* ------------------------------------------------------------------ *)
(** * Invariants                                                         *)
(* ------------------------------------------------------------------ *)

Definition past (l : lane) : bool :=
  match l_pc l with cReading | cWriting _ => false | _ => true end.
Definition finished (l : lane) : nat := match l_pc l with cDone => 1 | _ => 0 end.

(** What was sent is what has arrived, what is being written, and what is not read. *)
Definition lane_ok (l : lane) : Prop := exists buf,
  l_sent l = l_got l ++ buf ++ l_queue l /\
  match l_pc l with cReading => buf = [] | cWriting b => buf = b /\ b <> [] | _ => True end.

(** The signals the pump has taken. *)
Definition taken (pc : main_pc) : nat :=
  match pc with mWait1 => 0 | mReturned => 2 | _ => 1 end.
Definition ours_closed (pc : main_pc) : bool :=
  match pc with mWait1 | mCloseOurs => false | _ => true end.
Definition client_closed (pc : main_pc) : bool :=
  match pc with mWait2 | mReturned => true | _ => false end.
Definition called (l : lane) : bool := match l_pc l with cCalled | cDone => true | _ => false end.

(** The client neither ended its stream nor reset the connection. *)
Definition kept (s : pumping) : Prop := p_ended s = false /\ p_reset s = false.
(** sshd is gone and the client has got all it said. *)
Definition delivered (s : pumping) : Prop :=
  p_exited s = true /\ l_queue (p_down s) = [] /\ l_got (p_down s) = l_sent (p_down s).
(** sshd will never get all that the client sent. *)
Definition cut_off (s : pumping) : Prop :=
  past (p_up s) = true /\ (length (l_got (p_up s)) < length (l_sent (p_up s)))%nat.

Record pump_inv (s : pumping) : Prop := {
  pi_up : lane_ok (p_up s);
  pi_down : lane_ok (p_down s);
  pi_signals : (p_done s + taken (p_main s) = finished (p_up s) + finished (p_down s))%nat;
  pi_ours : p_ours s = ours_closed (p_main s);
  pi_closed : p_closed s = client_closed (p_main s) || called (p_down s);
  pi_stop : kept s -> past (p_up s) || past (p_down s) || p_ours s || p_closed s = true ->
    delivered s \/ cut_off s
}.

(** ** One copy *)

Lemma lane_ok_send b l : lane_ok l -> lane_ok (send b l).
Proof.
  intros (buf & E & Hpc). exists buf. split; [|exact Hpc]. cbn. by rewrite E, <- !app_assoc.
Qed.
Lemma lane_ok_read n l : l_pc l = cReading -> (0 < n <= length (l_queue l))%nat -> lane_ok l ->
  lane_ok (mkLane (l_sent l) (drop n (l_queue l)) (cWriting (take n (l_queue l))) (l_got l)).
Proof.
  intros Hr Hn (buf & E & Hpc). rewrite Hr in Hpc. subst buf. exists (take n (l_queue l)). cbn in *.
  split; [by rewrite E, take_drop|]. split; [done|]. intros E0. apply (f_equal length) in E0.
  rewrite length_take in E0. cbn in E0. lia.
Qed.
Lemma lane_ok_write k b l : l_pc l = cWriting b -> lane_ok l ->
  lane_ok (mkLane (l_sent l) (l_queue l) (match drop k b with [] => cReading | rest => cWriting rest end)
             (l_got l ++ take k b)).
Proof.
  intros Hw (buf & E & Hpc). rewrite Hw in Hpc. destruct Hpc as [-> _]. exists (drop k b). cbn in *.
  split; [by rewrite E, <- app_assoc, (app_assoc (take k b)), take_drop|]. by destruct (drop k b).
Qed.
Lemma lane_ok_past l pc : past (set_pc pc l) = true -> lane_ok l -> lane_ok (set_pc pc l).
Proof. intros Hp (buf & E & _). exists buf. split; [exact E|]. by destruct pc. Qed.
Lemma lane_prefix l : lane_ok l -> l_got l `prefix_of` l_sent l.
Proof. intros (buf & E & _). by eexists. Qed.

(** A copy that reads has passed on everything it has read. *)
Lemma reading_all l : lane_ok l -> l_pc l = cReading -> l_queue l = [] -> l_got l = l_sent l.
Proof. intros (buf & E & Hpc) Hr Hq. rewrite Hr in Hpc. by rewrite E, Hpc, Hq, !app_nil_r. Qed.
Lemma writing_less l b : lane_ok l -> l_pc l = cWriting b -> (length (l_got l) < length (l_sent l))%nat.
Proof.
  intros (buf & E & Hpc) Hw. rewrite Hw in Hpc. destruct Hpc as [-> Hb]. rewrite E, !length_app.
  destruct b; [done|]. cbn. lia.
Qed.

Lemma copy_read_inv n l l' : copy_read n l = Some l' ->
  l_pc l = cReading /\ (0 < n <= length (l_queue l))%nat /\
  l' = mkLane (l_sent l) (drop n (l_queue l)) (cWriting (take n (l_queue l))) (l_got l).
Proof. unfold copy_read. destruct (l_pc l); try done. case_bool_decide; [|done]. by intros [= <-]. Qed.
Lemma copy_write_inv k l l' : copy_write k l = Some l' -> exists b,
  l_pc l = cWriting b /\ (0 < k <= length b)%nat /\
  l' = mkLane (l_sent l) (l_queue l) (match drop k b with [] => cReading | rest => cWriting rest end)
         (l_got l ++ take k b).
Proof. unfold copy_write. destruct (l_pc l) as [|b| | |]; try done. case_bool_decide; [|done]. intros [= <-]. by exists b. Qed.
Lemma copy_over_inv o l l' : copy_over o l = Some l' -> l_pc l = cReading /\ o = true /\ l' = set_pc cEnded l.
Proof. unfold copy_over. destruct (l_pc l); try done. destruct o; [|done]. by intros [= <-]. Qed.
Lemma copy_fail_inv o l l' : copy_fail o l = Some l' -> exists b, l_pc l = cWriting b /\ o = true /\ l' = set_pc cEnded l.
Proof. unfold copy_fail. destruct (l_pc l) as [|b| | |]; try done. destruct o; [|done]. intros [= <-]. by exists b. Qed.

(** Goes from the equation of a step to its cases. *)
Ltac step_inv H :=
  lazymatch type of H with
  | Some _ = Some _ => injection H as <-
  | None = Some _ => discriminate H
  | (if ?b then _ else _) = Some _ => let E := fresh "E" in destruct b eqn:E; step_inv H
  | (_ ≫= _) = Some _ =>
      let l := fresh "l" in let E := fresh "El" in
      apply bind_Some in H as (l & E & H); step_inv H
  | (match l_pc ?l with _ => _ end) = Some _ => let E := fresh "Epc" in destruct (l_pc l) eqn:E; step_inv H
  | _ => idtac
  end.
Ltac lane_inv :=
  repeat match goal with
  | H : copy_read _ _ = Some _ |- _ => apply copy_read_inv in H as (? & ? & ->)
  | H : copy_write _ _ = Some _ |- _ => apply copy_write_inv in H as (? & ? & ? & ->)
  | H : copy_over _ _ = Some _ |- _ => apply copy_over_inv in H as (? & ? & ->)
  | H : copy_fail _ _ = Some _ |- _ => apply copy_fail_inv in H as (? & ? & ? & ->)
  end.

(** ** Both *)

Definition stopped (s : pumping) : bool := past (p_up s) || past (p_down s) || p_ours s || p_closed s.

(** All the actions, with what is known when they happen. *)
Ltac actions a s H :=
  destruct a as [?b| | |?b| |[] ?n|[] ?k|[]|[]|[]|[]|]; cbn [step lane_of set_lane] in H;
  [..|unfold main_step in H; destruct (p_main s) eqn:?Em, (p_done s) eqn:?Ed; try discriminate H];
  step_inv H; lane_inv; cbn in *.

Lemma kept_before a s s' : step a s = Some s' -> kept s' -> kept s.
Proof. unfold kept. intros H. actions a s H; tauto || (intros [? ?]; done). Qed.

Lemma lanes_step a s s' : step a s = Some s' -> lane_ok (p_up s) -> lane_ok (p_down s) ->
  lane_ok (p_up s') /\ lane_ok (p_down s').
Proof.
  intros H. actions a s H; intros HU HD; (split; [|try exact HD]); try exact HU.
  all: first [by apply lane_ok_send|by apply lane_ok_read|by apply lane_ok_write|by apply lane_ok_past].
Qed.

(** The accounts of the signals and of what is closed. *)
Lemma accounts_step a s s' : step a s = Some s' ->
  (p_done s + taken (p_main s) = finished (p_up s) + finished (p_down s))%nat ->
  p_ours s = ours_closed (p_main s) -> p_closed s = client_closed (p_main s) || called (p_down s) ->
  (p_done s' + taken (p_main s') = finished (p_up s') + finished (p_down s'))%nat /\
  p_ours s' = ours_closed (p_main s') /\ p_closed s' = client_closed (p_main s') || called (p_down s').
Proof.
  intros H. unfold finished, called. actions a s H; intros HS HO HC; split_and!; try done.
  all: try match goal with E : l_pc _ = _ |- _ => rewrite E in HS; try rewrite E in HC end.
  all: try destruct (drop _ _); rewrite ?Em, ?Ed in *; cbn in *; try lia.
  all: by rewrite ?orb_false_r, ?orb_true_r in *.
Qed.

(** What holds when something has stopped goes on holding. *)
Lemma settled_step a s s' : step a s = Some s' -> lane_ok (p_down s) ->
  (delivered s -> delivered s') /\ (cut_off s -> cut_off s').
Proof.
  unfold delivered, cut_off, past. intros H HD. actions a s H; split; try done.
  all: try (intros (D1 & D2 & D3)); try (intros (D1 & D2)).
  all: try match goal with E : l_pc (p_up _) = _ |- _ => rewrite E in D1; try done end.
  - rewrite length_app. split; [done|lia].
  - rewrite D1 in *. discriminate.
  - done.
  - rewrite D2 in *. cbn in *. lia.
  - match goal with E : l_pc (p_down _) = _ |- _ => pose proof (writing_less _ _ HD E) as Hl end.
    rewrite D3 in Hl. lia.
Qed.

(** When the first thing stops, sshd is gone and everything it said was passed on, or
    something the client sent was refused. *)
Lemma stop_step a s s' : step a s = Some s' -> pump_inv s -> kept s' -> stopped s = false -> stopped s' = true ->
  delivered s' \/ cut_off s'.
Proof.
  unfold stopped. intros H [U D S O C _] [K1 K2] Hn Hs. apply orb_false_iff in Hn as [[[N1 N2]%orb_false_iff N3]%orb_false_iff N4].
  actions a s H; unfold past in *; cbn in *; rewrite ?N1, ?N2, ?N3, ?N4, ?K1, ?K2 in *; cbn [orb] in *; try done.
  all: try match goal with E : l_pc (p_up _) = _ |- _ => rewrite E in N1; try done end.
  all: try match goal with E : l_pc (p_down _) = _ |- _ => rewrite E in N2; try done end.
  all: try (by destruct (drop _ _)).
  - left. match goal with E : _ && _ = true |- _ => apply andb_true_iff in E as [Ex Eq] end.
    apply bool_decide_eq_true in Eq. split_and!; [done|done|]. by apply (reading_all (p_down s)).
  - right. split; [done|]. by eapply (writing_less (p_up s)).
  - exfalso. unfold finished in S. rewrite ?Em, ?Ed in S. destruct (l_pc (p_up s)), (l_pc (p_down s)); cbn in S; done || lia.
  - exfalso. unfold finished in S. rewrite ?Em, ?Ed in S. destruct (l_pc (p_up s)), (l_pc (p_down s)); cbn in S; done || lia.
Qed.

Lemma pump_inv_start : pump_inv pump_start.
Proof. split; try done; by exists []. Qed.
Lemma pump_inv_step a s s' : step a s = Some s' -> pump_inv s -> pump_inv s'.
Proof.
  intros H Hi. pose proof Hi as [U D S O C T].
  destruct (lanes_step _ _ _ H U D) as [U' D']. destruct (accounts_step _ _ _ H S O C) as (S' & O' & C').
  split; [done..|]. intros K Hs. pose proof (kept_before _ _ _ H K) as K0.
  destruct (stopped s) eqn:E; [|by eapply stop_step].
  destruct (settled_step _ _ _ H D) as [F1 F2]. destruct (T K0 E); auto.
Qed.

(** ** Reachable states *)

Definition p_step (s s' : pumping) : Prop := exists a, step a s = Some s'.
Definition reachable (s : pumping) : Prop := rtc p_step pump_start s.
Lemma pump_reachable_inv s : reachable s -> pump_inv s.
Proof.
  intros Hr. assert (Hs : forall x y, rtc p_step x y -> pump_inv x -> pump_inv y).
  { induction 1 as [|x y z [a Ha] _ IH]; [done|]. intros Hx. by eapply IH, pump_inv_step. }
  exact (Hs _ _ Hr pump_inv_start).
Qed.
Lemma run_reachable acts s s' : reachable s -> run acts s = Some s' -> reachable s'.
Proof.
  revert s. induction acts as [|a acts IH]; intros s Hs; [by intros [= <-]|]. cbn [run].
  intros (s1 & E & H)%bind_Some. eapply IH; [|exact H]. eapply rtc_r; [exact Hs|by exists a].
Qed.

(* ------------------------------------------------------------------ *)
(** * The end                                                            *)
(* ------------------------------------------------------------------ *)

(** What the goroutines can do on their own, and of it what nobody can hold up. *)
Definition ours_act (a : action) : bool :=
  match a with aSend _ | aEnd | aReset | aReply _ | aExit => false | _ => true end.
Definition prompt (a : action) : bool :=
  match a with aOver _ | aFail _ | aCall _ | aSignal _ | aMain => true | _ => false end.

Definition pc_work (pc : copier) : nat :=
  match pc with cReading => 3 | cWriting b => 3 + 2 * length b | cEnded => 2 | cCalled => 1 | cDone => 0 end.
Definition lane_work (l : lane) : nat := 3 * length (l_queue l) + pc_work (l_pc l).
Definition main_work (pc : main_pc) : nat :=
  match pc with mWait1 => 4 | mCloseOurs => 3 | mCloseClient => 2 | mWait2 => 1 | mReturned => 0 end.
Definition work (s : pumping) : nat := lane_work (p_up s) + lane_work (p_down s) + main_work (p_main s).

Lemma work_rest k b : pc_work (match drop k b with [] => cReading | rest => cWriting rest end) =
  (3 + 2 * (length b - k))%nat.
Proof. rewrite <- length_drop. by destruct (drop k b). Qed.
Lemma work_step a s s' : ours_act a = true -> step a s = Some s' -> (work s' < work s)%nat.
Proof.
  intros Ha H. unfold work, lane_work.
  actions a s H; try discriminate Ha.
  all: repeat match goal with E : l_pc _ = _ |- _ => rewrite E; clear E end; rewrite ?work_rest; cbn.
  all: rewrite ?length_drop, ?length_take; lia.
Qed.
Lemma work_run acts s s' : Forall (fun a => ours_act a = true) acts -> run acts s = Some s' ->
  (length acts + work s' <= work s)%nat.
Proof.
  intros Ha. revert s. induction Ha as [|a acts Ha _ IH]; intros s; [by intros [= <-]|]. cbn [run].
  intros (s1 & E & H)%bind_Some. apply work_step in E; [|done]. apply IH in H. cbn [length]. lia.
Qed.

(** Nobody can hold up the end. *)
Lemma lane_moves w s : over w s = true -> dead w s = true ->
  l_pc (lane_of w s) = cDone \/ exists a, prompt a = true /\ is_Some (step a s).
Proof.
  intros Ho Hd. destruct (l_pc (lane_of w s)) eqn:E; [right..|by left].
  - exists (aOver w). split; [done|]. cbn [step]. unfold copy_over. rewrite E, Ho. by eexists.
  - exists (aFail w). split; [done|]. cbn [step]. unfold copy_fail. rewrite E, Hd. by eexists.
  - exists (aCall w). split; [done|]. cbn [step]. rewrite E. by eexists.
  - exists (aSignal w). split; [done|]. cbn [step]. rewrite E. by eexists.
Qed.
Lemma past_moves w s : past (lane_of w s) = true ->
  l_pc (lane_of w s) = cDone \/ exists a, prompt a = true /\ is_Some (step a s).
Proof.
  unfold past. intros Hp. destruct (l_pc (lane_of w s)) eqn:E; [done..|right|right|by left].
  - exists (aCall w). split; [done|]. cbn [step]. rewrite E. by eexists.
  - exists (aSignal w). split; [done|]. cbn [step]. rewrite E. by eexists.
Qed.
Lemma pump_moves s : pump_inv s -> past (p_up s) || past (p_down s) = true ->
  p_main s = mReturned \/ exists a, prompt a = true /\ is_Some (step a s).
Proof.
  intros [_ _ S O C _] Hp.
  assert (Hm : (exists s', main_step s = Some s') -> exists a, prompt a = true /\ is_Some (step a s))
    by (intros (s' & E); exists aMain; split; [done|exists s'; exact E]).
  destruct (p_main s) eqn:Em; [|right; apply Hm; unfold main_step; rewrite Em; destruct (p_done s); by eexists..| |by left].
  - assert (Hd : l_pc (p_up s) = cDone \/ l_pc (p_down s) = cDone -> exists a, prompt a = true /\ is_Some (step a s)).
    { intros Hd. apply Hm. unfold main_step. rewrite Em. destruct (p_done s) as [|n] eqn:Ed; [|by eexists].
      exfalso. unfold finished in S. rewrite ?Em, ?Ed in S. destruct Hd as [E|E]; rewrite E in S; cbn in S; lia. }
    right. apply orb_true_iff in Hp as [Hp|Hp];
      [destruct (past_moves Up s Hp)|destruct (past_moves Down s Hp)]; auto.
  - right. cbn in O, C. destruct (lane_moves Up s) as [E1|]; [by cbn; rewrite C|by cbn; rewrite O| |done].
    destruct (lane_moves Down s) as [E2|]; [by cbn; rewrite O|by cbn; rewrite C| |done].
    apply Hm. unfold main_step. rewrite Em. destruct (p_done s) as [|n] eqn:Ed; [|by eexists].
    exfalso. unfold finished in S. rewrite ?Em, ?Ed in S. cbn in E1, E2. rewrite E1, E2 in S. cbn in S. lia.
Qed.

(** C12 The two copies of a connection, however their goroutines and what the client and
    sshd do interleave: each side gets a prefix of what the other sent, nothing
    changed, repeated or out of order; when the pump has returned both goroutines are
    done and both ends are closed, so nothing leaks; if moreover the client neither ended
    its stream nor reset it, and sshd has taken all that the client sent, the client has got
    all that sshd said (when sshd takes no more, its last words can be lost);
    once one copy has ended, the pump returns: nobody can hold it up, and it has
    only so many steps left. *)
Theorem pump_correct s : reachable s ->
  (l_got (p_up s) `prefix_of` l_sent (p_up s) /\ l_got (p_down s) `prefix_of` l_sent (p_down s)) /\
  (p_main s = mReturned ->
     l_pc (p_up s) = cDone /\ l_pc (p_down s) = cDone /\ p_ours s = true /\ p_closed s = true /\
     (kept s -> l_got (p_up s) = l_sent (p_up s) -> l_got (p_down s) = l_sent (p_down s))) /\
  (past (p_up s) || past (p_down s) = true ->
     p_main s = mReturned \/ exists a, prompt a = true /\ is_Some (step a s)) /\
  (forall acts s', Forall (fun a => ours_act a = true) acts -> run acts s = Some s' ->
     (length acts <= work s)%nat).
Proof.
  intros Hr. pose proof (pump_reachable_inv s Hr) as Hi. pose proof Hi as [U D S O C T]. split_and!.
  - by apply lane_prefix.
  - by apply lane_prefix.
  - intros Em. rewrite Em in *. unfold finished in S. cbn in O, C.
    assert (E : l_pc (p_up s) = cDone /\ l_pc (p_down s) = cDone)
      by (destruct (l_pc (p_up s)), (l_pc (p_down s)); cbn in S; try lia; done).
    destruct E as [E1 E2]. split_and!; [done..|]. intros K Hup.
    destruct (T K) as [(_ & _ & Hd)|[_ Hd]]; [by rewrite O, !orb_true_r|done|]. rewrite Hup in Hd. lia.
  - by apply pump_moves.
  - intros acts s' Ha H. pose proof (work_run acts s s' Ha H). lia.
Qed.

(* ------------------------------------------------------------------ *)
(** * Concrete runs                                                      *)
(* ------------------------------------------------------------------ *)

(** A session that sshd ends: its last words arrive although they are still in the
    socket when it is gone. *)
Definition session_run : list action :=
  [aSend (bs "ls"); aRead Up 2; aReply (bs "a b"); aWrite Up 1; aRead Down 2; aWrite Up 1; aReply (bs " c"); aExit;
   aWrite Down 2; aRead Down 3; aWrite Down 3; aOver Down; aCall Down; aOver Up; aCall Up; aSignal Down; aMain;
   aSignal Up; aMain; aMain; aMain].

Lemma pump_correct_witness : exists s, run session_run pump_start = Some s /\
  l_got (p_up s) = bs "ls" /\ l_got (p_down s) = l_sent (p_down s) /\ l_sent (p_down s) = bs "a b c" /\
  p_ours s = true /\ p_closed s = true.
Proof.
  destruct (run session_run pump_start) as [s|] eqn:E; [|vm_compute in E; discriminate E].
  exists s. split; [reflexivity|].
  assert (Hs : run session_run pump_start ≫= (fun s => Some (l_got (p_up s), l_sent (p_up s), l_sent (p_down s), p_main s, p_ended s, p_reset s)) =
    Some (bs "ls", bs "ls", bs "a b c", mReturned, false, false)) by (vm_compute; reflexivity).
  rewrite E in Hs. injection Hs as Hg Hu Hd Hm He Hr.
  destruct (pump_correct s (run_reachable session_run pump_start s (rtc_refl _ _) E)) as (_ & Hret & _).
  destruct (Hret Hm) as (_ & _ & Ho & Hc & Hall).
  split; [exact Hg|]. split; [apply Hall; [exact (conj He Hr)|exact (eq_trans Hg (eq_sym Hu))]|]. exact (conj Hd (conj Ho Hc)).
Defined.

(** A client that ends only its own direction: [CloseWrite] passes that on, so that
    sshd can answer, but the pump takes the end of the one copy for the end of both and
    closes at once; what sshd has answered is lost, though neither is gone. *)
Definition half_close_run : list action :=
  [aSend (bs "q"); aRead Up 1; aWrite Up 1; aReply (bs "answer"); aEnd; aOver Up; aCall Up; aSignal Up; aMain;
   aMain; aMain; aOver Down; aCall Down; aSignal Down; aMain].
Lemma half_close_loses : exists s, run half_close_run pump_start = Some s /\
  p_main s = mReturned /\ p_wclosed s = true /\ p_exited s = false /\ p_reset s = false /\
  l_got (p_up s) = l_sent (p_up s) /\ l_sent (p_down s) = bs "answer" /\ l_got (p_down s) = [].
Proof. eexists. split; [vm_compute; reflexivity|]. repeat split. Qed.
