(* ===== verification/UdpgwProto.v ===== *)
(** The udpgw wire format of [src/internal/udpgw/proto.go]: decoding and
    encoding of frame payloads, and the framing of a TCP stream. *)
From S2P Require Import Prelude NetAddr.

(** Client flags. *)
Definition FlagKeepalive : Z := 1.
Definition FlagRebind : Z := 2.
Definition FlagDNS : Z := 4.
Definition FlagIPv6 : Z := 8.

Definition headerLen : Z := 3.
Definition addr4Len : Z := 4 + 2.
Definition addr6Len : Z := 16 + 2.
Definition MaxPayload : Z := 65535.

Inductive perror : Type := errShort | errLarge.
#[export] Instance perror_eq_dec : EqDecision perror.
Proof. solve_decision. Defined.

Record Packet : Type := mkPacket {
  Flags : Z;
  ConID : Z;
  PAddr : AddrPort;
  Data : list byte
}.
#[export] Instance Packet_eq_dec : EqDecision Packet.
Proof. solve_decision. Defined.

(** [flags&mask != 0] *)
Definition has_flag (flags mask : Z) : bool := negb (Z.land flags mask =? 0).

(** Decode a frame payload (without the two-byte length prefix). *)
Definition ParsePacket (b : list byte) : result perror Packet :=
  if len b <? headerLen then Err errShort else
  let flags := b2z (byte_at 0 b) in
  let conid := le16 (slice 1 3 b) in
  let b := slice_from headerLen b in
  if has_flag flags FlagKeepalive
  then Ok (mkPacket flags conid AddrPortZero [])
  else if has_flag flags FlagIPv6 then
    if len b <? addr6Len then Err errShort else
    let a := AddrPortFrom (AddrFrom16 (slice_to 16 b)) (be16 (slice 16 18 b)) in
    Ok (mkPacket flags conid a (slice_from addr6Len b))
  else
    if len b <? addr4Len then Err errShort else
    let a := AddrPortFrom (AddrFrom4 (slice_to 4 b)) (be16 (slice 4 6 b)) in
    Ok (mkPacket flags conid a (slice_from addr4Len b)).

(** Encoded size, length prefix included, of a frame with [n] data bytes. *)
Definition FrameLen (addr : AddrPort) (n : Z) : Z :=
  if Is4 (ap_addr addr) then 2 + headerLen + addr4Len + n
  else 2 + headerLen + addr6Len + n.

(** Append a complete frame to [dst]; on error [dst] is returned unchanged. *)
Definition AppendFrame (dst : list byte) (flags conid : Z) (addr : AddrPort)
    (data : list byte) : result (list byte * perror) (list byte) :=
  let ip := ap_addr addr in
  let addrLen := if Is4 ip then addr4Len else addr6Len in
  let flags :=
    if Is4 ip then Z.ldiff flags FlagIPv6 else Z.lor flags FlagIPv6 in
  let payload := headerLen + addrLen + len data in
  if MaxPayload <? payload then Err (dst, errLarge) else
  let dst := dst ++ put_le16 (u16 payload) in
  let dst := dst ++ [z2b flags] in
  let dst := dst ++ put_le16 conid in
  let dst := if Is4 ip then dst ++ As4 ip else dst ++ As16 ip in
  let dst := dst ++ put_be16 (ap_port addr) in
  let dst := dst ++ data in
  Ok dst.

Definition AppendKeepalive (dst : list byte) : list byte :=
  (dst ++ put_le16 headerLen) ++ [z2b FlagKeepalive; x00; x00].

(** The flag byte [AppendFrame] sends for [addr]. *)
Definition wire_flags (flags : Z) (addr : AddrPort) : Z :=
  if Is4 (ap_addr addr) then Z.ldiff flags FlagIPv6 else Z.lor flags FlagIPv6.

(** What an encoded frame decodes to. *)
Definition wire_packet (flags conid : Z) (addr : AddrPort) (data : list byte) :=
  mkPacket (wire_flags flags addr) conid (drop_zone addr) data.

(* ------------------------------------------------------------------ *)
(** * Flag bits                                                          *)
(* ------------------------------------------------------------------ *)

Lemma has_flag_testbit f n : 0 <= n -> has_flag f (2 ^ n) = Z.testbit f n.
Proof.
  intros Hn. unfold has_flag.
  assert (E : Z.land f (2 ^ n) = if Z.testbit f n then 2 ^ n else 0).
  { apply Z.bits_inj'. intros m Hm.
    rewrite Z.land_spec, Z.pow2_bits_eqb by done.
    destruct (Z.eqb_spec n m) as [->|Hne].
    - rewrite andb_true_r.
      destruct (Z.testbit f m) eqn:?; [|by rewrite Z.bits_0].
      by rewrite Z.pow2_bits_eqb, Z.eqb_refl.
    - rewrite andb_false_r. destruct (Z.testbit f n); [|by rewrite Z.bits_0].
      rewrite Z.pow2_bits_eqb by done. by destruct (Z.eqb_spec n m). }
  rewrite E. destruct (Z.testbit f n); [|done].
  destruct (Z.eqb_spec (2 ^ n) 0) as [H|]; [|done].
  pose proof (Z.pow_pos_nonneg 2 n). lia.
Qed.

Lemma has_ipv6 f : has_flag f FlagIPv6 = Z.testbit f 3.
Proof. by apply (has_flag_testbit f 3). Qed.
Lemma has_rebind f : has_flag f FlagRebind = Z.testbit f 1.
Proof. by apply (has_flag_testbit f 1). Qed.
Lemma has_dns f : has_flag f FlagDNS = Z.testbit f 2.
Proof. by apply (has_flag_testbit f 2). Qed.
Lemma has_keepalive f : has_flag f FlagKeepalive = Z.testbit f 0.
Proof. by apply (has_flag_testbit f 0). Qed.

Lemma flag_bit_pow (n : Z) f :
  0 <= n -> 0 <= f < 256 -> n < 8 ->
  0 <= Z.lor f (2 ^ n) < 256 /\ 0 <= Z.ldiff f (2 ^ n) < 256.
Proof.
  intros Hn Hf Hn8.
  assert (Hb : forall g, 0 <= g -> (forall m, 8 <= m -> Z.testbit g m = false) ->
    0 <= g < 256).
  { intros g Hg Hbits. split; [done|].
    destruct (decide (g = 0)) as [->|]; [lia|].
    apply (Z.log2_lt_pow2 g 8); [lia|].
    destruct (Z.lt_ge_cases (Z.log2 g) 8) as [|Hge]; [done|].
    specialize (Hbits _ Hge). rewrite Z.bit_log2 in Hbits by lia. done. }
  assert (Hf8 : forall m, 8 <= m -> Z.testbit f m = false).
  { intros m Hm. destruct (decide (f = 0)) as [->|]; [by rewrite Z.bits_0|].
    apply Z.bits_above_log2; [lia|]. apply Z.lt_le_trans with 8; [|done].
    apply Z.log2_lt_pow2; lia. }
  assert (Hp : forall m, 8 <= m -> Z.testbit (2 ^ n) m = false).
  { intros m Hm. rewrite Z.pow2_bits_eqb by done. apply Z.eqb_neq. lia. }
  split; apply Hb.
  - apply Z.lor_nonneg. split; [lia|]. apply Z.pow_nonneg. lia.
  - intros m Hm. by rewrite Z.lor_spec, Hf8, Hp.
  - apply Z.ldiff_nonneg. lia.
  - intros m Hm. by rewrite Z.ldiff_spec, Hf8, Hp.
Qed.

Lemma wire_flags_range f a : 0 <= f < 256 -> 0 <= wire_flags f a < 256.
Proof.
  intros Hf. unfold wire_flags. pose proof (flag_bit_pow 3 f) as Hb.
  destruct (Is4 _); apply Hb; lia.
Qed.

Lemma wire_flags_ipv6 f a : has_flag (wire_flags f a) FlagIPv6 = negb (Is4 (ap_addr a)).
Proof.
  rewrite has_ipv6. unfold wire_flags. destruct (Is4 _).
  - rewrite Z.ldiff_spec. change (Z.testbit FlagIPv6 3) with true.
    apply andb_false_r.
  - rewrite Z.lor_spec. change (Z.testbit FlagIPv6 3) with true. apply orb_true_r.
Qed.

(** The other flags travel unchanged. *)
Lemma wire_flags_other f a m :
  0 <= m -> m <> 3 -> has_flag (wire_flags f a) (2 ^ m) = has_flag f (2 ^ m).
Proof.
  intros Hm Hne. rewrite !has_flag_testbit by done.
  assert (Hb : Z.testbit FlagIPv6 m = false).
  { change FlagIPv6 with (2 ^ 3). rewrite Z.pow2_bits_eqb by lia.
    apply Z.eqb_neq. lia. }
  unfold wire_flags. destruct (Is4 _).
  - by rewrite Z.ldiff_spec, Hb, andb_true_r.
  - by rewrite Z.lor_spec, Hb, orb_false_r.
Qed.

Lemma wire_flags_keepalive f a :
  has_flag (wire_flags f a) FlagKeepalive = has_flag f FlagKeepalive.
Proof. by apply (wire_flags_other f a 0). Qed.

(** The flag byte of a parsed packet is already normalised. *)
Lemma wire_flags_id f a :
  has_flag f FlagIPv6 = negb (Is4 (ap_addr a)) -> wire_flags f a = f.
Proof.
  rewrite has_ipv6. unfold wire_flags.
  intros Hb. apply Z.bits_inj'. intros m Hm.
  destruct (decide (m = 3)) as [->|Hne].
  - rewrite Hb. destruct (Is4 _);
      [rewrite Z.ldiff_spec, Hb|rewrite Z.lor_spec, Hb]; done.
  - pose proof (wire_flags_other f a m Hm Hne) as Ho.
    rewrite !has_flag_testbit in Ho by done. unfold wire_flags in Ho. done.
Qed.

(* ------------------------------------------------------------------ *)
(** * The encoder and the decoder                                        *)
(* ------------------------------------------------------------------ *)

(** The address bytes of a frame. *)
Definition addr_bytes (a : Addr) : list byte := if Is4 a then As4 a else As16 a.

Definition frame_payload (flags conid : Z) (addr : AddrPort) (data : list byte) :=
  z2b (wire_flags flags addr) :: put_le16 conid ++
  addr_bytes (ap_addr addr) ++ put_be16 (ap_port addr) ++ data.

Lemma len_addr_bytes a :
  Addr_wf a -> len (addr_bytes a) = if Is4 a then 4 else 16.
Proof. unfold addr_bytes, len. destruct a; simpl; [done|lia..]. Qed.

Lemma len_frame_payload f c a d :
  Addr_wf (ap_addr a) -> 2 + len (frame_payload f c a d) = FrameLen a (len d).
Proof.
  intros Hw. unfold frame_payload, FrameLen. rewrite len_cons.
  autorewrite with len. rewrite len_addr_bytes by done.
  unfold headerLen, addr4Len, addr6Len. destruct (Is4 _); lia.
Qed.

Lemma AppendFrame_eq dst f c a d :
  Addr_wf (ap_addr a) ->
  AppendFrame dst f c a d =
  if 2 + MaxPayload <? FrameLen a (len d) then Err (dst, errLarge)
  else Ok (dst ++ put_le16 (len (frame_payload f c a d)) ++ frame_payload f c a d).
Proof.
  intros Hw. unfold AppendFrame.
  pose proof (len_frame_payload f c a d Hw) as Hl.
  assert (E : headerLen + (if Is4 (ap_addr a) then addr4Len else addr6Len) + len d
    = len (frame_payload f c a d)).
  { unfold FrameLen in Hl. destruct (Is4 _); lia. }
  rewrite E, <- Hl.
  destruct (Z.ltb_spec MaxPayload (len (frame_payload f c a d)));
    destruct (Z.ltb_spec (2 + MaxPayload) (2 + len (frame_payload f c a d)));
    try lia; [done|].
  f_equal. rewrite uwrap_small.
  - generalize (len (frame_payload f c a d)) as n. intros n.
    unfold frame_payload, addr_bytes, wire_flags.
    destruct (Is4 _); by rewrite <- !app_assoc.
  - unfold MaxPayload in *. pose proof (len_nonneg (frame_payload f c a d)). lia.
Qed.

Lemma ParsePacket_cons f c0 c1 b :
  ParsePacket (f :: c0 :: c1 :: b) =
  let flags := b2z f in
  let conid := le16 [c0; c1] in
  if has_flag flags FlagKeepalive
  then Ok (mkPacket flags conid AddrPortZero [])
  else if has_flag flags FlagIPv6 then
    if len b <? addr6Len then Err errShort else
    Ok (mkPacket flags conid
      (AddrPortFrom (AddrFrom16 (slice_to 16 b)) (be16 (slice 16 18 b)))
      (slice_from addr6Len b))
  else
    if len b <? addr4Len then Err errShort else
    Ok (mkPacket flags conid
      (AddrPortFrom (AddrFrom4 (slice_to 4 b)) (be16 (slice 4 6 b)))
      (slice_from addr4Len b)).
Proof.
  unfold ParsePacket at 1.
  destruct (Z.ltb_spec (len (f :: c0 :: c1 :: b)) headerLen) as [H|].
  - unfold headerLen in H. len_lia.
  - done.
Qed.

Lemma ParsePacket_short b :
  len b < headerLen -> ParsePacket b = Err errShort.
Proof. unfold ParsePacket. intros. by rewrite (proj2 (Z.ltb_lt _ _)). Qed.

(** Decoding an address block followed by data. *)
Lemma slice_block n (ip pt d : list byte) :
  len ip = n -> len pt = 2 ->
  slice_to n (ip ++ pt ++ d) = ip /\
  slice n (n + 2) (ip ++ pt ++ d) = pt /\
  slice_from (n + 2) (ip ++ pt ++ d) = d.
Proof.
  intros Hi Hp. split; [by apply slice_to_app|]. split.
  - unfold slice. rewrite slice_from_app by done. apply slice_to_app. lia.
  - rewrite app_assoc. apply slice_from_app. rewrite len_app. lia.
Qed.

Lemma ParsePacket_payload f c a d :
  AddrPort_wf a -> 0 <= f < 256 -> 0 <= c < 65536 ->
  has_flag f FlagKeepalive = false ->
  ParsePacket (frame_payload f c a d) = Ok (wire_packet f c a d).
Proof.
  intros [Hw Hp] Hf Hc Hk.
  unfold frame_payload. change (put_le16 c) with [z2b c; z2b (c / 256)].
  cbn [app]. rewrite ParsePacket_cons. cbv zeta.
  rewrite b2z_z2b_small by by apply wire_flags_range.
  rewrite wire_flags_keepalive, Hk, wire_flags_ipv6.
  assert (Hc' : le16 [z2b c; z2b (c / 256)] = c) by (apply (le16_put c []); lia).
  rewrite Hc'.
  pose proof (len_addr_bytes _ Hw) as Hl.
  unfold wire_packet, drop_zone.
  assert (Hport : be16 (put_be16 (ap_port a)) = ap_port a).
  { rewrite <- (app_nil_r (put_be16 _)). by apply be16_put. }
  destruct (ap_addr a) as [|ip|ip z]; [done| |].
  - change (addr_bytes (Addr4 ip)) with ip in *. simpl in Hl.
    destruct (slice_block 4 ip (put_be16 (ap_port a)) d Hl eq_refl)
      as (E1 & E2 & E3).
    cbn [Is4 negb]. change addr4Len with (4 + 2). change (slice 4 6) with (@slice byte 4 (4 + 2)).
    rewrite (proj2 (Z.ltb_ge _ _)) by len_lia.
    by rewrite E1, E2, E3, Hport.
  - change (addr_bytes (Addr6 ip z)) with ip in *. simpl in Hl.
    destruct (slice_block 16 ip (put_be16 (ap_port a)) d Hl eq_refl)
      as (E1 & E2 & E3).
    cbn [Is4 negb]. change addr6Len with (16 + 2). change (slice 16 18) with (@slice byte 16 (16 + 2)).
    rewrite (proj2 (Z.ltb_ge _ _)) by len_lia.
    by rewrite E1, E2, E3, Hport.
Qed.

Lemma slice_cat i j (l : list byte) :
  0 <= i -> i <= j -> slice_to i l ++ slice i j l ++ slice_from j l = l.
Proof.
  intros Hi Hj. unfold slice, slice_to, slice_from.
  rewrite Z2Nat.inj_sub by done.
  replace (Z.to_nat j) with (Z.to_nat i + (Z.to_nat j - Z.to_nat i))%nat at 2 by lia.
  by rewrite <- drop_drop, take_drop, take_drop.
Qed.

(** Two-byte lists are their two bytes. *)
Lemma len2_inv (l : list byte) : len l = 2 -> exists a b, l = [a; b].
Proof.
  destruct l as [|a [|b [|c l]]]; rewrite ?len_cons, ?len_nil; intros; try lia.
  - eauto.
  - pose proof (len_nonneg l). lia.
Qed.

Lemma len_slice i j (l : list byte) : 0 <= i -> i <= j -> j <= len l -> len (slice i j l) = j - i.
Proof.
  intros. unfold slice.
  rewrite len_slice_to; [done|]. rewrite len_slice_from; lia.
Qed.

(** The fields of a parsed packet are in range and rebuild its payload. *)
Lemma ParsePacket_inv b p :
  ParsePacket b = Ok p -> has_flag (Flags p) FlagKeepalive = false ->
  AddrPort_wf (PAddr p) /\ drop_zone (PAddr p) = PAddr p /\
  0 <= Flags p < 256 /\ 0 <= ConID p < 65536 /\
  wire_flags (Flags p) (PAddr p) = Flags p /\
  frame_payload (Flags p) (ConID p) (PAddr p) (Data p) = b.
Proof.
  intros Hp Hk.
  destruct (Z.lt_ge_cases (len b) headerLen) as [Hs|Hs];
    [by rewrite ParsePacket_short in Hp|].
  destruct b as [|f [|c0 [|c1 b]]]; unfold headerLen in Hs;
    rewrite ?len_cons, ?len_nil in Hs; try lia.
  rewrite ParsePacket_cons in Hp. cbv zeta in Hp.
  destruct (has_flag (b2z f) FlagKeepalive) eqn:Ek;
    [simplify_eq; simpl in Hk; congruence|].
  assert (Hblock : forall n, 0 <= n -> n + 2 <= len b ->
    slice_to n b ++ put_be16 (be16 (slice n (n + 2) b)) ++ slice_from (n + 2) b = b).
  { intros n Hn Hlen.
    destruct (len2_inv (slice n (n + 2) b)) as (x & y & E).
    { rewrite len_slice; lia. }
    rewrite E, put_be16_be16, <- E. apply slice_cat; lia. }
  destruct (has_flag (b2z f) FlagIPv6) eqn:E6; case_if_in Hp; simplify_eq;
    unfold addr4Len, addr6Len in *; cbn [Flags ConID PAddr Data] in *.
  all: pose proof (b2z_range f); pose proof (le16_range [c0; c1]).
  all: split; [split; [cbn; unfold slice_to; rewrite length_take; unfold len in *; lia
                      |apply be16_range]|].
  all: do 3 (split; [done|]).
  all: match goal with |- wire_flags ?g ?a = _ /\ _ =>
    assert (Hw : wire_flags g a = g) by by apply wire_flags_id end.
  all: split; [done|].
  all: unfold frame_payload; rewrite Hw, z2b_b2z, put_le16_le16;
       cbn [ap_addr ap_port addr_bytes Is4 AddrFrom4 AddrFrom16 As4 As16 app].
  all: do 3 f_equal.
  - apply (Hblock 16); lia.
  - apply (Hblock 4); lia.
Qed.

(* ------------------------------------------------------------------ *)
(** * Properties of the codec                                            *)
(* ------------------------------------------------------------------ *)

(** Encode then decode: a frame [AppendFrame] writes starts with the length
    of its payload, and decoding that payload gives back the connection id,
    the address (without its zone), the data and the flags, of which only
    the IPV6 bit is recomputed from the address. *)
Theorem AppendFrame_roundtrip dst f c a d fr :
  AddrPort_wf a -> 0 <= f < 256 -> 0 <= c < 65536 ->
  has_flag f FlagKeepalive = false ->
  AppendFrame dst f c a d = Ok fr ->
  exists payload,
    fr = dst ++ put_le16 (len payload) ++ payload /\
    len payload <= MaxPayload /\
    len fr = len dst + FrameLen a (len d) /\
    ParsePacket payload = Ok (wire_packet f c a d).
Proof.
  intros Ha Hf Hc Hk. rewrite AppendFrame_eq by apply Ha.
  case_if; [done|]. intros [= <-].
  exists (frame_payload f c a d).
  pose proof (len_frame_payload f c a d (proj1 Ha)).
  split; [done|]. split; [lia|]. split; [len_lia|].
  by apply ParsePacket_payload.
Qed.

Lemma AppendFrame_roundtrip_witness :
  exists payload,
    AppendFrame [x01] 4 4660 (AddrPortFrom (Addr4 [x08; x08; x08; x08]) 53) [xff]
    = Ok ([x01] ++ put_le16 (len payload) ++ payload) /\
    ParsePacket payload =
    Ok (mkPacket 4 4660 (AddrPortFrom (Addr4 [x08; x08; x08; x08]) 53) [xff]).
Proof.
  destruct (AppendFrame_roundtrip [x01] 4 4660
    (AddrPortFrom (Addr4 [x08; x08; x08; x08]) 53) [xff]
    [x01; x0a; x00; x04; x34; x12; x08; x08; x08; x08; x00; x35; xff])
    as (p & E & _ & _ & Hp); [by split|lia|lia|done|vm_compute; reflexivity|].
  exists p. rewrite <- E. split; [vm_compute; reflexivity|exact Hp].
Defined.

(** Decode then encode: the parser accepts only canonical encodings, so
    re-encoding a decoded (non keepalive) payload gives the same bytes back
    behind their length prefix. *)
Theorem ParsePacket_canonical b p :
  ParsePacket b = Ok p -> has_flag (Flags p) FlagKeepalive = false ->
  len b <= MaxPayload ->
  AppendFrame [] (Flags p) (ConID p) (PAddr p) (Data p) = Ok (put_le16 (len b) ++ b).
Proof.
  intros Hp Hk Hl. destruct (ParsePacket_inv b p Hp Hk) as (Hw & _ & _ & _ & _ & E).
  rewrite AppendFrame_eq by apply Hw.
  rewrite <- (len_frame_payload (Flags p) (ConID p)) by apply Hw. rewrite E.
  by rewrite (proj2 (Z.ltb_ge _ _)) by lia.
Qed.

Lemma ParsePacket_canonical_witness :
  AppendFrame [] 2 1 (AddrPortFrom (Addr4 [x01; x02; x03; x04]) 258) [x41]
  = Ok (put_le16 10 ++ [x02; x01; x00; x01; x02; x03; x04; x01; x02; x41]).
Proof.
  apply (ParsePacket_canonical [x02; x01; x00; x01; x02; x03; x04; x01; x02; x41]
    (mkPacket 2 1 (AddrPortFrom (Addr4 [x01; x02; x03; x04]) 258) [x41]));
    [vm_compute; reflexivity|reflexivity|by vm_compute].
Defined.

(** The parser's error behaviour: it rejects exactly the payloads that are
    shorter than the header, or than the address its IPV6 flag announces;
    a keepalive is accepted whatever follows its header. *)
Theorem ParsePacket_error_iff b :
  ParsePacket b = Err errShort <->
  len b < headerLen \/
  (has_flag (b2z (byte_at 0 b)) FlagKeepalive = false /\
   len b < headerLen +
     if has_flag (b2z (byte_at 0 b)) FlagIPv6 then addr6Len else addr4Len).
Proof.
  destruct (Z.lt_ge_cases (len b) headerLen) as [Hs|Hs].
  { rewrite ParsePacket_short by done. naive_solver. }
  destruct b as [|f [|c0 [|c1 b]]]; unfold headerLen in *;
    rewrite ?len_cons, ?len_nil in *; try lia.
  rewrite ParsePacket_cons, byte_at_0. cbv zeta.
  destruct (has_flag _ FlagKeepalive), (has_flag _ FlagIPv6);
    unfold addr4Len, addr6Len; simpl; try case_if; split; intros;
    destruct_or?; destruct_and?; try done; try lia; right; split; done || lia.
Qed.

(** Encoding fails exactly when the payload would not fit its 16-bit
    length prefix, and the destination buffer is then returned unchanged. *)
Theorem AppendFrame_error_iff dst f c a d :
  AddrPort_wf a ->
  (is_ok (AppendFrame dst f c a d) = false <-> 65535 < FrameLen a (len d) - 2) /\
  (forall e, AppendFrame dst f c a d = Err e -> e = (dst, errLarge)).
Proof.
  intros Ha. rewrite AppendFrame_eq by apply Ha. unfold MaxPayload.
  case_if; simpl; (split; [split; [done || lia|done || lia]|]).
  - by intros e [= <-].
  - done.
Qed.
