(* ===== verification/Resolver.v ===== *)
(** The resolver of the udpgw server ([SystemDNS] and [StaticDNS] of
    [src/internal/udpgw/server.go]): where the packets with the DNS flag go. *)
From S2P Require Import Prelude GoStrings NetAddr NetParse.

(** The package variables behind the mutex ([dnsChecked] is the zero time at first),
    and the times at which the file was read. *)
Record resolver : Type := mkResolver {
  dnsCached : AddrPort;
  dnsOK : bool;
  dnsChecked : option Z;
  dns_reads : list Z
}.
Definition no_dns : resolver := mkResolver AddrPortZero false None [].

Definition dns_ttl : Z := 30 * 1000000000.

(** One line of /etc/resolv.conf. *)
Definition nameserver (line : gostring) : option AddrPort :=
  match fields line with
  | f0 :: f1 :: _ =>
      if eqb_str f0 (bs "nameserver")
      then (fun ip => AddrPortFrom ip 53) <$> ParseAddr (hd [] (split_on x25 f1))
      else None
  | _ => None
  end.
Fixpoint first_nameserver (lines : list gostring) : option AddrPort :=
  match lines with
  | [] => None
  | line :: lines => match nameserver line with Some a => Some a | None => first_nameserver lines end
  end.

(** [file] is what reading the file gives at the moment of the call. *)
Definition SystemDNS (now : Z) (file : option gostring) (r : resolver) : resolver * (AddrPort * bool) :=
  let fresh := match dnsChecked r with Some t => now - t <? dns_ttl | None => false end in
  if fresh then (r, (dnsCached r, dnsOK r))
  else
    let reads := dns_reads r ++ [now] in
    match file with
    | None => (mkResolver (dnsCached r) false (Some now) reads, (dnsCached r, false))
    | Some data =>
        match first_nameserver (split_on x0a data) with
        | Some a => (mkResolver a true (Some now) reads, (a, true))
        | None => (mkResolver (dnsCached r) false (Some now) reads, (dnsCached r, false))
        end
    end.

(** The function a configuration gets: a fixed answer, or the system's. *)
Inductive dns_func : Type := fixedDNS (a : AddrPort) | systemDNS.
Definition StaticDNS (s : gostring) : dns_func :=
  let s := trim_space s in
  match ParseAddrPort s with
  | Some a => fixedDNS a
  | None => match ParseAddr s with
            | Some ip => fixedDNS (AddrPortFrom ip 53)
            | None => systemDNS
            end
  end.
(** [startUDPGW] of the daemon, on the setting [udpgw.dns]. *)
Definition configured_dns (setting : gostring) : dns_func :=
  match setting with [] => systemDNS | _ => StaticDNS setting end.

Definition call_dns (f : dns_func) (now : Z) (file : option gostring) (r : resolver)
    : resolver * (AddrPort * bool) :=
  match f with fixedDNS a => (r, (a, true)) | systemDNS => SystemDNS now file r end.

(* ------------------------------------------------------------------ *)
(** * Properties                                                         *)
(* ------------------------------------------------------------------ *)

(** The calls of all the clients, in the order of the mutex, at the times of a clock
    that never goes back, each with the content of the file at that moment. *)
Inductive calls : Z -> resolver -> Prop :=
| calls_none t : calls t no_dns
| calls_one t now file r : calls t r -> t <= now -> calls now (SystemDNS now file r).1.

(** What a resolver has been through: the last read, and what it found. *)
Definition settled (t : Z) (r : resolver) : Prop :=
  match dnsChecked r with
  | None => dns_reads r = [] /\ dnsOK r = false
  | Some c => c <= t /\ last (dns_reads r) = Some c
  end /\
  forall i a b, dns_reads r !! i = Some a -> dns_reads r !! S i = Some b -> a + dns_ttl <= b.

Lemma SystemDNS_settled t now file r : t <= now -> settled t r -> settled now (SystemDNS now file r).1.
Proof.
  intros Ht [Hc Hs]. unfold SystemDNS.
  destruct (match dnsChecked r with Some c => now - c <? dns_ttl | None => false end) eqn:Ef.
  - cbn [fst]. split; [|done]. destruct (dnsChecked r); [|done]. destruct Hc. split; [lia|done].
  - assert (Hend : forall cached ok, settled now (mkResolver cached ok (Some now) (dns_reads r ++ [now]))).
    { intros cached ok. split; cbn; [by rewrite last_snoc|].
      intros i a b Ha Hb.
      apply lookup_app_Some in Hb as [Hb|[Hl Hb]].
      { rewrite lookup_app_l in Ha by (apply lookup_lt_Some in Hb; lia). by eapply Hs. }
      apply list_lookup_singleton_Some in Hb as [Hi <-].
      rewrite lookup_app_l in Ha by lia.
      destruct (dnsChecked r) as [c|]; [|destruct Hc as [E _]; by rewrite E, lookup_nil in Ha].
      destruct Hc as [_ Hlast]. rewrite last_lookup in Hlast.
      replace (pred (length (dns_reads r))) with i in Hlast by lia.
      rewrite Ha in Hlast. injection Hlast as ->. lia. }
    destruct file as [data|]; [destruct (first_nameserver _)|]; apply Hend.
Qed.

Lemma first_nameserver_spec lines : first_nameserver lines = head (omap nameserver lines).
Proof.
  induction lines as [|l lines IH]; [done|]. cbn [first_nameserver omap list_omap].
  by destruct (nameserver l).
Qed.

(** The valid nameservers of the file, in order. *)
Definition file_nameservers (file : option gostring) : list AddrPort :=
  match file with None => [] | Some data => omap nameserver (split_on x0a data) end.

(** The system resolver reads the file at most once in 30 seconds, whoever asks and
    how often; a call that reads it answers with its first valid nameserver on port
    53, or with no success when there is none; a call in between repeats the answer
    of the last read. *)
Theorem SystemDNS_rate t now r file :
  calls t r -> t <= now ->
  let '(r', answer) := SystemDNS now file r in
  (forall i a b, dns_reads r' !! i = Some a -> dns_reads r' !! S i = Some b -> a + dns_ttl <= b) /\
  ((dns_reads r' = dns_reads r ++ [now] /\
    match file_nameservers file with
    | a :: _ => answer = (a, true)
    | [] => answer.2 = false
    end) \/
   (exists c, last (dns_reads r) = Some c /\ now < c + dns_ttl /\ r' = r /\
    answer = (dnsCached r, dnsOK r))).
Proof.
  intros Hr Ht. assert (Hset : settled t r).
  { clear Ht now file. induction Hr as [t|t now file r Hr IH Hle]; [|by eapply SystemDNS_settled].
    split; [by split|]. intros i a b Ha. cbn in Ha. by destruct i. }
  pose proof (SystemDNS_settled t now file r Ht Hset) as [_ Hs].
  destruct Hset as [Hc _]. revert Hs. unfold SystemDNS.
  destruct (match dnsChecked r with Some c => now - c <? dns_ttl | None => false end) eqn:Ef.
  - cbn [fst]. intros Hs. split; [done|]. right.
    destruct (dnsChecked r) as [c|]; [|done]. exists c. destruct Hc as [_ Hl].
    split; [done|]. split; [lia|done].
  - destruct file as [data|]; cbn [file_nameservers]; rewrite ?first_nameserver_spec;
      [destruct (omap nameserver _)|]; cbn [head fst dns_reads];
      intros Hs; (split; [exact Hs|]); by left.
Qed.

Definition resolv_conf : gostring :=
  bs "# local" ++ [x0a] ++ bs "nameserver not-an-address" ++ [x0a] ++ bs "nameserver fe80::1%eth0" ++ [x0a] ++
  bs "nameserver 1.1.1.1".

Lemma SystemDNS_rate_witness :
  let r := (SystemDNS 5 (Some resolv_conf) no_dns).1 in
  (SystemDNS 6 None r).2 =
    (AddrPortFrom (AddrFrom16 ([xfe; x80] ++ replicate 13 x00 ++ [x01])) 53, true) /\
  (SystemDNS (5 + dns_ttl) None r).2.2 = false.
Proof.
  assert (Hr : calls 5 (SystemDNS 5 (Some resolv_conf) no_dns).1) by (apply (calls_one 0); [constructor|lia]).
  split.
  - pose proof (SystemDNS_rate 5 6 _ None Hr ltac:(lia)) as Hx.
    destruct (SystemDNS 6 None _) as [r' a] eqn:E. destruct Hx as (_ & [(Hreads & _)|(c & _ & _ & _ & ->)]).
    + exfalso. apply (f_equal (fun p => dns_reads p.1)) in E. cbn [fst] in E. rewrite Hreads in E.
      by vm_compute in E.
    + vm_compute. reflexivity.
  - pose proof (SystemDNS_rate 5 (5 + dns_ttl) _ None Hr ltac:(unfold dns_ttl; lia)) as Hx.
    destruct (SystemDNS (5 + dns_ttl) None _) as [r' a] eqn:E.
    destruct Hx as (_ & [(_ & Ha)|(c & Hl & Hlt & _)]); [exact Ha|].
    vm_compute in Hl. injection Hl as <-. exfalso. unfold dns_ttl in Hlt. lia.
Defined.

(** An address in the configuration is taken as it is, with port 53 unless it names
    one; anything else means the system's resolver. *)
Lemma configured_dns_cases s :
  configured_dns s =
    match ParseAddrPort (trim_space s), ParseAddr (trim_space s) with
    | Some a, _ => fixedDNS a
    | None, Some ip => fixedDNS (AddrPortFrom ip 53)
    | None, None => systemDNS
    end.
Proof.
  destruct s as [|c s]; [by vm_compute|]. unfold configured_dns, StaticDNS. cbv zeta.
  generalize (trim_space (c :: s)). intros t. by destruct (ParseAddrPort t), (ParseAddr t).
Qed.

(** The examples of the test suite. *)
Example static_dns : StaticDNS (bs "1.1.1.1") = fixedDNS (AddrPortFrom (Addr4 [x01; x01; x01; x01]) 53) /\
  StaticDNS (bs "9.9.9.9:5353") = fixedDNS (AddrPortFrom (Addr4 [x09; x09; x09; x09]) 5353) /\
  StaticDNS (bs "2606:4700::1111") =
    fixedDNS (AddrPortFrom (AddrFrom16 ([x26; x06; x47; x00] ++ replicate 10 x00 ++ [x11; x11])) 53).
Proof. vm_compute. done. Qed.
