(* ===== verification/UdpgwServer.v ===== *)
(** The built-in UDP gateway of [src/internal/udpgw/server.go]: its clients,
    their UDP flows, the reader, flow readers, writer and reaper goroutines.
    Every critical section of the code (a span holding [c.mu] or [s.mu], or one
    atomic operation) is one function on the state; [step] interleaves them
    arbitrarily, which is what the goroutines do. *)
From S2P Require Import Prelude GoStrings NetAddr UdpgwProto.

(* ------------------------------------------------------------------ *)
(** * Configuration                                                      *)
(* ------------------------------------------------------------------ *)

Definition Second : Z := 1000000000.
Definition Minute : Z := 60 * Second.

Record Config : Type := mkConfig {
  MaxClients : Z;
  MaxFlows : Z;
  FlowIdle : Z;
  ClientIdle : Z;
  QueueLen : Z
}.

(** [Config.defaults]; the function fields ([DNS], [Logf]) are arguments of the
    operations that call them. *)
Definition defaults (c : Config) : Config :=
  {| MaxClients := if MaxClients c <=? 0 then 2048 else MaxClients c;
     MaxFlows := if MaxFlows c <=? 0 then 512 else MaxFlows c;
     FlowIdle := if FlowIdle c <=? 0 then 2 * Minute else FlowIdle c;
     ClientIdle := if ClientIdle c <? 0 then 0 else ClientIdle c;
     QueueLen := if QueueLen c <=? 0 then 512 else QueueLen c |}.

(* ------------------------------------------------------------------ *)
(** * State                                                              *)
(* ------------------------------------------------------------------ *)

(** A flow object is known by its address in the heap of its client, since the
    code compares flow pointers. *)
Definition fid := nat.
Definition cid := nat.

Record flow : Type := mkFlow {
  f_conid : Z;
  f_orig : AddrPort;
  f_target : AddrPort;
  f_lastUse : Z;
  f_closed : bool
}.

(** [c_heap] holds every flow ever allocated by the client; [c_closing] the
    flows some goroutine took out of the table and has still to close. *)
Record client : Type := mkClient {
  c_remotePort : Z;
  c_localPort : Z;
  c_since : Z;
  c_lastRecv : Z;
  c_bytesUp : Z;
  c_bytesDown : Z;
  c_flows : gmap Z fid;
  c_done : bool;
  c_closed : bool;
  c_out : list (list byte);
  c_heap : gmap fid flow;
  c_closing : list fid
}.

(** The atomic counters of the server. *)
Record counters : Type := mkCounters {
  k_totalConns : Z;
  k_flows : Z;
  k_packetsUp : Z;
  k_packetsDown : Z;
  k_bytesUp : Z;
  k_bytesDown : Z;
  k_dropped : Z
}.

Record Server : Type := mkServer {
  s_clients : gset cid;
  s_closed : bool;
  s_heap : gmap cid client;
  s_count : counters
}.

(** [NewServer] *)
Definition NewServer : Server :=
  mkServer ∅ false ∅ (mkCounters 0 0 0 0 0 0 0).

(** [Listen]: every address is tried; the errors of those that [net.Listen] refused. *)
Fixpoint Listen (listen : list byte -> option (list byte)) (addrs : list (list byte))
    (failed : gmap (list byte) (list byte)) : gmap (list byte) (list byte) :=
  match addrs with
  | [] => failed
  | a :: addrs => Listen listen addrs (match listen a with Some e => <[a := e]> failed | None => failed end)
  end.
Lemma Listen_failed listen addrs a : Listen listen addrs ∅ !! a = if bool_decide (a ∈ addrs) then listen a else None.
Proof.
  assert (H : forall failed, Listen listen addrs failed !! a =
    match (if bool_decide (a ∈ addrs) then listen a else None) with Some e => Some e | None => failed !! a end);
    [|rewrite H, lookup_empty; by destruct (if bool_decide _ then _ else _)].
  induction addrs as [|b addrs IH]; intros failed; [done|]. cbn [Listen]. rewrite IH.
  destruct (decide (a = b)) as [->|Hab].
  - rewrite (bool_decide_eq_true_2 (b ∈ b :: addrs)) by left.
    case_bool_decide; destruct (listen b) eqn:E; rewrite ?lookup_insert_eq; done.
  - rewrite (bool_decide_ext (a ∈ b :: addrs) (a ∈ addrs)) by (rewrite elem_of_cons; naive_solver).
    destruct (if bool_decide _ then _ else _); [done|]. destruct (listen b); [by rewrite lookup_insert_ne|done].
Qed.

(** Field updates. *)
Definition set_flows m c := mkClient (c_remotePort c) (c_localPort c) (c_since c)
  (c_lastRecv c) (c_bytesUp c) (c_bytesDown c) m (c_done c) (c_closed c) (c_out c)
  (c_heap c) (c_closing c).
Definition set_heap h c := mkClient (c_remotePort c) (c_localPort c) (c_since c)
  (c_lastRecv c) (c_bytesUp c) (c_bytesDown c) (c_flows c) (c_done c) (c_closed c) (c_out c)
  h (c_closing c).
Definition set_closing l c := mkClient (c_remotePort c) (c_localPort c) (c_since c)
  (c_lastRecv c) (c_bytesUp c) (c_bytesDown c) (c_flows c) (c_done c) (c_closed c) (c_out c)
  (c_heap c) l.
Definition set_out q c := mkClient (c_remotePort c) (c_localPort c) (c_since c)
  (c_lastRecv c) (c_bytesUp c) (c_bytesDown c) (c_flows c) (c_done c) (c_closed c) q
  (c_heap c) (c_closing c).
Definition set_done b c := mkClient (c_remotePort c) (c_localPort c) (c_since c)
  (c_lastRecv c) (c_bytesUp c) (c_bytesDown c) (c_flows c) b (c_closed c) (c_out c)
  (c_heap c) (c_closing c).
Definition set_cclosed b c := mkClient (c_remotePort c) (c_localPort c) (c_since c)
  (c_lastRecv c) (c_bytesUp c) (c_bytesDown c) (c_flows c) (c_done c) b (c_out c)
  (c_heap c) (c_closing c).
Definition set_lastRecv t c := mkClient (c_remotePort c) (c_localPort c) (c_since c)
  t (c_bytesUp c) (c_bytesDown c) (c_flows c) (c_done c) (c_closed c) (c_out c)
  (c_heap c) (c_closing c).
Definition add_bytes up down c := mkClient (c_remotePort c) (c_localPort c)
  (c_since c) (c_lastRecv c) (u64 (c_bytesUp c + up)) (u64 (c_bytesDown c + down))
  (c_flows c) (c_done c) (c_closed c) (c_out c) (c_heap c) (c_closing c).

Definition add_flows n k := mkCounters (k_totalConns k) (i64 (k_flows k + n))
  (k_packetsUp k) (k_packetsDown k) (k_bytesUp k) (k_bytesDown k) (k_dropped k).
Definition add_conn k := mkCounters (u64 (k_totalConns k + 1)) (k_flows k)
  (k_packetsUp k) (k_packetsDown k) (k_bytesUp k) (k_bytesDown k) (k_dropped k).
Definition add_up n k := mkCounters (k_totalConns k) (k_flows k)
  (u64 (k_packetsUp k + 1)) (k_packetsDown k) (u64 (k_bytesUp k + n))
  (k_bytesDown k) (k_dropped k).
Definition add_down n k := mkCounters (k_totalConns k) (k_flows k)
  (k_packetsUp k) (u64 (k_packetsDown k + 1)) (k_bytesUp k)
  (u64 (k_bytesDown k + n)) (k_dropped k).
Definition add_dropped k := mkCounters (k_totalConns k) (k_flows k)
  (k_packetsUp k) (k_packetsDown k) (k_bytesUp k) (k_bytesDown k)
  (u64 (k_dropped k + 1)).

(* ------------------------------------------------------------------ *)
(** * Flows of one client                                                *)
(* ------------------------------------------------------------------ *)

Definition set_fclosed f :=
  mkFlow (f_conid f) (f_orig f) (f_target f) (f_lastUse f) true.
Definition touch (now : Z) f :=
  mkFlow (f_conid f) (f_orig f) (f_target f) now (f_closed f).

Definition touch_flow (now : Z) (id : fid) (c : client) : client :=
  set_heap (alter (touch now) id (c_heap c)) c.

(** [closeFlow]: the compare-and-swap makes the close happen once. *)
Definition closeFlow (id : fid) (st : client * counters) : client * counters :=
  let '(c, k) := st in
  match c_heap c !! id with
  | Some f =>
      if f_closed f then st
      else (set_heap (<[id := set_fclosed f]> (c_heap c)) c, add_flows (-1) k)
  | None => st
  end.

(** The scan for the least recently used flow, over the flows in the order
    [range c.flows] happened to visit them. *)
Fixpoint lru_scan (h : gmap fid flow) (lru : option (fid * flow)) (ord : list fid)
    : option (fid * flow) :=
  match ord with
  | [] => lru
  | o :: ord' =>
      match h !! o with
      | Some fo =>
          let better := match lru with
                        | None => true
                        | Some (_, fl) => f_lastUse fo <? f_lastUse fl
                        end in
          lru_scan h (if better then Some (o, fo) else lru) ord'
      | None => lru_scan h lru ord'
      end
  end.

(** Make room for a flow: at the limit the least recently used one goes. *)
Definition evict_lru (cfg : Config) (ord : list fid) (st : client * counters)
    : client * counters :=
  let '(c, k) := st in
  if MaxFlows cfg <=? Z.of_nat (size (c_flows c)) then
    match lru_scan (c_heap c) None ord with
    | Some (id, fl) =>
        closeFlow id (set_flows (delete (f_conid fl) (c_flows c)) c, k)
    | None => st
    end
  else st.

(** Where the datagrams of a new flow go: the resolver for a DNS-flagged packet
    when there is one, and always an unmapped address. *)
Definition flow_target (dns : option AddrPort) (p : Packet) : AddrPort :=
  let target :=
    if has_flag (Flags p) FlagDNS then default (PAddr p) dns else PAddr p in
  AddrPortFrom (Unmap (ap_addr target)) (ap_port target).

(** The part of [handle] that holds [c.mu]: find, replace or open the flow of
    the packet. [ord] is the iteration order of the map, [dns] what
    [cfg.DNS()] answers, [sock] whether the UDP socket could be opened. *)
Definition handle_locked (cfg : Config) (ord : list fid) (dns : option AddrPort)
    (sock : bool) (now : Z) (p : Packet) (st : client * counters)
    : (client * counters) * option fid :=
  let '(c, k) := st in
  if c_closed c then (st, None) else
  let '(st, f) :=
    match c_flows c !! ConID p with
    | Some id =>
        match c_heap c !! id with
        | Some fl =>
            if has_flag (Flags p) FlagRebind ||
               negb (bool_decide (f_orig fl = PAddr p))
            then (closeFlow id (set_flows (delete (ConID p) (c_flows c)) c, k), None)
            else (st, Some id)
        | None => (st, None)
        end
    | None => (st, None)
    end in
  match f with
  | Some id => (st, Some id)
  | None =>
      let st := evict_lru cfg ord st in
      if sock then
        let '(c, k) := st in
        let id := fresh (dom (c_heap c)) in
        let f := mkFlow (ConID p) (PAddr p) (flow_target dns p) now false in
        ((set_flows (<[ConID p := id]> (c_flows c))
            (set_heap (<[id := f]> (c_heap c)) c), add_flows 1 k), Some id)
      else (st, None)
  end.

(** The rest of [handle], after the unlock: send the datagram. *)
Definition handle_send (now : Z) (sent : bool) (p : Packet) (id : fid)
    (st : client * counters) : client * counters :=
  let '(c, k) := st in
  let c := touch_flow now id c in
  if sent then (add_bytes (len (Data p)) 0 c, add_up (len (Data p)) k)
  else (c, add_dropped k).

Definition handle (cfg : Config) (ord : list fid) (dns : option AddrPort)
    (sock : bool) (now now' : Z) (sent : bool) (p : Packet)
    (st : client * counters) : client * counters :=
  let '(st, f) := handle_locked cfg ord dns sock now p st in
  match f with
  | Some id => handle_send now' sent p id st
  | None => st
  end.

(** [reapFlows], the part under the lock: flows idle since before the cutoff
    leave the table; they are closed after the unlock. *)
Definition stale (cutoff : Z) (h : gmap fid flow) (id : fid) : bool :=
  match h !! id with Some f => f_lastUse f <? cutoff | None => false end.

Definition reap_locked (now idle : Z) (c : client) : client * list fid :=
  let cutoff := now - idle in
  let gone := filter (fun kv => stale cutoff (c_heap c) kv.2 = true) (c_flows c) in
  let ids := (map_to_list gone).*2 in
  (set_closing (c_closing c ++ ids)
     (set_flows (filter (fun kv => stale cutoff (c_heap c) kv.2 = false) (c_flows c)) c),
   ids).

(** Closing one of the flows a goroutine has taken out of the table. *)
Definition close_pending (id : fid) (st : client * counters) : client * counters :=
  let '(c, k) := closeFlow id st in
  (set_closing (filter (fun x => x <> id) (c_closing c)) c, k).

Definition reapFlows (now idle : Z) (st : client * counters) : client * counters :=
  let '(c, k) := st in
  let '(c, ids) := reap_locked now idle c in
  foldl (fun st id => close_pending id st) (c, k) ids.

(** [client.close]: [closeOnce] runs the body for the first caller only. The
    body first closes [done] (and the connection), then empties the table
    under the lock, and then closes the flows that were in it. *)
Definition close_begin (c : client) : option client :=
  if c_done c then None else Some (set_done true c).

Definition close_locked (c : client) : client * list fid :=
  let ids := (map_to_list (c_flows c)).*2 in
  (set_closing (c_closing c ++ ids) (set_flows ∅ (set_cclosed true c)), ids).

Definition client_close (st : client * counters) : client * counters :=
  let '(c, k) := st in
  match close_begin c with
  | None => st
  | Some c =>
      let '(c, ids) := close_locked c in
      foldl (fun st id => close_pending id st) (c, k) ids
  end.

(* ------------------------------------------------------------------ *)
(** * Replies                                                            *)
(* ------------------------------------------------------------------ *)

(** A datagram [d] arrived on the socket of flow [id] ([flowReader]): it is
    labelled with the address the client asked for and queued; it is dropped
    when the queue is full. When [done] is closed as well, the [select] may
    choose to stop instead ([stop]). *)
Definition flow_reply (cfg : Config) (now : Z) (stop : bool) (id : fid)
    (d : list byte) (st : client * counters) : client * counters :=
  let '(c, k) := st in
  match c_heap c !! id with
  | None => st
  | Some f =>
      let c := touch_flow now id c in
      match AppendFrame [] 0 (f_conid f) (f_orig f) d with
      | Err _ => (c, add_dropped k)
      | Ok frame =>
          let room := len (c_out c) <? QueueLen cfg in
          if c_done c && (stop || negb room) then (c, k)
          else if room
          then (add_bytes 0 (len d) (set_out (c_out c ++ [frame]) c), add_down (len d) k)
          else (c, add_dropped k)
      end
  end.

(** The read error branch of [flowReader], under the lock: the flow leaves the
    table if it is still the one stored there, and is closed afterwards
    (when it is not, the goroutine that removed it closes it). [open] is what
    [f.closed.Load()] answered before the lock was taken. *)
Definition flow_error_locked (open : bool) (id : fid) (c : client) : client :=
  match c_heap c !! id with
  | None => c
  | Some f =>
      if open && bool_decide (c_flows c !! f_conid f = Some id)
      then set_closing (c_closing c ++ [id])
             (set_flows (delete (f_conid f) (c_flows c)) c)
      else c
  end.

(** [writer] takes the queued frames one by one and writes them in order. *)
Definition writer_pop (c : client) : option (list byte * client) :=
  match c_out c with
  | [] => None
  | fr :: q => Some (fr, set_out q c)
  end.

(* ------------------------------------------------------------------ *)
(** * The server                                                         *)
(* ------------------------------------------------------------------ *)

Definition on_client (i : cid) (g : client * counters -> client * counters)
    (s : Server) : Server :=
  match s_heap s !! i with
  | Some c =>
      let '(c, k) := g (c, s_count s) in
      mkServer (s_clients s) (s_closed s) (<[i := c]> (s_heap s)) k
  | None => s
  end.

(** The scan of [startClient] for the oldest client. *)
Fixpoint oldest_scan (h : gmap cid client) (evict : option (cid * client))
    (ord : list cid) : option (cid * client) :=
  match ord with
  | [] => evict
  | o :: ord' =>
      match h !! o with
      | Some co =>
          let better := match evict with
                        | None => true
                        | Some (_, ce) => c_since co <? c_since ce
                        end in
          oldest_scan h (if better then Some (o, co) else evict) ord'
      | None => oldest_scan h evict ord'
      end
  end.

Definition new_client (now remotePort localPort : Z) : client :=
  mkClient remotePort localPort now now 0 0 ∅ false false [] ∅ [].

(** [startClient] under [s.mu]: the new client and the one to evict. *)
Definition startClient_locked (cfg : Config) (ord : list cid)
    (now remotePort localPort : Z) (s : Server)
    : option (Server * cid * option cid) :=
  if s_closed s then None
  else
    let evict :=
      if MaxClients cfg <=? Z.of_nat (size (s_clients s))
      then fst <$> oldest_scan (s_heap s) None ord else None in
    let i := fresh (dom (s_heap s)) in
    Some (mkServer ({[i]} ∪ s_clients s) false
            (<[i := new_client now remotePort localPort]> (s_heap s)) (s_count s),
          i, evict).

Definition removeClient (i : cid) (s : Server) : Server :=
  mkServer (s_clients s ∖ {[i]}) (s_closed s) (s_heap s) (s_count s).

(** [client.close] as the server sees it: the last thing it does is to remove
    the client, unless somebody else is already closing it. *)
Definition closeClient (i : cid) (s : Server) : Server :=
  match s_heap s !! i with
  | Some c =>
      if c_done c then s else removeClient i (on_client i client_close s)
  | None => s
  end.

(** Where a goroutine of [Serve] stands: before [Accept], with its back-off; in
    [startClient], until the client it evicts is closed; before the connection is
    counted; it has returned. *)
Inductive serving : Type :=
| svAccept (tempDelay : Z)
| svEvict (o : cid)
| svCount
| svReturned.
#[export] Instance serving_eq_dec : EqDecision serving.
Proof. solve_decision. Defined.

(** [startClient] up to the unlock, and what is left to do. [evict.close()] and the
    count come later, when other goroutines may have run. *)
Definition startClient (cfg : Config) (ord : list cid)
    (now remotePort localPort : Z) (s : Server) : serving * Server :=
  match startClient_locked cfg ord now remotePort localPort s with
  | None => (svAccept 0, s)
  | Some (s, _, Some o) => (svEvict o, s)
  | Some (s, _, None) => (svCount, s)
  end.
(** The rest: [evict.close()] returns when somebody has done the whole of the close, of
    which removing the client is the last. *)
Definition startClient_rest (pc : serving) (s : Server) : option (serving * Server) :=
  match pc with
  | svEvict o => if bool_decide (o ∈ s_clients s) then None else Some (svCount, s)
  | svCount => Some (svAccept 0, mkServer (s_clients s) (s_closed s) (s_heap s) (add_conn (s_count s)))
  | _ => None
  end.

(** One tick of [reaper] for one client of its snapshot. *)
Definition reap_client (cfg : Config) (now : Z) (i : cid) (s : Server) : Server :=
  match s_heap s !! i with
  | Some c =>
      if (0 <? ClientIdle cfg) && (ClientIdle cfg <? now - c_lastRecv c)
      then closeClient i s
      else on_client i (reapFlows now (FlowIdle cfg)) s
  | None => s
  end.

Definition reaper_tick (cfg : Config) (now : Z) (s : Server) : Server :=
  foldl (fun s i => reap_client cfg now i s) s (elements (s_clients s)).

(** [Server.Close]. *)
Definition Close (s : Server) : Server :=
  if s_closed s then s
  else
    foldl (fun s i => closeClient i s)
      (mkServer (s_clients s) true (s_heap s) (s_count s))
      (elements (s_clients s)).

(** [Server.Stats] and [Server.Clients]. *)
Record Stats : Type := mkStats {
  st_Clients : Z;
  st_Flows : Z;
  st_TotalConns : Z;
  st_PacketsUp : Z;
  st_PacketsDown : Z;
  st_BytesUp : Z;
  st_BytesDown : Z;
  st_Dropped : Z
}.

Definition stats (s : Server) : Stats :=
  let k := s_count s in
  mkStats (Z.of_nat (size (s_clients s))) (k_flows k) (k_totalConns k)
    (k_packetsUp k) (k_packetsDown k) (k_bytesUp k) (k_bytesDown k) (k_dropped k).

Record ClientInfo : Type := mkClientInfo {
  ci_RemotePort : Z;
  ci_LocalPort : Z;
  ci_Flows : Z;
  ci_BytesUp : Z;
  ci_BytesDown : Z;
  ci_Since : Z
}.

Definition client_info (c : client) : ClientInfo :=
  mkClientInfo (c_remotePort c) (c_localPort c) (Z.of_nat (size (c_flows c)))
    (c_bytesUp c) (c_bytesDown c) (c_since c).

Definition clients (s : Server) : list ClientInfo :=
  omap (fun i => client_info <$> s_heap s !! i) (elements (s_clients s)).

(** The accept loop of [Serve]. What [Accept] can answer: a connection, a
    timeout, [net.ErrClosed], or another error (out of descriptors). *)
Inductive accept_answer : Type :=
| AccConn
| AccTimeout
| AccClosed
| AccError.

Inductive serve_next : Type :=
| ServeReturn
| ServeSleep (d : Z) (tempDelay : Z)
| ServeStart.

Definition Millisecond : Z := 1000000.

(** One round of the loop, given [tempDelay] and whether [s.done] is closed. *)
Definition serve_round (done : bool) (tempDelay : Z) (r : accept_answer) : serve_next :=
  match r with
  | AccConn => ServeStart
  | AccTimeout =>
      let d := if tempDelay =? 0 then 5 * Millisecond
               else if Second <? tempDelay * 2 then Second else tempDelay * 2 in
      ServeSleep d d
  | AccClosed => ServeReturn
  | AccError =>
      if done then ServeReturn else ServeSleep (100 * Millisecond) tempDelay
  end.

(** One round of [Serve]: what [Accept] answered, and the client that is started. *)
Definition serve_accept (cfg : Config) (tempDelay : Z) (r : accept_answer) (ord : list cid)
    (now remotePort localPort : Z) (s : Server) : serving * Server :=
  match serve_round (s_closed s) tempDelay r with
  | ServeReturn => (svReturned, s)
  | ServeSleep _ d => (svAccept d, s)
  | ServeStart => startClient cfg ord now remotePort localPort s
  end.

(** Back-off is bounded: [tempDelay] is zero or between 5 ms and one second. *)
Definition delay_ok (t : Z) : Prop := t = 0 \/ 5 * Millisecond <= t <= Second.

Lemma serve_sleep_bounded done t r d t' :
  delay_ok t -> serve_round done t r = ServeSleep d t' ->
  5 * Millisecond <= d <= Second /\ delay_ok t'.
Proof.
  unfold serve_round, delay_ok, Second, Millisecond. intros Ht.
  destruct r; [done| |done|].
  - repeat case_if; intros [= <- <-]; lia.
  - case_if; [done|]. intros [= <- <-]. lia.
Qed.

(* ------------------------------------------------------------------ *)
(** * The invariant of one client                                        *)
(* ------------------------------------------------------------------ *)

(** The open flows of a client, in its table or not. *)
Definition open_flows (c : client) : gmap fid flow :=
  filter (fun kv => f_closed kv.2 = false) (c_heap c).
Definition open_count (c : client) : Z := Z.of_nat (size (open_flows c)).

Record client_inv (cfg : Config) (c : client) : Prop := {
  ci_table : forall k id, c_flows c !! k = Some id ->
    exists f, c_heap c !! id = Some f /\ f_closed f = false /\ f_conid f = k;
  ci_open : forall id f, c_heap c !! id = Some f -> f_closed f = false ->
    c_flows c !! f_conid f = Some id \/ id ∈ c_closing c;
  ci_closing : forall id, id ∈ c_closing c ->
    is_Some (c_heap c !! id) /\ forall k, c_flows c !! k <> Some id;
  ci_limit : Z.of_nat (size (c_flows c)) <= MaxFlows cfg;
  ci_done : c_closed c = true -> c_done c = true /\ c_flows c = ∅;
  ci_queue : len (c_out c) <= QueueLen cfg
}.

(** What an operation on one client owes to the rest of the server: its
    invariant, and the global flow counter in step with its open flows. *)
Definition good_step (cfg : Config) (st st' : client * counters) : Prop :=
  client_inv cfg st'.1 /\
  k_flows st'.2 = i64 (k_flows st.2 + (open_count st'.1 - open_count st.1)).

Lemma lookup_open_flows c id f :
  open_flows c !! id = Some f <-> c_heap c !! id = Some f /\ f_closed f = false.
Proof. unfold open_flows. by rewrite map_lookup_filter_Some. Qed.

Lemma open_count_heap c c' : c_heap c = c_heap c' -> open_count c = open_count c'.
Proof. unfold open_count, open_flows. by intros ->. Qed.

Lemma open_close c id f :
  c_heap c !! id = Some f -> f_closed f = false ->
  open_count (set_heap (<[id := set_fclosed f]> (c_heap c)) c) = open_count c - 1.
Proof.
  intros Hid Ho. unfold open_count.
  assert (E : open_flows (set_heap (<[id := set_fclosed f]> (c_heap c)) c)
              = delete id (open_flows c)).
  { unfold open_flows; simpl. rewrite map_filter_insert_False by done.
    by rewrite map_filter_delete. }
  rewrite E, map_size_delete, (proj2 (lookup_open_flows c id f)) by done.
  assert (size (open_flows c) <> 0%nat); [|lia].
  apply map_size_ne_0_lookup_2 with id. exists f. by apply lookup_open_flows.
Qed.

Lemma open_insert c id f :
  c_heap c !! id = None -> f_closed f = false ->
  open_count (set_heap (<[id := f]> (c_heap c)) c) = open_count c + 1.
Proof.
  intros Hid Ho. unfold open_count, open_flows; simpl.
  rewrite map_filter_insert_True by done.
  rewrite map_size_insert_None; [lia|].
  apply map_lookup_filter_None. left. done.
Qed.

Lemma open_touch now c id : open_count (touch_flow now id c) = open_count c.
Proof.
  unfold open_count, touch_flow. f_equal.
  assert (Hd : dom (open_flows (set_heap (alter (touch now) id (c_heap c)) c))
             = dom (open_flows c)).
  { apply set_eq. intros x. rewrite !elem_of_dom. unfold open_flows; simpl.
    split; intros [f Hf]; apply map_lookup_filter_Some in Hf as [Hf Hc]; simpl in *.
    - rewrite lookup_alter in Hf. case_decide; [|exists f; by apply map_lookup_filter_Some].
      subst. destruct (c_heap c !! x) as [g|] eqn:Eg; simplify_eq/=.
      exists g. by apply map_lookup_filter_Some.
    - destruct (decide (id = x)) as [->|].
      + exists (touch now f). apply map_lookup_filter_Some. split; [|done].
        rewrite lookup_alter_eq, Hf. done.
      + exists f. apply map_lookup_filter_Some. split; [|done].
        by rewrite lookup_alter_ne. }
  by rewrite <- !size_dom, Hd.
Qed.

(** Facts every operation uses: [closeFlow] of a flow that is not in the table
    keeps the invariant and the count. *)
Lemma closeFlow_closes id c k :
  is_Some (c_heap c !! id) ->
  exists f, c_heap (closeFlow id (c, k)).1 !! id = Some f /\ f_closed f = true.
Proof.
  intros [f Hf]. simpl. rewrite Hf. destruct (f_closed f) eqn:E; simpl.
  - eauto.
  - rewrite lookup_insert_eq. eauto.
Qed.

Lemma closeFlow_count id c k :
  k_flows (closeFlow id (c, k)).2 =
  if bool_decide (is_Some (open_flows c !! id)) then i64 (k_flows k - 1) else k_flows k.
Proof.
  simpl. destruct (c_heap c !! id) as [f|] eqn:E.
  - destruct (f_closed f) eqn:Ec.
    + rewrite bool_decide_eq_false_2; [done|].
      intros [g Hg]. apply lookup_open_flows in Hg as [??]. congruence.
    + rewrite bool_decide_eq_true_2; [done|]. exists f. by apply lookup_open_flows.
  - rewrite bool_decide_eq_false_2; [done|].
    intros [g Hg]. apply lookup_open_flows in Hg as [??]. congruence.
Qed.
