(* ===== verification/UdpgwReader.v ===== *)
(** The reading side of a udpgw client ([client.reader] of
    [src/internal/udpgw/server.go]): cutting the TCP stream into frames and
    handing the packets to [handle] in order. *)
From S2P Require Import Prelude NetAddr UdpgwProto.

(** Two [io.ReadFull] calls on the bytes the client still sends: the length
    prefix, then that many payload bytes; [None] when the stream ends first. *)
Definition read_frame (s : list byte) : option (list byte * list byte) :=
  if len s <? 2 then None else
  let n := le16 (slice_to 2 s) in
  let s := slice_from 2 s in
  if len s <? n then None else Some (slice_to n s, slice_from n s).

(** The packets [reader] passes to [handle]; [fuel] bounds the iterations, and
    the number of bytes is always enough (each iteration consumes two). *)
Fixpoint reader_loop (fuel : nat) (s : list byte) : list Packet :=
  match fuel with
  | O => []
  | S fuel =>
      match read_frame s with
      | None => []
      | Some (buf, s) =>
          match ParsePacket buf with
          | Err _ => reader_loop fuel s
          | Ok p =>
              if has_flag (Flags p) FlagKeepalive then reader_loop fuel s
              else p :: reader_loop fuel s
          end
      end
  end.

Definition reader (s : list byte) : list Packet := reader_loop (length s) s.

(** What a well-behaved client sends. *)
Inductive message : Type :=
| Keepalive
| Datagram (flags conid : Z) (addr : AddrPort) (data : list byte).

Definition message_ok (m : message) : Prop :=
  match m with
  | Keepalive => True
  | Datagram f c a d =>
      AddrPort_wf a /\ 0 <= f < 256 /\ 0 <= c < 65536 /\
      has_flag f FlagKeepalive = false /\ FrameLen a (len d) <= 2 + MaxPayload
  end.

Definition append_message (dst : list byte) (m : message) : list byte :=
  match m with
  | Keepalive => AppendKeepalive dst
  | Datagram f c a d =>
      match AppendFrame dst f c a d with Ok dst => dst | Err (dst, _) => dst end
  end.

Definition message_packets (m : message) : list Packet :=
  match m with
  | Keepalive => []
  | Datagram f c a d => [wire_packet f c a d]
  end.

(** The server's side of the contract: the packets of a list of messages. *)
Definition sent_packets (ms : list message) : list Packet :=
  concat (message_packets <$> ms).
Definition sent_bytes (ms : list message) : list byte :=
  foldl append_message [] ms.

Lemma read_frame_app payload k :
  len payload <= MaxPayload ->
  read_frame (put_le16 (len payload) ++ payload ++ k) = Some (payload, k).
Proof.
  intros Hl. unfold read_frame, MaxPayload in *.
  pose proof (len_nonneg payload). pose proof (len_nonneg k).
  rewrite (proj2 (Z.ltb_ge _ _)) by len_lia.
  rewrite slice_to_app, slice_from_app by done.
  rewrite <- (app_nil_r (put_le16 _)), le16_put by lia.
  rewrite (proj2 (Z.ltb_ge _ _)) by len_lia.
  by rewrite slice_to_app, slice_from_app.
Qed.

Lemma read_frame_shrinks s buf s' :
  read_frame s = Some (buf, s') -> (length s' < length s)%nat.
Proof.
  unfold read_frame. case_if; [done|]. case_if; [done|].
  intros [= _ <-]. unfold slice_from, len in *.
  rewrite !length_drop. lia.
Qed.

Lemma reader_loop_fuel n m s :
  (length s <= n)%nat -> (length s <= m)%nat -> reader_loop n s = reader_loop m s.
Proof.
  revert m s. induction n as [|n IH]; intros m s Hn Hm.
  - assert (s = []) as -> by (destruct s; simpl in *; [done|lia]). by destruct m.
  - destruct m as [|m].
    { assert (s = []) as -> by (destruct s; simpl in *; [done|lia]). done. }
    simpl. destruct (read_frame s) as [[buf s']|] eqn:E; [|done].
    apply read_frame_shrinks in E.
    destruct (ParsePacket buf); [|apply IH; lia].
    destruct (has_flag _ _); [apply IH; lia|]. f_equal. apply IH; lia.
Qed.

Lemma reader_unfold s :
  reader s = match read_frame s with
             | None => []
             | Some (buf, s) =>
                 match ParsePacket buf with
                 | Err _ => reader s
                 | Ok p =>
                     if has_flag (Flags p) FlagKeepalive then reader s
                     else p :: reader s
                 end
             end.
Proof.
  unfold reader at 1. rewrite (reader_loop_fuel (length s) (S (length s))) by lia.
  simpl. destruct (read_frame s) as [[buf s']|] eqn:E; [|done].
  apply read_frame_shrinks in E. unfold reader.
  rewrite (reader_loop_fuel (length s) (length s')) by lia. done.
Qed.

Lemma append_message_eq dst m :
  message_ok m ->
  exists payload,
    append_message dst m = dst ++ put_le16 (len payload) ++ payload /\
    len payload <= MaxPayload /\
    forall k, reader (put_le16 (len payload) ++ payload ++ k) =
              message_packets m ++ reader k.
Proof.
  destruct m as [|f c a d]; cbn [message_ok append_message message_packets].
  - intros _. exists [z2b FlagKeepalive; x00; x00]. split; [|split; [done|]].
    + unfold AppendKeepalive. by rewrite <- app_assoc.
    + intros k. by rewrite reader_unfold, read_frame_app.
  - intros (Ha & Hf & Hc & Hk & Hl).
    rewrite AppendFrame_eq by apply Ha. rewrite (proj2 (Z.ltb_ge _ _)) by lia.
    exists (frame_payload f c a d).
    pose proof (len_frame_payload f c a d (proj1 Ha)).
    split; [done|]. split; [lia|]. intros k.
    rewrite reader_unfold, read_frame_app by lia.
    rewrite ParsePacket_payload by done. unfold wire_packet. simpl.
    by rewrite wire_flags_keepalive, Hk.
Qed.

Lemma append_messages_eq dst ms :
  Forall message_ok ms ->
  exists s, foldl append_message dst ms = dst ++ s /\
    forall k, reader (s ++ k) = sent_packets ms ++ reader k.
Proof.
  intros Hms. revert dst. induction Hms as [|m ms Hm _ IH]; intros dst; simpl.
  - exists []. by rewrite app_nil_r.
  - destruct (append_message_eq dst m Hm) as (p & -> & _ & Hp).
    destruct (IH (dst ++ put_le16 (len p) ++ p)) as (s & -> & Hs).
    exists (put_le16 (len p) ++ p ++ s). split; [by rewrite <- !app_assoc|].
    intros k. rewrite <- !app_assoc, Hp, Hs.
    unfold sent_packets. simpl. by rewrite app_assoc.
Qed.

(** C5 End to end: whatever well-formed messages a client encodes one after the
    other, with keepalives in between and whatever follows them on the
    stream, the server hands exactly their packets to [handle], in order,
    before looking at the rest. *)
Theorem reader_stream ms k :
  Forall message_ok ms ->
  reader (sent_bytes ms ++ k) = sent_packets ms ++ reader k.
Proof.
  intros Hms. destruct (append_messages_eq [] ms Hms) as (s & E & Hs).
  unfold sent_bytes. by rewrite E.
Qed.

Lemma reader_stream_witness :
  let a := AddrPortFrom (Addr4 [x01; x02; x03; x04]) 443 in
  Forall message_ok [Keepalive; Datagram 0 7 a [x61]] /\
  reader (sent_bytes [Keepalive; Datagram 0 7 a [x61]] ++ [x05]) = [mkPacket 0 7 a [x61]].
Proof.
  assert (Hok : Forall message_ok
    [Keepalive; Datagram 0 7 (AddrPortFrom (Addr4 [x01; x02; x03; x04]) 443) [x61]]).
  { repeat constructor; vm_compute; done. }
  split; [exact Hok|]. rewrite (reader_stream _ [x05] Hok). vm_compute. reflexivity.
Defined.

(** Robustness of the reader: a frame that does not parse (a short or
    truncated packet) is skipped without losing the framing, so the frames
    after it are handled as if it had not been sent. *)
Theorem reader_skips_bad b k :
  len b <= MaxPayload -> ParsePacket b = Err errShort ->
  reader (put_le16 (len b) ++ b ++ k) = reader k.
Proof.
  intros Hl Hb. by rewrite reader_unfold, read_frame_app, Hb.
Qed.

Lemma reader_skips_bad_witness :
  reader (put_le16 2 ++ [x00; x01] ++ put_le16 9 ++
    [x00; x01; x00; x01; x02; x03; x04; x00; x35]) =
  [mkPacket 0 1 (AddrPortFrom (Addr4 [x01; x02; x03; x04]) 53) []].
Proof.
  rewrite (reader_skips_bad [x00; x01]); [vm_compute; reflexivity|by vm_compute|].
  vm_compute; reflexivity.
Defined.
