(* ===== verification/FramePool.v ===== *)
(** The buffers of the replies ([framePool], [flowReader], [releaseFrame] and [writer] of
    [src/internal/udpgw/server.go]): frames are slices of arrays that the goroutines of
    all clients share and use again. *)
From S2P Require Import Prelude GoStrings NetAddr UdpgwProto.

(* ------------------------------------------------------------------ *)
(** * Arrays and slices                                                  *)
(* ------------------------------------------------------------------ *)

(** An array by its address: its capacity and its bytes; a slice from its start. *)
Record array : Type := mkArray { a_cap : Z; a_bytes : list byte }.
Record frame_ref : Type := mkRef { r_arr : nat; r_len : nat }.

Definition content (heap : gmap nat array) (r : frame_ref) : list byte :=
  match heap !! r_arr r with Some a => take (r_len r) (a_bytes a) | None => [] end.

(** Where [flowReader] stands: waiting for a datagram; with a buffer for the frame of a
    datagram; with the frame, whose bytes are [f]. *)
Inductive reader : Type :=
| rdIdle
| rdGot (a : nat) (conid : Z) (orig : AddrPort) (data : list byte)
| rdFrame (r : frame_ref) (f : list byte).

(** Where [writer] stands: waiting; with a frame; with a frame that [bw.Write] has taken; gone. *)
Inductive writing : Type :=
| wtIdle
| wtHas (r : frame_ref)
| wtWritten (r : frame_ref)
| wtGone.

(** The arrays, the pool, the flow readers with their clients, and for each client its
    writer, its queue [out], the bytes given to the connection, and the frames that were
    queued so far, as values. *)
Record frames : Type := mkFrames {
  fr_heap : gmap nat array;
  fr_next : nat;
  fr_pool : list nat;
  fr_readers : gmap nat (nat * reader);
  fr_writers : gmap nat writing;
  fr_queues : gmap nat (list frame_ref);
  fr_written : gmap nat (list byte);
  fr_queued : gmap nat (list (list byte))
}.

Definition set_heap h n s := mkFrames h n (fr_pool s) (fr_readers s) (fr_writers s) (fr_queues s) (fr_written s) (fr_queued s).
Definition set_pool p s := mkFrames (fr_heap s) (fr_next s) p (fr_readers s) (fr_writers s) (fr_queues s) (fr_written s) (fr_queued s).
Definition set_reader i c rd s :=
  mkFrames (fr_heap s) (fr_next s) (fr_pool s) (<[i := (c, rd)]> (fr_readers s)) (fr_writers s) (fr_queues s) (fr_written s) (fr_queued s).
Definition end_reader i s :=
  mkFrames (fr_heap s) (fr_next s) (fr_pool s) (delete i (fr_readers s)) (fr_writers s) (fr_queues s) (fr_written s) (fr_queued s).
Definition set_writer c w s :=
  mkFrames (fr_heap s) (fr_next s) (fr_pool s) (fr_readers s) (<[c := w]> (fr_writers s)) (fr_queues s) (fr_written s) (fr_queued s).
Definition set_queue c q s :=
  mkFrames (fr_heap s) (fr_next s) (fr_pool s) (fr_readers s) (fr_writers s) (<[c := q]> (fr_queues s)) (fr_written s) (fr_queued s).
Definition add_written c b s :=
  mkFrames (fr_heap s) (fr_next s) (fr_pool s) (fr_readers s) (fr_writers s) (fr_queues s)
    (<[c := default [] (fr_written s !! c) ++ b]> (fr_written s)) (fr_queued s).
Definition add_queued c f s :=
  mkFrames (fr_heap s) (fr_next s) (fr_pool s) (fr_readers s) (fr_writers s) (fr_queues s) (fr_written s)
    (<[c := default [] (fr_queued s !! c) ++ [f]]> (fr_queued s)).

Definition queue (c : nat) (s : frames) : list frame_ref := default [] (fr_queues s !! c).
Definition written (c : nat) (s : frames) : list byte := default [] (fr_written s !! c).
Definition queued (c : nat) (s : frames) : list (list byte) := default [] (fr_queued s !! c).

(* ------------------------------------------------------------------ *)
(** * The operations                                                     *)
(* ------------------------------------------------------------------ *)

Definition pool_cap : Z := 2048.

(** A new array. *)
Definition make_array (cap : Z) (s : frames) : nat * frames :=
  (fr_next s, set_heap (<[fr_next s := mkArray cap []]> (fr_heap s)) (S (fr_next s)) s).
(** [framePool.Get]: one of the pool (the [k]-th), or a new one. *)
Definition pool_get (k : option nat) (s : frames) : nat * frames :=
  match k ≫= (fun k => fr_pool s !! k) with
  | Some a => (a, set_pool (take (default 0%nat k) (fr_pool s) ++ drop (S (default 0%nat k)) (fr_pool s)) s)
  | None => make_array pool_cap s
  end.
(** The buffer for a frame of [need] bytes. *)
Definition get_buffer (k : option nat) (need : Z) (s : frames) : nat * frames :=
  if need <=? pool_cap then pool_get k s else make_array need s.

(** [append] of [f] to the empty slice of an array: in place when there is room for it,
    otherwise in a new array of a capacity [grow]. *)
Definition append_into (a : nat) (grow : Z) (f : list byte) (s : frames) : frame_ref * frames :=
  match fr_heap s !! a with
  | Some arr =>
      if len f <=? a_cap arr
      then (mkRef a (length f),
            set_heap (<[a := mkArray (a_cap arr) (f ++ drop (length f) (a_bytes arr))]> (fr_heap s)) (fr_next s) s)
      else let '(b, s) := make_array grow s in
           (mkRef b (length f), set_heap (<[b := mkArray grow f]> (fr_heap s)) (fr_next s) s)
  | None => (mkRef a 0, s)
  end.

(** [releaseFrame]: only arrays of the pool's capacity go back. *)
Definition releaseFrame (r : frame_ref) (s : frames) : frames :=
  match fr_heap s !! r_arr r with
  | Some arr => if a_cap arr =? pool_cap then set_pool (r_arr r :: fr_pool s) s else s
  | None => s
  end.

(* ------------------------------------------------------------------ *)
(** * The goroutines                                                     *)
(* ------------------------------------------------------------------ *)

Inductive action : Type :=
| fClient (c : nat)
| fFlow (i c : nat)
| fGet (i : nat) (k : option nat) (conid : Z) (orig : AddrPort) (data : list byte)
| fFill (i : nat) (grow : Z)
| fSend (i : nat)
| fDrop (i : nat)
| fStop (i : nat)
| fRecv (c : nat)
| fWrite (c : nat)
| fWriteError (c : nat) (n : nat)
| fRelease (c : nat)
| fForget (k : nat).

Definition step (QueueLen : Z) (x : action) (s : frames) : option frames :=
  match x with
  | fClient c =>
      if bool_decide (fr_writers s !! c = None) then Some (set_writer c wtIdle s) else None
  | fFlow i c =>
      if bool_decide (fr_readers s !! i = None) then Some (set_reader i c rdIdle s) else None
  | fGet i k conid orig data =>
      match fr_readers s !! i with
      | Some (c, rdIdle) =>
          let '(a, s) := get_buffer k (FrameLen orig (len data)) s in
          Some (set_reader i c (rdGot a conid orig data) s)
      | _ => None
      end
  | fFill i grow =>
      match fr_readers s !! i with
      | Some (c, rdGot a conid orig data) =>
          match AppendFrame [] 0 conid orig data with
          | Err _ => Some (set_reader i c rdIdle s)
          | Ok f => let '(r, s) := append_into a grow f s in Some (set_reader i c (rdFrame r f) s)
          end
      | _ => None
      end
  | fSend i =>
      match fr_readers s !! i with
      | Some (c, rdFrame r f) =>
          if len (queue c s) <? QueueLen
          then Some (set_reader i c rdIdle (add_queued c f (set_queue c (queue c s ++ [r]) s)))
          else None
      | _ => None
      end
  | fDrop i =>
      match fr_readers s !! i with
      | Some (c, rdFrame r f) =>
          if len (queue c s) <? QueueLen then None
          else Some (set_reader i c rdIdle (releaseFrame r s))
      | _ => None
      end
  | fStop i =>
      match fr_readers s !! i with
      | Some (c, rdFrame r f) => Some (end_reader i s)
      | _ => None
      end
  | fRecv c =>
      match fr_writers s !! c, queue c s with
      | Some wtIdle, r :: q => Some (set_writer c (wtHas r) (set_queue c q s))
      | _, _ => None
      end
  | fWrite c =>
      match fr_writers s !! c with
      | Some (wtHas r) => Some (set_writer c (wtWritten r) (add_written c (content (fr_heap s) r) s))
      | _ => None
      end
  | fWriteError c n =>
      match fr_writers s !! c with
      | Some (wtHas r) => Some (set_writer c wtGone (add_written c (take n (content (fr_heap s) r)) s))
      | _ => None
      end
  | fRelease c =>
      match fr_writers s !! c with
      | Some (wtWritten r) => Some (set_writer c wtIdle (releaseFrame r s))
      | _ => None
      end
  | fForget k => Some (set_pool (take k (fr_pool s) ++ drop (S k) (fr_pool s)) s)
  end.

Fixpoint run (QueueLen : Z) (l : list action) (s : frames) : option frames :=
  match l with
  | [] => Some s
  | x :: l => s ← step QueueLen x s; run QueueLen l s
  end.

Definition frames_start : frames := mkFrames ∅ 0 [] ∅ ∅ ∅ ∅ ∅.
