(* ===== verification/FramePoolProps.v ===== *)
(** No reply is damaged by the sharing of buffers ([FramePool]): an array is in one place at
    a time, and what a writer writes is what was queued. *)
From S2P Require Import Prelude GoStrings NetAddr UdpgwProto FramePool.

(* ------------------------------------------------------------------ *)
(** * Who owns an array                                                  *)
(* ------------------------------------------------------------------ *)

Inductive place : Type :=
| plNone
| plPool
| plReader (i : nat)
| plQueue (c : nat)
| plWriter (c : nat).

Definition holder (rd : reader) : option nat :=
  match rd with rdIdle => None | rdGot a _ _ _ => Some a | rdFrame r _ => Some (r_arr r) end.
Definition w_holder (w : writing) : option nat :=
  match w with wtHas r | wtWritten r => Some (r_arr r) | _ => None end.

(** Every array that something refers to is owned by that, and by nothing else. *)
Record owned (own : nat -> place) (s : frames) : Prop := {
  ow_nodup : NoDup (fr_pool s);
  ow_pool : forall a, a ∈ fr_pool s -> own a = plPool;
  ow_reader : forall i c rd a, fr_readers s !! i = Some (c, rd) -> holder rd = Some a -> own a = plReader i;
  ow_apart : forall c, NoDup (r_arr <$> queue c s);
  ow_queue : forall c r, r ∈ queue c s -> own (r_arr r) = plQueue c;
  ow_writer : forall c w a, fr_writers s !! c = Some w -> w_holder w = Some a -> own a = plWriter c;
  ow_there : forall a, own a <> plNone -> is_Some (fr_heap s !! a) /\ (a < fr_next s)%nat
}.

(** Nothing refers to [a]. *)
Record unclaimed (a : nat) (s : frames) : Prop := {
  un_pool : a ∉ fr_pool s;
  un_reader : forall i c rd, fr_readers s !! i = Some (c, rd) -> holder rd <> Some a;
  un_queue : forall c r, r ∈ queue c s -> r_arr r <> a;
  un_writer : forall c w, fr_writers s !! c = Some w -> w_holder w <> Some a
}.

Definition upd (own : nat -> place) (a : nat) (p : place) : nat -> place :=
  fun x => if decide (x = a) then p else own x.
Lemma upd_eq own a p : upd own a p a = p.
Proof. unfold upd. by rewrite decide_True. Qed.
Lemma upd_ne own a p x : x <> a -> upd own a p x = own x.
Proof. intros. unfold upd. by rewrite decide_False. Qed.

Lemma relabel own a p s : owned own s -> unclaimed a s -> is_Some (fr_heap s !! a) -> (a < fr_next s)%nat ->
  owned (upd own a p) s.
Proof.
  intros [O1 O2 O3 O4 O5 O6 O7] [U1 U2 U3 U4] Hh Hn. split; try done.
  - intros x Hx. rewrite upd_ne by (by intros ->). by apply O2.
  - intros i c rd x Hi Hx. rewrite upd_ne by (intros ->; by eapply U2). by eapply O3.
  - intros c r Hr. rewrite upd_ne by by eapply U3. by eapply O5.
  - intros c w x Hw Hx. rewrite upd_ne by (intros ->; by eapply U4). by eapply O6.
  - intros x. unfold upd. case_decide; [by subst|]. apply O7.
Qed.

(** ** Taking a reference away *)

Lemma queue_set c c' q s : queue c' (set_queue c q s) = if decide (c' = c) then q else queue c' s.
Proof. unfold queue. cbn. rewrite lookup_insert. repeat case_decide; congruence || done. Qed.

Lemma pool_remove own k a s : owned own s -> fr_pool s !! k = Some a ->
  let s' := set_pool (take k (fr_pool s) ++ drop (S k) (fr_pool s)) s in owned own s' /\ unclaimed a s'.
Proof.
  intros [O1 O2 O3 O4 O5 O6 O7] Hk s'.
  assert (Hp : fr_pool s ≡ₚ a :: (take k (fr_pool s) ++ drop (S k) (fr_pool s))).
  { rewrite Permutation_middle. by rewrite <- (take_drop_middle (fr_pool s) k a) at 1. }
  pose proof O1 as Hnd. rewrite Hp in Hnd. apply NoDup_cons in Hnd as [Hn Hnd].
  assert (Ha : own a = plPool) by (apply O2; rewrite Hp; by left).
  split; split; try done.
  - intros x Hx. apply O2. rewrite Hp. by right.
  - intros i c rd Hi Hx. specialize (O3 _ _ _ _ Hi Hx). congruence.
  - intros c r Hr Hx. specialize (O5 _ _ Hr). congruence.
  - intros c w Hw Hx. specialize (O6 _ _ _ Hw Hx). congruence.
Qed.
Lemma pool_forget own k s : owned own s -> owned own (set_pool (take k (fr_pool s) ++ drop (S k) (fr_pool s)) s).
Proof.
  intros Ho. destruct (fr_pool s !! k) as [a|] eqn:E; [by eapply pool_remove|].
  apply lookup_ge_None in E. rewrite take_ge, drop_ge, app_nil_r by lia. by destruct s.
Qed.

(** A reader that refers to nothing any more, or is gone. *)
Lemma reader_other own i c rd rd' s : owned own s -> fr_readers s !! i = Some (c, rd) -> holder rd' = None ->
  owned own (set_reader i c rd' s) /\ owned own (end_reader i s) /\
  forall a, holder rd = Some a -> unclaimed a (set_reader i c rd' s).
Proof.
  intros [O1 O2 O3 O4 O5 O6 O7] Hi Hh. split_and!.
  - split; try done. intros j c' rd0 a. cbn. rewrite lookup_insert. case_decide; [|by apply O3].
    intros [= <- <-]. congruence.
  - split; try done. intros j c' rd0 a. cbn. rewrite lookup_delete. case_decide; [done|by apply O3].
  - intros a Ha. pose proof (O3 _ _ _ _ Hi Ha) as E. split.
    + intros Hx. specialize (O2 _ Hx). congruence.
    + intros j c' rd0. cbn. rewrite lookup_insert. case_decide; [intros [= <- <-]; congruence|].
      intros Hj Hx. specialize (O3 _ _ _ _ Hj Hx). congruence.
    + intros c' r Hr Hx. specialize (O5 _ _ Hr). congruence.
    + intros c' w Hw Hx. specialize (O6 _ _ _ Hw Hx). congruence.
Qed.
Lemma queue_pop own c r q s : owned own s -> queue c s = r :: q ->
  owned own (set_queue c q s) /\ unclaimed (r_arr r) (set_queue c q s).
Proof.
  intros [O1 O2 O3 O4 O5 O6 O7] Hq. pose proof (O4 c) as Hnd. rewrite Hq, fmap_cons in Hnd.
  apply NoDup_cons in Hnd as [Hn Hnd].
  assert (Hr : own (r_arr r) = plQueue c) by (apply O5; rewrite Hq; by left).
  split; split; try done.
  - intros c'. rewrite queue_set. by case_decide.
  - intros c' r'. rewrite queue_set. case_decide as E; [|by apply O5]. subst c'. intros H. apply O5. rewrite Hq. by right.
  - intros Hx. specialize (O2 _ Hx). congruence.
  - intros i c' rd Hi Hx. specialize (O3 _ _ _ _ Hi Hx). congruence.
  - intros c' r'. rewrite queue_set. case_decide as E.
    + subst c'. intros Hin Hx. apply Hn. rewrite <- Hx. by apply list_elem_of_fmap_2.
    + intros Hin Hx. specialize (O5 _ _ Hin). congruence.
  - intros c' w Hw Hx. specialize (O6 _ _ _ Hw Hx). congruence.
Qed.
Lemma writer_other own c w w' s : owned own s -> fr_writers s !! c = Some w -> w_holder w' = None ->
  owned own (set_writer c w' s) /\ forall a, w_holder w = Some a -> unclaimed a (set_writer c w' s).
Proof.
  intros [O1 O2 O3 O4 O5 O6 O7] Hc Hh. split.
  - split; try done. intros c' w0 a. cbn. rewrite lookup_insert. case_decide; [|by apply O6].
    intros [= <-]. congruence.
  - intros a Ha. pose proof (O6 _ _ _ Hc Ha) as E. split.
    + intros Hx. specialize (O2 _ Hx). congruence.
    + intros i c' rd Hi Hx. specialize (O3 _ _ _ _ Hi Hx). congruence.
    + intros c' r Hr Hx. specialize (O5 _ _ Hr). congruence.
    + intros c' w0. cbn. rewrite lookup_insert. case_decide; [intros [= <-]; congruence|].
      intros Hw Hx. specialize (O6 _ _ _ Hw Hx). congruence.
Qed.

(** ** Adding a reference *)

Lemma pool_add own a s : owned own s -> unclaimed a s -> own a = plPool -> owned own (set_pool (a :: fr_pool s) s).
Proof.
  intros [O1 O2 O3 O4 O5 O6 O7] [U1 _ _ _] Ha. split; try done.
  - by constructor.
  - intros x [->|Hx]%elem_of_cons; [done|by apply O2].
Qed.
Lemma reader_add own i c rd s : owned own s -> (forall a, holder rd = Some a -> own a = plReader i) ->
  owned own (set_reader i c rd s).
Proof.
  intros [O1 O2 O3 O4 O5 O6 O7] Ha. split; try done. intros j c' rd' x. cbn. rewrite lookup_insert.
  case_decide as E; [|by apply O3]. subst j. intros [= <- <-]. apply Ha.
Qed.
Lemma queue_add own c r s : owned own s -> unclaimed (r_arr r) s -> own (r_arr r) = plQueue c ->
  owned own (set_queue c (queue c s ++ [r]) s).
Proof.
  intros [O1 O2 O3 O4 O5 O6 O7] [_ _ U3 _] Hr. split; try done.
  - intros c'. rewrite queue_set. case_decide as E; [|by apply O4]. rewrite fmap_app. apply NoDup_app. split; [apply O4|].
    split; [|apply NoDup_singleton]. intros x (r' & -> & Hin)%list_elem_of_fmap Hx.
    apply list_elem_of_singleton in Hx. by eapply U3.
  - intros c' r'. rewrite queue_set. case_decide as E; [|by apply O5]. subst c'.
    intros [Hin|Hin]%elem_of_app; [by apply O5|]. by apply list_elem_of_singleton in Hin as ->.
Qed.
Lemma writer_add own c w s : owned own s -> (forall a, w_holder w = Some a -> own a = plWriter c) ->
  owned own (set_writer c w s).
Proof.
  intros [O1 O2 O3 O4 O5 O6 O7] Ha. split; try done. intros c' w' x. cbn. rewrite lookup_insert.
  case_decide as E; [|by apply O6]. subst c'. intros [= <-]. apply Ha.
Qed.

(** ** Arrays *)

(** A write to an array, and a new one. *)
Lemma heap_write own a arr s : owned own s ->
  owned own (set_heap (<[a := arr]> (fr_heap s)) (fr_next s) s).
Proof.
  intros [O1 O2 O3 O4 O5 O6 O7]. split; try done. intros x Hx. destruct (O7 x Hx) as [Hh Hn].
  split; [|done]. cbn. rewrite lookup_insert. by case_decide.
Qed.
Lemma fresh_unclaimed own s : owned own s -> own (fr_next s) = plNone /\ unclaimed (fr_next s) s.
Proof.
  intros [O1 O2 O3 O4 O5 O6 O7].
  assert (Hn : own (fr_next s) = plNone).
  { destruct (own (fr_next s)) eqn:E; [done|..]; destruct (O7 (fr_next s)) as [_ H]; congruence || lia. }
  split; [done|]. split.
  - intros Hx. specialize (O2 _ Hx). congruence.
  - intros i c rd Hi Hx. specialize (O3 _ _ _ _ Hi Hx). congruence.
  - intros c r Hr Hx. specialize (O5 _ _ Hr). congruence.
  - intros c w Hw Hx. specialize (O6 _ _ _ Hw Hx). congruence.
Qed.
Lemma make_owned own cap p s a s' : owned own s -> make_array cap s = (a, s') ->
  a = fr_next s /\ owned (upd own a p) s' /\ unclaimed a s'.
Proof.
  unfold make_array. intros Ho [= <- <-]. destruct (fresh_unclaimed own s Ho) as [Hn Hu].
  split; [done|]. destruct Ho as [O1 O2 O3 O4 O5 O6 O7].
  assert (Ho' : owned own (set_heap (<[fr_next s := mkArray cap []]> (fr_heap s)) (S (fr_next s)) s)).
  { split; try done. intros x Hx. destruct (O7 x Hx) as [Hh Hl]. split; [|cbn; lia].
    cbn. rewrite lookup_insert. by case_decide. }
  destruct Hu as [U1 U2 U3 U4]. split; [|by split].
  apply relabel; [done|by split| |cbn; lia]. cbn. rewrite lookup_insert_eq. by eexists.
Qed.

(** The references that are followed to read a frame. *)
Definition live (s : frames) (r : frame_ref) : Prop :=
  (exists i c f, fr_readers s !! i = Some (c, rdFrame r f)) \/ (exists c, r ∈ queue c s) \/
  (exists c, fr_writers s !! c = Some (wtHas r)).
Lemma live_owned own s r : owned own s -> live s r -> own (r_arr r) <> plNone.
Proof.
  intros [O1 O2 O3 O4 O5 O6 O7] [(i & c & f & Hi)|[(c & Hc)|(c & Hc)]].
  - by rewrite (O3 _ _ _ _ Hi eq_refl).
  - by rewrite (O5 _ _ Hc).
  - by rewrite (O6 _ _ _ Hc eq_refl).
Qed.
Lemma live_unclaimed s r a : live s r -> unclaimed a s -> r_arr r <> a.
Proof.
  intros [(i & c & f & Hi)|[(c & Hc)|(c & Hc)]] [U1 U2 U3 U4] <-.
  - by eapply U2.
  - by eapply U3.
  - by eapply U4.
Qed.

(* ------------------------------------------------------------------ *)
(** * What the frames hold                                               *)
(* ------------------------------------------------------------------ *)

Definition pending (c : nat) (s : frames) : list byte :=
  match fr_writers s !! c with Some (wtHas r) => content (fr_heap s) r | _ => [] end.
Definition waiting (c : nat) (s : frames) : list byte := mjoin (content (fr_heap s) <$> queue c s).

(** A reader's frame holds its bytes; what was queued was written, is being written, or
    is in the queue. *)
Record intact (s : frames) : Prop := {
  in_reader : forall i c r f, fr_readers s !! i = Some (c, rdFrame r f) -> content (fr_heap s) r = f;
  in_bytes : forall c, exists rest, mjoin (queued c s) = written c s ++ rest /\
    (fr_writers s !! c <> Some wtGone -> rest = pending c s ++ waiting c s)
}.

(** A change of the heap that no live reference sees. *)
Lemma intact_heap s h n : intact s -> (forall r, live s r -> content h r = content (fr_heap s) r) ->
  intact (set_heap h n s).
Proof.
  intros [R B] Hh. split.
  - intros i c r f Hi. cbn in *. rewrite Hh; [by eapply R|]. left. by exists i, c, f.
  - intros c. destruct (B c) as (rest & E & Hr). exists rest. split; [exact E|]. intros Hw. rewrite (Hr Hw).
    unfold pending, waiting, queue. cbn.
    assert (Hq : content h <$> default [] (fr_queues s !! c) = content (fr_heap s) <$> default [] (fr_queues s !! c)).
    { apply list_fmap_ext. intros k r Hk. apply Hh. right. left. exists c. by eapply list_elem_of_lookup_2. }
    f_equal; [|by rewrite Hq]. destruct (fr_writers s !! c) as [[]|] eqn:Ew; try done.
    rewrite Hh; [done|]. right. right. by exists c.
Qed.
Lemma intact_pool s p : intact s -> intact (set_pool p s).
Proof. intros [R B]. split; [exact R|exact B]. Qed.
Lemma intact_reader s i c rd : intact s -> (forall r f, rd = rdFrame r f -> content (fr_heap s) r = f) ->
  intact (set_reader i c rd s).
Proof.
  intros [R B] Hrd. split; [|exact B]. intros j c' r f. cbn. rewrite lookup_insert.
  case_decide; [intros [= _ ->]; by apply Hrd|by apply R].
Qed.
Lemma intact_end s i : intact s -> intact (end_reader i s).
Proof.
  intros [R B]. split; [|exact B]. intros j c' r f. cbn. rewrite lookup_delete. case_decide; [done|by apply R].
Qed.

(** A change of one client: its writer, its queue, what was written and queued. *)
Lemma intact_client s s' c : intact s -> fr_heap s' = fr_heap s -> fr_readers s' = fr_readers s ->
  (forall c', c' <> c -> fr_writers s' !! c' = fr_writers s !! c' /\ queue c' s' = queue c' s /\
     written c' s' = written c' s /\ queued c' s' = queued c' s) ->
  (exists rest, mjoin (queued c s') = written c s' ++ rest /\
     (fr_writers s' !! c <> Some wtGone -> rest = pending c s' ++ waiting c s')) ->
  intact s'.
Proof.
  intros [R B] Hh Hr Ho Hc. split; [by rewrite Hh, Hr|]. intros c'.
  destruct (decide (c' = c)) as [->|Hne]; [exact Hc|]. destruct (Ho c' Hne) as (E1 & E2 & E3 & E4).
  unfold pending, waiting. rewrite E1, E2, E3, E4, Hh. apply B.
Qed.

Lemma release_ok own r s : owned own s -> unclaimed (r_arr r) s -> own (r_arr r) <> plNone ->
  exists own', owned own' (releaseFrame r s).
Proof.
  intros Ho Hu Hn. destruct (ow_there _ _ Ho _ Hn) as [Hh Hl]. unfold releaseFrame.
  destruct (fr_heap s !! r_arr r) as [arr|] eqn:E; [|by exists own].
  destruct (a_cap arr =? pool_cap); [|by exists own].
  exists (upd own (r_arr r) plPool). apply pool_add; [|done|apply upd_eq].
  apply relabel; [done|done|by rewrite E|done].
Qed.
Lemma release_intact r s : intact s -> intact (releaseFrame r s).
Proof.
  intros Hi. unfold releaseFrame. destruct (fr_heap s !! r_arr r) as [arr|]; [|done].
  destruct (a_cap arr =? pool_cap); [by apply intact_pool|done].
Qed.

(** A buffer is given to one reader. *)
Lemma get_ok own i k need s a s' : owned own s -> intact s -> get_buffer k need s = (a, s') ->
  exists own', owned own' s' /\ own' a = plReader i /\ fr_readers s' = fr_readers s /\ intact s'.
Proof.
  intros Ho Hi. unfold get_buffer.
  assert (Hmake : forall cap, make_array cap s = (a, s') ->
    exists own', owned own' s' /\ own' a = plReader i /\ fr_readers s' = fr_readers s /\ intact s').
  { intros cap E. destruct (make_owned own cap (plReader i) s a s' Ho E) as (-> & Ho' & _).
    eexists. split; [exact Ho'|]. split; [apply upd_eq|]. injection E as <-. split; [done|].
    apply intact_heap; [done|]. intros r Hr. unfold content. rewrite lookup_insert_ne; [done|].
    intros E. apply (live_unclaimed s r (fr_next s) Hr); [|done]. by eapply fresh_unclaimed. }
  destruct (need <=? pool_cap); [|apply Hmake]. unfold pool_get.
  destruct (k ≫= _) as [x|] eqn:Ek; [|apply Hmake]. destruct k as [k|]; [|done]. cbn in Ek. intros [= <- <-]. cbn [default].
  destruct (pool_remove own k x s Ho Ek) as [Ho' Hu].
  exists (upd own x (plReader i)). split; [|split; [apply upd_eq|split; [done|by apply intact_pool]]].
  destruct (ow_there own s Ho x) as [Hh Hl].
  { rewrite (ow_pool own s Ho x); [done|]. by eapply list_elem_of_lookup_2. }
  by apply relabel.
Qed.

(** A frame is written into a buffer that nothing else refers to. *)
Lemma fill_ok own i c a conid orig data grow f s r s' : owned own s -> intact s ->
  fr_readers s !! i = Some (c, rdGot a conid orig data) -> append_into a grow f s = (r, s') ->
  exists own', owned own' s' /\ own' (r_arr r) = plReader i /\ intact s' /\ content (fr_heap s') r = f.
Proof.
  intros Ho Hi Hrd. pose proof (ow_reader _ _ Ho _ _ _ _ Hrd eq_refl) as Ha.
  destruct (ow_there _ _ Ho a) as [[arr Harr] Hl]; [by rewrite Ha|].
  unfold append_into. rewrite Harr. destruct (len f <=? a_cap arr).
  - intros [= <- <-]. exists own. split; [by apply heap_write|]. split; [exact Ha|]. split.
    + apply intact_heap; [done|]. intros r Hr. unfold content. rewrite lookup_insert_ne; [done|]. intros ->.
      destruct Hr as [(j & c' & f' & Hj)|[(c' & Hc)|(c' & Hc)]].
      * pose proof (ow_reader _ _ Ho _ _ _ _ Hj eq_refl) as E. cbn in E. rewrite Ha in E. injection E as <-. congruence.
      * pose proof (ow_queue _ _ Ho _ _ Hc). congruence.
      * pose proof (ow_writer _ _ Ho _ _ _ Hc eq_refl). congruence.
    + unfold content. cbn. rewrite lookup_insert_eq. cbn. by rewrite take_app_length.
  - destruct (make_array grow s) as [b s1] eqn:E.
    destruct (make_owned own grow (plReader i) s b s1 Ho E) as (-> & Ho1 & Hu1). intros [= <- <-].
    exists (upd own (fr_next s) (plReader i)). split; [by apply heap_write|]. split; [apply upd_eq|]. split.
    + injection E as <-. assert (Hf : unclaimed (fr_next s) s) by by eapply fresh_unclaimed.
      change (intact (set_heap (<[fr_next s := mkArray grow f]> (<[fr_next s := mkArray grow []]> (fr_heap s))) (S (fr_next s)) s)).
      apply intact_heap; [done|]. intros r Hr. unfold content.
      rewrite !lookup_insert_ne; [done|intros E; by apply (live_unclaimed s r (fr_next s) Hr)..].
    + unfold content. cbn. rewrite lookup_insert_eq. cbn. by rewrite firstn_all.
Qed.

(** ** Every step *)

Definition sound (s : frames) : Prop := (exists own, owned own s) /\ intact s.

Lemma owned_history own c b f s : owned own s ->
  owned own (add_written c b s) /\ owned own (add_queued c f s).
Proof. intros [O1 O2 O3 O4 O5 O6 O7]. split; by split. Qed.

Lemma sound_get L i k conid orig data s s' : sound s -> step L (fGet i k conid orig data) s = Some s' -> sound s'.
Proof.
  intros [[own Ho] Hi] H. cbn in H. destruct (fr_readers s !! i) as [[c []]|]; try done.
  destruct (get_buffer k _ s) as [a s1] eqn:E. injection H as <-.
  destruct (get_ok own i k _ s a s1 Ho Hi E) as (own' & Ho' & Ha & _ & Hi'). split.
  - exists own'. apply reader_add; [done|]. by intros x [= <-].
  - by apply intact_reader.
Qed.

Lemma sound_fill L i grow s s' : sound s -> step L (fFill i grow) s = Some s' -> sound s'.
Proof.
  intros [[own Ho] Hi] H. cbn in H. destruct (fr_readers s !! i) as [[c [|a conid orig data|]]|] eqn:Er; try done.
  destruct (AppendFrame _ _ _ _ _) as [f|e].
  - destruct (append_into a grow f s) as [r s1] eqn:E. injection H as <-.
    destruct (fill_ok own i c a conid orig data grow f s r s1 Ho Hi Er E) as (own' & Ho' & Ha & Hi' & Hc). split.
    + exists own'. apply reader_add; [done|]. by intros x [= <-].
    + apply intact_reader; [done|]. by intros ? ? [= <- <-].
  - injection H as <-. split; [|by apply intact_reader].
    exists own. by destruct (reader_other own i c _ rdIdle s Ho Er eq_refl).
Qed.

Lemma waiting_snoc c r s : waiting c (set_queue c (queue c s ++ [r]) s) = waiting c s ++ content (fr_heap s) r.
Proof.
  unfold waiting. rewrite queue_set, decide_True, fmap_app, join_app by done. cbn [fmap list_fmap mjoin list_join fr_heap set_queue].
  by rewrite app_nil_r.
Qed.

(** The three ends of a frame in the hands of its reader. *)
Lemma sound_leave L i x s s' : x = fSend i \/ x = fDrop i \/ x = fStop i ->
  sound s -> step L x s = Some s' -> sound s'.
Proof.
  intros Hx [[own Ho] Hi] H.
  assert (Hr : exists c r f, fr_readers s !! i = Some (c, rdFrame r f)).
  { destruct Hx as [-> | [-> | -> ] ]; cbn in H; destruct (fr_readers s !! i) as [[c []]|]; try done; by do 3 eexists. }
  destruct Hr as (c & r & f & Er).
  destruct (reader_other own i c _ rdIdle s Ho Er eq_refl) as (Ho1 & He & Hu). specialize (Hu _ eq_refl).
  pose proof (ow_reader _ _ Ho _ _ _ _ Er eq_refl) as Ha. cbn in Ha.
  destruct (ow_there _ _ Ho (r_arr r)) as [Hh Hl]; [by rewrite Ha|].
  pose proof (in_reader _ Hi _ _ _ _ Er) as Hf. pose proof (intact_reader s i c rdIdle Hi ltac:(done)) as Hi1.
  destruct Hx as [-> | [-> | -> ] ]; cbn in H; rewrite Er in H.
  - destruct (len (queue c s) <? L); [|done]. injection H as <-. split.
    + exists (upd own (r_arr r) (plQueue c)).
      apply (owned_history _ c [] f (set_queue c (queue c s ++ [r]) (set_reader i c rdIdle s))).
      apply (queue_add _ c r (set_reader i c rdIdle s)); [by apply relabel|done|apply upd_eq].
    + apply (intact_client (set_reader i c rdIdle s) _ c Hi1); [done|done| |].
      * intros c' Hne. unfold queued, written. cbn. rewrite !lookup_insert_ne by done. split_and!; try done.
        unfold queue. cbn. by rewrite lookup_insert_ne.
      * destruct (in_bytes _ Hi c) as (rest & E & Hrest). exists (rest ++ f). unfold queued in *. cbn.
        rewrite lookup_insert_eq. cbn. rewrite join_app, E, app_assoc. unfold written. cbn [mjoin list_join]. rewrite app_nil_r. split; [done|].
        intros Hw. rewrite (Hrest Hw), <- app_assoc. f_equal. rewrite <- Hf. symmetry. apply waiting_snoc.
  - destruct (len (queue c s) <? L); [done|]. injection H as <-.
    assert (E : set_reader i c rdIdle (releaseFrame r s) = releaseFrame r (set_reader i c rdIdle s)).
    { unfold releaseFrame. cbn. destruct (fr_heap s !! r_arr r) as [arr|]; [|done]. by destruct (a_cap arr =? pool_cap). }
    rewrite E. split; [|by apply release_intact]. eapply release_ok; [exact Ho1|done|]. by rewrite Ha.
  - injection H as <-. split; [by exists own|by apply intact_end].
Qed.

(** The steps of a writer. *)
Lemma sound_recv L c s s' : sound s -> step L (fRecv c) s = Some s' -> sound s'.
Proof.
  intros [[own Ho] Hi] H. cbn in H. destruct (fr_writers s !! c) as [[]|] eqn:Ew; try done.
  destruct (queue c s) as [|r q] eqn:Eq; [done|]. injection H as <-.
  destruct (queue_pop own c r q s Ho Eq) as [Ho1 Hu].
  assert (Ha : own (r_arr r) = plQueue c) by (apply (ow_queue _ _ Ho); rewrite Eq; by left).
  destruct (ow_there _ _ Ho (r_arr r)) as [Hh Hl]; [by rewrite Ha|]. split.
  - exists (upd own (r_arr r) (plWriter c)). apply writer_add; [by apply relabel|]. intros x [= <-]. apply upd_eq.
  - apply (intact_client s _ c Hi); [done|done| |].
    + intros c' Hne. cbn. rewrite lookup_insert_ne by done. split_and!; try done. unfold queue. cbn.
      by rewrite lookup_insert_ne.
    + destruct (in_bytes _ Hi c) as (rest & E & Hrest). exists rest. split; [exact E|]. intros _.
      rewrite Hrest by by rewrite Ew. unfold pending, waiting. rewrite Ew, Eq. cbn [fr_writers set_writer].
      rewrite lookup_insert_eq. change (queue c (set_writer c (wtHas r) (set_queue c q s))) with (queue c (set_queue c q s)).
      rewrite queue_set, decide_True by done. reflexivity.
Qed.

Lemma written_add c b s : written c (add_written c b s) = written c s ++ b.
Proof. unfold written. cbn. by rewrite lookup_insert_eq. Qed.
(** A writer that has passed on some of its frame: all of it, or as much as an error left. *)
Lemma sound_written own c r b b' w' s : owned own s -> intact s -> fr_writers s !! c = Some (wtHas r) ->
  content (fr_heap s) r = b ++ b' -> (w' <> wtGone -> b' = [] /\ forall r', w' <> wtHas r') ->
  (forall a, w_holder w' = Some a -> a = r_arr r) -> sound (set_writer c w' (add_written c b s)).
Proof.
  intros Ho Hi Ew Eb Hb Hw. split.
  - exists own. apply writer_add; [by apply (owned_history own c b [] s)|]. intros a Ha.
    rewrite (Hw a Ha). by apply (ow_writer _ _ Ho _ _ _ Ew).
  - apply (intact_client s _ c Hi); [done|done| |].
    + intros c' Hne. unfold written. cbn. rewrite !lookup_insert_ne by done. by split_and!.
    + destruct (in_bytes _ Hi c) as (rest & E & Hrest). exists (b' ++ waiting c s).
      change (written c (set_writer c w' (add_written c b s))) with (written c (add_written c b s)).
      rewrite written_add. split.
      * change (queued c (set_writer c w' (add_written c b s))) with (queued c s).
        rewrite E, Hrest by by rewrite Ew. unfold pending. by rewrite Ew, Eb, <- !app_assoc.
      * unfold pending. cbn [fr_writers set_writer]. rewrite lookup_insert_eq. intros Hne.
        destruct Hb as [-> Hnh]; [congruence|]. by destruct w'; [|destruct (Hnh r0)|..].
Qed.
Lemma sound_write L c x s s' : x = fWrite c \/ (exists n, x = fWriteError c n) ->
  sound s -> step L x s = Some s' -> sound s'.
Proof.
  intros Hx [[own Ho] Hi] H.
  destruct Hx as [->|[n ->]]; cbn in H; destruct (fr_writers s !! c) as [[]|] eqn:Ew; try done; injection H as <-.
  - apply (sound_written own c r _ [] _ s Ho Hi Ew); [by rewrite app_nil_r|done|]. by intros a [= <-].
  - apply (sound_written own c r _ (drop n (content (fr_heap s) r)) _ s Ho Hi Ew); [by rewrite take_drop|done|done].
Qed.
Lemma sound_release L c s s' : sound s -> step L (fRelease c) s = Some s' -> sound s'.
Proof.
  intros [[own Ho] Hi] H. cbn in H. destruct (fr_writers s !! c) as [[]|] eqn:Ew; try done. injection H as <-.
  destruct (writer_other own c _ wtIdle s Ho Ew eq_refl) as [Ho1 Hu]. specialize (Hu _ eq_refl).
  pose proof (ow_writer _ _ Ho _ _ _ Ew eq_refl) as Ha.
  assert (E : set_writer c wtIdle (releaseFrame r s) = releaseFrame r (set_writer c wtIdle s)).
  { unfold releaseFrame. cbn. destruct (fr_heap s !! r_arr r) as [arr|]; [|done]. by destruct (a_cap arr =? pool_cap). }
  rewrite E. split; [eapply release_ok; [exact Ho1|done|by rewrite Ha]|]. apply release_intact.
  apply (intact_client s _ c Hi); [done|done| |].
  - intros c' Hne. cbn. rewrite lookup_insert_ne by done. by split_and!.
  - destruct (in_bytes _ Hi c) as (rest & Eb & Hrest). exists rest. split; [exact Eb|]. intros _.
    rewrite Hrest by by rewrite Ew. unfold pending. rewrite Ew. cbn. by rewrite lookup_insert_eq.
Qed.

Lemma sound_step L x s s' : sound s -> step L x s = Some s' -> sound s'.
Proof.
  intros Hs H. destruct x as [c|i c|i k conid orig data|i grow|i|i|i|c|c|c n|c|k].
  - destruct Hs as [[own Ho] Hi]. cbn in H. case_bool_decide as En; [|done]. injection H as <-. split.
    + exists own. by apply writer_add.
    + apply (intact_client s _ c Hi); [done|done| |].
      * intros c' Hne. cbn. rewrite lookup_insert_ne by done. by split_and!.
      * destruct (in_bytes _ Hi c) as (rest & E & Hrest). exists rest. split; [exact E|]. intros _.
        rewrite Hrest by by rewrite En. unfold pending. rewrite En. cbn. by rewrite lookup_insert_eq.
  - destruct Hs as [[own Ho] Hi]. cbn in H. case_bool_decide; [|done]. injection H as <-. split.
    + exists own. by apply reader_add.
    + by apply intact_reader.
  - by eapply sound_get.
  - by eapply sound_fill.
  - eapply (sound_leave L i); [|exact Hs|exact H]. by left.
  - eapply (sound_leave L i); [|exact Hs|exact H]. right. by left.
  - eapply (sound_leave L i); [|exact Hs|exact H]. by right; right.
  - by eapply sound_recv.
  - eapply (sound_write L c); [|exact Hs|exact H]. by left.
  - eapply (sound_write L c); [|exact Hs|exact H]. right. by exists n.
  - by eapply sound_release.
  - destruct Hs as [[own Ho] Hi]. injection H as <-. split; [exists own; by apply pool_forget|by apply intact_pool].
Qed.

Lemma sound_start : sound frames_start.
Proof.
  split.
  - exists (fun _ => plNone). split; try done; [constructor|by intros a ?%elem_of_nil|constructor|].
    by intros c r ?%elem_of_nil.
  - split; [done|]. intros c. by exists [].
Qed.

Lemma sound_run L l s s' : sound s -> run L l s = Some s' -> sound s'.
Proof.
  revert s. induction l as [|x l IH]; intros s Hs; [by intros [= <-]|]. cbn [run].
  intros (s1 & E & H)%bind_Some. eapply IH; [|exact H]. by eapply sound_step.
Qed.

(** C6 Sharing buffers damages no reply: whatever the flow readers and writers of all
    clients do, in any order, and whichever buffers the pool gives out or forgets, an
    array is in one place at a time (the pool, one reader, one queue or one writer);
    what a client's connection was given is a prefix of the frames queued for that client, in
    order and byte for byte; and while the writer runs, the rest is exactly what the queue
    still holds. So the queues may be taken for queues of frames. *)
Theorem frames_intact L l s : run L l frames_start = Some s ->
  (exists own, owned own s) /\
  forall c, written c s `prefix_of` mjoin (queued c s) /\
    (fr_writers s !! c <> Some wtGone -> mjoin (queued c s) = written c s ++ pending c s ++ waiting c s).
Proof.
  intros H. destruct (sound_run L l _ _ sound_start H) as [Ho Hi]. split; [exact Ho|]. intros c.
  destruct (in_bytes _ Hi c) as (rest & E & Hrest). split; [by exists rest|]. intros Hw. by rewrite E, Hrest.
Qed.

(* ------------------------------------------------------------------ *)
(** * A concrete run                                                     *)
(* ------------------------------------------------------------------ *)

(** Two clients: the buffer of the first one's reply is used again for the second one's. *)
Definition reply_to : AddrPort := AddrPortFrom (Addr4 [x08; x08; x08; x08]) 53.
Definition reuse_run : list action :=
  [fClient 0; fFlow 0 0; fClient 1; fFlow 1 1;
   fGet 0 None 7 reply_to (bs "first"); fFill 0 0; fSend 0; fRecv 0; fWrite 0; fRelease 0;
   fGet 1 (Some 0%nat) 9 reply_to (bs "2nd"); fFill 1 0; fGet 0 None 7 reply_to (bs "third"); fFill 0 0;
   fSend 1; fSend 0; fRecv 1; fWrite 1].

Lemma frames_intact_witness : exists s, run 4 reuse_run frames_start = Some s /\
  written 1 s = mjoin (queued 1 s) /\ AppendFrame [] 0 9 reply_to (bs "2nd") = Ok (written 1 s) /\
  fr_next s = 2%nat.
Proof.
  destruct (run 4 reuse_run frames_start) as [s|] eqn:E; [|vm_compute in E; discriminate E].
  exists s. split; [reflexivity|].
  assert (Hs : run 4 reuse_run frames_start ≫= (fun s => Some (fr_writers s !! 1%nat, waiting 1 s, AppendFrame [] 0 9 reply_to (bs "2nd"), Ok (E := list byte * perror) (written 1 s), pending 1 s, fr_next s)) =
    Some (Some (wtWritten (mkRef 0 14)), [], AppendFrame [] 0 9 reply_to (bs "2nd"), AppendFrame [] 0 9 reply_to (bs "2nd"), [], 2%nat))
    by (vm_compute; reflexivity).
  rewrite E in Hs. injection Hs as Hw Hq Hf Hp Hn.
  destruct (frames_intact 4 reuse_run s E) as [_ Hc]. destruct (Hc 1%nat) as [_ Hall].
  split; [|split; [by rewrite Hf|exact Hn]].
  rewrite Hall by (rewrite Hw; discriminate). rewrite Hp, Hq. by rewrite !app_nil_r.
Defined.
