(* ===== verification/UdpgwInv.v ===== *)
(** Invariants of the udpgw server ([UdpgwServer]): the flow table of a client,
    the absence of leaked sockets and the flow counter, for every
    interleaving of the goroutines. *)
From S2P Require Import Prelude NetAddr UdpgwProto UdpgwServer.

(* ------------------------------------------------------------------ *)
(** * Tables                                                             *)
(* ------------------------------------------------------------------ *)

Lemma elem_of_values {K} `{Countable K} (m : gmap K fid) (id : fid) :
  id ∈ (map_to_list m).*2 <-> exists k, m !! k = Some id.
Proof.
  rewrite list_elem_of_fmap. split.
  - intros ([k v] & -> & Hk). exists k. by apply elem_of_map_to_list.
  - intros [k Hk]. exists (k, id). split; [done|]. by apply elem_of_map_to_list.
Qed.

Lemma inv_detach cfg c k id :
  client_inv cfg c -> c_flows c !! k = Some id ->
  client_inv cfg (set_closing (id :: c_closing c) (set_flows (delete k (c_flows c)) c)).
Proof.
  intros Hi Hk. destruct (ci_table _ _ Hi _ _ Hk) as (f & Hf & Ho & Hc).
  constructor; simpl.
  - intros k' id' [_ Hk']%lookup_delete_Some. by apply (ci_table _ _ Hi).
  - intros id' f' Hf' Ho'. destruct (ci_open _ _ Hi _ _ Hf' Ho') as [Ht|Hcl].
    + destruct (decide (f_conid f' = k)).
      * right. assert (id' = id) as -> by congruence. left.
      * left. by rewrite lookup_delete_ne.
    + right. by right.
  - intros id' [->|Hin]%elem_of_cons.
    + split; [by rewrite Hf|]. intros k' [Hne Hk']%lookup_delete_Some.
      destruct (ci_table _ _ Hi _ _ Hk') as (f' & Hf' & _ & Hc'). congruence.
    + destruct (ci_closing _ _ Hi _ Hin) as [Hs Hn]. split; [done|].
      intros k' [_ Hk']%lookup_delete_Some. by apply (Hn k').
  - pose proof (ci_limit _ _ Hi). rewrite map_size_delete, Hk. lia.
  - intros Hcl. destruct (ci_done _ _ Hi Hcl) as [? Hemp].
    split; [done|]. by rewrite Hemp in Hk.
  - apply (ci_queue _ _ Hi).
Qed.

Lemma inv_close cfg c k id l :
  client_inv cfg (set_closing (id :: l) c) ->
  (forall x, x ∈ c_closing c -> x ∈ l) ->
  (forall x, x ∈ l -> x = id \/ x ∈ c_closing c) ->
  client_inv cfg (closeFlow id (c, k)).1.
Proof.
  intros Hi Hsub Hsup.
  destruct (ci_closing _ _ Hi id) as [[f Hf] Hn]; simpl in *; [by left|].
  rewrite Hf.
  assert (Hop : forall id' f', c_heap c !! id' = Some f' -> f_closed f' = false ->
    id' = id \/ c_flows c !! f_conid f' = Some id' \/ id' ∈ c_closing c).
  { intros id' f' Hf' Ho'. destruct (ci_open _ _ Hi _ _ Hf' Ho') as [?|Hin]; [by auto|].
    simpl in Hin. apply elem_of_cons in Hin as [->|Hin]; [by auto|].
    destruct (Hsup _ Hin); auto. }
  assert (Hcl : forall id', id' ∈ c_closing c ->
    is_Some (c_heap c !! id') /\ forall k, c_flows c !! k <> Some id').
  { intros id' Hin. apply (ci_closing _ _ Hi). simpl. right. by apply Hsub. }
  destruct (f_closed f) eqn:Ec; simpl; constructor; simpl;
    try apply (ci_limit _ _ Hi); try apply (ci_done _ _ Hi); try apply (ci_queue _ _ Hi).
  - apply (ci_table _ _ Hi).
  - intros id' f' Hf' Ho'. destruct (Hop id' f' Hf' Ho') as [->|?]; [congruence|done].
  - apply Hcl.
  - intros k' id' Hk'. destruct (decide (id' = id)) as [->|]; [by edestruct Hn|].
    rewrite lookup_insert_ne by done. by apply (ci_table _ _ Hi).
  - intros id' f' [[<- <-]|[Hne Hf']]%lookup_insert_Some Ho'; [done|].
    destruct (Hop id' f' Hf' Ho') as [->|?]; done.
  - intros id' Hin. destruct (Hcl id' Hin) as [Hs ?]. split; [|done].
    destruct (decide (id = id')) as [->|]; [by rewrite lookup_insert_eq|].
    by rewrite lookup_insert_ne.
Qed.

(* ------------------------------------------------------------------ *)
(** * Steps that keep the counter                                        *)
(* ------------------------------------------------------------------ *)

(** The counter holds an int64. *)
Definition normal (k : counters) : Prop := k_flows k = i64 (k_flows k).

Lemma good_refl cfg c k : client_inv cfg c -> normal k -> good_step cfg (c, k) (c, k).
Proof. intros. split; [done|]. simpl. by rewrite Z.sub_diag, Z.add_0_r. Qed.

Lemma good_trans cfg st1 st2 st3 :
  good_step cfg st1 st2 -> good_step cfg st2 st3 -> good_step cfg st1 st3.
Proof.
  intros [_ H1] [Hi H2]. split; [done|]. rewrite H2, H1, swrap_add_l.
  f_equal. lia.
Qed.

Lemma good_normal cfg st st' : good_step cfg st st' -> normal st'.2.
Proof.
  intros [_ H]. unfold normal. rewrite H.
  rewrite <- (Z.add_0_r (i64 _)) at 2. by rewrite swrap_add_l, Z.add_0_r.
Qed.

(** A step that leaves the heap and the flow counter alone. *)
Lemma good_same cfg c c' k k' :
  client_inv cfg c' -> normal k -> open_count c' = open_count c ->
  k_flows k' = k_flows k -> good_step cfg (c, k) (c', k').
Proof.
  intros Hi Hn Hc Hk. split; [done|]. simpl. by rewrite Hc, Hk, Z.sub_diag, Z.add_0_r.
Qed.

Lemma closeFlow_open_count id c k :
  normal k ->
  k_flows (closeFlow id (c, k)).2 =
  i64 (k_flows k + (open_count (closeFlow id (c, k)).1 - open_count c)).
Proof.
  intros Hn. rewrite closeFlow_count. case_bool_decide as Ho.
  - destruct Ho as [f Hf]. apply lookup_open_flows in Hf as [Hf Hc].
    simpl. rewrite Hf, Hc. simpl. rewrite (open_close c id f) by done. f_equal. lia.
  - assert (E : (closeFlow id (c, k)).1 = c).
    { simpl. destruct (c_heap c !! id) as [f|] eqn:Ef; [|done].
      destruct (f_closed f) eqn:Ec; [done|]. destruct Ho. exists f.
      by apply lookup_open_flows. }
    by rewrite E, Z.sub_diag, Z.add_0_r.
Qed.

(** Taking a flow out of the table and closing it, under one lock. *)
Lemma good_remove_close cfg c k key id :
  client_inv cfg c -> normal k -> c_flows c !! key = Some id ->
  good_step cfg (c, k) (closeFlow id (set_flows (delete key (c_flows c)) c, k)).
Proof.
  intros Hi Hn Hk. split.
  - apply (inv_close _ _ _ _ (c_closing c)); [|done|by auto].
    by apply (inv_detach cfg c key id).
  - rewrite closeFlow_open_count by done. simpl. do 2 f_equal.
Qed.

(** Closing a flow taken out of the table earlier. *)
Lemma good_close_pending cfg c k id :
  client_inv cfg c -> normal k -> id ∈ c_closing c ->
  good_step cfg (c, k) (close_pending id (c, k)).
Proof.
  intros Hi Hn Hin. unfold close_pending.
  assert (Hc : client_inv cfg (set_closing (id :: c_closing c) c)).
  { constructor; simpl; try apply Hi.
    - intros id' f' Hf' Ho'. destruct (ci_open _ _ Hi _ _ Hf' Ho'); [by left|].
      right. by right.
    - intros id' [->|]%elem_of_cons; by apply (ci_closing _ _ Hi). }
  pose proof (inv_close cfg c k id (c_closing c) Hc ltac:(done) ltac:(auto)) as Hi'.
  pose proof (closeFlow_open_count id c k Hn) as Hk.
  assert (Hid : forall f, c_heap (closeFlow id (c, k)).1 !! id = Some f -> f_closed f = true).
  { intros f Hf. destruct (closeFlow_closes id c k) as (g & Hg & ?).
    - apply (ci_closing _ _ Hi _ Hin).
    - congruence. }
  assert (Hcl : c_closing (closeFlow id (c, k)).1 = c_closing c).
  { simpl. destruct (c_heap c !! id) as [f|]; [|done]. by destruct (f_closed f). }
  destruct (closeFlow id (c, k)) as [c' k']; simpl in *. split; [|done].
  constructor; simpl; try apply Hi'.
  - intros id' f' Hf' Ho'. destruct (ci_open _ _ Hi' _ _ Hf' Ho') as [|Hin']; [by left|].
    right. apply list_elem_of_filter. split; [|done]. intros ->.
    by rewrite (Hid _ Hf') in Ho'.
  - intros id' [_ Hin']%list_elem_of_filter. by apply (ci_closing _ _ Hi').
Qed.

(** Closing all the flows a goroutine took out of the table. *)
Lemma good_close_all cfg ids st :
  client_inv cfg st.1 -> normal st.2 -> NoDup ids ->
  (forall id, id ∈ ids -> id ∈ c_closing st.1) ->
  good_step cfg st (foldl (fun st id => close_pending id st) st ids).
Proof.
  revert st. induction ids as [|id ids IH]; intros [c k] Hi Hn Hnd Hin; cbn [foldl].
  - by apply good_refl.
  - apply NoDup_cons in Hnd as [Hnot Hnd].
    assert (Hg : good_step cfg (c, k) (close_pending id (c, k))).
    { apply good_close_pending; [done..|]. apply Hin. left. }
    eapply good_trans; [exact Hg|].
    apply IH; [apply Hg|by eapply good_normal|done|].
    intros id' Hin'.
    assert (E : c_closing (close_pending id (c, k)).1 =
                filter (fun x => x <> id) (c_closing c)).
    { unfold close_pending. simpl. destruct (c_heap c !! id) as [f|]; [|done].
      by destruct (f_closed f). }
    rewrite E. apply list_elem_of_filter. split; [by intros ->|].
    apply Hin. by right.
Qed.

(* ------------------------------------------------------------------ *)
(** * The least recently used flow                                       *)
(* ------------------------------------------------------------------ *)

Lemma lru_scan_spec h lru ord :
  match lru_scan h lru ord with
  | None => lru = None /\ forall o, o ∈ ord -> h !! o = None
  | Some (i, f) =>
      (lru = Some (i, f) \/ (i ∈ ord /\ h !! i = Some f)) /\
      (forall j g, lru = Some (j, g) -> f_lastUse f <= f_lastUse g) /\
      (forall o g, o ∈ ord -> h !! o = Some g -> f_lastUse f <= f_lastUse g)
  end.
Proof.
  revert lru. induction ord as [|o ord IH]; intros lru; cbn [lru_scan].
  - destruct lru as [[i f]|].
    + split; [by left|]. split; [by intros ?? [= <- <-]|]. by intros ?? ?%elem_of_nil.
    + split; [done|]. by intros ? ?%elem_of_nil.
  - destruct (h !! o) as [fo|] eqn:Ho.
    + set (better := match lru with None => true | Some (_, fl) => _ end).
      specialize (IH (if better then Some (o, fo) else lru)).
      assert (Hb : match lru with
                   | None => better = true
                   | Some (_, fl) => better = (f_lastUse fo <? f_lastUse fl)
                   end) by (by destruct lru as [[]|]).
      destruct (lru_scan h _ ord) as [[i f]|].
      * destruct IH as (Hor & Hmin & Hall). split_and!.
        -- destruct Hor as [Hor|[? ?]]; [|right; by split; [right|]].
           destruct better; [|by left]. simplify_eq. right. by split; [left|].
        -- intros j g ->. destruct better.
           ++ symmetry in Hb. apply Z.ltb_lt in Hb. specialize (Hmin _ _ eq_refl). lia.
           ++ by apply (Hmin j).
        -- intros o' g [->|Hin]%elem_of_cons Hg; [|by eapply Hall].
           rewrite Ho in Hg. simplify_eq. destruct better.
           ++ by apply (Hmin o).
           ++ destruct lru as [[j gl]|]; [|done]. symmetry in Hb.
              apply Z.ltb_ge in Hb. specialize (Hmin _ _ eq_refl). lia.
      * destruct IH as [Hlru Hn]. destruct better; [done|].
        destruct lru; done.
    + specialize (IH lru). destruct (lru_scan h lru ord) as [[i f]|].
      * destruct IH as (Hor & Hmin & Hall). split_and!; [|done|].
        -- destruct Hor as [|[? ?]]; [by left|]. right. split; [by right|done].
        -- intros o' g [->|Hin]%elem_of_cons Hg; [congruence|by eapply Hall].
      * destruct IH as [Hlru Hn]. split; [done|].
        intros o' [->|Hin]%elem_of_cons; [done|by apply Hn].
Qed.

(** The order in which [range c.flows] may visit the table. *)
Definition map_order (c : client) (ord : list fid) : Prop :=
  ord ≡ₚ (map_to_list (c_flows c)).*2.

Lemma map_order_values c ord id :
  map_order c ord -> id ∈ ord <-> exists k, c_flows c !! k = Some id.
Proof. intros Ho. rewrite Ho. apply elem_of_values. Qed.

(** The flow the eviction picks. *)
Lemma lru_found cfg c ord :
  client_inv cfg c -> map_order c ord -> 0 < MaxFlows cfg ->
  MaxFlows cfg <= Z.of_nat (size (c_flows c)) ->
  exists id f, lru_scan (c_heap c) None ord = Some (id, f) /\
    c_heap c !! id = Some f /\ c_flows c !! f_conid f = Some id /\
    forall k' id' f', c_flows c !! k' = Some id' -> c_heap c !! id' = Some f' ->
      f_lastUse f <= f_lastUse f'.
Proof.
  intros Hi Ho Hpos Hfull. pose proof (lru_scan_spec (c_heap c) None ord) as Hs.
  destruct (lru_scan (c_heap c) None ord) as [[id f]|].
  - destruct Hs as ([|[Hin Hf]] & _ & Hall); [done|]. exists id, f.
    apply (map_order_values _ _ _ Ho) in Hin as [k Hk].
    destruct (ci_table _ _ Hi _ _ Hk) as (f' & Hf' & _ & Hc).
    rewrite Hf in Hf'. simplify_eq. split_and!; [done..|].
    intros k' id' g Hk' Hg. apply (Hall id'); [|done].
    apply (map_order_values _ _ _ Ho). by exists k'.
  - destruct Hs as [_ Hn].
    assert (exists k id, c_flows c !! k = Some id) as (k & id & Hk).
    { destruct (map_choose (c_flows c)) as (k & id & ?); [|eauto].
      intros E. rewrite E, map_size_empty in Hfull. lia. }
    destruct (ci_table _ _ Hi _ _ Hk) as (f' & Hf' & _).
    rewrite Hn in Hf'; [done|]. apply (map_order_values _ _ _ Ho). by exists k.
Qed.

Lemma good_evict cfg ord c k :
  client_inv cfg c -> normal k -> map_order c ord -> 0 < MaxFlows cfg ->
  good_step cfg (c, k) (evict_lru cfg ord (c, k)) /\
  Z.of_nat (size (c_flows (evict_lru cfg ord (c, k)).1)) < MaxFlows cfg.
Proof.
  intros Hi Hn Ho Hpos. unfold evict_lru. case_if.
  - destruct (lru_found cfg c ord Hi Ho Hpos E) as (id & f & -> & Hf & Hk & _).
    split; [by apply good_remove_close|].
    assert (Efl : c_flows (closeFlow id (set_flows (delete (f_conid f) (c_flows c)) c, k)).1
              = delete (f_conid f) (c_flows c)).
    { simpl. rewrite Hf. by destruct (f_closed f). }
    rewrite Efl, map_size_delete, Hk. pose proof (ci_limit _ _ Hi). lia.
  - split; [by apply good_refl|done].
Qed.

(** Opening a flow in a table with room for it. *)
Lemma good_open cfg c k id f :
  client_inv cfg c -> normal k -> c_heap c !! id = None ->
  c_flows c !! f_conid f = None -> f_closed f = false -> c_closed c = false ->
  Z.of_nat (size (c_flows c)) < MaxFlows cfg ->
  good_step cfg (c, k)
    (set_flows (<[f_conid f := id]> (c_flows c)) (set_heap (<[id := f]> (c_heap c)) c),
     add_flows 1 k).
Proof.
  intros Hi Hn Hid Hnew Ho Hcl Hsz. split.
  - constructor; simpl.
    + intros k' id' [[<- <-]|[Hne Hk']]%lookup_insert_Some.
      * exists f. by rewrite lookup_insert_eq.
      * destruct (ci_table _ _ Hi _ _ Hk') as (f' & Hf' & ? & ?). exists f'.
        rewrite lookup_insert_ne by congruence. done.
    + intros id' f' [[<- <-]|[Hne Hf']]%lookup_insert_Some Ho'.
      * left. by rewrite lookup_insert_eq.
      * destruct (ci_open _ _ Hi _ _ Hf' Ho') as [Ht|]; [left|by right].
        rewrite lookup_insert_ne by congruence. done.
    + intros id' Hin. destruct (ci_closing _ _ Hi _ Hin) as [Hs Ht].
      assert (id <> id') by (intros ->; rewrite Hid in Hs; by destruct Hs).
      rewrite lookup_insert_ne by done. split; [done|].
      intros k' [[_ ?]|[_ Hk']]%lookup_insert_Some; [done|by apply (Ht k')].
    + rewrite map_size_insert_None by done. lia.
    + congruence.
    + apply (ci_queue _ _ Hi).
  - simpl. f_equal.
    assert (E : open_count (set_flows (<[f_conid f := id]> (c_flows c))
      (set_heap (<[id := f]> (c_heap c)) c)) = open_count c + 1).
    { rewrite <- (open_insert c id f) by done. by apply open_count_heap. }
    rewrite E. lia.
Qed.

(** The flow the packet already has, unless it must be replaced. *)
Definition keeps_flow (p : Packet) (fl : flow) : bool :=
  negb (has_flag (Flags p) FlagRebind || negb (bool_decide (f_orig fl = PAddr p))).


Lemma good_handle_locked cfg ord dns sock now p c k :
  client_inv cfg c -> normal k -> map_order c ord -> 0 < MaxFlows cfg ->
  good_step cfg (c, k) (handle_locked cfg ord dns sock now p (c, k)).1.
Proof.
  intros Hi Hn Ho Hpos. unfold handle_locked.
  destruct (c_closed c) eqn:Hcl; [by apply good_refl|].
  assert (Hnew : forall c' k',
    good_step cfg (c, k) (c', k') -> c_flows c' !! ConID p = None ->
    c_closed c' = false -> Z.of_nat (size (c_flows c')) < MaxFlows cfg ->
    good_step cfg (c, k)
      (set_flows (<[ConID p := fresh (dom (c_heap c'))]> (c_flows c'))
         (set_heap (<[fresh (dom (c_heap c')) :=
            mkFlow (ConID p) (PAddr p) (flow_target dns p) now false]> (c_heap c')) c'),
       add_flows 1 k')).
  { intros c' k' Hg Hno Hc' Hsz. eapply good_trans; [exact Hg|].
    apply (good_open cfg c' k' (fresh (dom (c_heap c')))
      (mkFlow (ConID p) (PAddr p) (flow_target dns p) now false));
      [apply Hg|by eapply (good_normal _ _ _ Hg)|
       apply not_elem_of_dom, is_fresh|done..]. }
  destruct (c_flows c !! ConID p) as [id|] eqn:Hid.
  - destruct (ci_table _ _ Hi _ _ Hid) as (fl & Hfl & Hop & Hconid). rewrite Hfl.
    destruct (_ || _); [|by apply good_refl].
    pose proof (good_remove_close cfg c k _ _ Hi Hn Hid) as Hg.
    assert (Efl : c_flows (closeFlow id (set_flows (delete (ConID p) (c_flows c)) c, k)).1
              = delete (ConID p) (c_flows c)).
    { simpl. rewrite Hfl. by destruct (f_closed fl). }
    assert (Ecl : c_closed (closeFlow id (set_flows (delete (ConID p) (c_flows c)) c, k)).1
              = false).
    { simpl. rewrite Hfl. by destruct (f_closed fl). }
    destruct (closeFlow _ _) as [c' k']; simpl in Efl, Ecl.
    assert (Hsz : Z.of_nat (size (c_flows c')) < MaxFlows cfg).
    { rewrite Efl, map_size_delete, Hid. pose proof (ci_limit _ _ Hi).
      assert (size (c_flows c) <> 0%nat); [|lia].
      apply map_size_ne_0_lookup_2 with (ConID p). by rewrite Hid. }
    unfold evict_lru. rewrite (proj2 (Z.leb_gt _ _)) by done.
    destruct sock; [|done]. apply Hnew; [done| |done|done].
    by rewrite Efl, lookup_delete_eq.
  - destruct (good_evict cfg ord c k Hi Hn Ho Hpos) as [Hg Hsz].
    assert (Hno : c_flows (evict_lru cfg ord (c, k)).1 !! ConID p = None /\
                  c_closed (evict_lru cfg ord (c, k)).1 = false).
    { unfold evict_lru. case_if; [|done].
      destruct (lru_scan _ _ _) as [[id fl]|]; [|done]. simpl.
      destruct (c_heap c !! id) as [f|]; [destruct (f_closed f)|];
        simpl; by rewrite lookup_delete_None; auto. }
    destruct (evict_lru cfg ord (c, k)) as [c' k']. destruct Hno.
    destruct sock; [|done]. by apply Hnew.
Qed.

Lemma inv_touch cfg now id c : client_inv cfg c -> client_inv cfg (touch_flow now id c).
Proof.
  intros Hi. assert (Hl : forall x, c_heap (touch_flow now id c) !! x =
    (if decide (id = x) then touch now <$> c_heap c !! x else c_heap c !! x)).
  { intros x. simpl. rewrite lookup_alter. by case_decide; subst. }
  constructor; try apply Hi.
  - intros k' id' Hk'. destruct (ci_table _ _ Hi _ _ Hk') as (f & Hf & ? & ?).
    rewrite Hl, Hf. case_decide; [by eexists|by exists f].
  - intros id' f' Hf' Ho'. rewrite Hl in Hf'. case_decide; [|by apply (ci_open _ _ Hi)].
    destruct (c_heap c !! id') as [f|] eqn:Ef; simplify_eq/=.
    by apply (ci_open _ _ Hi id' f).
  - intros id' Hin. destruct (ci_closing _ _ Hi _ Hin) as [[f Hf] ?].
    rewrite Hl, Hf. split; [|done]. by case_decide.
Qed.

Lemma good_touch cfg now id c k k' :
  client_inv cfg c -> normal k -> k_flows k' = k_flows k ->
  good_step cfg (c, k) (touch_flow now id c, k').
Proof.
  intros. apply good_same; [by apply inv_touch|done|apply open_touch|done].
Qed.

(** Changing fields the invariant does not read. *)
Lemma good_add_bytes cfg st u d c k k' :
  good_step cfg st (c, k) -> k_flows k' = k_flows k ->
  good_step cfg st (add_bytes u d c, k').
Proof.
  intros [Hi Hk] E. simpl in *. split.
  - destruct Hi. by constructor.
  - simpl. rewrite E, Hk. do 3 f_equal.
Qed.

Lemma good_handle_send cfg now sent p id c k :
  client_inv cfg c -> normal k -> good_step cfg (c, k) (handle_send now sent p id (c, k)).
Proof.
  intros. unfold handle_send. destruct sent.
  - eapply good_add_bytes; [by apply (good_touch _ _ _ _ _ k)|done].
  - by apply good_touch.
Qed.

Lemma good_flow_reply cfg now stop id d c k :
  client_inv cfg c -> normal k ->
  good_step cfg (c, k) (flow_reply cfg now stop id d (c, k)).
Proof.
  intros Hi Hn. unfold flow_reply.
  destruct (c_heap c !! id) as [f|]; [|by apply good_refl].
  destruct (AppendFrame _ _ _ _ _) as [fr|]; [|by apply good_touch].
  destruct (_ && _); [by apply good_touch|]. case_if; [|by apply good_touch].
  eapply good_add_bytes; [|done].
  apply (good_same _ _ _ _ k); [|done|apply open_touch|done].
  destruct (inv_touch _ now id _ Hi). constructor; simpl in *; try done.
  rewrite len_app, len_cons, len_nil. lia.
Qed.

(* ------------------------------------------------------------------ *)
(** * Taking several flows out of the table                              *)
(* ------------------------------------------------------------------ *)

Section detach_many.
Context (cfg : Config) (c : client) (keep gone : gmap Z fid).
Context (Hi : client_inv cfg c).
Context (Hsplit : forall k id, c_flows c !! k = Some id <->
  keep !! k = Some id \/ gone !! k = Some id).
Context (Hdisj : forall k id, keep !! k = Some id -> gone !! k = None).

Let ids := (map_to_list gone).*2.

Lemma detached_conid k id :
  keep !! k = Some id \/ gone !! k = Some id ->
  exists f, c_heap c !! id = Some f /\ f_conid f = k.
Proof.
  intros Hk. apply Hsplit in Hk. destruct (ci_table _ _ Hi _ _ Hk) as (f & ? & _ & ?).
  eauto.
Qed.

Lemma detached_NoDup : NoDup ids.
Proof.
  apply NoDup_fmap_2_strong; [|apply NoDup_map_to_list].
  intros [k1 v1] [k2 v2] H1%elem_of_map_to_list H2%elem_of_map_to_list Hv.
  simpl in *. subst.
  destruct (detached_conid k1 v2) as (f1 & ? & ?); [by right|].
  destruct (detached_conid k2 v2) as (f2 & ? & ?); [by right|]. congruence.
Qed.

Lemma inv_detach_many :
  client_inv cfg (set_closing (c_closing c ++ ids) (set_flows keep c)).
Proof.
  constructor; simpl.
  - intros k id Hk. apply (ci_table _ _ Hi). apply Hsplit. by left.
  - intros id f Hf Ho. destruct (ci_open _ _ Hi _ _ Hf Ho) as [Hk|].
    + apply Hsplit in Hk as [|Hk]; [by left|]. right. apply elem_of_app. right.
      apply elem_of_values. by eexists.
    + right. apply elem_of_app. by left.
  - intros id [Hin|Hin]%elem_of_app.
    + destruct (ci_closing _ _ Hi _ Hin) as [? Hn]. split; [done|].
      intros k Hk. apply (Hn k), Hsplit. by left.
    + apply elem_of_values in Hin as [k Hk].
      destruct (detached_conid k id) as (f & Hf & Hc); [by right|].
      split; [by rewrite Hf|]. intros k' Hk'.
      destruct (detached_conid k' id) as (f' & Hf' & Hc'); [by left|].
      pose proof (Hdisj _ _ Hk'). congruence.
  - pose proof (ci_limit _ _ Hi).
    assert (size keep <= size (c_flows c))%nat; [|lia].
    apply map_subseteq_size, map_subseteq_spec. intros k id Hk. apply Hsplit. by left.
  - intros Hcl. destruct (ci_done _ _ Hi Hcl) as [? Hemp]. split; [done|].
    apply map_empty. intros k. destruct (keep !! k) as [id|] eqn:Hk; [|done].
    assert (c_flows c !! k = Some id) as Hk' by (apply Hsplit; by left).
    by rewrite Hemp in Hk'.
  - apply (ci_queue _ _ Hi).
Qed.

Lemma good_detach_many k :
  normal k ->
  good_step cfg (c, k) (set_closing (c_closing c ++ ids) (set_flows keep c), k).
Proof. intros. apply good_same; [apply inv_detach_many|done..]. Qed.
End detach_many.

Lemma reap_split (c : client) (cutoff : Z) :
  let keep := filter (fun kv => stale cutoff (c_heap c) kv.2 = false) (c_flows c) in
  let gone := filter (fun kv => stale cutoff (c_heap c) kv.2 = true) (c_flows c) in
  (forall k id, c_flows c !! k = Some id <-> keep !! k = Some id \/ gone !! k = Some id) /\
  (forall k id, keep !! k = Some id -> gone !! k = None).
Proof.
  intros keep gone. split.
  - intros k id. unfold keep, gone. rewrite !map_lookup_filter_Some. simpl.
    destruct (stale cutoff (c_heap c) id); naive_solver.
  - intros k id [Hk Hs]%map_lookup_filter_Some. apply map_lookup_filter_None.
    right. intros id' Hk' Hs'. simpl in *. congruence.
Qed.

Lemma good_reap_locked cfg now idle c k :
  client_inv cfg c -> normal k ->
  let r := reap_locked now idle c in
  good_step cfg (c, k) (r.1, k) /\ NoDup r.2 /\
  (forall id, id ∈ r.2 -> id ∈ c_closing r.1).
Proof.
  intros Hi Hn r. destruct (reap_split c (now - idle)) as [Hs Hd].
  split; [|split].
  - by apply (good_detach_many cfg c _ _ Hi Hs Hd).
  - by apply (detached_NoDup cfg c _ _ Hi Hs).
  - intros id Hin. simpl. apply elem_of_app. by right.
Qed.

Lemma close_split (c : client) :
  (forall k id, c_flows c !! k = Some id <->
    (∅ : gmap Z fid) !! k = Some id \/ c_flows c !! k = Some id) /\
  (forall k id, (∅ : gmap Z fid) !! k = Some id -> c_flows c !! k = None).
Proof. split; naive_solver. Qed.

Lemma good_close_locked cfg c k :
  client_inv cfg c -> normal k -> c_done c = true ->
  let r := close_locked c in
  good_step cfg (c, k) (r.1, k) /\ NoDup r.2 /\
  (forall id, id ∈ r.2 -> id ∈ c_closing r.1).
Proof.
  intros Hi Hn Hdn r. destruct (close_split c) as [Hs Hd]. split; [|split].
  - apply good_same; [|done..].
    pose proof (inv_detach_many cfg c _ _ Hi Hs Hd) as Hm.
    destruct Hm. by constructor.
  - by apply (detached_NoDup cfg c _ _ Hi Hs).
  - intros id Hin. simpl. apply elem_of_app. by right.
Qed.

Lemma good_flow_error cfg open id c k :
  client_inv cfg c -> normal k -> good_step cfg (c, k) (flow_error_locked open id c, k).
Proof.
  intros Hi Hn. unfold flow_error_locked.
  destruct (c_heap c !! id) as [f|] eqn:Hf; [|by apply good_refl].
  destruct (open && _) eqn:Eb; [|by apply good_refl].
  apply andb_true_iff in Eb as [_ Hid%bool_decide_eq_true].
  apply good_same; [|done..].
  destruct (inv_detach cfg c (f_conid f) id Hi Hid) as [Ht Ho Hc].
  constructor; simpl in *; try done.
  - intros id' f' Hf' Ho'. destruct (Ho id' f' Hf' Ho') as [|Hin]; [by left|right].
    rewrite elem_of_app, list_elem_of_singleton. apply elem_of_cons in Hin. naive_solver.
  - intros id' Hin. apply Hc. rewrite elem_of_app, list_elem_of_singleton in Hin.
    rewrite elem_of_cons. naive_solver.
Qed.

Lemma good_done cfg c k :
  client_inv cfg c -> normal k -> good_step cfg (c, k) (set_done true c, k).
Proof.
  intros [] Hn. apply good_same; [|done..]. constructor; simpl; try done.
  naive_solver.
Qed.

Lemma good_lastRecv cfg t c k :
  client_inv cfg c -> normal k -> good_step cfg (c, k) (set_lastRecv t c, k).
Proof. intros [] Hn. apply good_same; [|done..]. by constructor. Qed.

Lemma good_pop cfg c k fr c' :
  client_inv cfg c -> normal k -> writer_pop c = Some (fr, c') ->
  good_step cfg (c, k) (c', k).
Proof.
  unfold writer_pop. intros Hi Hn Hp. destruct (c_out c) as [|x q] eqn:Eo; [done|].
  simplify_eq. destruct Hi as [? ? ? ? ? Hq]. apply good_same; [|done..].
  constructor; simpl; try done. rewrite Eo, len_cons in Hq. lia.
Qed.

(* ------------------------------------------------------------------ *)
(** * The step relation                                                  *)
(* ------------------------------------------------------------------ *)

(** One critical section of one goroutine of a client. *)
Inductive client_step (cfg : Config) : client * counters -> client * counters -> Prop :=
| CS_recv t c k :
    client_step cfg (c, k) (set_lastRecv t c, k)
| CS_handle ord dns sock now p c k :
    map_order c ord ->
    client_step cfg (c, k) (handle_locked cfg ord dns sock now p (c, k)).1
| CS_send now sent p id c k :
    client_step cfg (c, k) (handle_send now sent p id (c, k))
| CS_reap now idle c k :
    client_step cfg (c, k) ((reap_locked now idle c).1, k)
| CS_close_begin c c' k :
    close_begin c = Some c' -> client_step cfg (c, k) (c', k)
| CS_close_locked c k :
    c_done c = true -> client_step cfg (c, k) ((close_locked c).1, k)
| CS_close_pending id c k :
    id ∈ c_closing c -> client_step cfg (c, k) (close_pending id (c, k))
| CS_reply now stop id d c k :
    client_step cfg (c, k) (flow_reply cfg now stop id d (c, k))
| CS_flow_error open id c k :
    client_step cfg (c, k) (flow_error_locked open id c, k)
| CS_write fr c c' k :
    writer_pop c = Some (fr, c') -> client_step cfg (c, k) (c', k).

Inductive server_step (cfg : Config) : Server -> Server -> Prop :=
| SS_accept ord now rp lp s s' i evict :
    startClient_locked cfg ord now rp lp s = Some (s', i, evict) ->
    server_step cfg s s'
| SS_count s :
    server_step cfg s
      (mkServer (s_clients s) (s_closed s) (s_heap s) (add_conn (s_count s)))
| SS_client i c c' k' s :
    s_heap s !! i = Some c -> client_step cfg (c, s_count s) (c', k') ->
    server_step cfg s
      (mkServer (s_clients s) (s_closed s) (<[i := c']> (s_heap s)) k')
| SS_remove i c s :
    s_heap s !! i = Some c -> c_done c = true ->
    server_step cfg s (removeClient i s)
| SS_shut s :
    server_step cfg s (mkServer (s_clients s) true (s_heap s) (s_count s)).

Definition reachable (cfg : Config) (s : Server) : Prop :=
  rtc (server_step cfg) NewServer s.

(** All the open UDP sockets of the server. *)
Definition total_open (h : gmap cid client) : Z := map_sum open_count h.

Record server_inv (cfg : Config) (s : Server) : Prop := {
  si_client : forall i c, s_heap s !! i = Some c -> client_inv cfg c;
  si_count : k_flows (s_count s) = i64 (total_open (s_heap s));
  si_live : forall i c, s_heap s !! i = Some c -> c_done c = false -> i ∈ s_clients s;
  si_known : forall i, i ∈ s_clients s -> is_Some (s_heap s !! i)
}.

(** The operations on the table change only the table and the heap. *)
Lemma closeFlow_same id c k :
  exists h k', closeFlow id (c, k) = (set_heap h c, k').
Proof.
  simpl. destruct (c_heap c !! id) as [f|]; [destruct (f_closed f)|]; [|eauto|].
  all: exists (c_heap c), k; by destruct c.
Qed.

Lemma evict_lru_same cfg ord c k :
  exists m h k', evict_lru cfg ord (c, k) = (set_flows m (set_heap h c), k').
Proof.
  assert (Hid : exists m h k', (c, k) = (set_flows m (set_heap h c), k')).
  { exists (c_flows c), (c_heap c), k. by destruct c. }
  unfold evict_lru. case_if; [|done].
  destruct (lru_scan _ _ _) as [[id fl]|]; [|done].
  destruct (closeFlow_same id (set_flows (delete (f_conid fl) (c_flows c)) c) k)
    as (h & k' & ->). eauto.
Qed.

Lemma handle_locked_same cfg ord dns sock now p c k :
  exists m h k', (handle_locked cfg ord dns sock now p (c, k)).1
                 = (set_flows m (set_heap h c), k').
Proof.
  assert (Hid : exists m h k', (c, k) = (set_flows m (set_heap h c), k')).
  { exists (c_flows c), (c_heap c), k. by destruct c. }
  assert (Hopen : forall m h k0,
    exists m' h' k',
    (let st := evict_lru cfg ord (set_flows m (set_heap h c), k0) in
     if sock then
        let '(c, k) := st in
        let id := fresh (dom (c_heap c)) in
        let f := mkFlow (ConID p) (PAddr p) (flow_target dns p) now false in
        ((set_flows (<[ConID p := id]> (c_flows c))
            (set_heap (<[id := f]> (c_heap c)) c), add_flows 1 k), Some id)
      else (st, None)).1 = (set_flows m' (set_heap h' c), k')).
  { intros m h k0. cbv zeta.
    destruct (evict_lru_same cfg ord (set_flows m (set_heap h c)) k0)
      as (m1 & h1 & k1 & ->). destruct sock; simpl; do 3 eexists; reflexivity. }
  unfold handle_locked. destruct (c_closed c); [done|].
  pose proof (Hopen (c_flows c) (c_heap c) k) as Ho.
  assert (Ec : set_flows (c_flows c) (set_heap (c_heap c) c) = c) by by destruct c.
  rewrite Ec in Ho.
  destruct (c_flows c !! ConID p) as [id|]; [|exact Ho].
  destruct (c_heap c !! id) as [fl|]; [|exact Ho].
  destruct (_ || _); [|done].
  destruct (closeFlow_same id (set_flows (delete (ConID p) (c_flows c)) c) k)
    as (h & k' & ->). apply (Hopen (delete (ConID p) (c_flows c)) h k').
Qed.

Lemma client_step_good cfg st st' :
  0 < MaxFlows cfg -> client_inv cfg st.1 -> normal st.2 ->
  client_step cfg st st' ->
  good_step cfg st st' /\ (c_done st'.1 = false -> c_done st.1 = false).
Proof.
  intros Hpos Hi Hn Hs. destruct Hs; simpl in Hi, Hn.
  - split; [by apply good_lastRecv|done].
  - split; [by apply good_handle_locked|].
    destruct (handle_locked_same cfg ord dns sock now p c k) as (m & h & k' & ->). done.
  - split; [by apply good_handle_send|].
    unfold handle_send. by destruct sent.
  - split; [|done]. by apply (good_reap_locked cfg now idle c k).
  - unfold close_begin in *. destruct (c_done c) eqn:Hd; simplify_eq.
    split; [by apply good_done|done].
  - split; [|done]. by apply (good_close_locked cfg c k).
  - split; [by apply good_close_pending|]. unfold close_pending.
    by destruct (closeFlow_same id c k) as (h & k' & ->).
  - split; [by apply good_flow_reply|]. unfold flow_reply.
    destruct (c_heap c !! id); [|done]. destruct (AppendFrame _ _ _ _ _); [|done].
    cbv zeta. do 2 (case_if; [done|]). done.
  - split; [by apply good_flow_error|]. unfold flow_error_locked.
    destruct (c_heap c !! id); [|done]. by case_if.
  - split; [by eapply good_pop|]. unfold writer_pop in *. by destruct (c_out c); simplify_eq/=.
Qed.

Lemma server_step_inv cfg s s' :
  0 < MaxFlows cfg -> 0 <= QueueLen cfg ->
  server_inv cfg s -> server_step cfg s s' -> server_inv cfg s'.
Proof.
  intros Hpos Hq [Hc Hk Hl Hn] Hs. destruct Hs as [ord now rp lp s s' i evict Hst| | | |].
  - unfold startClient_locked in Hst. destruct (s_closed s); [done|]. simplify_eq.
    set (i := fresh (dom (s_heap s))).
    assert (Hi : s_heap s !! i = None) by apply not_elem_of_dom, is_fresh.
    constructor; simpl.
    + intros j c [[<- <-]|[_ Hj]]%lookup_insert_Some; [|by eapply Hc].
      constructor; simpl; try done.
      * intros id Hin. by apply elem_of_nil in Hin.
      * rewrite map_size_empty. lia.
    + unfold total_open in *. rewrite map_sum_new by done. by rewrite Hk.
    + intros j c [[<- <-]|[_ Hj]]%lookup_insert_Some Hd; [set_solver|].
      apply elem_of_union. right. by eapply Hl.
    + intros j [->%elem_of_singleton|Hj]%elem_of_union; [by rewrite lookup_insert_eq|].
      destruct (decide (i = j)) as [->|]; [by rewrite lookup_insert_eq|].
      rewrite lookup_insert_ne by done. by apply Hn.
  - by constructor.
  - destruct (client_step_good cfg (c, s_count s) (c', k')) as [[Hi' Hk'] Hd'];
      [done|by eapply Hc| |done|].
    { unfold normal. simpl. rewrite Hk. rewrite <- (Z.add_0_r (i64 _)) at 2.
      by rewrite swrap_add_l, Z.add_0_r. }
    simpl in *. constructor; simpl.
    + intros j cj [[<- <-]|[_ Hj]]%lookup_insert_Some; [done|by eapply Hc].
    + unfold total_open in *. by rewrite (map_sum_insert _ _ i c c'), Hk', Hk, swrap_add_l by done.
    + intros j cj [[<- <-]|[_ Hj]]%lookup_insert_Some Hdj; [|by eapply Hl].
      eapply Hl; [done|]. by apply Hd'.
    + intros j Hj. destruct (decide (i = j)) as [->|]; [by rewrite lookup_insert_eq|].
      rewrite lookup_insert_ne by done. by apply Hn.
  - constructor; simpl; [done..| |].
    + intros j cj Hj Hdj. apply elem_of_difference. split; [by eapply Hl|].
      intros ->%elem_of_singleton. congruence.
    + intros j [Hj _]%elem_of_difference. by apply Hn.
  - by constructor.
Qed.

Lemma reachable_inv cfg s :
  0 < MaxFlows cfg -> 0 <= QueueLen cfg -> reachable cfg s -> server_inv cfg s.
Proof.
  intros Hpos Hq Hr.
  assert (H0 : server_inv cfg NewServer) by (constructor; simpl; done).
  revert H0. induction Hr as [|s1 s2 s3 H12 _ IH]; intros H1; [done|].
  apply IH. by eapply server_step_inv.
Qed.

(* ------------------------------------------------------------------ *)
(** * Properties                                                         *)
(* ------------------------------------------------------------------ *)

(** C1 No UDP socket is leaked. In every state that any interleaving of the
    accept, reader, flow-reader, writer, reaper and close paths can reach:
    an open flow is in the table of its client or is about to be closed by
    the goroutine that removed it, a flow in a table is open and filed under
    its own connection id, and no table exceeds [MaxFlows]. *)
Theorem udpgw_no_leak cfg s i c :
  0 < MaxFlows cfg -> 0 <= QueueLen cfg ->
  reachable cfg s -> s_heap s !! i = Some c ->
  (forall id f, c_heap c !! id = Some f -> f_closed f = false ->
     c_flows c !! f_conid f = Some id \/ id ∈ c_closing c) /\
  (forall k id, c_flows c !! k = Some id ->
     exists f, c_heap c !! id = Some f /\ f_closed f = false /\ f_conid f = k) /\
  Z.of_nat (size (c_flows c)) <= MaxFlows cfg /\
  len (c_out c) <= QueueLen cfg.
Proof.
  intros Hpos Hq Hr Hi. pose proof (si_client _ _ (reachable_inv _ _ Hpos Hq Hr) _ _ Hi) as [].
  done.
Qed.

(** The configuration and the small run used by the witnesses: one client opens
    one flow. *)
Definition demo_cfg : Config := defaults (mkConfig 0 1 0 0 0).
Definition demo_addr : AddrPort := AddrPortFrom (Addr4 [x01; x02; x03; x04]) 443.
Definition demo_packet : Packet := mkPacket 0 7 demo_addr [x61].
Definition demo_accepted : Server :=
  match startClient_locked demo_cfg [] 5 40000 7300 NewServer with
  | Some (s, _, _) => s
  | None => NewServer
  end.
Definition demo_opened : client * counters :=
  (handle_locked demo_cfg [] None true 6 demo_packet
     (new_client 5 40000 7300, s_count demo_accepted)).1.
Definition demo_server : Server :=
  mkServer (s_clients demo_accepted) (s_closed demo_accepted)
    (<[0%nat := demo_opened.1]> (s_heap demo_accepted)) demo_opened.2.

Lemma demo_reachable : reachable demo_cfg demo_server.
Proof.
  apply (rtc_l _ _ demo_accepted).
  - eapply (SS_accept _ [] 5 40000 7300). vm_compute. reflexivity.
  - eapply rtc_l; [|apply rtc_refl].
    apply (SS_client _ 0%nat (new_client 5 40000 7300)); [vm_compute; reflexivity|].
    change (demo_opened.1, demo_opened.2) with demo_opened.
    apply (CS_handle demo_cfg [] None true 6 demo_packet). vm_compute. reflexivity.
Qed.

Lemma udpgw_no_leak_witness :
  s_heap demo_server !! 0%nat = Some demo_opened.1 /\
  Z.of_nat (size (c_flows demo_opened.1)) <= 1.
Proof.
  split; [reflexivity|].
  destruct (udpgw_no_leak demo_cfg demo_server 0%nat demo_opened.1
    ltac:(by vm_compute) ltac:(by vm_compute) demo_reachable eq_refl)
    as (_ & _ & H & _). exact H.
Defined.

(** The flow counter [Stats] reports is exact at every instant: it is the
    number of open UDP sockets over all clients ever accepted (as the int64
    the code keeps). *)
Theorem udpgw_flow_counter cfg s :
  0 < MaxFlows cfg -> 0 <= QueueLen cfg -> reachable cfg s ->
  st_Flows (stats s) = i64 (total_open (s_heap s)).
Proof. intros Hpos Hq Hr. apply (si_count _ _ (reachable_inv _ _ Hpos Hq Hr)). Qed.

Lemma udpgw_flow_counter_witness : st_Flows (stats demo_server) = 1.
Proof.
  rewrite (udpgw_flow_counter demo_cfg demo_server);
    [vm_compute; reflexivity|by vm_compute|by vm_compute|exact demo_reachable].
Defined.

(** C2 Disconnecting leaves nothing behind: once a client is closed and the
    goroutines that were closing its flows are done, it has no open socket
    and no table entry; when all clients are in that state the flow counter
    is back to zero. *)
Theorem udpgw_disconnect_clean cfg s :
  0 < MaxFlows cfg -> 0 <= QueueLen cfg -> reachable cfg s ->
  (forall i c, s_heap s !! i = Some c -> c_closed c = true -> c_closing c = [] ->
     c_flows c = ∅ /\ open_flows c = ∅) /\
  ((forall i c, s_heap s !! i = Some c -> c_closed c = true /\ c_closing c = []) ->
   st_Flows (stats s) = 0).
Proof.
  intros Hpos Hq Hr. pose proof (reachable_inv _ _ Hpos Hq Hr) as Hinv.
  assert (Hall : forall i c, s_heap s !! i = Some c -> c_closed c = true ->
    c_closing c = [] -> c_flows c = ∅ /\ open_flows c = ∅).
  { intros i c Hi Hcl Hcg. pose proof (si_client _ _ Hinv _ _ Hi) as Hci.
    destruct (ci_done _ _ Hci Hcl) as [_ Hemp]. split; [done|].
    apply map_empty. intros id. destruct (open_flows c !! id) as [f|] eqn:Hf; [|done].
    apply lookup_open_flows in Hf as [Hf Ho].
    destruct (ci_open _ _ Hci _ _ Hf Ho) as [Hk|Hin].
    - by rewrite Hemp in Hk.
    - rewrite Hcg in Hin. by apply elem_of_nil in Hin. }
  split; [done|]. intros Hdone. simpl. rewrite (si_count _ _ Hinv). unfold total_open. rewrite map_sum_zero; [done|].
  intros i c Hi. destruct (Hdone i c Hi) as [Hcl Hcg].
  destruct (Hall i c Hi Hcl Hcg) as [_ He]. unfold open_count. by rewrite He.
Qed.

(** The run continued: the client disconnects. *)
Definition on_demo (st : client * counters) : Server :=
  mkServer (s_clients demo_server) false (<[0%nat := st.1]> (s_heap demo_server)) st.2.
Definition demo_closing : client * counters :=
  ((close_locked (set_done true demo_opened.1)).1, demo_opened.2).
Definition demo_closed : Server := on_demo (close_pending 0%nat demo_closing).

Lemma on_demo_step st st' :
  client_step demo_cfg st st' -> server_step demo_cfg (on_demo st) (on_demo st').
Proof.
  intros Hs.
  assert (E : on_demo st' = mkServer (s_clients (on_demo st)) (s_closed (on_demo st))
    (<[0%nat := st'.1]> (s_heap (on_demo st))) st'.2).
  { unfold on_demo. simpl. by rewrite insert_insert_eq. }
  rewrite E. apply (SS_client _ 0%nat st.1); [apply lookup_insert_eq|].
  by destruct st, st'.
Qed.

Lemma demo_closed_reachable : reachable demo_cfg demo_closed.
Proof.
  unfold reachable. etrans; [exact demo_reachable|].
  assert (E : demo_server = on_demo demo_opened) by (vm_compute; reflexivity).
  rewrite E.
  eapply rtc_l; [apply on_demo_step|].
  { apply (CS_close_begin _ demo_opened.1 (set_done true demo_opened.1)).
    vm_compute. reflexivity. }
  eapply rtc_l; [apply on_demo_step|].
  { apply CS_close_locked. reflexivity. }
  eapply rtc_l; [apply on_demo_step|apply rtc_refl].
  apply (CS_close_pending _ 0%nat). vm_compute. left.
Qed.

Lemma udpgw_disconnect_clean_witness : st_Flows (stats demo_closed) = 0.
Proof.
  apply (udpgw_disconnect_clean demo_cfg demo_closed);
    [by vm_compute|by vm_compute|exact demo_closed_reachable|].
  intros i c Hi.
  assert (E : s_heap demo_closed = {[0%nat := (close_pending 0%nat demo_closing).1]})
    by (vm_compute; reflexivity).
  rewrite E in Hi. apply lookup_singleton_Some in Hi as [_ <-]. vm_compute. by split.
Defined.
