(* ===== verification/UdpgwProps.v ===== *)
(** What the operations of the udpgw server compute: the flow a packet gets,
    the eviction at the limit, the label of a reply, reaping, and the whole
    handlers as runs of the step relation of [UdpgwInv]. *)
From S2P Require Import Prelude NetAddr UdpgwProto UdpgwServer UdpgwInv.

(* ------------------------------------------------------------------ *)
(** * The flow of a packet                                               *)
(* ------------------------------------------------------------------ *)

Definition new_flow (dns : option AddrPort) (now : Z) (p : Packet) : flow :=
  mkFlow (ConID p) (PAddr p) (flow_target dns p) now false.

(** The common end of [handle_locked]: a new flow in client [c]. *)
Definition with_new_flow (dns : option AddrPort) (now : Z) (p : Packet) (c : client)
    : client :=
  set_flows (<[ConID p := fresh (dom (c_heap c))]> (c_flows c))
    (set_heap (<[fresh (dom (c_heap c)) := new_flow dns now p]> (c_heap c)) c).

Lemma handle_keep cfg ord dns sock now p c k id fl :
  c_closed c = false -> c_flows c !! ConID p = Some id -> c_heap c !! id = Some fl ->
  keeps_flow p fl = true ->
  handle_locked cfg ord dns sock now p (c, k) = ((c, k), Some id).
Proof.
  intros Hc Hid Hfl Hk. unfold handle_locked, keeps_flow in *.
  rewrite Hc, Hid, Hfl. apply negb_true_iff in Hk. by rewrite Hk.
Qed.

Lemma handle_fresh cfg ord dns now p c k :
  c_closed c = false -> c_flows c !! ConID p = None ->
  let st := evict_lru cfg ord (c, k) in
  handle_locked cfg ord dns true now p (c, k) =
  ((with_new_flow dns now p st.1, add_flows 1 st.2), Some (fresh (dom (c_heap st.1)))).
Proof.
  intros Hc Hid st. unfold handle_locked. rewrite Hc, Hid. fold st. by destruct st.
Qed.

Lemma handle_replace cfg ord dns now p c k id fl :
  client_inv cfg c ->
  c_closed c = false -> c_flows c !! ConID p = Some id -> c_heap c !! id = Some fl ->
  keeps_flow p fl = false ->
  let st := closeFlow id (set_flows (delete (ConID p) (c_flows c)) c, k) in
  handle_locked cfg ord dns true now p (c, k) =
  ((with_new_flow dns now p st.1, add_flows 1 st.2), Some (fresh (dom (c_heap st.1)))).
Proof.
  intros Hi Hc Hid Hfl Hk st. unfold handle_locked, keeps_flow in *.
  rewrite Hc, Hid, Hfl. apply negb_false_iff in Hk. rewrite Hk. fold st.
  assert (Efl : c_flows st.1 = delete (ConID p) (c_flows c)).
  { unfold st. simpl. rewrite Hfl. by destruct (f_closed fl). }
  assert (Hsz : Z.of_nat (size (c_flows st.1)) < MaxFlows cfg).
  { rewrite Efl, map_size_delete, Hid. pose proof (ci_limit _ _ Hi).
    assert (size (c_flows c) <> 0%nat); [|lia].
    apply map_size_ne_0_lookup_2 with (ConID p). by rewrite Hid. }
  destruct st as [c' k']. simpl in Hsz. unfold evict_lru.
  by rewrite (proj2 (Z.leb_gt _ _)) by done.
Qed.

Lemma with_new_flow_entry dns now p c :
  c_flows (with_new_flow dns now p c) !! ConID p = Some (fresh (dom (c_heap c))) /\
  c_heap (with_new_flow dns now p c) !! fresh (dom (c_heap c)) = Some (new_flow dns now p).
Proof. split; simpl; apply lookup_insert_eq. Qed.

(** The host an address stands for: an IPv4 address written as IPv6 is the IPv4 one. *)
Inductive same_host : Addr -> Addr -> Prop :=
| host_mapped ip zone : same_host (Addr6 (replicate 10 x00 ++ xff :: xff :: ip) zone) (Addr4 ip)
| host_plain a : (forall ip zone, a <> Addr6 (replicate 10 x00 ++ xff :: xff :: ip) zone) -> same_host a a.

Lemma Unmap_same_host a : same_host a (Unmap a).
Proof.
  assert (E : mapped_prefix = replicate 10 x00 ++ [xff; xff]) by done.
  destruct a as [|ip|ip zone]; [by apply host_plain..|]. unfold Unmap, Is4In6. rewrite E.
  case_bool_decide as H.
  - rewrite <- (take_drop 12 ip) at 1. rewrite H. by apply (host_mapped (drop 12 ip)).
  - apply host_plain. intros ip' zone' [= ->]. by apply H.
Qed.

Lemma keeps_flow_true p fl : keeps_flow p fl = true <-> Z.testbit (Flags p) 1 = false /\ f_orig fl = PAddr p.
Proof.
  unfold keeps_flow. rewrite has_rebind, negb_true_iff, orb_false_iff, negb_false_iff, bool_decide_eq_true. done.
Qed.
Lemma keeps_flow_false p fl : keeps_flow p fl = false -> Z.testbit (Flags p) 1 = true \/ f_orig fl <> PAddr p.
Proof.
  intros H. destruct (Z.testbit (Flags p) 1) eqn:E; [by left|right]. intros Ho.
  by rewrite (proj2 (keeps_flow_true p fl) (conj E Ho)) in H.
Qed.

Lemma new_flow_target dns now p :
  let to := match dns with
            | Some r => if Z.testbit (Flags p) 2 then r else PAddr p
            | None => PAddr p
            end in
  ap_port (f_target (new_flow dns now p)) = ap_port to /\
  same_host (ap_addr to) (ap_addr (f_target (new_flow dns now p))).
Proof.
  intros to. unfold to, new_flow, flow_target. cbn [f_target ap_port ap_addr]. rewrite has_dns.
  destruct dns as [r|], (Z.testbit (Flags p) 2); cbn [default]; (split; [done|apply Unmap_same_host]).
Qed.

(** C3 Every packet is sent through a flow of its own address: on an open client
    (and when the UDP socket can be opened) [handle] ends with an open flow
    filed under the connection id of the packet, labelled with the address
    of the packet. An existing flow is reused unless the REBIND flag (bit 1) is set or
    the address changed; a new one sends to the resolver when the packet has the DNS
    flag (bit 2) and there is a resolver, and to the address of the packet otherwise, in
    both cases to the IPv4 address when that is written as an IPv6 one. *)
Theorem handle_flow cfg ord dns now p c k :
  client_inv cfg c -> map_order c ord -> 0 < MaxFlows cfg -> c_closed c = false ->
  exists c' k' id f,
    handle_locked cfg ord dns true now p (c, k) = ((c', k'), Some id) /\
    c_flows c' !! ConID p = Some id /\ c_heap c' !! id = Some f /\
    f_closed f = false /\ f_orig f = PAddr p /\
    ((c_flows c !! ConID p = Some id /\ c_heap c !! id = Some f /\
        Z.testbit (Flags p) 1 = false /\ c' = c) \/
     (c_heap c !! id = None /\
      (let to := match dns with
                 | Some r => if Z.testbit (Flags p) 2 then r else PAddr p
                 | None => PAddr p
                 end in
       ap_port (f_target f) = ap_port to /\ same_host (ap_addr to) (ap_addr (f_target f))) /\
      forall id' fl, c_flows c !! ConID p = Some id' -> c_heap c !! id' = Some fl ->
        Z.testbit (Flags p) 1 = true \/ f_orig fl <> PAddr p)).
Proof.
  intros Hi Ho Hpos Hc. destruct (c_flows c !! ConID p) as [id|] eqn:Hid.
  - destruct (ci_table _ _ Hi _ _ Hid) as (fl & Hfl & Hop & Hcon).
    destruct (keeps_flow p fl) eqn:Hk.
    + rewrite (handle_keep _ _ _ _ _ _ _ _ id fl) by done.
      apply keeps_flow_true in Hk as [Hb Hor].
      exists c, k, id, fl. split_and!; [done..|]. by left.
    + rewrite (handle_replace _ _ _ _ _ _ _ id fl) by done.
      set (st := closeFlow _ _).
      destruct (with_new_flow_entry dns now p st.1) as [Hf Hh].
      do 4 eexists. split; [done|]. split; [exact Hf|]. split; [exact Hh|].
      split; [done|]. split; [done|]. right. split; [|split].
      * assert (Hd : dom (c_heap st.1) = dom (c_heap c)).
        { unfold st. simpl. rewrite Hfl. destruct (f_closed fl); [done|]. simpl.
          rewrite dom_insert_L. apply elem_of_dom_2 in Hfl. set_solver. }
        rewrite Hd. apply not_elem_of_dom, is_fresh.
      * apply new_flow_target.
      * intros id' fl' [= <-] Hfl'. apply keeps_flow_false. congruence.
  - rewrite handle_fresh by done. set (st := evict_lru _ _ _).
    destruct (with_new_flow_entry dns now p st.1) as [Hf Hh].
    do 4 eexists. split; [done|]. split; [exact Hf|]. split; [exact Hh|].
    split; [done|]. split; [done|]. right.
    split; [|split; [apply new_flow_target|done]].
    assert (Hd : dom (c_heap st.1) = dom (c_heap c)).
    { unfold st, evict_lru. case_if; [|done].
      destruct (lru_found cfg c ord Hi Ho Hpos E) as (id & f & -> & Hfi & _).
      simpl. rewrite Hfi. destruct (f_closed f); [done|]. simpl.
      rewrite dom_insert_L. apply elem_of_dom_2 in Hfi. set_solver. }
    rewrite Hd. apply not_elem_of_dom, is_fresh.
Qed.

Definition dns_packet : Packet :=
  mkPacket 4 9 (AddrPortFrom (Addr4 [x08; x08; x08; x08]) 53) [x61].
Definition resolver : AddrPort :=
  AddrPortFrom (Addr6 (mapped_prefix ++ [x7f; x00; x00; x01]) EmptyString) 5353.

Lemma new_client_inv cfg now rp lp :
  0 <= MaxFlows cfg -> 0 <= QueueLen cfg -> client_inv cfg (new_client now rp lp).
Proof.
  intros. constructor; simpl; try done; intros; set_solver.
Qed.

Lemma handle_flow_witness :
  exists c' k' id f,
    handle_locked demo_cfg [] (Some resolver) true 9 dns_packet
      (new_client 5 40000 7300, s_count NewServer) = ((c', k'), Some id) /\
    c_heap c' !! id = Some f /\ f_orig f = PAddr dns_packet /\
    f_target f = AddrPortFrom (Addr4 [x7f; x00; x00; x01]) 5353.
Proof.
  destruct (handle_flow demo_cfg [] (Some resolver) 9 dns_packet
    (new_client 5 40000 7300) (s_count NewServer))
    as (c' & k' & id & f & E & _ & Hh & _ & Ho & Hor);
    [by apply new_client_inv; vm_compute|vm_compute; reflexivity|by vm_compute|done|].
  exists c', k', id, f. split; [exact E|]. split; [exact Hh|]. split; [exact Ho|].
  destruct Hor as [(Hn & _)|(_ & (Hport & Hhost) & _)]; [by vm_compute in Hn|].
  destruct (f_target f) as [a port]. vm_compute in Hport. subst port. f_equal.
  vm_compute in Hhost. inversion Hhost as [ip z E1 E2|a' Hno E1 E2]; [done|].
  by destruct (Hno [x7f; x00; x00; x01] EmptyString).
Defined.

(** Eviction at the limit: when a new connection id arrives at a full table,
    exactly one flow goes, it is closed, it is one of the least recently
    used ones, and every other entry stays; below the limit, and when a flow
    is replaced, no other entry is touched. *)
Theorem handle_eviction cfg ord dns now p c k :
  client_inv cfg c -> map_order c ord -> 0 < MaxFlows cfg -> c_closed c = false ->
  let c' := (handle_locked cfg ord dns true now p (c, k)).1.1 in
  if bool_decide (c_flows c !! ConID p = None /\
                  MaxFlows cfg <= Z.of_nat (size (c_flows c)))
  then exists id f,
    c_heap c !! id = Some f /\ c_flows c !! f_conid f = Some id /\
    (forall j idj fj, c_flows c !! j = Some idj -> c_heap c !! idj = Some fj ->
       f_lastUse f <= f_lastUse fj) /\
    c_heap c' !! id = Some (set_fclosed f) /\
    c_flows c' !! f_conid f = None /\
    forall j, j <> ConID p -> j <> f_conid f -> c_flows c' !! j = c_flows c !! j
  else forall j, j <> ConID p -> c_flows c' !! j = c_flows c !! j.
Proof.
  intros Hi Ho Hpos Hc c'. case_bool_decide as Hb.
  - destruct Hb as [Hid Hfull].
    destruct (lru_found cfg c ord Hi Ho Hpos Hfull) as (id & f & Es & Hf & Hk & Hmin).
    assert (Hfc : f_closed f = false).
    { destruct (ci_table _ _ Hi _ _ Hk) as (g & Hg & ? & _). congruence. }
    exists id, f. split; [done|]. split; [done|]. split; [exact Hmin|].
    subst c'. rewrite handle_fresh by done. unfold evict_lru.
    rewrite (proj2 (Z.leb_le _ _)), Es by done. simpl. rewrite Hf, Hfc. simpl.
    assert (Hne : f_conid f <> ConID p) by congruence.
    split; [|split].
    + rewrite lookup_insert_ne; [apply lookup_insert_eq|].
      intros E. eapply (is_fresh (dom (<[id:=set_fclosed f]> (c_heap c)))).
      rewrite E at 1. rewrite dom_insert_L. set_solver.
    + rewrite lookup_insert_ne by congruence. apply lookup_delete_eq.
    + intros j Hj1 Hj2. by rewrite lookup_insert_ne, lookup_delete_ne by congruence.
  - intros j Hj. subst c'. destruct (c_flows c !! ConID p) as [id|] eqn:Hid.
    + destruct (ci_table _ _ Hi _ _ Hid) as (fl & Hfl & _).
      destruct (keeps_flow p fl) eqn:Hkeep.
      * by rewrite (handle_keep _ _ _ _ _ _ _ _ id fl).
      * rewrite (handle_replace _ _ _ _ _ _ _ id fl) by done. simpl. rewrite Hfl.
        destruct (f_closed fl); simpl;
          rewrite lookup_insert_ne, ?lookup_delete_ne; try done; congruence.
    + rewrite handle_fresh by done. unfold evict_lru.
      case_if; [by exfalso; apply Hb|]. simpl. by rewrite lookup_insert_ne.
Qed.

Lemma handle_eviction_witness :
  let c := demo_opened.1 in
  let c' := (handle_locked demo_cfg [0%nat] None true 9 dns_packet demo_opened).1.1 in
  exists id f, c_heap c !! id = Some f /\ c_flows c' !! f_conid f = None.
Proof.
  pose proof (handle_eviction demo_cfg [0%nat] None 9 dns_packet demo_opened.1
    demo_opened.2 (si_client _ _ (reachable_inv demo_cfg demo_server ltac:(by vm_compute)
      ltac:(by vm_compute) demo_reachable) 0%nat _ eq_refl)
    ltac:(by unfold map_order; vm_compute) ltac:(by vm_compute) eq_refl) as H.
  rewrite bool_decide_eq_true_2 in H by by vm_compute.
  destruct H as (id & f & H1 & _ & _ & _ & H2 & _).
  exists id, f. split; [exact H1|exact H2].
Defined.

(** Replies are labelled for the client: a datagram read from the socket of
    a flow is queued at most once, at the end of the queue, as one frame that
    decodes to the flow's connection id, the address the client asked for (not
    the address the datagram came from or the resolver's) and the datagram;
    when the queue is full nothing is queued and the drop is counted. *)
Theorem flow_reply_label cfg now id f d c k :
  c_heap c !! id = Some f -> AddrPort_wf (f_orig f) ->
  0 <= f_conid f < 65536 -> c_done c = false ->
  let '(c', k') := flow_reply cfg now false id d (c, k) in
  (c_out c' = c_out c /\ k_dropped k' = u64 (k_dropped k + 1) /\
   k_packetsDown k' = k_packetsDown k /\
   (QueueLen cfg <= len (c_out c) \/ 65537 < FrameLen (f_orig f) (len d))) \/
  (exists payload,
     len (c_out c) < QueueLen cfg /\
     c_out c' = c_out c ++ [put_le16 (len payload) ++ payload] /\
     ParsePacket payload = Ok (wire_packet 0 (f_conid f) (f_orig f) d) /\
     k_packetsDown k' = u64 (k_packetsDown k + 1) /\ k_dropped k' = k_dropped k /\
     k_bytesDown k' = u64 (k_bytesDown k + len d) /\
     c_bytesDown c' = u64 (c_bytesDown c + len d)).
Proof.
  intros Hf Hwf Hcon Hdone. unfold flow_reply. rewrite Hf.
  rewrite AppendFrame_eq by apply Hwf.
  destruct (2 + MaxPayload <? FrameLen (f_orig f) (len d)) eqn:El.
  { apply Z.ltb_lt in El. unfold MaxPayload in El. left. split_and!; try done. right. lia. }
  unfold touch_flow; simpl. rewrite Hdone; simpl.
  destruct (len (c_out c) <? QueueLen cfg) eqn:Eq.
  - right. exists (frame_payload 0 (f_conid f) (f_orig f) d).
    apply Z.ltb_lt in Eq. apply Z.ltb_ge in El.
    pose proof (len_frame_payload 0 (f_conid f) (f_orig f) d (proj1 Hwf)) as Hl.
    split_and!; try done.
    apply ParsePacket_payload; done || lia.
  - left. apply Z.ltb_ge in Eq. split_and!; try done. by left.
Qed.

Lemma flow_reply_label_witness :
  let '(c', k') := flow_reply demo_cfg 9 false 0%nat [x62] demo_opened in
  exists payload,
    c_out c' = [put_le16 (len payload) ++ payload] /\
    ParsePacket payload = Ok (mkPacket 0 7 demo_addr [x62]).
Proof.
  pose proof (flow_reply_label demo_cfg 9 0%nat
    (mkFlow 7 demo_addr demo_addr 6 false) [x62] demo_opened.1 demo_opened.2) as H.
  destruct (flow_reply demo_cfg 9 false 0%nat [x62] (demo_opened.1, demo_opened.2))
    as [c' k'] eqn:E.
  change (flow_reply demo_cfg 9 false 0%nat [x62] demo_opened)
    with (flow_reply demo_cfg 9 false 0%nat [x62] (demo_opened.1, demo_opened.2)).
  rewrite E.
  destruct H as [(_ & _ & _ & [H|H])|(p & _ & Ho & Hp & _)];
    [vm_compute; reflexivity|by split|cbn; lia|vm_compute; reflexivity| | |].
  - by vm_compute in H.
  - by vm_compute in H.
  - exists p. split; [exact Ho|exact Hp].
Defined.

