(* ===== verification/UdpgwAdmit.v ===== *)
(** The accept goroutines of the udpgw server ([Serve] and [startClient] of
    [src/internal/udpgw/server.go]), interleaved with everything else the server does:
    how many clients it can have. *)
From S2P Require Import Prelude NetAddr UdpgwProto UdpgwServer UdpgwInv.

(* ------------------------------------------------------------------ *)
(** * The oldest client                                                  *)
(* ------------------------------------------------------------------ *)

(** The scan of [startClient] finds a client with the least [since]. *)
Lemma oldest_scan_spec h acc ord :
  (forall i c, acc = Some (i, c) -> h !! i = Some c) ->
  match oldest_scan h acc ord with
  | Some (i, c) =>
      h !! i = Some c /\ (i ∈ ord \/ acc = Some (i, c)) /\
      (forall j cj, j ∈ ord -> h !! j = Some cj -> c_since c <= c_since cj) /\
      (forall j cj, acc = Some (j, cj) -> c_since c <= c_since cj)
  | None => acc = None /\ forall j, j ∈ ord -> h !! j = None
  end.
Proof.
  revert acc. induction ord as [|o ord IH]; intros acc Hacc; simpl.
  - destruct acc as [[i c]|]; [|split; [done|set_solver]].
    split_and!; [by apply Hacc|by right|set_solver|]. intros j cj [= -> ->]. lia.
  - destruct (h !! o) as [co|] eqn:Ho.
    + match goal with |- context [oldest_scan h ?a ord] => set (acc' := a) end.
      assert (Hacc' : forall i c, acc' = Some (i, c) -> h !! i = Some c).
      { subst acc'. intros i c. destruct acc as [[? ?]|]; simpl;
          [case_if|]; intros; simplify_eq; auto. }
      specialize (IH acc' Hacc').
      destruct (oldest_scan h acc' ord) as [[i c]|].
      * destruct IH as (Hi & Hin & Hle & Hle').
        assert (Hco : c_since c <= c_since co).
        { subst acc'. destruct acc as [[a ca]|]; simpl in *; [|by eapply Hle'].
          destruct (c_since co <? c_since ca) eqn:E; [by eapply Hle'|].
          apply Z.ltb_ge in E. specialize (Hle' _ _ eq_refl). lia. }
        split_and!; [done| | |].
        -- destruct Hin as [?|Hin]; [left; set_solver|]. subst acc'.
           destruct acc as [[a ca]|]; simpl in *; [case_if_in Hin|]; simplify_eq;
             (by right) || (left; set_solver).
        -- intros j cj [->|Hj]%elem_of_cons Hcj; [congruence|eauto].
        -- intros j cj ->. subst acc'. simpl in *.
           destruct (c_since co <? c_since cj) eqn:E; [|by eapply Hle'].
           apply Z.ltb_lt in E. lia.
      * destruct IH as [IH _]. subst acc'. destruct acc as [[? ?]|]; simpl in *;
          [case_if_in IH|]; done.
    + specialize (IH acc Hacc). destruct (oldest_scan h acc ord) as [[i c]|].
      * destruct IH as (Hi & Hin & Hle & Hle'). split_and!; [done| | |done].
        -- destruct Hin; [left; set_solver|by right].
        -- intros j cj [->|Hj]%elem_of_cons Hcj; [congruence|eauto].
      * destruct IH as [-> IH]. split; [done|].
        intros j [->|Hj]%elem_of_cons; auto.
Qed.

(** At the limit somebody is evicted, and nobody is older. *)
Lemma oldest_found cfg s ord : server_inv cfg s -> ord ≡ₚ elements (s_clients s) -> s_clients s <> ∅ ->
  exists o co, oldest_scan (s_heap s) None ord = Some (o, co) /\ o ∈ s_clients s /\ s_heap s !! o = Some co /\
    forall j cj, j ∈ s_clients s -> s_heap s !! j = Some cj -> c_since co <= c_since cj.
Proof.
  intros Hi Hord Hne. pose proof (oldest_scan_spec (s_heap s) None ord ltac:(done)) as Hs.
  destruct (oldest_scan (s_heap s) None ord) as [[o co]|].
  - destruct Hs as (Ho & [Hin|?] & Hmin & _); [|done]. exists o, co. split; [done|].
    split; [apply elem_of_elements; by rewrite <- Hord|]. split; [done|].
    intros j cj Hj. apply Hmin. rewrite Hord. by apply elem_of_elements.
  - destruct Hs as [_ Hn]. exfalso. apply set_choose_L in Hne as [j Hj].
    destruct (si_known _ _ Hi j Hj) as [c Hc]. rewrite Hn in Hc; [done|].
    rewrite Hord. by apply elem_of_elements.
Qed.

(* ------------------------------------------------------------------ *)
(** * The accept goroutines                                              *)
(* ------------------------------------------------------------------ *)

(** One goroutine per address; every other step of the server adds no client. *)
Inductive serve_step (cfg : Config) : gmap nat serving * Server -> gmap nat serving * Server -> Prop :=
| VS_accept n td r ord now rp lp g s pc s' :
    g !! n = Some (svAccept td) -> ord ≡ₚ elements (s_clients s) ->
    serve_accept cfg td r ord now rp lp s = (pc, s') -> serve_step cfg (g, s) (<[n := pc]> g, s')
| VS_rest n pc pc' g s s' :
    g !! n = Some pc -> startClient_rest pc s = Some (pc', s') -> serve_step cfg (g, s) (<[n := pc']> g, s')
| VS_other g s s' :
    server_step cfg s s' -> s_clients s' ⊆ s_clients s -> serve_step cfg (g, s) (g, s').

(** [n] addresses, nothing accepted yet. *)
Definition listening (n : nat) : gmap nat serving * Server :=
  (list_to_map ((fun i => (i, svAccept 0)) <$> seq 0 n), NewServer).

Definition evicting (pc : serving) : Z := match pc with svEvict _ => 1 | _ => 0 end.

Lemma startClient_locked_some cfg ord now rp lp s : s_closed s = false ->
  startClient_locked cfg ord now rp lp s =
  Some (mkServer ({[fresh (dom (s_heap s))]} ∪ s_clients s) false
          (<[fresh (dom (s_heap s)) := new_client now rp lp]> (s_heap s)) (s_count s),
        fresh (dom (s_heap s)),
        if MaxClients cfg <=? Z.of_nat (size (s_clients s))
        then fst <$> oldest_scan (s_heap s) None ord else None).
Proof. intros H. unfold startClient_locked. by rewrite H. Qed.

(** Every step is one of the server, or leaves it alone. *)
Lemma serve_step_server cfg x y : serve_step cfg x y -> rtc (server_step cfg) x.2 y.2.
Proof.
  intros [n td r ord now rp lp g s pc s' _ _ E|n pc pc' g s s' _ E|g s s' Hs _]; cbn.
  - unfold serve_accept, startClient in E. destruct (serve_round _ _ _); simplify_eq; [done..|].
    destruct (startClient_locked _ _ _ _ _ _) as [[[s1 i] e]|] eqn:El; simplify_eq; [|done].
    destruct e; simplify_eq; (eapply rtc_once, SS_accept, El).
  - unfold startClient_rest in E. destruct pc; simplify_eq.
    + case_bool_decide; by simplify_eq.
    + apply rtc_once, SS_count.
  - by apply rtc_once.
Qed.
Lemma served_reachable cfg n y : rtc (serve_step cfg) (listening n) y -> reachable cfg y.2.
Proof.
  unfold reachable. change NewServer with (listening n).2. intros H.
  induction H as [x|x y z Hxy _ IH]; [done|]. etrans; [by eapply serve_step_server|done].
Qed.

(* ------------------------------------------------------------------ *)
(** * One accept goroutine                                               *)
(* ------------------------------------------------------------------ *)

(** What the goroutine has in hand counts on top. *)
Definition within_limit (cfg : Config) (pc : serving) (s : Server) : Prop :=
  match pc with
  | svEvict o => Z.of_nat (size (s_clients s ∖ {[o]})) <= MaxClients cfg
  | _ => Z.of_nat (size (s_clients s)) <= MaxClients cfg
  end.

Lemma size_without (X : gset cid) o : Z.of_nat (size X) <= Z.of_nat (size (X ∖ {[o]})) + 1.
Proof.
  assert (H : (size X <= size ({[o]} ∪ X ∖ {[o]}))%nat).
  { apply subseteq_size. intros x Hx. destruct (decide (x = o)); set_solver. }
  rewrite size_union, size_singleton in H by set_solver. lia.
Qed.
Lemma size_shrink (X Y : gset cid) n : X ⊆ Y -> Z.of_nat (size Y) <= n -> Z.of_nat (size X) <= n.
Proof. intros Hs. pose proof (subseteq_size X Y Hs). lia. Qed.

(** An admission, and the client it evicts. *)
Lemma startClient_cases cfg ord now rp lp s pc s' :
  server_inv cfg s -> 0 < MaxClients cfg -> s_closed s = false -> ord ≡ₚ elements (s_clients s) ->
  startClient cfg ord now rp lp s = (pc, s') ->
  exists i, i ∉ s_clients s /\ s_heap s' !! i = Some (new_client now rp lp) /\ s_clients s' = {[i]} ∪ s_clients s /\
    if bool_decide (Z.of_nat (size (s_clients s)) < MaxClients cfg) then pc = svCount
    else exists o co, pc = svEvict o /\ o ∈ s_clients s /\ s_heap s !! o = Some co /\
      forall j cj, j ∈ s_clients s -> s_heap s !! j = Some cj -> c_since co <= c_since cj.
Proof.
  intros Hi Hpos Hopen Hord. unfold startClient. rewrite startClient_locked_some by done.
  set (i := fresh (dom (s_heap s))).
  assert (Hf : i ∉ s_clients s).
  { intros Hin. destruct (si_known _ _ Hi i Hin) as [c Hc]. apply elem_of_dom_2 in Hc. by apply is_fresh in Hc. }
  case_bool_decide as Hsz.
  - rewrite (proj2 (Z.leb_gt _ _)) by lia. intros [= <- <-]. exists i. cbn. by rewrite lookup_insert_eq.
  - rewrite (proj2 (Z.leb_le _ _)) by lia.
    destruct (oldest_found cfg s ord Hi Hord) as (o & co & -> & Ho & Hco & Hmin).
    { intros E. rewrite E, size_empty in Hsz. lia. }
    intros [= <- <-]. exists i. cbn. rewrite lookup_insert_eq. split_and!; [done..|]. by exists o, co.
Qed.

Lemma startClient_closed cfg ord now rp lp s : s_closed s = true ->
  startClient cfg ord now rp lp s = (svAccept 0, s).
Proof. intros H. unfold startClient, startClient_locked. by rewrite H. Qed.

Lemma accept_within cfg td r ord now rp lp s pc s' :
  server_inv cfg s -> 0 < MaxClients cfg -> ord ≡ₚ elements (s_clients s) ->
  Z.of_nat (size (s_clients s)) <= MaxClients cfg ->
  serve_accept cfg td r ord now rp lp s = (pc, s') -> within_limit cfg pc s'.
Proof.
  intros Hi Hpos Hord Hsz. unfold serve_accept.
  destruct (serve_round _ _ _); [by intros [= <- <-]..|]. intros E.
  destruct (s_closed s) eqn:Hc; [rewrite startClient_closed in E by done; by injection E as <- <-|].
  destruct (startClient_cases cfg ord now rp lp s pc s') as (i & Hnew & _ & Hcl & Hpc); [done..|].
  case_bool_decide as Hlt.
  - subst pc. cbn. rewrite Hcl, size_union, size_singleton by set_solver. lia.
  - destruct Hpc as (o & co & -> & Ho & _). cbn. rewrite Hcl.
    assert (Hs : ({[i]} ∪ s_clients s) ∖ {[o]} = {[i]} ∪ s_clients s ∖ {[o]}) by set_solver.
    rewrite Hs, size_union, size_singleton, size_difference, size_singleton by set_solver. lia.
Qed.

Lemma rest_within cfg pc s pc' s' : within_limit cfg pc s ->
  startClient_rest pc s = Some (pc', s') -> within_limit cfg pc' s'.
Proof.
  destruct pc as [|o| |]; cbn; [done| |by intros ? [= <- <-]|done].
  case_bool_decide as Ho; [done|]. intros H [= <- <-]. cbn.
  by replace (s_clients s ∖ {[o]}) with (s_clients s) in H by set_solver.
Qed.

Lemma other_within cfg pc s s' : s_clients s' ⊆ s_clients s -> within_limit cfg pc s -> within_limit cfg pc s'.
Proof. intros Hs. destruct pc; cbn; apply size_shrink; set_solver. Qed.

Lemma step_within cfg pc s y : server_inv cfg s -> 0 < MaxClients cfg ->
  serve_step cfg ({[0%nat := pc]}, s) y -> within_limit cfg pc s ->
  exists pc', y.1 = {[0%nat := pc']} /\ within_limit cfg pc' y.2.
Proof.
  intros Hi Hpos Hs Hw. inversion Hs as [n td r ord now rp lp g s0 pc' s' Hg Hord E|n pc0 pc' g s0 s' Hg E|g s0 s' _ Hsub]; subst.
  - apply lookup_singleton_Some in Hg as [<- ->]. exists pc'. split; [apply insert_singleton_eq|].
    by eapply accept_within.
  - apply lookup_singleton_Some in Hg as [<- ->]. exists pc'. split; [apply insert_singleton_eq|].
    by eapply rest_within.
  - exists pc. split; [done|]. by eapply other_within.
Qed.

Lemma served_within cfg x y : 0 < MaxClients cfg -> 0 < MaxFlows cfg -> 0 <= QueueLen cfg ->
  rtc (serve_step cfg) x y -> reachable cfg x.2 ->
  (exists pc, x.1 = {[0%nat := pc]} /\ within_limit cfg pc x.2) ->
  exists pc, y.1 = {[0%nat := pc]} /\ within_limit cfg pc y.2.
Proof.
  intros Hpos Hf Hq. induction 1 as [x|x y z Hxy _ IH]; [done|]. intros Hr (pc & E & Hw).
  apply IH.
  - unfold reachable in *. etrans; [exact Hr|]. by eapply serve_step_server.
  - destruct x as [g s]. cbn in *. subst g. eapply step_within; [|done..]. by apply reachable_inv.
Qed.

(** C4 Admission with one address: whatever the other goroutines do meanwhile, the server
    never has more than [MaxClients] clients, and one more only while the goroutine that
    accepted it waits for the client it evicts to be closed. A connection that is
    accepted while the server is open always becomes a client; below the limit nobody is
    evicted for it, and at the limit one client, than which none is older. *)
Theorem admission_bounded cfg pc s :
  0 < MaxClients cfg -> 0 < MaxFlows cfg -> 0 <= QueueLen cfg ->
  rtc (serve_step cfg) (listening 1) ({[0%nat := pc]}, s) ->
  Z.of_nat (size (s_clients s)) <= MaxClients cfg + evicting pc /\
  forall td ord now rp lp pc' s', pc = svAccept td -> s_closed s = false -> ord ≡ₚ elements (s_clients s) ->
    serve_accept cfg td AccConn ord now rp lp s = (pc', s') ->
    exists i, i ∉ s_clients s /\ s_heap s' !! i = Some (new_client now rp lp) /\ s_clients s' = {[i]} ∪ s_clients s /\
      if bool_decide (Z.of_nat (size (s_clients s)) < MaxClients cfg) then pc' = svCount
      else exists o co, pc' = svEvict o /\ o ∈ s_clients s /\ s_heap s !! o = Some co /\
        forall j cj, j ∈ s_clients s -> s_heap s !! j = Some cj -> c_since co <= c_since cj.
Proof.
  intros Hpos Hf Hq Hr. pose proof (reachable_inv cfg s Hf Hq (served_reachable cfg 1 _ Hr)) as Hi.
  split.
  - destruct (served_within cfg _ _ Hpos Hf Hq Hr) as (pc1 & E & Hw); [apply rtc_refl| |].
    { exists (svAccept 0). split; [done|]. cbn. rewrite size_empty. lia. }
    apply (inj (fun x => {[0%nat := x]})) in E as <-. destruct pc as [|o| |]; cbn in *; [lia| |lia..].
    pose proof (size_without (s_clients s) o). lia.
  - intros td ord now rp lp pc' s' _ Hopen Hord E. by apply (startClient_cases cfg ord now rp lp s pc' s').
Qed.

(* ------------------------------------------------------------------ *)
(** * Concrete runs                                                      *)
(* ------------------------------------------------------------------ *)

(** A goroutine accepts a connection, or goes on; a client is disconnected. *)
Inductive move : Type :=
| mvAccept (n : nat) (now : Z)
| mvRest (n : nat)
| mvClose (i : cid).

Definition play_move (cfg : Config) (m : move) (x : gmap nat serving * Server) : option (gmap nat serving * Server) :=
  let '(g, s) := x in
  match m with
  | mvAccept n now =>
      match g !! n with
      | Some (svAccept td) =>
          let '(pc, s') := serve_accept cfg td AccConn (elements (s_clients s)) now 40000 7300 s in
          Some (<[n := pc]> g, s')
      | _ => None
      end
  | mvRest n => pc ← g !! n; '(pc', s') ← startClient_rest pc s; Some (<[n := pc']> g, s')
  | mvClose i =>
      c ← s_heap s !! i;
      if c_done c then None
      else Some (g, removeClient i (mkServer (s_clients s) (s_closed s)
                     (<[i := (close_locked (set_done true c)).1]> (s_heap s)) (s_count s)))
  end.
Fixpoint play (cfg : Config) (ms : list move) (x : gmap nat serving * Server) : option (gmap nat serving * Server) :=
  match ms with [] => Some x | m :: ms => x ← play_move cfg m x; play cfg ms x end.

Lemma close_steps cfg g s i c : s_heap s !! i = Some c -> c_done c = false ->
  rtc (serve_step cfg) (g, s)
    (g, removeClient i (mkServer (s_clients s) (s_closed s)
          (<[i := (close_locked (set_done true c)).1]> (s_heap s)) (s_count s))).
Proof.
  intros Hc Hd. eapply rtc_l.
  { apply VS_other; [eapply (SS_client _ i c), CS_close_begin; [done|]; unfold close_begin; by rewrite Hd|done]. }
  eapply rtc_l.
  { apply VS_other; [eapply (SS_client _ i (set_done true c)), CS_close_locked; [apply lookup_insert_eq|done]|done]. }
  cbn. rewrite insert_insert_eq. apply rtc_once, VS_other.
  - eapply SS_remove; [apply lookup_insert_eq|done].
  - cbn. set_solver.
Qed.

Lemma play_reaches cfg ms x y : play cfg ms x = Some y -> rtc (serve_step cfg) x y.
Proof.
  revert x. induction ms as [|m ms IH]; intros [g s]; [by intros [= ->]|]. cbn [play].
  intros ([g1 s1] & Hm & Hy)%bind_Some. apply IH in Hy. etrans; [|exact Hy]. destruct m as [n now|n|i]; cbn [play_move] in Hm.
  - destruct (g !! n) as [[td|o| |]|] eqn:Hg; [|done..].
    destruct (serve_accept _ _ _ _ _ _ _ _) as [pc s'] eqn:E. injection Hm as <- <-.
    apply rtc_once. by eapply VS_accept.
  - apply bind_Some in Hm as (pc & Hg & Hm). apply bind_Some in Hm as ([pc' s'] & E & Hm).
    injection Hm as <- <-. apply rtc_once. by eapply VS_rest.
  - apply bind_Some in Hm as (c & Hc & Hm). destruct (c_done c) eqn:Hd; [done|]. injection Hm as <- <-.
    by apply close_steps.
Qed.

(** Room for one client, and two that come. *)
Definition one_client : Config := defaults (mkConfig 1 1 0 0 0).

(** What a run ends with, by computation. *)
Lemma play_ends cfg ms x g n :
  (fun y => (bool_decide (y.1 = g), Z.of_nat (size (s_clients y.2)))) <$> play cfg ms x = Some (true, n) ->
  exists s, play cfg ms x = Some (g, s) /\ Z.of_nat (size (s_clients s)) = n.
Proof.
  destruct (play cfg ms x) as [[g' s]|]; [|done]. cbn. intros [= Hg <-]. apply bool_decide_eq_true in Hg as ->.
  by exists s.
Qed.

Lemma admission_bounded_witness : exists s,
  play one_client [mvAccept 0 5; mvRest 0; mvAccept 0 8] (listening 1) = Some ({[0%nat := svEvict 0%nat]}, s) /\
  Z.of_nat (size (s_clients s)) = 2 /\ Z.of_nat (size (s_clients s)) <= 1 + 1.
Proof.
  destruct (play_ends one_client [mvAccept 0 5; mvRest 0; mvAccept 0 8] (listening 1) ({[0%nat := svEvict 0%nat]}) 2)
    as (s & E & Hs); [vm_compute; reflexivity|].
  exists s. split; [exact E|]. split; [exact Hs|]. apply play_reaches in E.
  exact (proj1 (admission_bounded one_client (svEvict 0%nat) s ltac:(by vm_compute) ltac:(by vm_compute) ltac:(by vm_compute) E)).
Defined.

(** With two addresses the limit does not hold: both goroutines can choose the same
    client before the first has closed it, and then there is one client too many when
    both are done. *)
Lemma two_listeners_exceed : exists s,
  rtc (serve_step one_client) (listening 2) ({[0%nat := svAccept 0; 1%nat := svAccept 0]}, s) /\
  Z.of_nat (size (s_clients s)) = MaxClients one_client + 1.
Proof.
  destruct (play_ends one_client
    [mvAccept 0 5; mvRest 0; mvAccept 0 8; mvAccept 1 9; mvClose 0%nat; mvRest 0; mvRest 0; mvRest 1; mvRest 1]
    (listening 2) ({[0%nat := svAccept 0; 1%nat := svAccept 0]}) 2) as (s & E & Hs); [vm_compute; reflexivity|].
  exists s. split; [by apply play_reaches in E|exact Hs].
Qed.
