(* ===== verification/Daemon.v ===== *)
(** The background service ([src/internal/daemon/daemon.go]) and the snapshot it
    publishes ([src/internal/state/state.go]): traffic accounting, enforcement of
    expiry, quotas, locks and connection limits, the watchdog of the UDP gateway. *)
From S2P Require Import Prelude GoStrings NetAddr Procfs Session.
From S2P Require Import UdpgwServer Gateway.
From S2P Require Import Config Security Store Users.

(* ------------------------------------------------------------------ *)
(** * The snapshot                                                       *)
(* ------------------------------------------------------------------ *)

(** [state.Session]: a live session with its throughput. *)
Record LiveSession : Type := mkLive {
  ls_Session : Session.Session;
  ls_RateBps : Z;
  ls_UDPFlows : Z
}.

Record Event : Type := mkEvent { ev_Time : Z; ev_Text : gostring }.

Record IOBase : Type := mkIOBase { io_Start : Z; io_Bytes : Z }.

Record UDPGWState : Type := mkUDPGW {
  us_Mode : gostring;
  us_Ports : list Z;
  us_Failed : gmap gostring gostring;
  us_Stats : option UdpgwServer.Stats;
  us_Healthy : bool
}.

Record State : Type := mkState {
  st_Version : gostring;
  st_StartedAt : Z;
  st_UpdatedAt : Z;
  st_Interval : Z;
  st_Sessions : list LiveSession;
  st_UDPGW : option UDPGWState;
  st_Gateway : option Gateway.Stats;
  st_Peers : gmap Z PeerEntry;
  st_IOBase : gmap Z IOBase;
  st_Events : list Event;
  st_Warnings : list gostring;
  st_TotalBps : Z
}.

(** [Fresh]: the daemon updated the snapshot recently ([int] arithmetic wraps). *)
Definition Fresh (s : State) (now : Z) : bool :=
  let iv := if st_Interval s <=? 0 then 5 else st_Interval s in
  now - st_UpdatedAt s <? i64 (i64 (iv * 3 + 5) * Gateway.Second).

(* ------------------------------------------------------------------ *)
(** * The daemon                                                         *)
(* ------------------------------------------------------------------ *)

Definition maxEvents : Z := 50.

Section daemon.
Context `{System, Calendar, Unicode, Codec UserRecord, Bolt}.

(** [d_kills] lists the pids for which a goroutine runs [session.Kill];
    [d_published] is the snapshot in the state file. *)
Record daemon : Type := mkDaemon {
  d_mgr : mgr;
  d_udp : option UdpgwServer.Server;
  d_udpState : option UDPGWState;
  d_gw : option Gateway.Gateway;
  d_prev : gmap Z IOBase;
  d_lastTick : Z;
  d_started : Z;
  d_events : list Event;
  d_warnings : list gostring;
  d_killing : gmap Z Z;
  d_kills : list Z;
  d_published : option State
}.

Definition set_mgr x d := mkDaemon x (d_udp d) (d_udpState d) (d_gw d) (d_prev d)
  (d_lastTick d) (d_started d) (d_events d) (d_warnings d) (d_killing d) (d_kills d) (d_published d).
Definition set_udp x y d := mkDaemon (d_mgr d) x y (d_gw d) (d_prev d)
  (d_lastTick d) (d_started d) (d_events d) (d_warnings d) (d_killing d) (d_kills d) (d_published d).
Definition set_prev x t d := mkDaemon (d_mgr d) (d_udp d) (d_udpState d) (d_gw d) x
  t (d_started d) (d_events d) (d_warnings d) (d_killing d) (d_kills d) (d_published d).
Definition set_events x d := mkDaemon (d_mgr d) (d_udp d) (d_udpState d) (d_gw d) (d_prev d)
  (d_lastTick d) (d_started d) x (d_warnings d) (d_killing d) (d_kills d) (d_published d).
Definition set_warnings x d := mkDaemon (d_mgr d) (d_udp d) (d_udpState d) (d_gw d) (d_prev d)
  (d_lastTick d) (d_started d) (d_events d) x (d_killing d) (d_kills d) (d_published d).
Definition set_killing x y d := mkDaemon (d_mgr d) (d_udp d) (d_udpState d) (d_gw d) (d_prev d)
  (d_lastTick d) (d_started d) (d_events d) (d_warnings d) x y (d_published d).
Definition set_published x d := mkDaemon (d_mgr d) (d_udp d) (d_udpState d) (d_gw d) (d_prev d)
  (d_lastTick d) (d_started d) (d_events d) (d_warnings d) (d_killing d) (d_kills d) x.

(** [New], at the time the manager is in the given state. *)
Definition New (s : mgr) : daemon := mkDaemon s None None None ∅ 0 0 [] [] ∅ [] None.

Variable cfg : Config.
(** [time.Now()], the version, the texts of errors, the quotient in floating point
    of a byte count and a time, and whether the state file could be written. *)
Variable clock : world -> Z.
Variable version : gostring.
Variable show_err : dberr -> gostring.
Variable scan_err : gostring.
Variable rate : Z -> Z -> Z.
Variable state_written : world -> bool.
(** The order in which Go walks a map, which may differ from time to time. *)
Variable walk_deltas : gmap gostring Z -> list (gostring * Z).
Variable walk_users : gmap gostring UserRecord -> list (gostring * UserRecord).

Definition now_of (d : daemon) : Z := clock (m_world (d_mgr d)).

(** The manager the daemon uses; the gateway answers its peer look-ups. *)
Definition users_of (d : daemon) : Manager :=
  mkManager cfg (mkScanner (fun pid => match d_gw d with
                                       | Some g => peer_of_pid g pid
                                       | None => None
                                       end) (udpgw_Ports (UDPGW cfg)) None).

Definition warn (msg : gostring) (d : daemon) : daemon := set_warnings (d_warnings d ++ [msg]) d.

Definition trim_events (l : list Event) : list Event :=
  if maxEvents <? len l then slice_from (len l - maxEvents) l else l.
Definition event (msg : gostring) (d : daemon) : daemon :=
  set_events (trim_events (d_events d ++ [mkEvent (now_of d) msg])) d.

Definition orDefault (s def : gostring) : gostring := match s with [] => def | _ => s end.

(** ** Accounting *)

Record account : Type := mkAccount {
  a_deltas : gmap gostring Z;
  a_next : gmap Z IOBase;
  a_live : list LiveSession;
  a_total : Z
}.

Definition add_delta (name : gostring) (n : Z) (m : gmap gostring Z) : gmap gostring Z :=
  <[name := i64 (default 0 (m !! name) + n)]> m.

(** The UDP flows of each udpgw client, by the port of its sshd side. *)
Definition udp_by_port (d : daemon) : gmap Z Z :=
  match d_udp d with
  | None => ∅
  | Some s => foldl (fun m c => <[ci_RemotePort c := default 0 (m !! ci_RemotePort c) + ci_Flows c]> m)
                ∅ (clients s)
  end.

(** What one session adds to its user, and its rate, given its base of the last
    pass. *)
Definition session_delta (prev : gmap Z IOBase) (firstTick : bool) (started dt : Z)
    (s : Session.Session) : option Z * Z :=
  match prev !! ss_PID s with
  | Some p =>
      if io_Start p =? ss_StartedAt s
      then if io_Bytes p <=? ss_Bytes s
           then let delta := ss_Bytes s - io_Bytes p in
                (Some (i64 delta), if (0 <? dt) && negb firstTick then rate delta dt else 0)
           else (None, 0)
      else if negb firstTick || (started <? ss_StartedAt s) then (Some (i64 (ss_Bytes s)), 0)
      else (None, 0)
  | None =>
      if negb firstTick || (started <? ss_StartedAt s) then (Some (i64 (ss_Bytes s)), 0)
      else (None, 0)
  end.

Definition account_session (prev : gmap Z IOBase) (firstTick : bool) (started dt : Z)
    (flows : gmap Z Z) (a : account) (s : Session.Session) : account :=
  let '(delta, bps) := session_delta prev firstTick started dt s in
  let n := foldl (fun n p => n + default 0 (flows !! p)) 0 (ss_UDPGWPorts s) in
  {| a_deltas := match delta with
                 | Some n => add_delta (ss_Username s) n (a_deltas a)
                 | None => a_deltas a
                 end;
     a_next := <[ss_PID s := mkIOBase (ss_StartedAt s) (ss_Bytes s)]> (a_next a);
     a_live := a_live a ++ [mkLive s bps n];
     a_total := u64 (a_total a + bps) |}.

Definition account_sessions (prev : gmap Z IOBase) (firstTick : bool) (started dt : Z)
    (flows : gmap Z Z) (sessions : list Session.Session) : account :=
  foldl (account_session prev firstTick started dt flows) (mkAccount ∅ ∅ [] 0) sessions.

Definition by_name (recs : list UserRecord) : gmap gostring UserRecord :=
  foldl (fun m u => <[Username u := u]> m) ∅ recs.

(** The loop over the deltas: the managed ones, also added to the records of this
    pass. *)
Definition manage (byName : gmap gostring UserRecord) (deltas : list (gostring * Z))
    : gmap gostring Z * gmap gostring UserRecord :=
  foldl (fun '(managed, byName) '(name, delta) =>
           match byName !! name with
           | Some u => (<[name := delta]> managed,
                        <[name := set_used (i64 (TrafficUsed u + delta)) u]> byName)
           | None => (managed, byName)
           end) (∅, byName) deltas.

(** ** Enforcement *)

(** [kill]: not again within ten seconds; entries older than a minute go. *)
Definition kill (s : Session.Session) (why : gostring) (d : daemon) : daemon :=
  let now := now_of d in
  let recent := match d_killing d !! ss_PID s with
                | Some t => now - t <? 10 * Gateway.Second
                | None => false
                end in
  if recent then d
  else
    let killing := filter (fun kv => now - kv.2 <= 60 * Gateway.Second)
                     (<[ss_PID s := now]> (d_killing d)) in
    let d := set_killing killing (d_kills d) d in
    let d := event (bs "disconnected " ++ ss_Username s ++ bs " from " ++
                    orDefault (ss_ClientIP s) (bs "?") ++ bs ": " ++ why) d in
    set_killing (d_killing d) (d_kills d ++ [ss_PID s]) d.

Definition kill_all (ss : list Session.Session) (why : gostring) (d : daemon) : daemon :=
  foldl (fun d s => kill s why d) d ss.

(** [users.Lock] and the event of its success. *)
Definition lock_user (name reason text : gostring) (d : daemon) : daemon :=
  let '(s, r) := Lock (users_of d) name reason (d_mgr d) in
  let d := set_mgr s d in
  if is_ok r then event text d else d.

(** The sessions over the limit: the oldest, or with the policy "newest" the last. *)
Definition victims (ss : list Session.Session) (max : Z) : list Session.Session :=
  let excess := len ss - max in
  if eqb_str (limiter_Policy (Limiter cfg)) (bs "newest")
  then slice_from (len ss - excess) ss
  else slice_to excess ss.

Definition enforce (now : Z) (name : gostring) (u : UserRecord) (ss : list Session.Session)
    (d : daemon) : daemon :=
  if negb (Disabled u) && IsExpired u now
  then lock_user name LockExpired (bs "locked " ++ name ++ bs ": expired") d
  else if negb (Disabled u) && QuotaExceeded u
  then lock_user name LockQuota (bs "locked " ++ name ++ bs ": traffic quota used up") d
  else if Disabled u && (0 <? len ss)
  then kill_all ss (bs "account is " ++ orDefault (LockReason u) (bs "locked")) d
  else if limiter_Enabled (Limiter cfg) && (0 <? MaxConnections u) && (MaxConnections u <? len ss)
  then kill_all (victims ss (MaxConnections u)) (bs "over limit " ++ itoa (MaxConnections u)) d
  else d.

Definition enforce_all (now : Z) (byUser : gmap gostring (list Session.Session))
    (byName : list (gostring * UserRecord)) (d : daemon) : daemon :=
  foldl (fun d '(name, u) => enforce now name u (default [] (byUser !! name)) d) d byName.

(** ** Publishing *)

Definition publish (p : option (list LiveSession * Z)) (d : daemon) : daemon :=
  let '(sessions, total) := default ([], 0) p in
  let udp := match d_udpState d with
             | Some u => match d_udp d with
                         | Some s => Some (mkUDPGW (us_Mode u) (us_Ports u) (us_Failed u)
                                             (Some (UdpgwServer.stats s)) (us_Healthy u))
                         | None => Some u
                         end
             | None => None
             end in
  let st := {| st_Version := version;
               st_StartedAt := d_started d;
               st_UpdatedAt := match p with Some _ => now_of d | None => 0 end;
               st_Interval := limiter_IntervalSecs (Limiter cfg);
               st_Sessions := sessions;
               st_UDPGW := udp;
               st_Gateway := Gateway.stats <$> d_gw d;
               st_Peers := match d_gw d with Some g => Peers g | None => ∅ end;
               st_IOBase := d_prev d;
               st_Events := d_events d;
               st_Warnings := d_warnings d;
               st_TotalBps := total |} in
  if state_written (m_world (d_mgr d)) then set_published (Some st) d else d.

(** ** One pass *)

Definition list_users (d : daemon) : daemon * result dberr (list UserRecord) :=
  let '(w, opened) := db_lock (m_world (d_mgr d)) in
  (set_mgr (set_world w (d_mgr d)) d,
   match ListUsers opened (m_db (d_mgr d)) with (l, None) => Ok l | (_, Some e) => Err e end).

Definition add_traffic (managed : gmap gostring Z) (now : Z) (d : daemon) : daemon :=
  match db_write (fun o => AddTraffic o (walk_deltas managed) now) (d_mgr d) with
  | (s, Ok _) => set_mgr s d
  | (s, Err (dbFailed e)) => warn (bs "save traffic: " ++ show_err e) (set_mgr s d)
  | (s, Err _) => set_mgr s d
  end.

Definition tick (d : daemon) : daemon :=
  let now := now_of d in
  match list_users d with
  | (d, Err e) => warn (bs "read users: " ++ show_err e) d
  | (d, Ok recs) =>
      let byName := by_name recs in
      match Scan little_endian (mgr_Scanner (users_of d)) (proc_env (m_world (d_mgr d))) with
      | None => warn (bs "scan sessions: " ++ scan_err) d
      | Some sessions =>
          let dt := now - d_lastTick d in
          let firstTick := d_lastTick d =? 0 in
          let a := account_sessions (d_prev d) firstTick (d_started d) dt (udp_by_port d) sessions in
          let d := set_prev (a_next a) now d in
          let '(managed, byName) := manage byName (walk_deltas (a_deltas a)) in
          let d := add_traffic managed now d in
          let d := enforce_all now (ByUser sessions) (walk_users byName) d in
          publish (Some (a_live a, a_total a)) d
      end
  end.

(** ** The UDP gateway *)

(** [net.JoinHostPort] of each port. *)
Definition join_host_port (host : gostring) (p : Z) : gostring :=
  if bool_decide (x3a ∈ host)
  then bs "[" ++ host ++ bs "]:" ++ itoa p else host ++ bs ":" ++ itoa p.
Definition udpAddrs : list gostring :=
  join_host_port (udpgw_Listen (UDPGW cfg)) <$> udpgw_Ports (UDPGW cfg).

(** [startUDPGW]: what [badvpn.Apply] and [Server.Listen] answer (the error of each
    address that could not be opened, in the order Go walks the map). *)
Definition startUDPGW (badvpn_apply : option gostring) (failed : list (gostring * gostring))
    (d : daemon) : daemon :=
  let c := UDPGW cfg in
  let st := mkUDPGW (udpgw_Mode c) (udpgw_Ports c) ∅ None false in
  if negb (udpgw_Enabled c)
  then set_udp (d_udp d) (Some (mkUDPGW (bs "off") (udpgw_Ports c) ∅ None false)) d
  else if eqb_str (udpgw_Mode c) (bs "badvpn")
  then let d := set_udp (d_udp d) (Some st) d in
       match badvpn_apply with
       | Some e => warn (bs "badvpn-udpgw: " ++ e) d
       | None => d
       end
  else
    let st := mkUDPGW (udpgw_Mode c) (udpgw_Ports c)
                (foldl (fun m '(addr, e) => <[addr := e]> m) ∅ failed) None false in
    foldl (fun d '(addr, e) => warn (bs "udpgw " ++ addr ++ bs ": " ++ e) d)
      (set_udp (Some NewServer) (Some st) d) failed.

Definition set_healthy (h : bool) (u : UDPGWState) : UDPGWState :=
  mkUDPGW (us_Mode u) (us_Ports u) (us_Failed u) (us_Stats u) h.

(** [watchdog]: what the probes before and after the restart answer; the result
    also tells whether the badvpn unit was restarted. *)
Definition watchdog (healthy after : bool) (badvpn_apply : option gostring)
    (failed : list (gostring * gostring)) (d : daemon) : daemon * bool :=
  if negb (udpgw_Enabled (UDPGW cfg)) then (d, false)
  else
    let was := match d_udpState d with Some u => us_Healthy u | None => false end in
    let d := set_udp (d_udp d) (set_healthy healthy <$> d_udpState d) d in
    if healthy then (d, false)
    else
      let d := if was then event (bs "UDP gateway stopped answering — restarting it") d else d in
      if eqb_str (udpgw_Mode (UDPGW cfg)) (bs "badvpn") then (d, true)
      else
        let d := set_udp (UdpgwServer.Close <$> d_udp d) (d_udpState d) d in
        let d := startUDPGW badvpn_apply failed d in
        (set_udp (d_udp d) (set_healthy after <$> d_udpState d) d, false).

(** ** Start and stop *)

(** The parts of [Run] that set the time of the start and take over from an earlier
    daemon. *)
Definition set_started (t : Z) (d : daemon) : daemon :=
  mkDaemon (d_mgr d) (d_udp d) (d_udpState d) (d_gw d) (d_prev d) (d_lastTick d)
    t (d_events d) (d_warnings d) (d_killing d) (d_kills d) (d_published d).
Definition take_over (old : option State) (d : daemon) : daemon :=
  match old with
  | Some st => set_events (st_Events st) (set_prev (st_IOBase st) (d_lastTick d) d)
  | None => d
  end.

Definition gateway_config : Gateway.Config :=
  let c := Config.Gateway cfg in
  Gateway.mkConfig (gateway_Listen c) (gateway_Ports c) (gateway_MaxConnections c) 0
    (i64 (gateway_HandshakeTimeoutSecs c * Gateway.Second))
    (i64 (ssh_LoginGraceTime (SSH cfg) * Gateway.Second)).

(** The sshd it starts: [bin] with the main configuration. *)
Definition gateway_backend (bin : gostring) : Gateway.SSHDBackend :=
  Gateway.mkSSHDBackend bin (ssh_ConfigPath (SSH cfg)).

Definition set_gw x d := mkDaemon (d_mgr d) (d_udp d) (d_udpState d) x (d_prev d)
  (d_lastTick d) (d_started d) (d_events d) (d_warnings d) (d_killing d) (d_kills d) (d_published d).

(** [startGateway]: whether sshd was found and the certificate is there, what the
    ports answer and which pids are alive; [show_start] is the text of an error. *)
Definition startGateway (old : option State) (bin cert : bool)
    (listen : Z -> option gostring) (alive : Z -> bool)
    (show_start : newerr + starterr -> gostring) (d : daemon) : daemon :=
  let c := Config.Gateway cfg in
  if negb (gateway_Enabled c) || (len (gateway_Ports c) =? 0) then d
  else if negb bin then warn (bs "gateway: sshd binary not found") d
  else match Gateway.New true cert gateway_config with
       | Err e => warn (show_start (inl e)) d
       | Ok g =>
           let g := match old with
                    | Some st => RestorePeers alive (st_Peers st) g
                    | None => g
                    end in
           let '(g, e) := Gateway.Start listen g in
           let d := match e with Some e => warn (show_start (inr e)) d | None => d end in
           set_gw (Some g) d
       end.

(** The deferred end of [Run]. *)
Definition shutdown (d : daemon) : daemon :=
  let d := set_udp (UdpgwServer.Close <$> d_udp d) (d_udpState d) d in
  let d := set_gw ((fun g => (Gateway.Close g).1) <$> d_gw d) d in
  publish None d.

(** The loop of [Run]: what its select picks. *)
Inductive loop_event : Type :=
| onTick
| onWatch (healthy after : bool) (badvpn_apply : option gostring)
    (failed : list (gostring * gostring)).

Definition loop_step (d : daemon) (e : loop_event) : daemon :=
  match e with
  | onTick => tick d
  | onWatch healthy after b failed => (watchdog healthy after b failed d).1
  end.
End daemon.
