(* ===== verification/DaemonProps.v ===== *)
(** What the daemon guarantees ([Daemon]) in each pass: the limits of the
    accounts are enforced, and nothing else is disconnected. *)
From S2P Require Import Prelude GoStrings NetAddr Procfs Session.
From S2P Require Import UdpgwServer Gateway.
From S2P Require Import Config Security Store Users UsersProps Daemon.

Section proofs.
Context `{Sys : System, Cal : Calendar, Uni : Unicode, Cod : Codec UserRecord, Blt : Bolt}.
Context (cfg : Config.Config) (clock : world -> Z) (version : gostring)
  (show_err : dberr -> gostring) (scan_err : gostring) (rate : Z -> Z -> Z)
  (state_written : world -> bool)
  (walk_deltas : gmap gostring Z -> list (gostring * Z))
  (walk_users : gmap gostring UserRecord -> list (gostring * UserRecord)).
Implicit Types d : daemon.

Abbreviation tick := (tick cfg clock version show_err scan_err rate state_written walk_deltas walk_users).
Abbreviation kill := (kill clock).
Abbreviation kill_all := (kill_all clock).
Abbreviation enforce := (enforce cfg clock).
Abbreviation enforce_all := (enforce_all cfg clock).

(* ------------------------------------------------------------------ *)
(** * What a pass leaves alone                                           *)
(* ------------------------------------------------------------------ *)

(** The bases of the accounting, which only the accounting itself writes. *)
Definition bases d : gmap Z IOBase * Z * Z := (d_prev d, d_lastTick d, d_started d).

Lemma kill_bases s why d : bases (kill s why d) = bases d.
Proof. unfold Daemon.kill. by case_if. Qed.

Lemma kill_all_bases ss why d : bases (kill_all ss why d) = bases d.
Proof.
  unfold Daemon.kill_all. revert d. induction ss as [|s ss IH]; intros d; [done|].
  cbn [foldl]. by rewrite IH, kill_bases.
Qed.

Lemma lock_user_bases n r t d : bases (lock_user cfg clock n r t d) = bases d.
Proof. unfold lock_user. destruct (Lock _ _ _ _) as [s x]. by case_if. Qed.

Lemma enforce_bases now n u ss d : bases (enforce now n u ss d) = bases d.
Proof. unfold Daemon.enforce. repeat case_if; auto using lock_user_bases, kill_all_bases. Qed.

Lemma enforce_all_bases now m l d : bases (enforce_all now m l d) = bases d.
Proof.
  unfold Daemon.enforce_all. revert d. induction l as [|[n u] l IH]; intros d; [done|].
  cbn [foldl]. by rewrite IH, enforce_bases.
Qed.

Lemma add_traffic_bases managed now d :
  bases (add_traffic show_err walk_deltas managed now d) = bases d.
Proof. unfold add_traffic. destruct (db_write _ _) as [s [?|[]]]; done. Qed.

Lemma publish_bases p d : bases (publish cfg clock version state_written p d) = bases d.
Proof. unfold publish. destruct (default _ p) as [ss t]. cbv zeta. destruct (state_written _); reflexivity. Qed.

(** The sessions a pass sees, if it gets that far. *)
Definition scanned d : option (list Session.Session) :=
  match list_users d with
  | (d, Ok _) => Scan little_endian (mgr_Scanner (users_of cfg d)) (proc_env (m_world (d_mgr d)))
  | (_, Err _) => None
  end.

Lemma list_users_bases d : bases (list_users d).1 = bases d.
Proof. unfold list_users. by destruct (db_lock _). Qed.

Lemma tick_bases d :
  bases (tick d) =
  match scanned d with
  | Some ss =>
      (a_next (account_sessions rate (d_prev d) (d_lastTick d =? 0) (d_started d)
         (now_of clock d - d_lastTick d) (udp_by_port d) ss),
       now_of clock d, d_started d)
  | None => bases d
  end.
Proof.
  unfold Daemon.tick, scanned. pose proof (list_users_bases d) as Hb.
  assert (Hu : d_udp (list_users d).1 = d_udp d) by (unfold list_users; by destruct (db_lock _)).
  destruct (list_users d) as [d1 [recs|e]]; cbn [fst] in *; [|done].
  destruct (Scan _ _ _) as [ss|]; [|done]. cbv zeta.
  destruct (manage _ _) as [managed byName].
  rewrite publish_bases, enforce_all_bases, add_traffic_bases.
  unfold bases in *. injection Hb as Hp Hl Hs. unfold udp_by_port. cbn [set_prev d_prev d_lastTick d_started].
  rewrite Hp, Hl, Hs, Hu. reflexivity.
Qed.

(* ------------------------------------------------------------------ *)
(** * Accounting                                                         *)
(* ------------------------------------------------------------------ *)

Lemma account_next prev first started dt flows ss a :
  a_next (foldl (account_session rate prev first started dt flows) a ss) =
  foldl (fun m s => <[ss_PID s := mkIOBase (ss_StartedAt s) (ss_Bytes s)]> m) (a_next a) ss.
Proof.
  revert a. induction ss as [|s ss IH]; intros a; [done|]. cbn [foldl]. rewrite IH.
  unfold account_session. by destruct (session_delta _ _ _ _ _ _).
Qed.

(** The base a pass leaves for a session. *)
Lemma account_next_lookup prev first started dt flows ss s :
  NoDup (ss_PID <$> ss) -> s ∈ ss ->
  a_next (account_sessions rate prev first started dt flows ss) !! ss_PID s =
  Some (mkIOBase (ss_StartedAt s) (ss_Bytes s)).
Proof.
  unfold account_sessions. rewrite account_next. cbn [a_next]. generalize (∅ : gmap Z IOBase).
  induction ss as [|x ss IH]; intros m Hnd Hs; [by apply elem_of_nil in Hs|].
  rewrite fmap_cons, NoDup_cons in Hnd. destruct Hnd as [Hx Hnd]. cbn [foldl].
  apply elem_of_cons in Hs as [->|Hs]; [|by apply IH].
  clear IH Hnd. induction ss as [|y ss IH] using rev_ind.
  - cbn. by rewrite lookup_insert_eq.
  - rewrite foldl_app. cbn [foldl]. rewrite fmap_app, elem_of_app in Hx. cbn in Hx.
    rewrite lookup_insert_ne by set_solver. apply IH. set_solver.
Qed.

(** The sum of some contributions. *)
Definition total (l : list Z) : Z := foldr Z.add 0 l.
Lemma total_app l k : total (l ++ k) = total l + total k.
Proof. unfold total. induction l as [|y l IH]; cbn [app foldr]; lia. Qed.
Lemma total_snoc l x : total (l ++ [x]) = total l + x.
Proof. rewrite total_app. cbn. lia. Qed.

(** What a user is charged in a pass is the sum over its sessions, as an [int64]. *)
Lemma account_deltas prev first started dt flows ss name :
  default 0 (a_deltas (account_sessions rate prev first started dt flows ss) !! name) =
  i64 (total ((fun s => default 0 (session_delta rate prev first started dt s).1) <$>
    filter (fun s => ss_Username s = name) ss)).
Proof.
  unfold account_sessions. induction ss as [|s ss IH] using rev_ind; [done|].
  rewrite foldl_app. cbn [foldl]. revert IH.
  generalize (foldl (account_session rate prev first started dt flows) (mkAccount ∅ ∅ [] 0) ss).
  intros a IH. rewrite filter_app. unfold account_session.
  assert (Hsum : forall n, default 0 (session_delta rate prev first started dt s).1 = n ->
    total ((fun s => default 0 (session_delta rate prev first started dt s).1) <$>
      (filter (fun s => ss_Username s = name) ss ++ filter (fun s => ss_Username s = name) [s])) =
    total ((fun s => default 0 (session_delta rate prev first started dt s).1) <$>
      filter (fun s => ss_Username s = name) ss) + if decide (ss_Username s = name) then n else 0).
  { intros n <-. destruct (decide (ss_Username s = name)) as [Hn|Hn].
    - rewrite filter_cons_True, filter_nil, fmap_app by done. apply total_snoc.
    - rewrite filter_cons_False, filter_nil, app_nil_r by done. lia. }
  destruct (session_delta rate prev first started dt s) as [[n|] bps]; cbn [a_deltas fst default] in *.
  - rewrite (Hsum n) by done. unfold add_delta. case_decide as Hn.
    + rewrite Hn, lookup_insert_eq. cbn [default]. rewrite IH. apply swrap_add_l.
    + by rewrite lookup_insert_ne, Z.add_0_r.
  - rewrite (Hsum 0) by done. rewrite IH. f_equal. case_decide; lia.
Qed.

(* ------------------------------------------------------------------ *)
(** ** Over several passes *)

(** Where the counting of a session starts: at its base of an earlier pass (or of
    the daemon before a restart), at zero when it opened since, and otherwise, when
    it was already open as the daemon started, at what it has now. *)
Definition counted_from (pid start b : Z) d : Z :=
  match d_prev d !! pid with
  | Some p =>
      if io_Start p =? start then (if io_Bytes p <=? b then io_Bytes p else b)
      else if negb (d_lastTick d =? 0) || (d_started d <? start) then 0 else b
  | None => if negb (d_lastTick d =? 0) || (d_started d <? start) then 0 else b
  end.

Lemma small_i64 x : 0 <= x < 2 ^ 63 -> i64 x = x.
Proof. intros Hx. apply swrap_small; [lia|]. change (64 - 1) with 63. lia. Qed.

(** The count of one session in a pass starts at the counter it is counted from. *)
Lemma session_delta_counted d dt s :
  0 <= ss_Bytes s < 2 ^ 63 -> (forall pid p, d_prev d !! pid = Some p -> 0 <= io_Bytes p) ->
  default 0 (session_delta rate (d_prev d) (d_lastTick d =? 0) (d_started d) dt s).1 =
  ss_Bytes s - counted_from (ss_PID s) (ss_StartedAt s) (ss_Bytes s) d /\
  0 <= counted_from (ss_PID s) (ss_StartedAt s) (ss_Bytes s) d <= ss_Bytes s.
Proof.
  intros Hb Hp. unfold session_delta, counted_from. destruct (d_prev d !! ss_PID s) as [p|] eqn:Ep.
  - specialize (Hp _ p Ep). case_if.
    + case_bool (io_Bytes p <=? ss_Bytes s); cbn [fst default]; [|lia].
      rewrite small_i64 by lia. unfold id. lia.
    + case_if; cbn [fst default]; [|lia]. rewrite small_i64 by lia. unfold id. lia.
  - case_if; cbn [fst default]; [|lia]. rewrite small_i64 by lia. unfold id. lia.
Qed.

(* ------------------------------------------------------------------ *)
(** * Enforcement                                                        *)
(* ------------------------------------------------------------------ *)

(** The process was told to end within the last ten seconds. *)
Definition recently d (pid : Z) : bool :=
  match d_killing d !! pid with
  | Some t => now_of clock d - t <? 10 * Gateway.Second
  | None => false
  end.

Lemma kill_world s why d : d_mgr (kill s why d) = d_mgr d.
Proof. unfold Daemon.kill. by case_if. Qed.

Lemma kill_kills s why d :
  d_kills (kill s why d) = d_kills d ++ (if recently d (ss_PID s) then [] else [ss_PID s]).
Proof. unfold Daemon.kill, recently. case_if; [by rewrite app_nil_r|done]. Qed.

Lemma kill_recently s why d pid :
  recently (kill s why d) pid = recently d pid || bool_decide (pid = ss_PID s).
Proof.
  clear rate.
  unfold recently. unfold now_of at 1. rewrite kill_world. unfold Daemon.kill.
  destruct (match d_killing d !! ss_PID s with
            | Some t => now_of clock d - t <? 10 * Gateway.Second | None => false end) eqn:E.
  - case_bool_decide as Hp; [subst|by rewrite orb_false_r]. rewrite E. done.
  - cbn [d_killing set_killing event set_events]. fold (now_of clock d).
    set (t0 := now_of clock d) in *. destruct (decide (pid = ss_PID s)) as [->|Hne].
    + rewrite (map_lookup_filter_Some_2 _ _ _ t0); [|by rewrite lookup_insert_eq|cbn; unfold Gateway.Second; lia].
      rewrite bool_decide_eq_true_2, orb_true_r by done. unfold Gateway.Second. lia.
    + rewrite bool_decide_eq_false_2, orb_false_r by done.
      destruct (d_killing d !! pid) as [t|] eqn:Ep.
      * destruct (t0 - t <? 10 * Gateway.Second) eqn:Et.
        -- rewrite (map_lookup_filter_Some_2 _ _ _ t); [done|by rewrite lookup_insert_ne|].
           cbn. unfold Gateway.Second in *. lia.
        -- destruct (filter _ _ !! pid) as [t'|] eqn:Ef; [|done].
           apply map_lookup_filter_Some in Ef as [Ef _]. rewrite lookup_insert_ne in Ef by done.
           by simplify_eq.
      * rewrite map_lookup_filter_None_2; [done|]. left. by rewrite lookup_insert_ne.
Qed.

(** Disconnecting some sessions: each that was not told so recently, once. *)
Lemma kill_all_spec ss why d :
  NoDup (ss_PID <$> ss) ->
  d_kills (kill_all ss why d) = d_kills d ++ filter (fun pid => recently d pid = false) (ss_PID <$> ss) /\
  (forall pid, recently (kill_all ss why d) pid = recently d pid || bool_decide (pid ∈ ss_PID <$> ss)).
Proof.
  unfold Daemon.kill_all. revert d. induction ss as [|s ss IH]; intros d Hnd; cbn [foldl].
  { rewrite fmap_nil, filter_nil, app_nil_r. split; [done|]. intros pid.
    by rewrite bool_decide_eq_false_2, orb_false_r by (apply not_elem_of_nil). }
  rewrite fmap_cons, NoDup_cons in Hnd. destruct Hnd as [Hs Hnd].
  destruct (IH (kill s why d) Hnd) as [Hk Hr]. split.
  - rewrite Hk, kill_kills, <- app_assoc, fmap_cons. f_equal.
    assert (Hf : filter (fun pid => recently (kill s why d) pid = false) (ss_PID <$> ss) =
                 filter (fun pid => recently d pid = false) (ss_PID <$> ss)).
    { apply filter_elem_ext. intros pid Hpid. rewrite kill_recently.
      rewrite bool_decide_eq_false_2, orb_false_r by congruence. done. }
    rewrite Hf. destruct (recently d (ss_PID s)) eqn:E.
    + by rewrite filter_cons_False by (rewrite E; done).
    + by rewrite filter_cons_True.
  - intros pid. rewrite Hr, kill_recently, <- orb_assoc, fmap_cons. f_equal.
    rewrite <- bool_decide_or. apply bool_decide_ext. by rewrite elem_of_cons.
Qed.

(** C23 The connection limit is enforced exactly: when an account in good standing
    has more sessions than it may, the pass picks as many victims as are over the
    limit (the oldest, or with the policy "newest" the newest), so that the limit
    remains; every victim has been told to end within the last ten seconds,
    each once, and no other session of the account is touched. *)
Theorem limit_enforced now name u ss d d' :
  Disabled u = false -> IsExpired u now = false -> QuotaExceeded u = false ->
  limiter_Enabled (Limiter cfg) = true -> 0 < MaxConnections u < len ss ->
  NoDup (ss_PID <$> ss) -> Sorted session_le ss ->
  enforce now name u ss d = d' ->
  let v := victims cfg ss (MaxConnections u) in
  d' = kill_all v (bs "over limit " ++ itoa (MaxConnections u)) d /\
  (exists keep, len keep = MaxConnections u /\
     if eqb_str (limiter_Policy (Limiter cfg)) (bs "newest")
     then ss = keep ++ v /\ (forall a b, a ∈ keep -> b ∈ v -> session_le a b)
     else ss = v ++ keep /\ (forall a b, a ∈ v -> b ∈ keep -> session_le a b)) /\
  d_kills d' = d_kills d ++ filter (fun pid => recently d pid = false) (ss_PID <$> v) /\
  forall pid, recently d' pid = recently d pid || bool_decide (pid ∈ ss_PID <$> v).
Proof.
  clear rate.
  intros Hdis Hexp Hq Hlim Hmax Hnd Hsort <- v.
  assert (He : enforce now name u ss d = kill_all v (bs "over limit " ++ itoa (MaxConnections u)) d).
  { unfold Daemon.enforce. rewrite Hdis, Hexp, Hq, Hlim. cbn [negb andb].
    by rewrite (proj2 (Z.ltb_lt 0 _)), (proj2 (Z.ltb_lt _ (len ss))) by lia. }
  assert (Hss : StronglySorted session_le ss).
  { apply Sorted_StronglySorted; [|done]. intros x y z. unfold session_le. lia. }
  assert (Hkeep : exists keep, len keep = MaxConnections u /\
     if eqb_str (limiter_Policy (Limiter cfg)) (bs "newest") then ss = keep ++ v else ss = v ++ keep).
  { subst v. unfold victims. destruct (eqb_str _ _).
    - exists (slice_to (MaxConnections u) ss). rewrite len_slice_to by lia. split; [done|].
      replace (len ss - (len ss - MaxConnections u)) with (MaxConnections u) by lia.
      by rewrite slice_to_from.
    - exists (slice_from (len ss - MaxConnections u) ss). rewrite len_slice_from by lia.
      split; [lia|]. by rewrite slice_to_from. }
  destruct Hkeep as (keep & Hlen & Hcut). rewrite He. split; [done|].
  assert (Hv : NoDup (ss_PID <$> v)).
  { destruct (eqb_str _ _); rewrite Hcut, fmap_app, NoDup_app in Hnd; tauto. }
  destruct (kill_all_spec v (bs "over limit " ++ itoa (MaxConnections u)) d Hv) as [Hk Hr].
  split; [|done]. exists keep. split; [done|].
  destruct (eqb_str _ _); (split; [done|]); rewrite Hcut in Hss; intros a b Ha Hb;
    by eapply (StronglySorted_app_1_elem_of session_le).
Qed.

(** ** Nobody else is disconnected *)

(** The pids a step of the daemon newly disconnects all satisfy [P]. *)
Definition adds_kills (P : Z -> Prop) d d' : Prop :=
  exists K, d_kills d' = d_kills d ++ K /\ Forall P K.

Lemma adds_none P d d' : d_kills d' = d_kills d -> adds_kills P d d'.
Proof. intros E. exists []. by rewrite app_nil_r. Qed.

Lemma adds_trans P d1 d2 d3 : adds_kills P d1 d2 -> adds_kills P d2 d3 -> adds_kills P d1 d3.
Proof.
  intros (K1 & E1 & H1) (K2 & E2 & H2). exists (K1 ++ K2). rewrite E2, E1, app_assoc.
  split; [done|]. by apply Forall_app.
Qed.

Lemma kill_all_adds (P : Z -> Prop) ss why d :
  (forall s, s ∈ ss -> P (ss_PID s)) -> adds_kills P d (kill_all ss why d).
Proof.
  unfold Daemon.kill_all. revert d. induction ss as [|s ss IH]; intros d Hp; cbn [foldl].
  { by apply adds_none. }
  eapply adds_trans; [|apply IH; intros x Hx; apply Hp; by right].
  exists (if recently d (ss_PID s) then [] else [ss_PID s]). split; [apply kill_kills|].
  destruct (recently d (ss_PID s)); repeat constructor. apply Hp. left.
Qed.

(** The account deserves it: it is disabled, or has more sessions than it may. *)
Definition to_disconnect (u : UserRecord) (ss : list Session.Session) : Prop :=
  Disabled u = true \/
  limiter_Enabled (Limiter cfg) = true /\ 0 < MaxConnections u < len ss.

Lemma enforce_adds (P : Z -> Prop) now name u ss d :
  (forall s, s ∈ ss -> to_disconnect u ss -> P (ss_PID s)) ->
  adds_kills P d (enforce now name u ss d).
Proof.
  clear rate.
  intros Hp. unfold Daemon.enforce. case_if.
  { apply adds_none. unfold lock_user. destruct (Lock _ _ _ _) as [s x]. by destruct (is_ok x). }
  case_if.
  { apply adds_none. unfold lock_user. destruct (Lock _ _ _ _) as [s x]. by destruct (is_ok x). }
  case_if.
  { apply kill_all_adds. intros s Hs. apply Hp; [done|]. left.
    by apply andb_true_iff in E1 as [? _]. }
  case_if; [|by apply adds_none].
  apply andb_true_iff in E2 as [E2 Hm]. apply andb_true_iff in E2 as [Hl H0].
  apply kill_all_adds. intros s Hs. apply Hp; [|right; split; [done|lia]].
  unfold victims in Hs. by case_if_in Hs; [apply slice_from_elem in Hs|apply slice_to_elem in Hs].
Qed.

Lemma enforce_all_adds (P : Z -> Prop) now (byUser : gmap gostring (list Session.Session)) l d :
  (forall name u s, (name, u) ∈ l -> s ∈ default [] (byUser !! name) ->
     to_disconnect u (default [] (byUser !! name)) -> P (ss_PID s)) ->
  adds_kills P d (enforce_all now byUser l d).
Proof.
  unfold Daemon.enforce_all. revert d. induction l as [|[name u] l IH]; intros d Hp; cbn [foldl].
  { by apply adds_none. }
  eapply adds_trans; [apply enforce_adds|apply IH].
  - intros s Hs Hd. eapply Hp; [left|done..].
  - intros n v s Hn. apply Hp. by right.
Qed.

Lemma by_name_lookup recs name u :
  by_name recs !! name = Some u -> u ∈ recs /\ Username u = name.
Proof.
  unfold by_name. induction recs as [|v recs IH] using rev_ind; [done|].
  rewrite foldl_app. cbn [foldl].
  intros [[<- <-]|[_ Hu]]%lookup_insert_Some; [split; [set_solver|done]|].
  destruct (IH Hu). split; [set_solver|done].
Qed.

(** Adding the traffic of the pass changes the counters only. *)
Lemma manage_lookup byName deltas name u :
  (manage byName deltas).2 !! name = Some u ->
  exists u0, byName !! name = Some u0 /\ Username u = Username u0 /\ Disabled u = Disabled u0 /\
    MaxConnections u = MaxConnections u0.
Proof.
  unfold manage. revert u. induction deltas as [|[n delta] deltas IH] using rev_ind; intros u.
  { cbn. eauto. }
  rewrite foldl_app. cbn [foldl].
  destruct (foldl _ _ deltas) as [managed bn]. cbn [snd] in *.
  destruct (bn !! n) as [v|] eqn:Ev; cbn [snd]; [|by apply IH].
  intros [[<- <-]|[_ Hu]]%lookup_insert_Some; [|by apply IH].
  destruct (IH v Ev) as (u0 & ? & ? & ? & ?). by exists u0.
Qed.

(** C24 The daemon disconnects nobody without a reason: every pid that a pass kills
    is a session it has just seen, of a managed account that is disabled or has
    more live sessions than its limit allows (with the limiter on). *)
Theorem kills_justified d :
  (forall m, walk_users m ≡ₚ map_to_list m) ->
  exists K, d_kills (tick d) = d_kills d ++ K /\
  forall pid, pid ∈ K -> exists ss s n u,
    scanned d = Some ss /\ s ∈ ss /\ ss_PID s = pid /\
    user (m_db (d_mgr d)) n = Some u /\ Username u = ss_Username s /\
    (Disabled u = true \/
     limiter_Enabled (Limiter cfg) = true /\
     0 < MaxConnections u < len (filter (fun x => ss_Username x = Username u) ss)).
Proof.
  intros walk_users_all. enough (adds_kills (fun pid => exists ss s n u,
    scanned d = Some ss /\ s ∈ ss /\ ss_PID s = pid /\
    user (m_db (d_mgr d)) n = Some u /\ Username u = ss_Username s /\
    (Disabled u = true \/
     limiter_Enabled (Limiter cfg) = true /\
     0 < MaxConnections u < len (filter (fun x => ss_Username x = Username u) ss))) d (tick d)) as (K & HK & Hf).
  { exists K. split; [done|]. intros pid Hpid. rewrite Forall_forall in Hf. by apply Hf. }
  unfold Daemon.tick, scanned. destruct (list_users d) as [d1 x] eqn:El.
  assert (H1 : d_kills d1 = d_kills d /\ forall recs, x = Ok recs ->
     forall u, u ∈ recs -> exists n, user (m_db (d_mgr d)) n = Some u).
  { unfold list_users in El. destruct (db_lock _) as [w b]. injection El as <- <-. split; [done|].
    intros recs Hr u Hu. apply (ListUsers_stored b). destruct (ListUsers _ _) as [l [e|]]; [done|].
    by injection Hr as <-. }
  destruct H1 as [Hk Hst]. destruct x as [recs|e]; [|by apply adds_none].
  destruct (Scan _ _ _) as [ss|]; [|by apply adds_none]. cbv zeta.
  destruct (manage _ _) as [managed byName] eqn:Em.
  apply (adds_trans _ d d1); [by apply adds_none|].
  match goal with |- adds_kills _ _ (publish _ _ _ _ _ (Daemon.enforce_all _ _ ?now ?bu ?l ?d2)) =>
    apply (adds_trans _ _ d2); [|apply (adds_trans _ _ (enforce_all now bu l d2))] end.
  - apply adds_none. unfold add_traffic. destruct (db_write _ _) as [s0 [?|[]]]; done.
  - apply enforce_all_adds. intros name u s Hin Hs Hd. rewrite ByUser_lookup in Hs, Hd.
    rewrite walk_users_all, elem_of_map_to_list in Hin.
    destruct (manage_lookup _ _ name u ltac:(by rewrite Em)) as (u0 & Hu0 & Hn & Hdis & Hmax).
    apply by_name_lookup in Hu0 as [Hr <-]. apply list_elem_of_filter in Hs as [Hsn Hs].
    destruct (Hst recs eq_refl u0 Hr) as [n Hu]. exists ss, s, n, u0.
    split_and!; try done. unfold to_disconnect in Hd. by rewrite <- Hdis, <- Hmax.
  - apply adds_none. unfold publish. cbv zeta. destruct (state_written _); reflexivity.
Qed.
End proofs.

(* ------------------------------------------------------------------ *)
(** * A concrete system                                                  *)
(* ------------------------------------------------------------------ *)

(** A machine with one session, of [alice], that has moved [w] bytes. *)
Definition busy_system : System := {|
  world := Z;
  euid _ := 0;
  read_file _ _ := None;
  exec _ _ w := (w, ([], true));
  db_lock w := (w, true);
  little_endian := true;
  proc_env w :=
    mkProcenv (pe_dir demo_proc) (pe_stat demo_proc) (pe_owner demo_proc) (pe_btime demo_proc)
      (fun _ => Some (bs "rchar: " ++ itoa w ++ [x0a] ++ bs "wchar: " ++ itoa w))
      (pe_fds demo_proc) None None (pe_passwd demo_proc);
  kill_answers _ w := (w, (None, None, None, fun _ => None));
  float_overflow _ := 0
|}.

Definition busy_calendar : Calendar.
Proof.
  refine {| max_days := 100000; add_days t n := t + n * (24 * Hour);
            format_date _ := bs "2030-01-01"; ceil_days d := (d + 24 * Hour - 1) / (24 * Hour) |}.
  intros t n Hn. unfold Hour. lia.
Defined.

#[local] Existing Instances busy_system busy_calendar user_codec keyed_bolt ascii_tables.

Definition busy_clock (_ : @world busy_system) : Z := 1700000100 * 1000000000.
Abbreviation busy_tick := (tick Defaults busy_clock (bs "test") (fun _ => []) [] (fun _ _ => 0)
  (fun _ => true) map_to_list map_to_list).
Definition at_bytes (db : DB) (w : Z) : mgr := mkMgr db (w : @world busy_system) [].
Definition alice_later : UserRecord := set_expiry (1800000000 * 1000000000) alice.
Definition busy_daemon : daemon := New (at_bytes (with_user alice_later empty_db) 0).

Definition alice_start : Z := 1700000005 * 1000000000.
Definition alice_session (w : Z) : Session.Session :=
  mkSession 11 10 (bs "alice") 1001 [] 0 0 (bs "ssh") alice_start w [].

Definition crowd : list Session.Session :=
  (fun i => mkSession (20 + i) 10 (bs "alice") 1001 [] 0 0 (bs "ssh") (alice_start + i) 0 [])
    <$> [0; 1; 2].

Lemma limit_enforced_witness :
  d_kills (enforce Defaults busy_clock 0 (bs "alice") alice crowd busy_daemon) = [20].
Proof.
  assert (Hnd : NoDup (ss_PID <$> crowd)) by (vm_compute; repeat constructor; set_solver).
  assert (Hs : Sorted session_le crowd).
  { repeat constructor; unfold session_le; cbn; lia. }
  destruct (limit_enforced Defaults busy_clock 0 (bs "alice") alice crowd busy_daemon _
    eq_refl eq_refl eq_refl eq_refl (conj eq_refl eq_refl) Hnd Hs eq_refl) as (_ & _ & Hk & _).
  etransitivity; [exact Hk|vm_compute; reflexivity].
Defined.

Definition alice_off : UserRecord := set_lock true LockManual alice.

Lemma kills_justified_witness :
  exists K, d_kills (busy_tick (New (at_bytes (with_user alice_off empty_db) 5))) = [] ++ K /\
  K = [11] /\ forall pid, pid ∈ K -> exists n u,
    user (with_user alice_off empty_db) n = Some u /\ Username u = bs "alice".
Proof.
  destruct (kills_justified Defaults busy_clock (bs "test") (fun _ => []) [] (fun _ _ => 0)
    (fun _ => true) map_to_list map_to_list
    (New (at_bytes (with_user alice_off empty_db) 5)) (fun _ => Permutation_refl _)) as (K & HK & Hj).
  assert (HK' : d_kills (busy_tick (New (at_bytes (with_user alice_off empty_db) 5))) = [11])
    by (vm_compute; reflexivity).
  assert (K = [11]) as -> by (rewrite HK' in HK; cbn in HK; by symmetry).
  exists [11]. split; [exact HK|]. split; [done|].
  intros pid Hpid. destruct (Hj pid Hpid) as (ss & s & n & u & Hss & Hs & _ & Hu & Hn & _).
  exists n, u. split; [exact Hu|]. rewrite Hn.
  assert (Hsc : scanned Defaults (New (at_bytes (with_user alice_off empty_db) 5)) = Some [alice_session 5])
    by (vm_compute; reflexivity).
  rewrite Hsc in Hss. injection Hss as <-. apply list_elem_of_singleton in Hs. by subst.
Defined.
