(* ===== verification/DaemonTraffic.v ===== *)
(** What one pass of the daemon ([Daemon.tick]) does to the traffic that is stored for an
    account: it grows by exactly what the sessions of the account are counted. *)
From S2P Require Import Prelude GoStrings NetAddr Procfs Session.
From S2P Require Import UdpgwServer Gateway.
From S2P Require Import Config Security Store Users UsersProps Daemon DaemonProps.

Section proofs.
Context `{Sys : System, Cal : Calendar, Uni : Unicode, Cod : Codec UserRecord, Blt : Bolt}.
Context (cfg : Config.Config) (clock : world -> Z) (version : gostring)
  (show_err : dberr -> gostring) (scan_err : gostring) (rate : Z -> Z -> Z)
  (state_written : world -> bool)
  (walk_deltas : gmap gostring Z -> list (gostring * Z))
  (walk_users : gmap gostring UserRecord -> list (gostring * UserRecord)).
Implicit Types d : daemon.

Abbreviation tick := (tick cfg clock version show_err scan_err rate state_written walk_deltas walk_users).
Abbreviation enforce := (enforce cfg clock).
Abbreviation enforce_all := (enforce_all cfg clock).
Abbreviation scanned := (scanned cfg).

(** The traffic the database has for a user; no record, no traffic. *)
Definition usage (name : gostring) d : option Z := TrafficUsed <$> user (m_db (d_mgr d)) name.

(** The count of one session of the user in a pass. *)
Record charge : Type := mkCharge { ch_PID : Z; ch_Start : Z; ch_Bytes : Z; ch_Amount : Z }.
Definition charge_of d (s : Session.Session) : charge :=
  mkCharge (ss_PID s) (ss_StartedAt s) (ss_Bytes s)
    (default 0 (session_delta rate (d_prev d) (d_lastTick d =? 0) (d_started d) (now_of clock d - d_lastTick d) s).1).
Definition charges (name : gostring) d (ss : list Session.Session) : list charge :=
  charge_of d <$> filter (fun s => ss_Username s = name) ss.
Definition amount (l : list charge) : Z := total (ch_Amount <$> l).

(** A scan as [/proc] gives it: each process once, counters that fit an [int64]. *)
Definition sound_scan (ss : list Session.Session) : Prop :=
  NoDup (ss_PID <$> ss) /\ Forall (fun s => 0 <= ss_Bytes s < 2 ^ 63) ss.
Definition bases_ok d : Prop := forall pid p, d_prev d !! pid = Some p -> 0 <= io_Bytes p.

Hypothesis texts : text_stable.
Hypothesis walk_deltas_all : forall m, walk_deltas m ≡ₚ map_to_list m.

(* ------------------------------------------------------------------ *)
(** * What enforcement leaves alone                                      *)
(* ------------------------------------------------------------------ *)

Definition same_usage (name : gostring) (s s' : mgr) : Prop :=
  TrafficUsed <$> user (m_db s') name = TrafficUsed <$> user (m_db s) name.
#[local] Instance same_usage_preorder name : PreOrder (same_usage name).
Proof. split; [by intros s|intros s1 s2 s3]. unfold same_usage. congruence. Qed.

Lemma same_usage_db {A} name (c : M A) : keeps same_db c -> keeps (same_usage name) c.
Proof. intros Hc s. unfold same_usage. by rewrite (Hc s). Qed.

Lemma same_usage_update name n fn :
  (forall u, Username (fn u) = Username u /\ Notes (fn u) = Notes u /\ TrafficUsed (fn u) = TrafficUsed u /\
     LockReason (fn u) ∈ [LockReason u; []; LockManual; LockExpired; LockQuota]) ->
  keeps (same_usage name) (updateUser n (fun u => Ok (fn u))).
Proof.
  intros Hfn s. unfold same_usage, updateUser, db_write. destruct (db_lock (m_world s)) as [w b].
  destruct (UpdateUser b n _ (m_db s)) as [db' r] eqn:E.
  apply UpdateUser_user in E.
  2:{ intros u v Hu [= <-]. destruct (Hfn u) as (? & ? & ? & ?). by apply (texts u). }
  cbn [fst set_db m_db]. destruct r as [v|e]; [|by subst].
  destruct E as ((u & Hu & [= <-]) & Hv & Ho). destruct (decide (name = n)) as [->|Hne]; [|by rewrite Ho].
  rewrite Hv, Hu. cbn. by destruct (Hfn u) as (_ & _ & -> & _).
Qed.

Lemma lock_user_usage who name reason text d : reason ∈ [LockManual; LockExpired; LockQuota] ->
  usage who (lock_user cfg clock name reason text d) = usage who d.
Proof.
  intros Hr. unfold lock_user, usage.
  assert (Hk : keeps (same_usage who) (Lock (users_of cfg d) name reason)).
  { unfold Lock. repeat keep_step; try apply _; cbv beta;
      try solve [apply same_usage_db; eauto with keeps typeclass_instances].
    apply (same_usage_update who name (set_lock true (or_str reason LockManual))). intros u.
    repeat split. cbn [LockReason set_lock]. destruct reason; cbn [or_str]; set_solver. }
  specialize (Hk (d_mgr d)). destruct (Lock _ _ _ _) as [s r]. by destruct (is_ok r).
Qed.

Lemma kill_all_usage who ss why d : usage who (kill_all clock ss why d) = usage who d.
Proof.
  unfold Daemon.kill_all. revert d. induction ss as [|s ss IH]; intros d; [done|].
  cbn [foldl]. rewrite IH. unfold Daemon.kill. by case_if.
Qed.

Lemma enforce_all_usage who now m l d : usage who (enforce_all now m l d) = usage who d.
Proof.
  unfold Daemon.enforce_all. revert d. induction l as [|[n u] l IH]; intros d; [done|].
  cbn [foldl]. rewrite IH. unfold Daemon.enforce.
  repeat case_if; auto using kill_all_usage; apply lock_user_usage; set_solver.
Qed.

Lemma publish_usage who p d : usage who (publish cfg clock version state_written p d) = usage who d.
Proof. unfold publish. destruct (default _ p). cbv zeta. by destruct (state_written _). Qed.

(* ------------------------------------------------------------------ *)
(** * What the pass adds                                                 *)
(* ------------------------------------------------------------------ *)

(** The loop over the deltas keeps exactly those of the accounts that have a record. *)
Lemma manage_managed byName deltas name : NoDup deltas.*1 -> is_Some (byName !! name) ->
  (manage byName deltas).1 !! name = (list_to_map deltas : gmap gostring Z) !! name.
Proof.
  intros Hnd Hn.
  assert (H : NoDup deltas.*1 -> is_Some ((manage byName deltas).2 !! name) /\
    (manage byName deltas).1 !! name = (list_to_map deltas : gmap gostring Z) !! name); [|by apply H].
  clear Hnd. unfold manage. induction deltas as [|[n delta] deltas IH] using rev_ind; [done|].
  rewrite fmap_app, NoDup_app. intros (Hnd & Hni & _). rewrite foldl_app. cbn [foldl].
  destruct (IH Hnd) as [Hb Hm]. destruct (foldl _ _ deltas) as [managed bn]. cbn [fst snd] in *.
  rewrite list_to_map_app. destruct (decide (n = name)) as [->|Hne].
  - destruct Hb as [v Hv]. rewrite Hv. cbn [fst snd]. rewrite !lookup_insert_eq. split; [done|].
    rewrite lookup_union_r; [by rewrite list_to_map_cons, lookup_insert_eq|].
    apply not_elem_of_list_to_map_1. intros Hin. by eapply (Hni name); [|left].
  - rewrite lookup_union_l by (by rewrite list_to_map_cons, list_to_map_nil, lookup_insert_ne).
    destruct (bn !! n) as [v|]; cbn [fst snd]; [|done]. by rewrite !lookup_insert_ne.
Qed.

(** [by_name] has every user that is stored. *)
Lemma by_name_stored recs name u : u ∈ recs -> Username u = name -> is_Some (by_name recs !! name).
Proof.
  unfold by_name. induction recs as [|v recs IH] using rev_ind; [set_solver|].
  rewrite foldl_app. cbn [foldl]. intros [Hu| ->%list_elem_of_singleton]%elem_of_app <-.
  - destruct (decide (Username v = Username u)) as [E|E].
    + rewrite E, lookup_insert_eq. by eexists.
    + rewrite lookup_insert_ne by done. by apply IH.
  - rewrite lookup_insert_eq. by eexists.
Qed.

(** What [AddTraffic] does to one user when the daemon could write the database. *)
Lemma add_traffic_usage name managed now d :
  d_warnings (add_traffic show_err walk_deltas managed now d) = d_warnings d ->
  usage name (add_traffic show_err walk_deltas managed now d) =
  (fun u => let delta := default 0 (managed !! name) in if 0 <? delta then i64 (u + delta) else u) <$> usage name d.
Proof.
  intros Hw. unfold add_traffic, usage in *.
  destruct (db_write _ (d_mgr d)) as [s r] eqn:E. apply db_write_inv in E as (b & x & E & Hr).
  apply AddTraffic_user in E.
  2:{ rewrite (walk_deltas_all managed). apply NoDup_fst_map_to_list. }
  2:{ intros u dl Hu. apply (texts u); [done|..]; unfold accounted; case_if; (done || left). }
  destruct x as [a|e]; subst r.
  2:{ exfalso. cbn in Hw. by apply (f_equal length) in Hw; rewrite length_app in Hw; cbn in Hw; lia. }
  cbn [set_mgr d_mgr]. rewrite E.
  rewrite (list_to_map_proper (walk_deltas managed) (map_to_list managed)), list_to_map_to_list.
  2:{ rewrite (walk_deltas_all managed). apply NoDup_fst_map_to_list. }
  2:{ apply walk_deltas_all. }
  destruct (managed !! name) as [dl|]; cbn [default]; [|by destruct (user _ name)].
  destruct (user _ name) as [u|]; [|done]. cbn. unfold accounted. by case_if.
Qed.

Lemma kill_all_warnings ss why d : d_warnings (kill_all clock ss why d) = d_warnings d.
Proof.
  unfold Daemon.kill_all. revert d. induction ss as [|s ss IH]; intros d; [done|].
  cbn [foldl]. rewrite IH. unfold Daemon.kill. by case_if.
Qed.
Lemma enforce_all_warnings now m l d : d_warnings (enforce_all now m l d) = d_warnings d.
Proof.
  unfold Daemon.enforce_all. revert d. induction l as [|[n u] l IH]; intros d; [done|].
  cbn [foldl]. rewrite IH. unfold Daemon.enforce, lock_user.
  repeat case_if; auto using kill_all_warnings; by destruct (Lock _ _ _ _) as [s [?|?]].
Qed.
Lemma publish_warnings p d : d_warnings (publish cfg clock version state_written p d) = d_warnings d.
Proof. unfold publish. destruct (default _ p). cbv zeta. by destruct (state_written _). Qed.

Lemma total_nonneg l : Forall (fun x => 0 <= x) l -> 0 <= total l.
Proof. unfold total. induction 1; cbn [foldr]; lia. Qed.

Lemma charges_nonneg name d ss : sound_scan ss -> bases_ok d -> 0 <= amount (charges name d ss).
Proof.
  intros [_ Hb] Hp. apply total_nonneg. unfold charges. rewrite !Forall_fmap, Forall_forall. intros s Hs.
  apply list_elem_of_filter in Hs as [_ Hs]. rewrite Forall_forall in Hb. cbn.
  destruct (session_delta_counted rate d (now_of clock d - d_lastTick d) s (Hb s Hs) Hp) as [-> ?]. lia.
Qed.

(** The users that the pass reads are the stored ones. *)
Lemma list_users_stored d d1 recs name : list_users d = (d1, Ok recs) -> keyed (m_db (d_mgr d)) ->
  is_Some (usage name d) -> is_Some (by_name recs !! name).
Proof.
  unfold list_users. intros E Hk. destruct (db_lock _) as [w b]. injection E as <- E.
  unfold usage. rewrite fmap_is_Some. intros [u Hu].
  apply (by_name_stored recs name u); [|by apply Hk].
  pose proof (ListUsers_complete b (m_db (d_mgr d)) name u) as Hc.
  destruct (ListUsers b _) as [l [e|]]; [done|]. injection E as <-. by apply Hc.
Qed.

(** A pass that could read the users and the processes and save the traffic adds to the
    record of a user what its sessions are counted, and nothing else. *)
Theorem tick_usage name d ss :
  keyed (m_db (d_mgr d)) -> scanned d = Some ss -> sound_scan ss -> bases_ok d ->
  d_warnings (tick d) = d_warnings d ->
  (forall u, usage name d = Some u -> 0 <= u /\ u + amount (charges name d ss) < 2 ^ 63) ->
  usage name (tick d) = (fun u => u + amount (charges name d ss)) <$> usage name d.
Proof.
  intros Hk Hss Hsc Hp Hw Hr. pose proof (charges_nonneg name d ss Hsc Hp) as Hpos.
  pose proof (list_users_stored d) as Hst.
  assert (Hl : bases (list_users d).1 = bases d /\ usage name (list_users d).1 = usage name d /\
    d_warnings (list_users d).1 = d_warnings d) by (unfold list_users; by destruct (db_lock _)).
  unfold Daemon.tick, DaemonProps.scanned in *. destruct (list_users d) as [d1 [recs|e]] eqn:El; [|done].
  cbn [fst] in Hl. destruct Hl as (Hb & Hu & Hw1). rewrite Hss in *. cbv zeta in *.
  set (a := account_sessions _ _ _ _ _ _ _) in *. destruct (manage _ _) as [managed bn] eqn:Em.
  rewrite publish_warnings, enforce_all_warnings, <- Hw1 in Hw.
  rewrite publish_usage, enforce_all_usage, (add_traffic_usage name) by exact Hw.
  change (usage name (set_prev _ _ d1)) with (usage name d1). rewrite Hu.
  destruct (usage name d) as [u|] eqn:Eu; [|done]. cbn. f_equal. destruct (Hr u eq_refl) as [Hu0 Hmax].
  assert (Hdel : default 0 (managed !! name) = amount (charges name d ss)); [|rewrite Hdel].
  2:{ case_bool (0 <? amount (charges name d ss)); [|lia]. apply small_i64. lia. }
  assert (Hsome : is_Some (by_name recs !! name)).
  { apply (Hst d1 recs name eq_refl Hk). rewrite Eu. by eexists. }
  replace managed with (manage (by_name recs) (walk_deltas (a_deltas a))).1 by (by rewrite Em).
  rewrite manage_managed by (done || (rewrite (walk_deltas_all (a_deltas a)); apply NoDup_fst_map_to_list)).
  rewrite (list_to_map_proper (walk_deltas (a_deltas a)) (map_to_list (a_deltas a))), list_to_map_to_list;
    [|rewrite (walk_deltas_all (a_deltas a)); apply NoDup_fst_map_to_list|apply walk_deltas_all].
  unfold bases in Hb. injection Hb as Ep Elt Es. subst a. rewrite account_deltas, Ep, Elt, Es.
  change (total _) with (total ((fun s => ch_Amount (charge_of d s)) <$> filter (fun s => ss_Username s = name) ss)).
  unfold amount, charges in *. rewrite <- list_fmap_compose in *. apply small_i64. unfold compose in *. lia.
Qed.
End proofs.

(* ------------------------------------------------------------------ *)
(** * A pass that cannot save                                            *)
(* ------------------------------------------------------------------ *)

(** A database that takes no more writes (the disk is full). *)
Definition full_bolt : Bolt := {| put_ok _ _ := false |}.

Section example.
#[local] Existing Instances busy_system busy_calendar user_codec ascii_tables.
Definition pass_with (b : Bolt) : daemon -> daemon :=
  @tick busy_system busy_calendar user_codec b Defaults busy_clock (bs "test") (fun _ => []) [] (fun _ _ => 0)
    (fun _ => true) map_to_list map_to_list.

(** The pass has taken the new bases over before it saves the traffic, so what it could not
    save is never charged: alice (who had 10) moves 150 bytes, the pass at 100 cannot write,
    and the next one charges only the last 50. *)
Lemma failed_save_loses :
  let d0 := New (at_bytes (with_user alice_later empty_db) 100) in
  let d1 := pass_with full_bolt d0 in
  let d2 := pass_with keyed_bolt (set_mgr (at_bytes (m_db (d_mgr d1)) 150) d1) in
  d_warnings d1 <> [] /\ usage (bs "alice") d1 = Some 10 /\ d_prev d1 !! 11 = Some (mkIOBase alice_start 100) /\
  usage (bs "alice") d2 = Some 60.
Proof. cbv zeta. split_and!; [vm_compute; discriminate|vm_compute; reflexivity..]. Qed.
End example.
