(* ===== verification/Backup.v ===== *)
(** Backups ([src/internal/backup/engine.go]): an archive with the accounts, their
    password hashes and the configuration, made on one server and restored on
    another. The archive format (tar and gzip) and JSON are interfaces. *)
From S2P Require Import Prelude GoStrings Paths Files Config Security Store.
From S2P Require Import NetAddr Procfs Session Users.

(* ------------------------------------------------------------------ *)
(** * Data                                                               *)
(* ------------------------------------------------------------------ *)

Record BackupContents : Type := mkContents {
  bc_Version : gostring;
  bc_CreatedAt : Z;
  bc_Hostname : gostring;
  bc_Users : list UserRecord;
  bc_Config : Config;
  bc_Hashes : gmap gostring gostring
}.

Record RestoreResult : Type := mkRestored {
  rr_Contents : BackupContents;
  rr_Users : Z;
  rr_Created : list gostring;
  rr_Passwords : Z;
  rr_ConfigSaved : gostring;
  rr_Warnings : list (gostring * bool)
}.

(** What the code writes with [archive/tar] through [compress/gzip] it reads back.
    [unpack] gives the entries before the end or the first error, and whether the
    end was reached; nothing at all when there is no gzip header. *)
Definition archive_names : list gostring :=
  [bs "manifest.json"; bs "sshd_config"; bs "config.yaml"].
Class Archive : Type := {
  pack : list (gostring * gostring) -> gostring;
  unpack : gostring -> option (list (gostring * gostring) * bool);
  pack_law : forall l, Forall (fun e => e.1 ∈ archive_names) l -> unpack (pack l) = Some (l, true)
}.

Definition max_entry : Z := Z.shiftl 64 20.

Inductive berr : Type :=
| bNotRoot
| bDisk
| bList (e : merr)
| bMarshal
| bNotArchive
| bTooLarge (name : gostring)
| bDamaged
| bNoManifest
| bManifest
| bGroup
| bRestore (res : RestoreResult) (name : gostring) (e : merr)
| bRecords (e : dberr)
| bUnknown (id : gostring).

(** The hash of each wanted user in [/etc/shadow], without the marks of a lock. *)
Definition shadow_line (want : gset gostring) (out : gmap gostring gostring) (line : gostring)
    : gmap gostring gostring :=
  match split_on x3a line with
  | name :: pw :: _ =>
      if decide (name ∈ want)
      then let h := trim_left_set (bs "!") pw in
           if negb (eqb_str h []) && negb (eqb_str h (bs "*")) then <[name := h]> out else out
      else out
  | _ => out
  end.
Definition shadowHashes (users : list UserRecord) (shadow : option gostring)
    : gmap gostring gostring :=
  match shadow with
  | None => ∅
  | Some data => foldl (shadow_line (list_to_set (Username <$> users))) ∅ (split_on x0a data)
  end.

(* ------------------------------------------------------------------ *)
(** * The engine                                                         *)
(* ------------------------------------------------------------------ *)

Section backup.
Context `{System, Calendar, Disk, Archive}.
Context `{!Codec UserRecord, !Codec BackupRecord, !Codec BackupContents, Bolt}.

(** The database and the commands, and the disk. *)
Record engine : Type := mkEngine { en_mgr : mgr; en_fs : fsys }.

Definition B (A : Type) : Type := engine -> engine * result berr A.
#[export] Instance B_ret : MRet B := fun A a s => (s, Ok a).
#[export] Instance B_bind : MBind B := fun A C f m s =>
  match m s with (s, Ok a) => f a s | (s, Err e) => (s, Err e) end.
Definition failb {A} (e : berr) : B A := fun s => (s, Err e).
Definition on_disk {A} (c : F A) : B A := fun s =>
  let '(fs, a) := c (en_fs s) in (mkEngine (en_mgr s) fs, Ok a).
Definition on_mgr {A} (c : M A) : B (result merr A) := fun s =>
  let '(m, r) := c (en_mgr s) in (mkEngine m (en_fs s), Ok r).

Variable cfg : Config.
(** The host name, the version, the time and how it is written. *)
Variables host version : gostring.
Variable now : Z.
Variable format_id : Z -> gostring.
(** The order in which Go walks a map. *)
Variable walk : gmap gostring gostring -> list (gostring * gostring).

Definition Dir : gostring := path_join (DataDir cfg) (bs "backups").
Definition backup_path : gostring :=
  path_join Dir (bs "sshvpn-backup-" ++ host ++ bs "-" ++ format_id now ++ bs ".tar.gz").

(** One entry; on an error the file goes away. *)
Fixpoint add_entries (entries : list (gostring * gostring)) : F bool :=
  match entries with
  | [] => mret true
  | _ :: entries =>
      added ← try_op;
      if negb added then _ ← Remove backup_path; mret false else add_entries entries
  end.

(** The file, its entries, and the three closing calls; the data reach the file when
    the compressor is closed. *)
Definition write_archive (files : gmap gostring gostring) : F (option Z) :=
  let entries := walk files in
  added ← add_entries entries;
  if negb added then mret None
  else
    t ← try_op;
    if negb t then mret None
    else
      z ← write_open backup_path (pack entries);
      if negb z then mret None
      else
        c ← try_op;
        if negb c then mret None
        else d ← ReadFile backup_path; mret (len <$> d).

Definition optional_file (name : gostring) (d : option gostring) (m : gmap gostring gostring)
    : gmap gostring gostring :=
  match d with Some d => <[name := d]> m | None => m end.

Definition Create : B gostring :=
  made ← on_disk try_op;
  if negb made then failb bDisk
  else
    listed ← on_mgr listUsers;
    match listed with
    | Err e => failb (bList e)
    | Ok users =>
        shadow ← on_disk (ReadFile (bs "/etc/shadow"));
        let contents := mkContents version now host users cfg (shadowHashes users shadow) in
        match marshal contents with
        | None => failb bMarshal
        | Some manifest =>
            opened ← on_disk (change (<[backup_path := []]>));
            if negb opened then failb bDisk
            else
              sshd ← on_disk (ReadFile (ssh_ConfigPath (SSH cfg)));
              conf ← on_disk (ReadFile (Path cfg));
              let files := optional_file (bs "config.yaml") conf
                             (optional_file (bs "sshd_config") sshd {[bs "manifest.json" := manifest]}) in
              size ← on_disk (write_archive files);
              match size with
              | None => failb bDisk
              | Some size =>
                  _ ← on_mgr (db_write (fun o => PutBackup o
                        (mkBackup (format_id now) backup_path now size (len users))));
                  mret backup_path
              end
        end
    end.

(** The loop over the entries. *)
Fixpoint read_entries (entries : list (gostring * gostring)) (complete : bool)
    (files : gmap gostring gostring) : result berr (gmap gostring gostring) :=
  match entries with
  | [] => if complete then Ok files else Err bDamaged
  | (name, data) :: entries =>
      if max_entry <? len data then Err (bTooLarge name)
      else read_entries entries complete (<[path_base name := data]> files)
  end.

Definition parse_archive (d : gostring) : result berr (BackupContents * gmap gostring gostring) :=
  match unpack d with
  | None => Err bNotArchive
  | Some (entries, complete) =>
      match read_entries entries complete ∅ with
      | Err e => Err e
      | Ok files =>
          match files !! bs "manifest.json" with
          | None => Err bNoManifest
          | Some m => match unmarshal m with None => Err bManifest | Some c => Ok (c, files) end
          end
      end
  end.

Definition Read (path : gostring) : B (BackupContents * gmap gostring gostring) :=
  d ← on_disk (ReadFile path);
  match d with
  | None => failb bDisk
  | Some d => match parse_archive d with Ok r => mret r | Err e => failb e end
  end.

(** ** Restore *)

Definition with_created n r := mkRestored (rr_Contents r) (rr_Users r) (rr_Created r ++ [n])
  (rr_Passwords r) (rr_ConfigSaved r) (rr_Warnings r).
Definition with_password r := mkRestored (rr_Contents r) (rr_Users r) (rr_Created r)
  (rr_Passwords r + 1) (rr_ConfigSaved r) (rr_Warnings r).
(** A warning: the user, and whether it is about the password. *)
Definition with_warning n b r := mkRestored (rr_Contents r) (rr_Users r) (rr_Created r)
  (rr_Passwords r) (rr_ConfigSaved r) (rr_Warnings r ++ [(n, b)]).
Definition with_user_restored r := mkRestored (rr_Contents r) (rr_Users r + 1) (rr_Created r)
  (rr_Passwords r) (rr_ConfigSaved r) (rr_Warnings r).
Definition with_config p r := mkRestored (rr_Contents r) (rr_Users r) (rr_Created r)
  (rr_Passwords r) p (rr_Warnings r).

Definition group : gostring := ud_Group (UserDefaults cfg).
Definition useradd_args (u : UserRecord) : list gostring :=
  [bs "useradd"; bs "-M"; bs "-N"; bs "-g"; group; bs "-s"; ud_Shell (UserDefaults cfg);
   bs "-c"; bs "SSH-VPN user"] ++
  (if ExpiresAt u =? 0 then [] else [bs "-e"; shadowDate (ExpiresAt u)]) ++ [Username u].

(** The account of a user: [None] when it could not be created. *)
Definition restore_account (u : UserRecord) (res : RestoreResult) : B (option RestoreResult) :=
  there ← on_mgr (Run [bs "id"; bs "-u"; Username u]);
  if is_ok there then mret (Some res)
  else
    added ← on_mgr (Run (useradd_args u));
    if is_ok added then mret (Some (with_created (Username u) res)) else mret None.

Definition restore_password (u : UserRecord) (res : RestoreResult) : B RestoreResult :=
  match default [] (bc_Hashes (rr_Contents res) !! Username u) with
  | [] => mret res
  | h =>
      set ← on_mgr (Run [bs "usermod"; bs "-p"; h; Username u]);
      mret (if is_ok set then with_password res else with_warning (Username u) true res)
  end.

Definition restore_lock (u : UserRecord) : B () :=
  if Disabled u
  then _ ← on_mgr (Run [bs "usermod"; bs "-L"; Username u]); mret tt
  else mret tt.

Definition restore_user (u : UserRecord) (res : RestoreResult) : B RestoreResult :=
  account ← restore_account u res;
  match account with
  | None => mret (with_warning (Username u) false res)
  | Some res =>
      res ← restore_password u res;
      _ ← restore_lock u;
      put ← on_mgr (db_write (fun o => PutUser o u));
      match put with
      | Err e => failb (bRestore res (Username u) e)
      | Ok _ => mret (with_user_restored res)
      end
  end.

Fixpoint restore_users (us : list UserRecord) (res : RestoreResult) : B RestoreResult :=
  match us with
  | [] => mret res
  | u :: us => res ← restore_user u res; restore_users us res
  end.

Definition restore_group : B bool :=
  there ← on_mgr (Run [bs "getent"; bs "group"; group]);
  if is_ok there then mret true
  else g ← on_mgr (Run [bs "groupadd"; bs "--system"; group]); mret (is_ok g).

Definition Restore (path : gostring) : B RestoreResult :=
  root ← on_mgr RequireRoot;
  if negb (is_ok root) then failb bNotRoot
  else
    cf ← Read path;
    let '(c, files) := cf : BackupContents * gmap gostring gostring in
    made ← restore_group;
    if negb made then failb bGroup
    else
      res ← restore_users (bc_Users c) (mkRestored c 0 [] 0 [] []);
      match files !! bs "config.yaml" with
      | None => mret res
      | Some data =>
          let p := Path cfg ++ bs ".restored" in
          saved ← on_disk (WriteFile p data);
          mret (if (saved : bool) then with_config p res else res)
      end.

(** ** The list of backups *)

Definition list_records : B (list BackupRecord) :=
  listed ← on_mgr (db_read (fun o db => match ListBackups o db with
                                         | (l, None) => Ok l
                                         | (_, Some e) => Err e
                                         end));
  match listed with
  | Ok l => mret l
  | Err (dbFailed e) => failb (bRecords e)
  | Err _ => failb (bRecords errOpen)
  end.

Fixpoint existing (l : list BackupRecord) : F (list BackupRecord) :=
  match l with
  | [] => mret []
  | b :: l =>
      there ← FileExists (bk_FilePath b);
      rest ← existing l;
      mret (if (there : bool) then b :: rest else rest)
  end.
Definition ListBackups : B (list BackupRecord) :=
  all ← list_records; on_disk (existing all).

Definition DeleteBackup (id : gostring) : B () :=
  all ← list_records;
  match filter (fun b => bk_ID b = id) all with
  | [] => failb (bUnknown id)
  | b :: _ =>
      _ ← on_disk (Remove (bk_FilePath b));
      done ← on_mgr (db_write (fun o => Store.DeleteBackup o id));
      match done with
      | Ok _ => mret tt
      | Err (dbFailed e) => failb (bRecords e)
      | Err _ => failb (bRecords errOpen)
      end
  end.
End backup.
