(* ===== verification/BackupProps.v ===== *)
(** What [Backup.Create] writes is read back, and [Backup.Restore] brings every
    account of it to another server. *)
From S2P Require Import Prelude GoStrings Paths Files Config Security Store.
From S2P Require Import NetAddr Procfs Session Users Backup.

(* ------------------------------------------------------------------ *)
(** * Entries of an archive                                              *)
(* ------------------------------------------------------------------ *)

Lemma path_base_name n : n ∈ archive_names -> path_base n = n.
Proof. unfold archive_names. rewrite !elem_of_cons, elem_of_nil. by intros [->|[->|[->|[]]]]. Qed.

Lemma read_entries_map l m : NoDup (fst <$> l) -> Forall (fun e => e.1 ∈ archive_names) l ->
  Forall (fun e => m !! e.1 = None) l -> Forall (fun e => len e.2 <= max_entry) l ->
  read_entries l true m = Ok (list_to_map l ∪ m).
Proof.
  revert m. induction l as [|[n d] l IH]; intros m Hnd Hn Hm Hl; cbn [read_entries].
  - by rewrite list_to_map_nil, (left_id_L ∅ (∪)).
  - apply NoDup_cons in Hnd as [Hnin Hnd].
    apply Forall_cons in Hn as [Hn0 Hn], Hm as [Hm0 Hm], Hl as [Hl0 Hl].
    cbn in Hnin, Hn0, Hm0, Hl0. rewrite (proj2 (Z.ltb_ge _ _)), path_base_name by done.
    rewrite (IH (<[n := d]> m) Hnd Hn); [|apply Forall_forall; intros [n' d'] Hin; cbn|done].
    + f_equal. rewrite list_to_map_cons, <- insert_union_l. rewrite <- insert_union_r; [done|].
      by apply not_elem_of_list_to_map.
    + rewrite Forall_forall in Hm. rewrite lookup_insert_ne; [by apply (Hm _ Hin)|]. intros ->. apply Hnin.
      apply list_elem_of_fmap. by exists (n', d').
Qed.

(** A line of the shadow file gives this password hash to the account [n]: its second field,
    without the exclamation marks of a lock, is not empty and not a star. *)
Inductive shadow_entry (n h : gostring) (line : gostring) : Prop :=
| shadow_entry_intro marks rest :
    split_on x3a line = n :: (marks ++ h) :: rest -> Forall (fun c => c = x21) marks ->
    head h <> Some x21 -> h <> [] -> h <> bs "*" -> shadow_entry n h line.

(** The hashes of these users that a shadow file has; of several entries for one name the
    last one counts. *)
Definition hashes_in (shadow : gostring) (users : list UserRecord) (hs : gmap gostring gostring) : Prop :=
  forall n h, hs !! n = Some h <-> n ∈ (Username <$> users) /\ exists before line after,
    split_on x0a shadow = before ++ line :: after /\ shadow_entry n h line /\
    forall l h', l ∈ after -> ~ shadow_entry n h' l.

Lemma trim_marks pw : exists marks, pw = marks ++ trim_left_set (bs "!") pw /\ Forall (fun c => c = x21) marks /\
  head (trim_left_set (bs "!") pw) <> Some x21.
Proof.
  induction pw as [|c pw (marks & E & Hm & Hh)]; cbn [trim_left_set]; [by exists []|].
  case_decide as Hc.
  - exists (c :: marks). cbn [app]. rewrite <- E. split; [done|]. split; [|done].
    constructor; [|done]. by apply list_elem_of_singleton in Hc.
  - exists []. split; [done|]. split; [done|]. intros [= ->]. apply Hc. left.
Qed.
Lemma trim_marks_app marks h : Forall (fun c => c = x21) marks -> head h <> Some x21 ->
  trim_left_set (bs "!") (marks ++ h) = h.
Proof.
  intros Hm Hh. induction Hm as [|c marks -> _ IH]; cbn [app].
  - destruct h as [|c h]; [done|]. cbn [trim_left_set]. rewrite decide_False; [done|].
    intros ->%list_elem_of_singleton. done.
  - cbn [trim_left_set]. by rewrite decide_True by left.
Qed.

(** One line: it counts for one name at most. *)
Lemma shadow_line_spec want out line n h :
  shadow_line want out line !! n = Some h <->
  n ∈ want /\ shadow_entry n h line \/ (n ∉ want \/ forall h', ~ shadow_entry n h' line) /\ out !! n = Some h.
Proof.
  assert (Hno : forall (l : list gostring), split_on x3a line = l -> (length l < 2)%nat -> forall h', ~ shadow_entry n h' line).
  { intros l Hl Hlen h' [marks rest E]. rewrite Hl in E. rewrite E in Hlen. cbn in Hlen. lia. }
  unfold shadow_line. destruct (split_on x3a line) as [|name [|pw rest]] eqn:El.
  - pose proof (Hno [] eq_refl ltac:(cbn; lia)). naive_solver.
  - pose proof (Hno [name] eq_refl ltac:(cbn; lia)). naive_solver.
  - clear Hno. assert (Hentry : forall h', shadow_entry n h' line <-> n = name /\ h' = trim_left_set (bs "!") pw /\
      h' <> [] /\ h' <> bs "*").
    { intros h'. split.
      - intros [marks rest' E Hm Hh H1 H2]. rewrite El in E. injection E as <- -> <-. by rewrite trim_marks_app.
      - intros (-> & -> & H1 & H2). destruct (trim_marks pw) as (marks & E & Hm & Hh).
        apply (shadow_entry_intro _ _ _ marks rest); [by rewrite El, <- E|done..]. }
    setoid_rewrite Hentry. clear Hentry. cbv zeta. set (t := trim_left_set (bs "!") pw).
    destruct (decide (n = name)) as [->|Hne].
    2:{ assert (Hout : forall m : gmap gostring gostring, m = <[name := t]> out \/ m = out -> m !! n = out !! n).
        { intros m [-> | ->]; [by rewrite lookup_insert_ne|done]. }
        rewrite Hout by (repeat case_match; auto). split; [|naive_solver].
        intros Ho. right. split; [|done]. right. by intros h' [-> _]. }
    case_decide as Hw; [|naive_solver].
    destruct (eqb_str t []) eqn:E1; [apply eqb_str_true in E1|apply eqb_str_false in E1]; [cbn; naive_solver|].
    destruct (eqb_str t (bs "*")) eqn:E2; [apply eqb_str_true in E2|apply eqb_str_false in E2]; [cbn; naive_solver|].
    cbn [negb andb]. rewrite lookup_insert_eq. naive_solver.
Qed.

(** The hashes that [shadowHashes] collects are those of the file. *)
Lemma shadowHashes_in users shadow : hashes_in shadow users (shadowHashes users (Some shadow)).
Proof.
  intros n h. unfold shadowHashes. generalize (split_on x0a shadow). intros lines.
  set (want := list_to_set _). assert (Hw : n ∈ want <-> n ∈ (Username <$> users)) by apply elem_of_list_to_set.
  rewrite <- Hw. clear Hw. revert h. induction lines as [|line lines IH] using rev_ind; intros h.
  { cbn. split; [done|]. intros (_ & before & line & after & E & _). by destruct before. }
  rewrite foldl_app. cbn [foldl]. rewrite shadow_line_spec, IH. split.
  - intros [[Hn He]|[Hno (Hn & before & l & after & -> & He & Hl)]]; (split; [done|]).
    + exists lines, line, []. split; [done|]. split; [done|]. intros l h' Hl. by apply elem_of_nil in Hl.
    + exists before, l, (after ++ [line]). rewrite <- app_assoc. split; [done|]. split; [done|].
      intros l' h' [Hl'|Hl']%elem_of_app; [by apply Hl|]. apply list_elem_of_singleton in Hl'. subst l'. by destruct Hno.
  - intros (Hn & before & l & after & E & He & Hl). destruct after as [|x after] using rev_ind.
    + apply app_inj_tail in E as [_ ->]. by left.
    + rewrite app_comm_cons, app_assoc in E. apply app_inj_tail in E as [-> ->]. right. split.
      * right. intros h'. apply Hl. set_solver.
      * split; [done|]. exists before, l, after. split; [done|]. split; [done|]. intros l' h' Hl'. apply Hl. set_solver.
Qed.

(* ------------------------------------------------------------------ *)
(** * Steps of the engine                                                *)
(* ------------------------------------------------------------------ *)

Section backup.
Context `{System, Calendar, Disk, Archive}.
Context `{!Codec UserRecord, !Codec BackupRecord, !Codec BackupContents, Bolt}.

Lemma B_step {A C} (c : B A) (k : A -> B C) s s' r :
  (c ≫= k) s = (s', Ok r) -> exists s1 a, c s = (s1, Ok a) /\ k a s1 = (s', Ok r).
Proof. unfold mbind, B_bind. destruct (c s) as [s1 [a|e]]; [|done]. by exists s1, a. Qed.

Lemma on_disk_inv {A} (c : F A) s s1 r :
  on_disk c s = (s1, Ok r) -> c (en_fs s) = (en_fs s1, r) /\ en_mgr s1 = en_mgr s.
Proof. unfold on_disk. destruct (c (en_fs s)) as [fs a]. by intros [= <- <-]. Qed.
Lemma on_mgr_inv {A} (c : M A) s s1 r :
  on_mgr c s = (s1, Ok r) -> c (en_mgr s) = (en_mgr s1, r) /\ en_fs s1 = en_fs s.
Proof. unfold on_mgr. destruct (c (en_mgr s)) as [m a]. by intros [= <- <-]. Qed.

Lemma on_disk_quiet {A} (c : F A) s s1 r :
  (forall fs, f_files (c fs).1 = f_files fs) ->
  on_disk c s = (s1, Ok r) -> f_files (en_fs s1) = f_files (en_fs s) /\ en_mgr s1 = en_mgr s.
Proof.
  intros Hc E. apply on_disk_inv in E as [E ->]. split; [|done].
  specialize (Hc (en_fs s)). by rewrite E in Hc.
Qed.

Variable cfg : Config.
Variables host version : gostring.
Variable now : Z.
Variable format_id : Z -> gostring.
Variable walk : gmap gostring gostring -> list (gostring * gostring).
Hypothesis walk_perm : forall m, walk m ≡ₚ map_to_list m.

Abbreviation path := (backup_path cfg host now format_id).

Lemma add_entries_files l fs fs' :
  add_entries cfg host now format_id l fs = (fs', true) -> f_files fs' = f_files fs.
Proof.
  revert fs. induction l as [|e l IH]; intros fs; cbn; [by intros [= <-]|].
  unfold mbind, F_bind, try_op. destruct (op_fails (f_ops fs)); cbn.
  - destruct (Remove _ _). done.
  - intros E. apply IH in E. done.
Qed.

Lemma write_archive_content files fs fs' n :
  write_archive cfg host now format_id walk files fs = (fs', Some n) ->
  f_files fs' !! path = Some (pack (walk files)).
Proof.
  unfold write_archive, mbind, F_bind.
  destruct (add_entries _ _ _ _ _ fs) as [fs1 added] eqn:E1. destruct added; [|done]. cbn [negb].
  unfold try_op. destruct (op_fails (f_ops fs1)); [done|]. cbn [negb].
  unfold write_open. cbv zeta. cbn [f_ops f_files].
  destruct (op_fails (S (f_ops fs1))); [done|]. cbn [negb f_ops f_files].
  destruct (op_fails (S (S (f_ops fs1)))); [done|]. cbn [negb].
  unfold ReadFile. cbn [f_ops f_files]. intros [= <- _]. cbn [f_files].
  by rewrite lookup_insert_eq.
Qed.

Lemma optional_file_names name d m : name ∈ archive_names ->
  (forall n x, m !! n = Some x -> n ∈ archive_names) ->
  forall n x, optional_file name d m !! n = Some x -> n ∈ archive_names.
Proof.
  intros Hname Hm n x. destruct d; cbn; [|apply Hm]. rewrite lookup_insert.
  case_decide; [by subst|apply Hm].
Qed.

Lemma optional_file_ne name d (m : gmap gostring gostring) n :
  n <> name -> optional_file name d m !! n = m !! n.
Proof. intros Hn. destruct d; cbn; [by rewrite lookup_insert_ne|done]. Qed.

(** Reading a packed map of files. *)
Lemma parse_pack (files : gmap gostring gostring) manifest c :
  (forall n x, files !! n = Some x -> n ∈ archive_names) ->
  Forall (fun e => len e.2 <= max_entry) (default ([], false) (unpack (pack (walk files)))).1 ->
  files !! bs "manifest.json" = Some manifest -> unmarshal manifest = Some c ->
  parse_archive (pack (walk files)) = Ok (c, files).
Proof.
  intros Hn Hsmall Hm Hc. unfold parse_archive.
  assert (Hall : Forall (fun e => e.1 ∈ archive_names) (walk files)).
  { apply Forall_forall. intros [n x] Hin. rewrite walk_perm in Hin.
    apply elem_of_map_to_list in Hin. by eapply Hn. }
  assert (Hnd : NoDup (fst <$> walk files)).
  { rewrite walk_perm. apply NoDup_fst_map_to_list. }
  rewrite pack_law in Hsmall |- * by done. cbn [default fst] in Hsmall.
  rewrite (read_entries_map (walk files) ∅ Hnd Hall) by (done || by apply Forall_forall).
  rewrite (right_id_L ∅ (∪)).
  match goal with |- context [?m !! bs "manifest.json"] => replace m with files end; [by rewrite Hm, Hc|].
  rewrite <- (list_to_map_to_list files) at 1. symmetry. by apply list_to_map_proper.
Qed.

Lemma listUsers_all s s' us : listUsers s = (s', Ok us) ->
  forall u, u ∈ us <-> exists n, user (m_db s) n = Some u.
Proof.
  unfold listUsers, db_read. destruct (db_lock (m_world s)) as [w b]. intros E u.
  pose proof (ListUsers_stored b (m_db s) u) as Hs. pose proof (fun n => ListUsers_complete b (m_db s) n u) as Hc.
  destruct (ListUsers b (m_db s)) as [l [e|]]; [done|]. injection E as _ <-. cbn in *. split; [done|].
  intros [n Hn]. by eapply Hc.
Qed.

Lemma Read_is s d : f_files (en_fs s) !! path = Some d -> op_fails (f_ops (en_fs s)) = false ->
  (Read path s).2 = parse_archive d.
Proof.
  intros Hd Hf. unfold Read, on_disk, mbind, B_bind, ReadFile. rewrite Hf, Hd. by destruct (parse_archive d).
Qed.

End backup.

(* ------------------------------------------------------------------ *)
(** * Restoring on a working server                                      *)
(* ------------------------------------------------------------------ *)

(** The commands for one user, given whether the account is there already. *)
Definition commands_for `{Calendar} (cfg : Config) (hashes : gmap gostring gostring)
    (u : UserRecord) (there : bool) : list command :=
  [mkCommand [] [bs "id"; bs "-u"; Username u] there] ++
  (if there then [] else [mkCommand [] (useradd_args cfg u) true]) ++
  (match default [] (hashes !! Username u) with
   | [] => []
   | h => [mkCommand [] [bs "usermod"; bs "-p"; h; Username u] true]
   end) ++
  (if Disabled u then [mkCommand [] [bs "usermod"; bs "-L"; Username u] true] else []).

Definition has_hash (hashes : gmap gostring gostring) (u : UserRecord) : bool :=
  match default [] (hashes !! Username u) with [] => false | _ => true end.

Section restore.
Context `{System, Calendar, Disk, Archive}.
Context `{!Codec UserRecord, !Codec BackupRecord, !Codec BackupContents, Bolt}.

(** Every command but the two questions succeeds, and the database can be opened. *)
Hypothesis commands_work : forall stdin argv w,
  argv !! 0%nat <> Some (bs "id") -> argv !! 0%nat <> Some (bs "getent") ->
  (exec stdin argv w).2.2 = true.
Hypothesis db_works : forall w, (db_lock w).2 = true.
(** An account that [id] does not know is not made by a command other than its [useradd], nor
    by opening the database. *)
Definition absent (w : world) (n : gostring) : Prop := (exec [] [bs "id"; bs "-u"; n] w).2.2 = false.
Hypothesis absent_stays : forall stdin argv w n, absent w n ->
  (argv !! 0%nat <> Some (bs "useradd") \/ last argv <> Some n) -> absent (exec stdin argv w).1 n.
Hypothesis absent_lock : forall w n, absent w n -> absent (db_lock w).1 n.

(** The accounts but [u] that were not there are not there either. *)
Definition stay_absent (u : gostring) (s s' : engine) : Prop := forall n, n <> u ->
  absent (m_world (en_mgr s)) n -> absent (m_world (en_mgr s')) n.
#[local] Instance stay_absent_preorder u : PreOrder (stay_absent u).
Proof. split; [by intros s n|]. intros s1 s2 s3 H12 H23 n Hn Ha. by apply H23, H12. Qed.

Variable cfg : Config.

Definition storable (u : UserRecord) : Prop :=
  stable u /\ exists data, marshal u = Some data /\ put_ok (Username u) data = true.

(** One command: the state after it. *)
Lemma on_mgr_Run argv s : exists w ok r,
  on_mgr (Run argv) s =
    (mkEngine (mkMgr (m_db (en_mgr s)) w (m_ran (en_mgr s) ++ [mkCommand [] argv ok])) (en_fs s), Ok r) /\
  is_ok r = ok /\ ok = (exec [] argv (m_world (en_mgr s))).2.2 /\
  forall u, (argv !! 0%nat <> Some (bs "useradd") \/ last argv = Some u) -> forall n, n <> u ->
    absent (m_world (en_mgr s)) n -> absent w n.
Proof.
  pose proof (absent_stays [] argv (m_world (en_mgr s))) as Ha.
  unfold on_mgr, Run, RunInput. destruct (exec [] argv (m_world (en_mgr s))) as [w [out ok]].
  exists w, ok. eexists. split; [done|]. split_and!; [by destruct ok|done|].
  intros u Hu n Hn Hab. apply (Ha n Hab). destruct Hu as [Hu|Hu]; [by left|right]. rewrite Hu. congruence.
Qed.

Lemma on_mgr_works argv s :
  argv !! 0%nat <> Some (bs "id") -> argv !! 0%nat <> Some (bs "getent") ->
  exists w r,
  on_mgr (Run argv) s =
    (mkEngine (mkMgr (m_db (en_mgr s)) w (m_ran (en_mgr s) ++ [mkCommand [] argv true])) (en_fs s), Ok r) /\
  is_ok r = true /\
  forall u, (argv !! 0%nat <> Some (bs "useradd") \/ last argv = Some u) -> forall n, n <> u ->
    absent (m_world (en_mgr s)) n -> absent w n.
Proof.
  intros Hid Hge. destruct (on_mgr_Run argv s) as (w & ok & r & E & Hr & Ho & Ha).
  rewrite commands_work in Ho by done. subst ok. by exists w, r; rewrite E, Ho.
Qed.

Lemma restore_account_works u res s : exists s' res' there,
  restore_account cfg u res s = (s', Ok (Some res')) /\
  rr_Users res' = rr_Users res /\ rr_Passwords res' = rr_Passwords res /\
  rr_Contents res' = rr_Contents res /\
  m_db (en_mgr s') = m_db (en_mgr s) /\ en_fs s' = en_fs s /\
  m_ran (en_mgr s') = m_ran (en_mgr s) ++ [mkCommand [] [bs "id"; bs "-u"; Username u] there] ++
    (if there then [] else [mkCommand [] (useradd_args cfg u) true]) /\
  stay_absent (Username u) s s' /\ (absent (m_world (en_mgr s)) (Username u) -> there = false).
Proof.
  unfold restore_account, mbind, B_bind.
  destruct (on_mgr_Run [bs "id"; bs "-u"; Username u] s) as (w & there & r & E & Hr & Hth & Ha).
  assert (Hw : forall n, n <> Username u -> absent (m_world (en_mgr s)) n -> absent w n) by (apply Ha; by left).
  assert (Hab : absent (m_world (en_mgr s)) (Username u) -> there = false) by (intros Hx; by rewrite Hth).
  clear Ha Hth. rewrite E. cbn beta iota. rewrite Hr. destruct there.
  - eexists _, res, true. split; [reflexivity|]. rewrite app_nil_r. by split_and!.
  - destruct (on_mgr_works (useradd_args cfg u)
      (mkEngine (mkMgr (m_db (en_mgr s)) w (m_ran (en_mgr s) ++
         [mkCommand [] [bs "id"; bs "-u"; Username u] false])) (en_fs s)))
      as (w' & r' & E' & Hr' & Ha'); [done..|].
    rewrite E'. cbn beta iota. rewrite Hr'. eexists _, _, false. split; [reflexivity|].
    cbn [en_mgr en_fs m_db m_ran]. rewrite <- app_assoc. split_and!; try done.
    intros n Hn Hx. cbn [en_mgr m_world]. apply (Ha' (Username u)); [right|done|by apply Hw].
    unfold useradd_args. by rewrite !last_app.
Qed.

Lemma restore_password_works u res s : exists s' res',
  restore_password u res s = (s', Ok res') /\
  rr_Users res' = rr_Users res /\ rr_Contents res' = rr_Contents res /\
  rr_Passwords res' = rr_Passwords res + (if has_hash (bc_Hashes (rr_Contents res)) u then 1 else 0) /\
  m_db (en_mgr s') = m_db (en_mgr s) /\ en_fs s' = en_fs s /\
  m_ran (en_mgr s') = m_ran (en_mgr s) ++
    match default [] (bc_Hashes (rr_Contents res) !! Username u) with
    | [] => []
    | h => [mkCommand [] [bs "usermod"; bs "-p"; h; Username u] true]
    end /\ stay_absent (Username u) s s'.
Proof.
  unfold restore_password, has_hash.
  destruct (default [] (bc_Hashes (rr_Contents res) !! Username u)) as [|x h].
  - exists s, res. rewrite app_nil_r. split_and!; [done..|lia|done|done|done|done].
  - unfold mbind, B_bind.
    destruct (on_mgr_works [bs "usermod"; bs "-p"; x :: h; Username u] s) as (w & r & E & Hr & Ha); [done..|].
    rewrite E, Hr. eexists _, _. split_and!; try done. intros n. apply (Ha (Username u)). by left.
Qed.

Lemma put_works u s : storable u -> exists s',
  on_mgr (db_write (fun o => PutUser o u)) s = (s', Ok (Ok tt)) /\
  m_db (en_mgr s') = (PutUser true u (m_db (en_mgr s))).1 /\
  (PutUser true u (m_db (en_mgr s))).2 = Ok tt /\
  en_fs s' = en_fs s /\ m_ran (en_mgr s') = m_ran (en_mgr s) /\ stay_absent (Username u) s s'.
Proof.
  intros (_ & data & Hm & Hp). unfold on_mgr, db_write. pose proof (db_works (m_world (en_mgr s))) as Hd.
  pose proof (absent_lock (m_world (en_mgr s))) as Ha.
  destruct (db_lock (m_world (en_mgr s))) as [w opened]. cbn in Hd. subst opened.
  unfold PutUser. rewrite Hm. unfold update. cbn [negb]. rewrite Hp. cbn. eexists. split_and!; try done.
  intros n _. apply Ha.
Qed.

Lemma restore_lock_works u s : exists s',
  restore_lock u s = (s', Ok tt) /\ m_db (en_mgr s') = m_db (en_mgr s) /\ en_fs s' = en_fs s /\
  m_ran (en_mgr s') = m_ran (en_mgr s) ++
    (if Disabled u then [mkCommand [] [bs "usermod"; bs "-L"; Username u] true] else []) /\
  stay_absent (Username u) s s'.
Proof.
  unfold restore_lock. destruct (Disabled u); [|exists s; by rewrite app_nil_r].
  unfold mbind, B_bind.
  destruct (on_mgr_works [bs "usermod"; bs "-L"; Username u] s) as (w & r & -> & _ & Ha); [done..|].
  eexists. split_and!; try done. intros n. apply (Ha (Username u)). by left.
Qed.

(** The question about the group, and perhaps its creation. *)
Lemma restore_group_works s : exists s' first,
  restore_group cfg s = (s', Ok true) /\ m_db (en_mgr s') = m_db (en_mgr s) /\
  Forall (fun cmd => c_argv cmd !! 0%nat ∈ [Some (bs "getent"); Some (bs "groupadd")]) first /\
  m_ran (en_mgr s') = m_ran (en_mgr s) ++ first /\
  forall n, absent (m_world (en_mgr s)) n -> absent (m_world (en_mgr s')) n.
Proof.
  unfold restore_group, mbind, B_bind.
  destruct (on_mgr_Run [bs "getent"; bs "group"; group cfg] s) as (w & ok & r & -> & Hr & _ & Ha).
  assert (Hw : forall n, absent (m_world (en_mgr s)) n -> absent w n).
  { intros n. apply (Ha (x00 :: n)); [by left|]. intros E. apply (f_equal length) in E. cbn in E. lia. }
  destruct (is_ok r).
  - eexists _, [_]. split_and!; [done|done| |done|done]. repeat constructor.
  - set (s2 := mkEngine _ _).
    destruct (on_mgr_works [bs "groupadd"; bs "--system"; group cfg] s2) as (w' & r' & -> & -> & Ha'); [done..|].
    eexists _, [_; _]. subst s2. cbn [en_mgr m_ran m_db]. rewrite <- app_assoc.
    split_and!; [done|done| |done|]; [repeat constructor|]. intros n Hn. cbn [m_world].
    apply (Ha' (x00 :: n)); [by left| |by apply Hw]. intros E. apply (f_equal length) in E. cbn in E. lia.
Qed.

(** The records that a list of users leaves in the database. *)
Lemma restore_user_works u res s : storable u -> exists s' res' there,
  restore_user cfg u res s = (s', Ok res') /\
  rr_Users res' = rr_Users res + 1 /\ rr_Contents res' = rr_Contents res /\
  rr_Passwords res' = rr_Passwords res + (if has_hash (bc_Hashes (rr_Contents res)) u then 1 else 0) /\
  (forall n, GetUser true n (m_db (en_mgr s')) =
     (if decide (n = Username u) then Ok u else GetUser true n (m_db (en_mgr s)))) /\
  en_fs s' = en_fs s /\
  m_ran (en_mgr s') = m_ran (en_mgr s) ++ commands_for cfg (bc_Hashes (rr_Contents res)) u there /\
  stay_absent (Username u) s s' /\ (absent (m_world (en_mgr s)) (Username u) -> there = false).
Proof.
  intros Hu. unfold restore_user, mbind, B_bind.
  destruct (restore_account_works u res s) as (s1 & r1 & there & -> & U1 & P1 & C1 & D1 & F1 & R1 & A1 & T1).
  destruct (restore_password_works u r1 s1) as (s2 & r2 & -> & U2 & C2 & P2 & D2 & F2 & R2 & A2).
  rewrite C1 in P2, R2.
  destruct (restore_lock_works u s2) as (s3 & -> & D3 & F3 & R3 & A3).
  destruct (put_works u s3 Hu) as (s4 & -> & D4 & O4 & F4 & R4 & A4).
  eexists s4, _, there. split; [reflexivity|]. cbn [rr_Users rr_Contents rr_Passwords with_user_restored].
  split_and!; [lia|by rewrite C2|lia| |by rewrite F4, F3, F2, F1| |by rewrite A1, A2, A3|done].
  - intros n. rewrite D4. destruct (PutUser true u (m_db (en_mgr s3))) as [db' r] eqn:E.
    cbn in O4. subst r. cbn [fst]. destruct Hu as [Hst _].
    destruct (PutUser_user _ _ _ _ _ Hst E) as [Hg Ho]. case_decide as Hn; [by subst n|].
    by rewrite Ho, D3, D2, D1.
  - rewrite R4, R3, R2, R1. unfold commands_for. by rewrite <- !app_assoc.
Qed.

(** The users of a backup, one after the other. *)
Lemma restore_users_works us res s : Forall storable us -> NoDup (Username <$> us) ->
  exists s' res' flags,
  restore_users cfg us res s = (s', Ok res') /\
  rr_Users res' = rr_Users res + len us /\ rr_Contents res' = rr_Contents res /\
  rr_Passwords res' = rr_Passwords res + len (filter (fun u => has_hash (bc_Hashes (rr_Contents res)) u) us) /\
  (forall u, u ∈ us -> GetUser true (Username u) (m_db (en_mgr s')) = Ok u) /\
  (forall n, n ∉ (Username <$> us) ->
     GetUser true n (m_db (en_mgr s')) = GetUser true n (m_db (en_mgr s))) /\
  en_fs s' = en_fs s /\
  Forall2 (fun u there => absent (m_world (en_mgr s)) (Username u) -> there = false) us flags /\
  m_ran (en_mgr s') = m_ran (en_mgr s) ++
    mjoin (zip_with (commands_for cfg (bc_Hashes (rr_Contents res))) us flags).
Proof.
  revert res s. induction us as [|u us IH]; intros res s Hs Hnd.
  - exists s, res, []. cbn. rewrite len_nil, app_nil_r.
    split_and!; [done|lia|done|lia| |done|done|constructor|done]. by intros u ?%elem_of_nil.
  - apply Forall_cons in Hs as [Hu Hs]. rewrite fmap_cons in Hnd.
    apply NoDup_cons in Hnd as [Hnin Hnd]. cbn [restore_users].
    destruct (restore_user_works u res s Hu) as (s1 & r1 & there & E1 & U1 & C1 & P1 & G1 & F1 & R1 & A1 & T1).
    destruct (IH r1 s1 Hs Hnd) as (s2 & r2 & flags & E2 & U2 & C2 & P2 & G2 & O2 & F2 & L2 & R2).
    exists s2, r2, (there :: flags). unfold mbind at 1, B_bind. rewrite E1, E2.
    rewrite C1 in *. rewrite len_cons. split_and!; [done|lia|done| | | |by rewrite F2| |].
    + rewrite P2, P1, filter_cons. destruct (has_hash _ u);
        [rewrite decide_True by done|rewrite decide_False by (by intros [])]; rewrite ?len_cons; lia.
    + intros v [->|Hv]%elem_of_cons; [|by apply G2]. rewrite O2, G1 by done. by case_decide.
    + intros n [Hn Hns]%not_elem_of_cons. rewrite O2, G1 by done. by case_decide.
    + constructor; [done|]. apply Forall2_same_length_lookup in L2 as [Hlen L2].
      apply Forall2_same_length_lookup. split; [done|]. intros i v b Hv Hb Hab.
      apply (L2 i v b Hv Hb), A1; [|done]. intros E. apply Hnin. rewrite <- E.
      apply list_elem_of_fmap. exists v. split; [done|]. by eapply list_elem_of_lookup_2.
    + rewrite R2, R1. cbn [zip_with mjoin list_join]. by rewrite <- app_assoc.
Qed.

(** What [Restore] does on a server where the commands work: the records, and the commands for
    each user of the backup, whose account was or was not there. For an account that was
    there only its password hash is set and, when the record is disabled, it is locked: its
    expiry, and a lock that the record does not have, stay as they are on the server. *)
Lemma Restore_runs s path d c files :
  euid (m_world (en_mgr s)) = 0 ->
  (forall n, op_fails n = false) ->
  f_files (en_fs s) !! path = Some d ->
  parse_archive d = Ok (c, files) ->
  Forall storable (bc_Users c) -> NoDup (Username <$> bc_Users c) ->
  exists s' res flags first,
    Restore cfg path s = (s', Ok res) /\
    rr_Users res = len (bc_Users c) /\
    rr_Passwords res = len (filter (fun u => has_hash (bc_Hashes c) u) (bc_Users c)) /\
    (forall u, u ∈ bc_Users c -> GetUser true (Username u) (m_db (en_mgr s')) = Ok u) /\
    (forall n, n ∉ (Username <$> bc_Users c) ->
       GetUser true n (m_db (en_mgr s')) = GetUser true n (m_db (en_mgr s))) /\
    Forall2 (fun u there => absent (m_world (en_mgr s)) (Username u) -> there = false) (bc_Users c) flags /\
    Forall (fun cmd => c_argv cmd !! 0%nat ∈ [Some (bs "getent"); Some (bs "groupadd")]) first /\
    m_ran (en_mgr s') = m_ran (en_mgr s) ++ first ++
      mjoin (zip_with (commands_for cfg (bc_Hashes c)) (bc_Users c) flags).
Proof.
  intros Hroot Hdisk Hd Hp Hs Hnd. unfold Restore, mbind, B_bind.
  assert (E0 : on_mgr RequireRoot s = (s, Ok (Ok tt))).
  { unfold on_mgr, RequireRoot, mbind, M_bind, asks, guard, mret, M_ret. rewrite Hroot. cbn.
    by destruct s. }
  rewrite E0. cbn [is_ok negb]. unfold Read, on_disk at 1, mbind, B_bind, ReadFile.
  rewrite Hdisk, Hd, Hp. cbn beta iota. unfold mret, B_ret.
  set (s1 := mkEngine (en_mgr s) _).
  destruct (restore_group_works s1) as (s3 & first & -> & D3 & X3 & R3 & A3). cbn [negb].
  destruct (restore_users_works (bc_Users c) (mkRestored c 0 [] 0 [] []) s3 Hs Hnd)
    as (s4 & res & flags & E4 & U4 & C4 & P4 & G4 & O4 & F4 & L4 & R4). rewrite E4. cbn in U4, P4, R4.
  rewrite D3 in O4. rewrite R3, <- app_assoc in R4. subst s1. cbn [en_mgr m_ran m_db] in *.
  assert (L : Forall2 (fun u there => absent (m_world (en_mgr s)) (Username u) -> there = false) (bc_Users c) flags).
  { eapply Forall2_impl; [exact L4|]. intros u there Hx Hab. by apply Hx, A3. }
  clear L4.
  destruct (files !! bs "config.yaml") as [data|].
  - destruct (on_disk _ s4) as [s5 [saved|e]] eqn:E5.
    + apply on_disk_inv in E5 as [_ M5]. exists s5. eexists _, flags, _.
      split; [reflexivity|]. rewrite M5. destruct saved; cbn [rr_Users rr_Passwords with_config];
        split_and!; try done; lia.
    + unfold on_disk in E5. by destruct (WriteFile _ _ _).
  - exists s4, res, flags. eexists. split; [reflexivity|]. split_and!; try done; lia.
Qed.

(** The commands that make one account of a backup on a server that does not have it: the
    group, the shell and the expiry of the record, then the password hash of the backup, then
    the lock of the record. *)
Definition commands_anew (hashes : gmap gostring gostring) (u : UserRecord) : list command :=
  [mkCommand [] [bs "id"; bs "-u"; Username u] false;
   mkCommand [] ([bs "useradd"; bs "-M"; bs "-N"; bs "-g"; ud_Group (UserDefaults cfg);
     bs "-s"; ud_Shell (UserDefaults cfg); bs "-c"; bs "SSH-VPN user"] ++
     (if decide (ExpiresAt u = 0) then [Username u]
      else [bs "-e"; format_date (ExpiresAt u + 24 * Hour); Username u])) true] ++
  (match hashes !! Username u with
   | Some (x :: h) => [mkCommand [] [bs "usermod"; bs "-p"; x :: h; Username u] true]
   | _ => []
   end) ++
  (if Disabled u then [mkCommand [] [bs "usermod"; bs "-L"; Username u] true] else []).

(** C31 Moving to a new server works, and always comes to an end: on a server that has none of
    the accounts of a readable backup, and where the commands do their work, [Restore]
    succeeds; afterwards every user record of the backup is in the database as it was (limits,
    traffic, expiry, lock), other records are untouched, and for each user exactly these
    commands were run, in order: the account was made with the expiry of its record, its
    password hash was set when the backup has one, and it was locked when the record is
    disabled. (For accounts that the server has already see [Restore_runs].) *)
Theorem Restore_accounts s path d c files :
  euid (m_world (en_mgr s)) = 0 ->
  (forall n, op_fails n = false) ->
  f_files (en_fs s) !! path = Some d ->
  parse_archive d = Ok (c, files) ->
  Forall storable (bc_Users c) -> NoDup (Username <$> bc_Users c) ->
  Forall (fun u => absent (m_world (en_mgr s)) (Username u)) (bc_Users c) ->
  exists s' res first,
    Restore cfg path s = (s', Ok res) /\
    rr_Users res = len (bc_Users c) /\
    rr_Passwords res = len (filter (fun u => has_hash (bc_Hashes c) u) (bc_Users c)) /\
    (forall u, u ∈ bc_Users c -> GetUser true (Username u) (m_db (en_mgr s')) = Ok u) /\
    (forall n, n ∉ (Username <$> bc_Users c) ->
       GetUser true n (m_db (en_mgr s')) = GetUser true n (m_db (en_mgr s))) /\
    Forall (fun cmd => c_argv cmd !! 0%nat ∈ [Some (bs "getent"); Some (bs "groupadd")]) first /\
    m_ran (en_mgr s') = m_ran (en_mgr s) ++ first ++ mjoin (commands_anew (bc_Hashes c) <$> bc_Users c).
Proof.
  intros Hroot Hdisk Hd Hp Hs Hnd Hab.
  destruct (Restore_runs s path d c files Hroot Hdisk Hd Hp Hs Hnd)
    as (s' & res & flags & first & E & HU & HP & HG & HO & HF & HX & HR).
  exists s', res, first. split_and!; try done. rewrite HR. do 2 f_equal. clear - HF Hab.
  induction HF as [|u there us flags Hu _ IH]; [done|].
  apply Forall_cons in Hab as [Hu0 Hab]. cbn [zip_with]. rewrite fmap_cons.
  change (commands_for cfg (bc_Hashes c) u there ++ mjoin (zip_with (commands_for cfg (bc_Hashes c)) us flags) =
    commands_anew (bc_Hashes c) u ++ mjoin (commands_anew (bc_Hashes c) <$> us)).
  f_equal; [|by apply IH]. rewrite (Hu Hu0). unfold commands_for, commands_anew.
  assert (useradd_args cfg u = [bs "useradd"; bs "-M"; bs "-N"; bs "-g"; ud_Group (UserDefaults cfg);
     bs "-s"; ud_Shell (UserDefaults cfg); bs "-c"; bs "SSH-VPN user"] ++
     (if decide (ExpiresAt u = 0) then [Username u]
      else [bs "-e"; format_date (ExpiresAt u + 24 * Hour); Username u])) as ->.
  { unfold useradd_args. case_decide as Hz; [by rewrite (proj2 (Z.eqb_eq _ _))|by rewrite (proj2 (Z.eqb_neq _ _))]. }
  by destruct (bc_Hashes c !! Username u) as [[|x h]|].
Qed.
End restore.

(* ------------------------------------------------------------------ *)
(** * A concrete move                                                    *)
(* ------------------------------------------------------------------ *)

(** A server on which every command but [id] succeeds. *)
Definition new_server : System := {|
  world := ();
  euid _ := 0;
  read_file _ _ := None;
  exec _ argv w := (w, ([], negb (bool_decide (argv !! 0%nat = Some (bs "id")))));
  db_lock w := (w, true);
  little_endian := true;
  proc_env _ := demo_proc;
  kill_answers _ w := (w, (None, None, None, fun _ => None));
  float_overflow _ := 0
|}.

Definition plain_calendar : Calendar.
Proof.
  refine {| max_days := 100; add_days t n := t + n; format_date _ := bs "2030-01-01";
            ceil_days d := d |}.
  intros t n Hn. lia.
Defined.

Definition contents_of (users : list UserRecord) (hashes : gmap gostring gostring) : BackupContents :=
  mkContents (bs "2.0") 77 (bs "old") users Defaults hashes.

Definition contents_codec : Codec BackupContents.
Proof.
  refine {| marshal c := @marshal _ (any_codec (list UserRecord * gmap gostring gostring))
                           (bc_Users c, bc_Hashes c);
            unmarshal d := (fun '(us, hs) => contents_of us hs) <$>
                             @unmarshal _ (any_codec (list UserRecord * gmap gostring gostring)) d;
            stable c := c = contents_of (bc_Users c) (bc_Hashes c) |}.
  - intros c d Hc Hd.
    pose proof (@codec_law _ (any_codec _) (bc_Users c, bc_Hashes c) d I Hd) as E.
    rewrite E. cbn. by rewrite <- Hc.
  - intros c d E. destruct (unmarshal d) as [[us hs]|]; [|done]. by injection E as <-.
Defined.

Lemma contents_stable us hs :
  @stable _ contents_codec (mkContents (bs "2.0") 77 (bs "old") us Defaults hs).
Proof. cbv [stable contents_codec]. reflexivity. Qed.

Definition plain_archive : Archive.
Proof.
  refine {| pack l := default [] (@marshal _ (any_codec (list (gostring * gostring))) l);
            unpack d := (fun l => (l, true)) <$> @unmarshal _ (any_codec (list (gostring * gostring))) d |}.
  intros l _. pose proof (@codec_law _ (any_codec (list (gostring * gostring))) l _ I eq_refl) as E.
  change (default [] (marshal l)) with (bits (encode l)).
  change (@unmarshal _ (any_codec (list (gostring * gostring))) (bits (encode l)) = Some l) in E.
  by rewrite E.
Defined.

Definition record_codec : Codec BackupRecord :=
  {| marshal _ := Some []; unmarshal _ := None; stable _ := False;
     codec_law _ _ H := match H with end; codec_stable _ _ H := ltac:(discriminate) |}.

#[local] Existing Instances new_server plain_calendar user_codec keyed_bolt contents_codec
  plain_archive record_codec.
#[local] Instance fine_disk : Disk :=
  {| op_fails _ := false;
     torn := @torn (breaks_at 0);
     temp_name := @temp_name (breaks_at 0);
     temp_fresh := @temp_fresh (breaks_at 0) |}.

Definition old_shadow : gostring :=
  bs "root:*:1::" ++ [x0a] ++ bs "alice:!$6$salt$hash:2::" ++ [x0a] ++ bs "bob:$6$x$y:3::".
Definition old_engine : engine :=
  mkEngine (mkMgr alice_db tt []) (mkFs {[bs "/etc/shadow" := old_shadow]} 0 []).
Definition made : engine * result berr gostring :=
  Create Defaults (bs "old") (bs "2.0") 77 (fun _ => bs "20260101-000000") map_to_list old_engine.
Definition made_path : gostring :=
  bs "/var/lib/sshfortress/backups/sshvpn-backup-old-20260101-000000.tar.gz".
Definition alice_contents : BackupContents :=
  contents_of [alice] {[bs "alice" := bs "$6$salt$hash"]}.

Definition archive_bytes : gostring := default [] (f_files (en_fs made.1) !! made_path).

Lemma fine_works n : @op_fails fine_disk n = false.
Proof. reflexivity. Qed.
Lemma small_entries : Forall (fun e : gostring * gostring => len e.2 <= max_entry) (default ([], false) (unpack archive_bytes)).1.
Proof. apply (bool_decide_unpack _). vm_compute. exact I. Qed.


Definition new_engine : engine :=
  mkEngine (mkMgr empty_db tt []) (mkFs {[bs "/b" := archive_bytes]} 0 []).

Lemma lock_works (w : @world new_server) : (db_lock w).2 = true.
Proof. reflexivity. Qed.

(** The users of an archive, if it can be read. *)
Definition users_of_archive (d : gostring) : list UserRecord :=
  match parse_archive d with Ok (c, _) => bc_Users c | Err _ => [] end.

Lemma Restore_accounts_witness :
  exists s' res, Restore Defaults (bs "/b") new_engine = (s', Ok res) /\
    rr_Users res = 1 /\ GetUser true (bs "alice") (m_db (en_mgr s')) = Ok alice.
Proof.
  assert (Hu : users_of_archive archive_bytes = [alice]) by (vm_compute; reflexivity).
  assert (Hs : Forall storable [alice]).
  { constructor; [|constructor]. split; [exact I|]. eexists. split; [reflexivity|exact eq_refl]. }
  assert (Hw : forall stdin argv w, argv !! 0%nat <> Some (bs "id") ->
    argv !! 0%nat <> Some (bs "getent") -> (@exec new_server stdin argv w).2.2 = true).
  { intros stdin argv w Hid _. cbn. by rewrite bool_decide_false. }
  unfold users_of_archive in Hu.
  destruct (parse_archive archive_bytes) as [[c files]|e] eqn:Hp; [|discriminate Hu].
  rewrite <- Hu in Hs.
  assert (Hnd : NoDup (Username <$> bc_Users c)) by (rewrite Hu; apply (NoDup_singleton (bs "alice"))).
  assert (Ha : forall w n, @absent new_server w n) by (intros w n; reflexivity).
  destruct (Restore_accounts Hw lock_works (fun _ _ _ _ _ _ => Ha _ _) (fun _ _ _ => Ha _ _) Defaults new_engine
    (bs "/b") archive_bytes c files eq_refl fine_works eq_refl Hp Hs Hnd) as (s' & res & _ & E & Hn & _ & Hg & _).
  { apply Forall_forall. intros u _. apply Ha. }
  exists s', res. split; [exact E|]. rewrite Hu in Hn, Hg. split; [exact Hn|].
  apply (Hg alice). by left.
Defined.
