(* ===== verification/Netopt.v ===== *)
(** The network tuning ([src/internal/netopt/netopt.go]): the profile, applying it
    to the kernel's settings, and taking it back. *)
From S2P Require Import Prelude GoStrings Paths Files Config Store.

(* ------------------------------------------------------------------ *)
(** * The kernel                                                         *)
(* ------------------------------------------------------------------ *)

(** The files under [/proc/sys], by path. [sys_accepts p v] tells whether the kernel
    takes the text [v] for [p], and [sys_shows p v] is what it then shows there, the
    same words; loading a module may add files, and changes only the list of
    congestion control algorithms. [sysctl_system] is what [sysctl --system] does. *)
Definition available_cc : gostring := bs "/proc/sys/net/ipv4/tcp_available_congestion_control".
Class Kernel : Type := {
  sys_accepts : gostring -> gostring -> bool;
  sys_shows : gostring -> gostring -> gostring;
  sys_law : forall p v, sys_accepts p v = true -> fields (sys_shows p v) = fields v;
  modprobe : gostring -> gmap gostring gostring -> gmap gostring gostring;
  modprobe_keeps : forall n m p v, p <> available_cc -> m !! p = Some v ->
    modprobe n m !! p = Some v;
  sysctl_system : gmap gostring gostring -> gmap gostring gostring
}.

Record machine : Type := mkMachine { mc_fs : fsys; mc_sys : gmap gostring gostring }.

Definition N (A : Type) : Type := machine -> machine * A.
#[export] Instance N_ret : MRet N := fun A a s => (s, a).
#[export] Instance N_bind : MBind N := fun A B f m s => let '(s, a) := m s in f a s.
Definition disk {A} (c : F A) : N A := fun s =>
  let '(fs, a) := c (mc_fs s) in (mkMachine fs (mc_sys s), a).
Definition sys {A} (f : gmap gostring gostring -> A) : N A := fun s => (s, f (mc_sys s)).
Definition with_sys (f : gmap gostring gostring -> gmap gostring gostring) : N () := fun s =>
  (mkMachine (mc_fs s) (f (mc_sys s)), tt).

(* ------------------------------------------------------------------ *)
(** * The profile                                                        *)
(* ------------------------------------------------------------------ *)

Definition ProcSys : gostring := bs "/proc/sys".
Definition SysctlFile : gostring := bs "/etc/sysctl.d/99-sshfortress.conf".
Definition ModulesFile : gostring := bs "/etc/modules-load.d/sshfortress.conf".
Definition LimitsFile : gostring := bs "/etc/security/limits.d/99-sshfortress.conf".

Record Param : Type := mkParam {
  p_Key : gostring;
  p_Value : gostring;
  p_Current : gostring;
  p_Desc : gostring;
  p_Applied : bool;
  p_Supported : bool
}.
Definition param (k v d : gostring) : Param := mkParam k v [] d false false.
Definition set_value v p :=
  mkParam (p_Key p) v (p_Current p) (p_Desc p) (p_Applied p) (p_Supported p).

(** The first line with "MemTotal:" that has a number field decides. *)
Fixpoint mem_total (lines : list gostring) : Z :=
  match lines with
  | [] => 0
  | line :: lines =>
      if has_prefix line (bs "MemTotal:")
      then match fields line with
           | _ :: kb :: _ => uwrap 64 (match digits kb with Some n => Z.min n (2 ^ 64 - 1) | None => 0 end * 1024)
           | _ => mem_total lines
           end
      else mem_total lines
  end.
Definition memTotalBytes (meminfo : option gostring) : Z :=
  match meminfo with None => 0 | Some data => mem_total (split_on x0a data) end.

Definition bufferMax (meminfo : option gostring) : Z :=
  let ram := memTotalBytes meminfo in
  if Z.shiftl 4 30 <=? ram then Z.shiftl 64 20
  else if Z.shiftl 1 30 <=? ram then Z.shiftl 32 20
  else Z.shiftl 16 20.

Definition cc_key : gostring := bs "net.ipv4.tcp_congestion_control".
Definition qdisc_key : gostring := bs "net.core.default_qdisc".

Definition base_profile (bmax cc : gostring) : list Param :=
  [param (bs "net.core.default_qdisc") (bs "fq") (bs "Fair-queue pacing (pairs with BBR)");
   param (bs "net.ipv4.tcp_congestion_control") cc (bs "Congestion control");
   param (bs "net.ipv4.tcp_notsent_lowat") (bs "16384") (bs "Short send queue → low latency for calls");
   param (bs "net.ipv4.tcp_slow_start_after_idle") (bs "0") (bs "Keep tunnel speed after pauses");
   param (bs "net.ipv4.tcp_mtu_probing") (bs "1") (bs "Recover from broken path MTU");
   param (bs "net.ipv4.tcp_fastopen") (bs "3") (bs "TCP Fast Open (client + server)");
   param (bs "net.ipv4.tcp_window_scaling") (bs "1") (bs "Large TCP windows");
   param (bs "net.ipv4.tcp_sack") (bs "1") (bs "Selective ACKs");
   param (bs "net.ipv4.tcp_timestamps") (bs "1") (bs "RTT measurement");
   param (bs "net.ipv4.tcp_no_metrics_save") (bs "1") (bs "Don't reuse stale path metrics");
   param (bs "net.core.rmem_max") bmax (bs "Max receive buffer");
   param (bs "net.core.wmem_max") bmax (bs "Max send buffer");
   param (bs "net.core.rmem_default") (bs "262144") (bs "Default receive buffer (UDP flows)");
   param (bs "net.core.wmem_default") (bs "262144") (bs "Default send buffer (UDP flows)");
   param (bs "net.ipv4.tcp_rmem") (bs "4096 131072 " ++ bmax) (bs "TCP receive buffer min/default/max");
   param (bs "net.ipv4.tcp_wmem") (bs "4096 65536 " ++ bmax) (bs "TCP send buffer min/default/max");
   param (bs "net.ipv4.udp_rmem_min") (bs "16384") (bs "UDP receive buffer floor");
   param (bs "net.ipv4.udp_wmem_min") (bs "16384") (bs "UDP send buffer floor");
   param (bs "net.core.netdev_max_backlog") (bs "16384") (bs "Packet backlog per CPU");
   param (bs "net.core.somaxconn") (bs "8192") (bs "Listen backlog");
   param (bs "net.ipv4.tcp_max_syn_backlog") (bs "8192") (bs "SYN backlog");
   param (bs "net.ipv4.ip_local_port_range") (bs "10240 65535") (bs "Ephemeral ports for tunnels/UDP flows");
   param (bs "net.ipv4.tcp_tw_reuse") (bs "1") (bs "Reuse TIME_WAIT sockets");
   param (bs "net.ipv4.tcp_fin_timeout") (bs "15") (bs "FIN timeout (s)");
   param (bs "net.ipv4.tcp_keepalive_time") (bs "60") (bs "Keepalive start (s)");
   param (bs "net.ipv4.tcp_keepalive_intvl") (bs "10") (bs "Keepalive interval (s)");
   param (bs "net.ipv4.tcp_keepalive_probes") (bs "6") (bs "Keepalive probes");
   param (bs "net.ipv4.tcp_retries2") (bs "8") (bs "Give up on dead peers in ~100s, not 15 min");
   param (bs "net.ipv4.tcp_rfc1337") (bs "1") (bs "TIME_WAIT assassination protection");
   param (bs "fs.file-max") (bs "2097152") (bs "System-wide open files");
   param (bs "vm.swappiness") (bs "10") (bs "Prefer RAM over swap");
   param (bs "net.netfilter.nf_conntrack_max") (bs "262144") (bs "Connection tracking table")].

Definition custom_profile (m : gmap gostring gostring) : list Param :=
  (fun k => param k (default [] (m !! k)) (bs "Custom")) <$> merge_sort str_le (elements (dom m)).

Definition Profile (cfg : Config) (meminfo : option gostring) : list Param :=
  base_profile (itoa (bufferMax meminfo))
    (or_str (network_CongestionControl (Network cfg)) (bs "bbr")) ++
  custom_profile (network_CustomSysctls (Network cfg)).

Definition replace_dots (key : gostring) : gostring := (fun b => if decide (b = x2e) then x2f else b) <$> key.
Definition sysPath (key : gostring) : gostring := path_join ProcSys (replace_dots key).

Definition norm (s : gostring) : gostring := join (bs " ") (fields s).
Definition read_sys (key : gostring) (m : gmap gostring gostring) : option gostring :=
  norm <$> m !! sysPath key.

Definition Status (cfg : Config) (meminfo : option gostring) (m : gmap gostring gostring) : list Param :=
  (fun p => let r := read_sys (p_Key p) m in
            let cur := default [] r in
            let ok := match r with Some _ => true | None => false end in
            mkParam (p_Key p) (p_Value p) cur (p_Desc p) (ok && eqb_str (norm cur) (norm (p_Value p))) ok)
  <$> Profile cfg meminfo.

(** [Score]: applied and total over the supported ones. *)
Definition Score (ps : list Param) : Z * Z :=
  foldl (fun '(applied, total) p =>
           if negb (p_Supported p) then (applied, total)
           else (if p_Applied p then applied + 1 else applied, total + 1)) (0, 0) ps.

Definition BBRActive (m : gmap gostring gostring) : bool :=
  let v := default [] (read_sys cc_key m) in eqb_str v (bs "bbr") || eqb_str v (bs "bbr2").

Definition ccAvailable (cc : gostring) (m : gmap gostring gostring) : bool :=
  existsb (eqb_str cc)
    (fields (default [] (read_sys (bs "net.ipv4.tcp_available_congestion_control") m))).

(* ------------------------------------------------------------------ *)
(** * Apply and Reset                                                    *)
(* ------------------------------------------------------------------ *)

Record Result : Type := mkResult {
  r_Applied : Z;
  r_Total : Z;
  r_Skipped : list gostring;
  r_Warnings : list gostring
}.
Definition add_warning w r := mkResult (r_Applied r) (r_Total r) (r_Skipped r) (r_Warnings r ++ [w]).
Definition add_skipped k r := mkResult (r_Applied r) (r_Total r) (r_Skipped r ++ [k]) (r_Warnings r).
Definition add_total r := mkResult (r_Applied r) (r_Total r + 1) (r_Skipped r) (r_Warnings r).
Definition add_applied r := mkResult (r_Applied r + 1) (r_Total r) (r_Skipped r) (r_Warnings r).

Section netopt.
Context `{Kernel, Disk, !Codec (gmap gostring gostring)}.
Variable cfg : Config.
(** The text of a failed write, and the order in which Go walks a map. *)
Variable show_err : gostring -> gostring.
Variable walk : gmap gostring gostring -> list (gostring * gostring).

(** [write] *)
Definition write (key val : gostring) : N bool := fun s =>
  let p := sysPath key in
  let v := val ++ [x0a] in
  if sys_accepts p v && bool_decide (is_Some (mc_sys s !! p))
  then (mkMachine (mc_fs s) (<[p := sys_shows p v]> (mc_sys s)), true)
  else (s, false).

Definition backupPath : gostring := path_join (DataDir cfg) (bs "sysctl-backup.json").

(** The loop that looks after congestion control. *)
Definition fix_cc (p : Param) (r : Result) : N (Param * Result) :=
  if negb (eqb_str (p_Key p) cc_key) then mret (p, r)
  else
    let cc := p_Value p in
    there ← sys (ccAvailable cc);
    _ ← (if negb (there : bool) then with_sys (modprobe (bs "tcp_" ++ cc)) else mret tt);
    there ← sys (ccAvailable cc);
    if negb (there : bool)
    then mret (set_value (bs "cubic") p,
               add_warning (cc ++ bs " is not available in this kernel — kept cubic") r)
    else
      _ ← (if has_prefix cc (bs "bbr")
           then _ ← disk (WriteIfChanged ModulesFile
                            (bs "# SSH-VPN: load BBR at boot" ++ [x0a] ++ bs "tcp_" ++ cc ++ [x0a])); mret tt
           else mret tt);
      mret (p, r).
Fixpoint fix_all (ps : list Param) (r : Result) : N (list Param * Result) :=
  match ps with
  | [] => mret ([], r)
  | p :: ps =>
      a ← fix_cc p r;
      b ← fix_all ps a.2;
      mret (a.1 :: b.1, b.2)
  end.

(** The values before the first change. *)
Definition originals (ps : list Param) (m : gmap gostring gostring) : gmap gostring gostring :=
  foldl (fun orig p => match read_sys (p_Key p) m with
                       | Some v => <[p_Key p := v]> orig
                       | None => orig
                       end) ∅ ps.
Definition save_originals (ps : list Param) : N () :=
  there ← disk (FileExists backupPath);
  if (there : bool) then mret tt
  else
    orig ← sys (originals ps);
    match marshal orig with
    | None => mret tt
    | Some data =>
        _ ← disk try_op;
        _ ← disk (WriteFile backupPath data);
        mret tt
    end.

(** One setting of the second loop: its lines of the file, and the result. *)
Definition apply_one (p : Param) (r : Result) : N (list gostring * Result) :=
  cur ← sys (read_sys (p_Key p));
  match cur with
  | None => mret ([], add_skipped (p_Key p) r)
  | Some cur =>
      let r := add_total r in
      let lines := [bs "# " ++ p_Desc p; p_Key p ++ bs " = " ++ p_Value p] in
      if eqb_str (norm cur) (norm (p_Value p)) then mret (lines, add_applied r)
      else
        done ← write (p_Key p) (p_Value p);
        done ← (if negb (done : bool) && eqb_str (p_Key p) qdisc_key
                then _ ← with_sys (modprobe (bs "sch_" ++ p_Value p)); write (p_Key p) (p_Value p)
                else mret done);
        if (done : bool) then mret (lines, add_applied r)
        else mret (lines, add_warning
               (if eqb_str (p_Key p) qdisc_key
                then bs "the " ++ p_Value p ++ bs " qdisc isn't available in this kernel (BBR still works without it)"
                else p_Key p ++ bs ": " ++ show_err (p_Key p)) r)
  end.
Fixpoint apply_all (ps : list Param) (r : Result) : N (list gostring * Result) :=
  match ps with
  | [] => mret ([], r)
  | p :: ps =>
      a ← apply_one p r;
      b ← apply_all ps a.2;
      mret (a.1 ++ b.1, b.2)
  end.

Definition sysctl_header : list gostring :=
  [bs "# SSH-VPN network profile — generated by `sshfortress optimize`.";
   bs "# Remove with `sshfortress optimize reset`."; []].
Definition limits_text : gostring :=
  join [x0a] [bs "# SSH-VPN: many tunnels need many open files"; bs "* soft nofile 1048576";
    bs "* hard nofile 1048576"; bs "root soft nofile 1048576"; bs "root hard nofile 1048576"; []].

(** Everything after the copy of the originals: the settings, and the two files. *)
Definition apply_rest (ps : list Param) (r : Result) : N (option Result) :=
  applied ← apply_all ps r;
  w1 ← disk (WriteIfChanged SysctlFile (join [x0a] (sysctl_header ++ applied.1) ++ [x0a]));
  let r := if (w1 : bool * bool).2 then applied.2
           else add_warning (bs "persist: " ++ show_err SysctlFile) applied.2 in
  w2 ← disk (WriteIfChanged LimitsFile limits_text);
  let r := if (w2 : bool * bool).2 then r
           else add_warning (bs "limits: " ++ show_err LimitsFile) r in
  mret (Some r).

Definition Apply (root : bool) : N (option Result) :=
  if negb root then mret None
  else
    meminfo ← disk (ReadFile (bs "/proc/meminfo"));
    fixed ← fix_all (Profile cfg meminfo) (mkResult 0 0 [] []);
    _ ← save_originals fixed.1;
    apply_rest fixed.1 fixed.2.

Fixpoint restore_all (l : list (gostring * gostring)) : N () :=
  match l with
  | [] => mret tt
  | (k, v) :: l => _ ← write k v; restore_all l
  end.

Definition Reset (root : bool) : N bool :=
  if negb root then mret false
  else
    _ ← disk (Remove SysctlFile);
    _ ← disk (Remove ModulesFile);
    _ ← disk (Remove LimitsFile);
    data ← disk (ReadFile backupPath);
    _ ← (match data with
         | None => mret tt
         | Some data =>
             _ ← (match unmarshal data with
                  | Some orig => restore_all (walk orig)
                  | None => mret tt
                  end);
             _ ← disk (Remove backupPath);
             mret tt
         end);
    _ ← with_sys sysctl_system;
    mret true.
End netopt.
