(* ===== verification/NetoptProps.v ===== *)
(** What [Netopt] changes it takes back, and the last setting of a key wins. *)
From S2P Require Import Prelude GoStrings Paths Files Config Store Netopt.

(* ------------------------------------------------------------------ *)
(** * Computations and what they keep                                    *)
(* ------------------------------------------------------------------ *)

(** [c] changes the kernel's settings only within [R]. *)
Definition within {A} (R : relation (gmap gostring gostring)) (c : N A) : Prop :=
  forall s, R (mc_sys s) (mc_sys (c s).1).

Section within.
Context (R : relation (gmap gostring gostring)) `{!PreOrder R}.

Lemma within_ret {A} (a : A) : within R (mret a).
Proof. intros s. reflexivity. Qed.
Lemma within_bind {A B} (c : N A) (k : A -> N B) :
  within R c -> (forall a, within R (k a)) -> within R (c ≫= k).
Proof.
  intros Hc Hk s. unfold mbind, N_bind. specialize (Hc s). destruct (c s) as [s1 a].
  etransitivity; [exact Hc|]. apply Hk.
Qed.
Lemma within_disk {A} (c : F A) : within R (disk c).
Proof. intros s. unfold disk. destruct (c (mc_fs s)). reflexivity. Qed.
Lemma within_sys {A} (f : gmap gostring gostring -> A) : within R (sys f).
Proof. intros s. reflexivity. Qed.
Lemma within_if {A} (b : bool) (c d : N A) : within R c -> within R d -> within R (if b then c else d).
Proof. by destruct b. Qed.
End within.

(** Goes through a computation; the primitive steps are left. *)
Ltac within_tac :=
  repeat lazymatch goal with
  | |- within _ (mret _) => apply within_ret, _
  | |- within _ (disk _) => apply within_disk, _
  | |- within _ (sys _) => apply within_sys, _
  | |- within _ (if _ then _ else _) => apply within_if
  | |- within _ (_ ≫= _) => apply within_bind; [apply _| |intros ?]
  end.

(** [c] leaves the file [p] alone. *)
Definition leaves {A} (p : gostring) (c : N A) : Prop :=
  forall s, f_files (mc_fs (c s).1) !! p = f_files (mc_fs s) !! p.

Lemma leaves_ret {A} p (a : A) : leaves p (mret a).
Proof. done. Qed.
Lemma leaves_bind {A B} p (c : N A) (k : A -> N B) :
  leaves p c -> (forall a, leaves p (k a)) -> leaves p (c ≫= k).
Proof.
  intros Hc Hk s. unfold mbind, N_bind. specialize (Hc s). destruct (c s) as [s1 a].
  rewrite <- Hc. apply Hk.
Qed.
Lemma leaves_sys {A} p (f : gmap gostring gostring -> A) : leaves p (sys f).
Proof. done. Qed.
Lemma leaves_with_sys p f : leaves p (with_sys f).
Proof. done. Qed.
Lemma leaves_if {A} p (b : bool) (c d : N A) : leaves p c -> leaves p d -> leaves p (if b then c else d).
Proof. by destruct b. Qed.
Lemma leaves_does `{Disk} {A} p (c : F A) f :
  does c f -> (forall m, (f m).1 !! p = m !! p) -> leaves p (disk c).
Proof.
  intros Hc Hf s. unfold disk. destruct (Hc (mc_fs s)) as (fs & -> & E). cbn. by rewrite E, Hf.
Qed.
Ltac leaves_tac :=
  repeat lazymatch goal with
  | |- leaves _ (mret _) => apply leaves_ret
  | |- leaves _ (sys _) => apply leaves_sys
  | |- leaves _ (with_sys _) => apply leaves_with_sys
  | |- leaves _ (if _ then _ else _) => apply leaves_if
  | |- leaves _ (_ ≫= _) => apply leaves_bind; [|intros ?]
  end.

(** The results of [c]. *)
Definition returns {A} (P : A -> Prop) (c : N A) : Prop := forall s, P (c s).2.
Lemma returns_ret {A} (P : A -> Prop) a : P a -> returns P (mret a).
Proof. by intros Ha s. Qed.
Lemma returns_bind {A B} (P : B -> Prop) (c : N A) (k : A -> N B) :
  (forall a, returns P (k a)) -> returns P (c ≫= k).
Proof. intros Hk s. unfold mbind, N_bind. destruct (c s) as [s1 a]. apply Hk. Qed.
Lemma returns_if {A} (P : A -> Prop) (b : bool) (c d : N A) :
  returns P c -> returns P d -> returns P (if b then c else d).
Proof. by destruct b. Qed.
Ltac returns_tac :=
  repeat lazymatch goal with
  | |- returns _ (if _ then _ else _) => apply returns_if
  | |- returns _ (_ ≫= _) => apply returns_bind; intros ?
  end.

(** Values stay; settings stay. *)
Definition same_values : relation (gmap gostring gostring) := fun m m' =>
  forall p v, p <> available_cc -> m !! p = Some v -> m' !! p = Some v.
Definition same_keys : relation (gmap gostring gostring) := fun m m' =>
  forall p, p <> available_cc -> is_Some (m !! p) -> is_Some (m' !! p).
#[export] Instance same_values_preorder : PreOrder same_values.
Proof. split; [by intros m p v|]. intros a b c Hab Hbc p v Hp Hv. by apply Hbc, Hab. Qed.
#[export] Instance same_keys_preorder : PreOrder same_keys.
Proof. split; [by intros m p|]. intros a b c Hab Hbc p Hp Hv. by apply Hbc, Hab. Qed.

(** One setting keeps its value. *)
Definition keeps (p : gostring) : relation (gmap gostring gostring) := fun m m' =>
  forall v, m !! p = Some v -> m' !! p = Some v.
#[export] Instance keeps_preorder p : PreOrder (keeps p).
Proof. split; [by intros m v|]. intros a b c Hab Hbc v Hv. by apply Hbc, Hab. Qed.

Lemma with_sys_within R f : (forall m, R m (f m)) -> within R (with_sys f).
Proof. intros Hf s. apply Hf. Qed.

Section netopt.
Context `{Kernel, Disk, !Codec (gmap gostring gostring)}.
Variable cfg : Config.
Variable show_err : gostring -> gostring.
Variable walk : gmap gostring gostring -> list (gostring * gostring).
Hypothesis works : forall n, op_fails n = false.

Lemma modprobe_values n : within same_values (with_sys (modprobe n)).
Proof. apply with_sys_within. intros m p v Hp. by apply modprobe_keeps. Qed.
Lemma modprobe_same_keys n : within same_keys (with_sys (modprobe n)).
Proof. apply with_sys_within. intros m p Hp [v Hv]. exists v. by apply modprobe_keeps. Qed.

Lemma write_same_keys k v : within same_keys (write k v).
Proof.
  intros s p Hp Hv. unfold write. case_match; [|done]. cbn.
  rewrite lookup_insert. by case_decide.
Qed.

Lemma fix_cc_values p r : within same_values (fix_cc p r).
Proof. unfold fix_cc. cbv zeta. within_tac. apply modprobe_values. Qed.

Lemma fix_all_values ps r : within same_values (fix_all ps r).
Proof.
  revert r. induction ps as [|p ps IH]; intros r; cbn [fix_all]; within_tac; [apply fix_cc_values|apply IH].
Qed.

Lemma apply_one_keys p r : within same_keys (apply_one show_err p r).
Proof.
  unfold apply_one. within_tac. case_match; cbv zeta; within_tac;
    first [apply write_same_keys|apply modprobe_same_keys].
Qed.

Lemma apply_all_keys ps r : within same_keys (apply_all show_err ps r).
Proof.
  revert r. induction ps as [|p ps IH]; intros r; cbn [apply_all]; within_tac; [apply apply_one_keys|apply IH].
Qed.

(** Only the settings of the profile are written. *)
Lemma write_keeps q k v : sysPath k <> q -> within (keeps q) (write k v).
Proof.
  intros Hk s w Hw. unfold write. cbv zeta. case_match; [|done]. cbn. by rewrite lookup_insert_ne.
Qed.
Lemma apply_all_keeps q ps r : q <> available_cc -> q ∉ (sysPath <$> (p_Key <$> ps)) ->
  within (keeps q) (apply_all show_err ps r).
Proof.
  intros Hq. revert r. induction ps as [|p ps IH]; intros r Hps; cbn [apply_all].
  { within_tac. }
  rewrite !fmap_cons in Hps. apply not_elem_of_cons in Hps as [Hp Hps].
  assert (Hm : forall n, within (keeps q) (with_sys (modprobe n))).
  { intros n. apply with_sys_within. intros m v. by apply modprobe_keeps. }
  within_tac; [|by apply IH]. unfold apply_one. within_tac.
  case_match; cbv zeta; within_tac; first [by apply write_keeps|apply Hm].
Qed.

(** ** The copy of the original values *)

Lemma fix_all_leaves q ps r : q <> ModulesFile -> leaves q (fix_all ps r).
Proof.
  intros Hq. revert r. induction ps as [|p ps IH]; intros r; cbn [fix_all]; leaves_tac; [|apply IH].
  unfold fix_cc. cbv zeta. leaves_tac.
  set (d := bs "# SSH-VPN: load BBR at boot" ++ _).
  pose proof (does_WriteIfChanged works ModulesFile d) as Hg.
  eapply leaves_does; [exact Hg|]. intros m. cbn. by rewrite lookup_insert_ne.
Qed.

Lemma apply_all_leaves q ps r : leaves q (apply_all show_err ps r).
Proof.
  revert r. induction ps as [|p ps IH]; intros r; cbn [apply_all]; leaves_tac; [|apply IH].
  assert (Hw : forall k v, leaves q (write k v)).
  { intros k v s. unfold write. by case_match. }
  unfold apply_one. leaves_tac. case_match; cbv zeta; leaves_tac; apply Hw.
Qed.

Lemma fix_cc_name p r : returns (fun a => p_Key a.1 = p_Key p) (fix_cc p r).
Proof. unfold fix_cc. cbv zeta. returns_tac; by apply returns_ret. Qed.

Lemma fix_all_names ps r : returns (fun a => p_Key <$> a.1 = p_Key <$> ps) (fix_all ps r).
Proof.
  revert r. induction ps as [|p ps IH]; intros r s; [done|]. cbn [fix_all]. unfold mbind, N_bind.
  pose proof (fix_cc_name p r s) as E. destruct (fix_cc p r s) as [s1 [p' r']]. cbn in E |- *.
  specialize (IH r' s1). destruct (fix_all ps r' s1) as [s2 [ps' r'']]. cbn in *. by rewrite IH, E.
Qed.

Lemma originals_lookup ps m k :
  originals ps m !! k = if decide (k ∈ (p_Key <$> ps)) then read_sys k m else None.
Proof.
  unfold originals.
  assert (Hf : forall orig : gmap gostring gostring, foldl (fun orig p => match read_sys (p_Key p) m with
      | Some v => <[p_Key p := v]> orig | None => orig end) orig ps !! k =
    if decide (k ∈ (p_Key <$> ps)) then match read_sys k m with Some v => Some v | None => orig !! k end
    else orig !! k).
  { induction ps as [|p ps IH]; intros orig; [done|]. cbn [foldl]. rewrite IH, fmap_cons.
    destruct (decide (k = p_Key p)) as [->|Hk].
    - rewrite (decide_True (P := p_Key p ∈ p_Key p :: _)) by by left.
      destruct (read_sys (p_Key p) m); [|by case_decide]. rewrite lookup_insert_eq. by case_decide.
    - assert (Hin : k ∈ (p_Key <$> ps) <-> k ∈ p_Key p :: (p_Key <$> ps)) by set_solver.
      assert (Ho : (match read_sys (p_Key p) m with Some v => <[p_Key p := v]> orig | None => orig end
                     : gmap gostring gostring) !! k = orig !! k) by (destruct (read_sys (p_Key p) m); [by rewrite lookup_insert_ne by congruence|done]).
      rewrite Ho. by rewrite (decide_ext _ _ _ _ Hin). }
  rewrite Hf, lookup_empty. case_decide; [|done]. by destruct (read_sys k m).
Qed.

(** ** Taking it back *)

Lemma write_at k v s : sys_accepts (sysPath k) (v ++ [x0a]) = true ->
  is_Some (mc_sys s !! sysPath k) ->
  mc_sys (write k v s).1 !! sysPath k = Some (sys_shows (sysPath k) (v ++ [x0a])).
Proof.
  intros Ha Hs. unfold write. cbv zeta. rewrite Ha, bool_decide_true by done. cbn.
  by rewrite lookup_insert_eq.
Qed.
Lemma write_elsewhere k v s p : p <> sysPath k -> mc_sys (write k v s).1 !! p = mc_sys s !! p.
Proof. intros Hp. unfold write. cbv zeta. case_match; [|done]. cbn. by rewrite lookup_insert_ne. Qed.

Lemma restore_all_at l s p w :
  sys_accepts p (w ++ [x0a]) = true -> is_Some (mc_sys s !! p) ->
  (forall k v, (k, v) ∈ l -> sysPath k = p -> v = w) ->
  mc_sys s !! p = Some (sys_shows p (w ++ [x0a])) \/ (exists k v, (k, v) ∈ l /\ sysPath k = p) ->
  mc_sys (restore_all l s).1 !! p = Some (sys_shows p (w ++ [x0a])).
Proof.
  intros Ha. revert s. induction l as [|[k v] l IH]; intros s Hs Hl Hor.
  - destruct Hor as [Hor|(k & v & Hin & _)]; [done|by apply elem_of_nil in Hin].
  - cbn [restore_all]. unfold mbind, N_bind. destruct (write k v s) as [s1 b] eqn:E.
    assert (E1 : s1 = (write k v s).1) by by rewrite E.
    destruct (decide (sysPath k = p)) as [Hk|Hk].
    + assert (v = w) as -> by (eapply Hl; [by left|done]).
      assert (Hw : mc_sys s1 !! p = Some (sys_shows p (w ++ [x0a]))).
      { rewrite E1, <- Hk. apply write_at; by rewrite Hk. }
      apply IH; [by rewrite Hw|intros k' v' Hin; by eapply Hl; right|by left].
    + assert (Hw : mc_sys s1 !! p = mc_sys s !! p) by (rewrite E1; by apply write_elsewhere).
      apply IH; [by rewrite Hw|intros k' v' Hin; eapply Hl; by right|].
      rewrite Hw. destruct Hor as [Hor|(k' & v' & [Heq|Hin]%elem_of_cons & Hp)]; [by left| |].
      * by injection Heq as <- <-.
      * right. by exists k', v'.
Qed.

Lemma restore_all_elsewhere l s p : p ∉ (sysPath <$> l.*1) ->
  mc_sys (restore_all l s).1 !! p = mc_sys s !! p.
Proof.
  revert s. induction l as [|[k v] l IH]; intros s Hp; [done|]. cbn [restore_all].
  rewrite !fmap_cons in Hp. apply not_elem_of_cons in Hp as [Hk Hp].
  unfold mbind, N_bind. pose proof (write_elsewhere k v s p Hk) as E.
  destruct (write k v s) as [s1 b]. by rewrite IH.
Qed.

(** Writing the copied values back depends on the settings alone. *)
Definition restored (l : list (gostring * gostring)) (m : gmap gostring gostring) : gmap gostring gostring :=
  mc_sys (restore_all l (mkMachine (mkFs ∅ 0 []) m)).1.
Lemma restore_all_sys l s : mc_sys (restore_all l s).1 = restored l (mc_sys s).
Proof.
  unfold restored.
  assert (Hs : forall s t, mc_sys s = mc_sys t -> mc_sys (restore_all l s).1 = mc_sys (restore_all l t).1).
  { induction l as [|[k v] l IH]; intros x y E; [done|]. cbn [restore_all]. unfold mbind, N_bind.
    assert (Ew : mc_sys (write k v x).1 = mc_sys (write k v y).1).
    { unfold write. cbv zeta. rewrite E. by case_match. }
    destruct (write k v x), (write k v y). by apply IH. }
  by apply Hs.
Qed.

(** A value written back reads as before. *)
Lemma norm_shows p c : Forall printable (fields c) -> sys_accepts p (norm c ++ [x0a]) = true ->
  norm (sys_shows p (norm c ++ [x0a])) = norm c.
Proof.
  intros Hc Ha. unfold norm at 1. rewrite (sys_law _ _ Ha). unfold norm. f_equal.
  apply (fields_join (fields c) [x0a]); [done|done|by left].
Qed.

(** With the values of [m] written back over [m1], where the settings outside the
    profile [ps] are still as in [m], every setting reads as in [m]. *)
Lemma restored_reads ps m m1 p c :
  (forall m, walk m ≡ₚ map_to_list m) -> same_keys m m1 ->
  (p ∉ (sysPath <$> (p_Key <$> ps)) -> keeps p m m1) ->
  m !! p = Some c -> p <> available_cc -> Forall printable (fields c) ->
  sys_accepts p (norm c ++ [x0a]) = true ->
  norm <$> restored (walk (originals ps m)) m1 !! p = Some (norm c).
Proof.
  intros Hwalk Hkeys Hkeep Hc Hav Hpr Hacc. unfold restored.
  set (l := walk (originals ps m)).
  assert (Hin : forall k v, (k, v) ∈ l <-> originals ps m !! k = Some v).
  { intros k v. unfold l. rewrite Hwalk. apply elem_of_map_to_list. }
  destruct (decide (p ∈ (sysPath <$> (p_Key <$> ps)))) as [Hp|Hp].
  - rewrite (restore_all_at l _ p (norm c)); [cbn; f_equal; by apply norm_shows|done| | |].
    + cbn. apply Hkeys; [done|by exists c].
    + intros k v Hkv Hk. apply Hin in Hkv. rewrite originals_lookup in Hkv.
      case_decide; [|done]. unfold read_sys in Hkv. rewrite Hk, Hc in Hkv. by injection Hkv.
    + right. apply list_elem_of_fmap in Hp as (key & -> & Hkey). exists key, (norm c). split; [|done].
      apply Hin. rewrite originals_lookup, decide_True by done. unfold read_sys. by rewrite Hc.
  - rewrite restore_all_elsewhere; [cbn; by rewrite (Hkeep Hp c Hc)|].
    intros (k & -> & Hk)%list_elem_of_fmap. apply list_elem_of_fmap in Hk as ([k' v] & -> & Hk).
    apply Hin in Hk. cbn in Hp. rewrite originals_lookup in Hk. case_decide as Hd; [|done].
    apply Hp. apply list_elem_of_fmap. by exists k'.
Qed.

Lemma restore_all_leaves q l : leaves q (restore_all l).
Proof.
  induction l as [|[k v] l IH]; cbn [restore_all]; leaves_tac; [|apply IH].
  intros s. unfold write. by case_match.
Qed.

(** ** The whole of [Apply] and [Reset] *)

Abbreviation copy := (backupPath cfg).
Hypothesis copy_own : copy <> ModulesFile /\ copy <> SysctlFile /\ copy <> LimitsFile.

Lemma disk_run {A} (c : F A) f s : does c f ->
  exists fs, disk c s = (mkMachine fs (mc_sys s), (f (f_files (mc_fs s))).2) /\
    f_files fs = (f (f_files (mc_fs s))).1.
Proof.
  intros Hc. destruct (Hc (mc_fs s)) as (fs & E & Ef). exists fs. unfold disk. by rewrite E.
Qed.

Lemma write_if_changed_leaves q p d : q <> p -> leaves q (disk (WriteIfChanged p d)).
Proof.
  intros Hq. pose proof (does_WriteIfChanged works p d) as Hg.
  eapply leaves_does; [exact Hg|]. intros m. cbn. by rewrite lookup_insert_ne.
Qed.

Lemma save_originals_copy ps s d : f_files (mc_fs s) !! copy = None ->
  marshal (originals ps (mc_sys s)) = Some d ->
  f_files (mc_fs (save_originals cfg ps s).1) !! copy = Some d /\
  mc_sys (save_originals cfg ps s).1 = mc_sys s.
Proof.
  intros Hn Hd. unfold save_originals, mbind, N_bind.
  destruct (disk_run _ _ s (does_FileExists works copy)) as (fs1 & -> & F1). cbn [fst snd] in *.
  rewrite Hn. cbn [is_Some]. rewrite bool_decide_false by by intros [].
  unfold sys. cbn [mc_sys]. rewrite Hd.
  destruct (disk_run _ _ (mkMachine fs1 (mc_sys s)) (does_try_op works)) as (fs2 & -> & F2). cbn [mc_sys].
  destruct (disk_run _ _ (mkMachine fs2 (mc_sys s)) (does_WriteFile works copy d)) as (fs3 & -> & F3).
  cbn. cbn in F3. by rewrite F3, lookup_insert_eq.
Qed.

Lemma tail_leaves ps r : leaves copy (apply_rest show_err ps r).
Proof.
  destruct copy_own as (_ & Hs & Hl). unfold apply_rest. leaves_tac; [apply apply_all_leaves|..];
    by apply write_if_changed_leaves.
Qed.
Lemma tail_keys ps r : within same_keys (apply_rest show_err ps r).
Proof. unfold apply_rest. within_tac. apply apply_all_keys. Qed.

Lemma tail_keeps q ps r : q <> available_cc -> q ∉ (sysPath <$> (p_Key <$> ps)) ->
  within (keeps q) (apply_rest show_err ps r).
Proof. intros Hq Hps. unfold apply_rest. within_tac. by apply apply_all_keeps. Qed.

(** [Apply] writes no file but its own. *)
Lemma Apply_leaves q root : q ∉ [SysctlFile; ModulesFile; LimitsFile; copy] -> leaves q (Apply cfg show_err root).
Proof.
  rewrite !not_elem_of_cons. intros (HS & HM & HL & HC & _). unfold Apply. leaves_tac.
  - by eapply leaves_does; [apply (does_ReadFile works)|].
  - by apply fix_all_leaves.
  - unfold save_originals. leaves_tac; [by eapply leaves_does; [apply (does_FileExists works)|]|].
    case_match; leaves_tac; [by eapply leaves_does; [apply (does_try_op works)|]|].
    eapply leaves_does; [apply (does_WriteFile works)|]. intros m. cbn. by rewrite lookup_insert_ne.
  - unfold apply_rest. leaves_tac; [apply apply_all_leaves|..]; by apply write_if_changed_leaves.
Qed.

(** After the first [Apply]: the copy holds the values from before, and no setting has
    gone away. *)
Lemma Apply_copy s :
  f_files (mc_fs s) !! copy = None ->
  (forall ps m, same_values (mc_sys s) m -> is_Some (marshal (originals ps m))) ->
  exists ps m d, p_Key <$> ps = p_Key <$> Profile cfg (f_files (mc_fs s) !! bs "/proc/meminfo") /\
    same_values (mc_sys s) m /\ marshal (originals ps m) = Some d /\
    f_files (mc_fs (Apply cfg show_err true s).1) !! copy = Some d /\
    same_keys m (mc_sys (Apply cfg show_err true s).1) /\
    (forall p, p <> available_cc -> p ∉ (sysPath <$> (p_Key <$> ps)) ->
       keeps p m (mc_sys (Apply cfg show_err true s).1)).
Proof.
  intros Hn Hm. set (prof := Profile cfg _). set (r0 := mkResult 0 0 [] []).
  destruct (disk_run _ _ s (does_ReadFile works (bs "/proc/meminfo"))) as (fs1 & E1 & F1).
  cbn [fst snd] in E1, F1. set (t := mkMachine fs1 (mc_sys s)) in *.
  pose proof (fix_all_values prof r0 t) as Hv.
  pose proof (fix_all_leaves copy prof r0 (proj1 copy_own) t) as Hl.
  pose proof (fix_all_names prof r0 t) as Hk.
  destruct (fix_all prof r0 t) as [s2 [ps r]] eqn:E2. cbn [fst snd] in Hv, Hl, Hk.
  subst t. cbn [mc_fs mc_sys] in Hl, Hv. rewrite F1, Hn in Hl.
  destruct (Hm ps (mc_sys s2) Hv) as [d Hd].
  destruct (save_originals_copy ps s2 d Hl Hd) as [Hc Hs].
  destruct (save_originals cfg ps s2) as [s3 []] eqn:E3. cbn [fst] in Hc, Hs.
  assert (E : Apply cfg show_err true s = apply_rest show_err ps r s3).
  { unfold Apply. cbn [negb]. unfold mbind, N_bind. rewrite E1. fold prof r0. rewrite E2.
    cbn [fst snd]. by rewrite E3. }
  rewrite E.
  exists ps, (mc_sys s2), d. split_and!; [done|done|done|..].
  - by rewrite (tail_leaves ps r s3).
  - rewrite <- Hs. exact (tail_keys ps r s3).
  - intros p Hp Hps. rewrite <- Hs. exact (tail_keeps p ps r Hp Hps s3).
Qed.

(** What [Reset] does: the files, and the settings. *)
Definition reset_sys (m : files) (sy : gmap gostring gostring) : gmap gostring gostring :=
  sysctl_system (match m !! copy ≫= unmarshal with Some orig => restored (walk orig) sy | None => sy end).
Definition no_tuning (m : files) : files := delete LimitsFile (delete ModulesFile (delete SysctlFile m)).
Lemma Reset_run s :
  f_files (mc_fs (Reset cfg walk true s).1) = delete copy (no_tuning (f_files (mc_fs s))) /\
  mc_sys (Reset cfg walk true s).1 = reset_sys (no_tuning (f_files (mc_fs s))) (mc_sys s) /\
  (Reset cfg walk true s).2 = true.
Proof.
  unfold Reset, no_tuning. cbn [negb]. unfold mbind, N_bind, Remove.
  destruct (disk_run _ _ s (does_change works (delete SysctlFile))) as (fs2 & E2 & F2). rewrite E2.
  destruct (disk_run _ _ (mkMachine fs2 (mc_sys s)) (does_change works (delete ModulesFile)))
    as (fs3 & E3 & F3). cbn [mc_sys mc_fs] in *. rewrite E3.
  destruct (disk_run _ _ (mkMachine fs3 (mc_sys s)) (does_change works (delete LimitsFile)))
    as (fs4 & E4 & F4). cbn [mc_sys mc_fs] in *. rewrite E4.
  destruct (disk_run _ _ (mkMachine fs4 (mc_sys s)) (does_ReadFile works copy)) as (fs5 & E5 & F5).
  cbn [mc_sys mc_fs] in *. rewrite E5. cbn [fst snd] in *. rewrite <- F2, <- F3, <- F4.
  unfold reset_sys. destruct (f_files fs4 !! copy) as [d|] eqn:Ed.
  2:{ cbn. by rewrite F5, delete_id. }
  cbn [mbind option_bind].
  assert (Hl : exists s6, (match unmarshal d with
      | Some orig => restore_all (walk orig)
      | None => mret tt
      end) (mkMachine fs5 (mc_sys s)) = (s6, tt) /\ f_files (mc_fs s6) = f_files fs4 /\
      mc_sys s6 = match unmarshal d with Some orig => restored (walk orig) (mc_sys s) | None => mc_sys s end).
  { destruct (unmarshal d) as [orig|]; [|by eexists].
    pose proof (fun q => restore_all_leaves q (walk orig) (mkMachine fs5 (mc_sys s))) as Hleft.
    pose proof (restore_all_sys (walk orig) (mkMachine fs5 (mc_sys s))) as Hsys.
    destruct (restore_all (walk orig) _) as [s6 []]. cbn [fst mc_fs mc_sys] in *. exists s6.
    split_and!; [done| |done]. apply map_eq. intros q. rewrite Hleft. by rewrite F5. }
  destruct Hl as (s6 & E6 & F6 & S6). rewrite E6.
  destruct (disk_run _ _ s6 (does_change works (delete copy))) as (fs7 & E7 & F7). rewrite E7.
  cbn in F7 |- *. by rewrite F7, F6, S6.
Qed.

(** [Apply] on a machine without a copy, then [Reset] with the same copy and settings. *)
Lemma no_tuning_copy m : no_tuning m !! copy = m !! copy.
Proof. destruct copy_own as (HM & HS & HL). unfold no_tuning. by rewrite !lookup_delete_ne. Qed.
Lemma reset_reads s m' sy' p c :
  (forall m, walk m ≡ₚ map_to_list m) ->
  f_files (mc_fs s) !! copy = None ->
  (forall ps m, same_values (mc_sys s) m -> stable (originals ps m) /\ is_Some (marshal (originals ps m))) ->
  mc_sys s !! p = Some c -> p <> available_cc -> Forall printable (fields c) ->
  sys_accepts p (norm c ++ [x0a]) = true -> (forall m, sysctl_system m !! p = m !! p) ->
  m' !! copy = f_files (mc_fs (Apply cfg show_err true s).1) !! copy ->
  sy' = mc_sys (Apply cfg show_err true s).1 ->
  norm <$> reset_sys m' sy' !! p = norm <$> mc_sys s !! p.
Proof.
  intros Hwalk Hn Hst Hc Hav Hpr Hacc Hsys Hm' ->.
  destruct (Apply_copy s Hn (fun ps m Hm => proj2 (Hst ps m Hm)))
    as (ps & m & d & Hk & Hv & Hd & Hcopy & Hkeys & Hkeep).
  unfold reset_sys. rewrite Hm', Hcopy. cbn [mbind option_bind].
  rewrite (codec_law _ _ (proj1 (Hst ps m Hv)) Hd), Hsys, Hc. cbn [fmap option_fmap option_map].
  apply (restored_reads ps m); try done; [by apply Hkeep|by apply Hv].
Qed.

(** C34 [Reset] really restores: on a working disk, after the first [Apply] and then
    [Reset], every setting that the kernel has reads exactly as before
    [Apply], whatever the profile or the loading of modules had made of it, and no file
    of the tuning is left; the conditions are that the kernel takes its own values
    back and that the distribution's own files do not set that key. *)
Theorem Apply_Reset_restores s s1 r s2 b p c :
  (forall m, walk m ≡ₚ map_to_list m) ->
  f_files (mc_fs s) !! copy = None ->
  (forall ps m, same_values (mc_sys s) m -> stable (originals ps m) /\ is_Some (marshal (originals ps m))) ->
  mc_sys s !! p = Some c -> p <> available_cc -> Forall printable (fields c) ->
  sys_accepts p (norm c ++ [x0a]) = true ->
  (forall m, sysctl_system m !! p = m !! p) ->
  Apply cfg show_err true s = (s1, r) ->
  Reset cfg walk true s1 = (s2, b) ->
  norm <$> mc_sys s2 !! p = norm <$> mc_sys s !! p /\
  Forall (fun q => f_files (mc_fs s2) !! q = None) [SysctlFile; ModulesFile; LimitsFile; copy].
Proof.
  intros Hwalk Hn Hst Hc Hav Hpr Hacc Hsys EA ER.
  destruct (Reset_run s1) as (Hf & Hs & _). rewrite ER in Hf, Hs. cbn [fst] in Hf, Hs. split.
  - rewrite Hs. apply (reset_reads s _ _ p c); by rewrite ?no_tuning_copy, ?EA.
  - rewrite Hf. unfold no_tuning. repeat constructor; rewrite !lookup_delete; repeat case_decide; done.
Qed.
End netopt.

(* ------------------------------------------------------------------ *)
(** * A concrete kernel                                                  *)
(* ------------------------------------------------------------------ *)

Section example.

Definition open_kernel : Kernel.
Proof.
  refine {| sys_accepts _ _ := true; sys_shows _ v := v; modprobe _ m := m; sysctl_system m := m |}.
  - done.
  - done.
Defined.
Definition sysctl_codec : Codec (gmap gostring gostring) := any_codec (gmap gostring gostring).
Definition sound_disk : Disk :=
  {| op_fails _ := false;
     torn := @torn (breaks_at 0);
     temp_name := @temp_name (breaks_at 0);
     temp_fresh := @temp_fresh (breaks_at 0) |}.
#[local] Existing Instances open_kernel sysctl_codec sound_disk.

Definition backlog : gostring := bs "net.core.somaxconn".
Definition dirty : gostring := bs "vm.dirty_ratio".
Definition small_kernel : machine :=
  mkMachine (mkFs ∅ 0 [])
    (<[sysPath backlog := bs "4096" ++ [x0a]]> {[sysPath dirty := bs "20" ++ [x0a]]}).
Definition no_err (_ : gostring) : gostring := [].

Lemma sound_works n : @op_fails sound_disk n = false.
Proof. reflexivity. Qed.
Lemma sysctl_marshals m : is_Some (@marshal _ sysctl_codec m).
Proof. by eexists. Qed.

Lemma takes_all p v : @sys_accepts open_kernel p v = true.
Proof. reflexivity. Qed.
Lemma keeps_all p (m : gmap gostring gostring) : @sysctl_system open_kernel m !! p = m !! p.
Proof. reflexivity. Qed.
Lemma no_copy : f_files (mc_fs small_kernel) !! backupPath Defaults = None.
Proof. apply lookup_empty. Qed.
Lemma copy_apart : backupPath Defaults <> ModulesFile /\ backupPath Defaults <> SysctlFile /\
  backupPath Defaults <> LimitsFile.
Proof.
  assert (H : bool_decide (backupPath Defaults ∈ [ModulesFile; SysctlFile; LimitsFile]) = false)
    by (vm_compute; reflexivity).
  apply bool_decide_eq_false in H. rewrite !not_elem_of_cons in H. tauto.
Qed.

Lemma Apply_Reset_restores_witness :
  let s2 := (Reset Defaults map_to_list true (Apply Defaults no_err true small_kernel).1).1 in
  norm <$> mc_sys s2 !! sysPath backlog = Some (bs "4096").
Proof.
  destruct (Apply Defaults no_err true small_kernel) as [s1 r] eqn:EA. cbn [fst].
  destruct (Reset Defaults map_to_list true s1) as [s2 b] eqn:ER. cbv zeta. cbn [fst].
  assert (Hav : bool_decide (sysPath backlog = available_cc) = false) by (vm_compute; reflexivity).
  apply bool_decide_eq_false in Hav.
  assert (Hc : mc_sys small_kernel !! sysPath backlog = Some (bs "4096" ++ [x0a]))
    by (vm_compute; reflexivity).
  assert (Hpr : Forall printable (fields (bs "4096" ++ [x0a]))).
  { repeat constructor; [discriminate|..]; vm_compute; intuition discriminate. }
  pose proof (Apply_Reset_restores Defaults no_err map_to_list sound_works copy_apart
    small_kernel s1 r s2 b (sysPath backlog) (bs "4096" ++ [x0a])
    (fun m => reflexivity (map_to_list m)) no_copy (fun ps m _ => conj I (sysctl_marshals (originals ps m)))
    Hc Hav Hpr (takes_all _ _) (keeps_all _) EA ER) as [E _].
  rewrite E. vm_compute. reflexivity.
Defined.

(** The copy is made once: a setting that is added to the configuration after the
    first [Apply] is not in it, and [Reset] leaves it changed. *)
Definition with_custom (m : gmap gostring gostring) (c : Config) : Config :=
  mkConfig (DataDir c) (LogDir c) (Server c) (SSH c) (UDPGW c) (BadVPN c) (Config.Gateway c) (Limiter c)
    (mkNetworkConfig (network_AutoOptimize (Network c)) (network_CongestionControl (Network c)) m)
    (Firewall c) (UserDefaults c) (Monitor c) (path c).
Lemma Reset_misses_later_keys :
  let cfg' := with_custom {[dirty := bs "5"]} Defaults in
  let s1 := (Apply Defaults no_err true small_kernel).1 in
  let s2 := (Apply cfg' no_err true s1).1 in
  let s3 := (Reset cfg' map_to_list true s2).1 in
  read_sys dirty (mc_sys small_kernel) = Some (bs "20") /\ read_sys dirty (mc_sys s3) = Some (bs "5").
Proof. vm_compute. by split. Qed.
End example.
