(* ===== verification/Firewall.v ===== *)
(** The egress rules for VPN users ([src/internal/firewall/firewall.go]): the rules,
    and the commands that install and remove them. *)
From S2P Require Import Prelude GoStrings Config.

(* ------------------------------------------------------------------ *)
(** * iptables                                                           *)
(* ------------------------------------------------------------------ *)

(** What the rules look at in an outgoing packet. *)
Record packet : Type := mkPacket { pk_lo : bool; pk_proto : gostring; pk_dport : Z }.

Definition chain : gostring := bs "SSHVPN".
Definition is_port (n : Z) : Prop := 0 <= n < 65536.
#[export] Instance is_port_dec n : Decision (is_port n) := decide (0 <= n /\ n < 65536).

Abbreviation rule := (list gostring).
(** What one tool keeps: the rules of our chain, if it is there, and of OUTPUT. *)
Record table : Type := mkTable { t_chain : option (list rule); t_output : list rule }.

Fixpoint remove_first (r : rule) (l : list rule) : list rule :=
  match l with
  | [] => []
  | x :: l => if decide (x = r) then l else x :: remove_first r l
  end.
Definition jumps (r : rule) : bool := bool_decide (last r = Some chain).

(** The documented effect of the commands; [None] when the command is refused. *)
Definition table_step (args : rule) (t : table) : option table :=
  match args with
  | op :: c :: r =>
      if eqb_str c chain
      then
        match t_chain t with
        | None => if eqb_str op (bs "-N") then Some (mkTable (Some []) (t_output t)) else None
        | Some rs =>
            if eqb_str op (bs "-F") then Some (mkTable (Some []) (t_output t))
            else if eqb_str op (bs "-A") then Some (mkTable (Some (rs ++ [r])) (t_output t))
            else if eqb_str op (bs "-X") && bool_decide (rs = []) &&
                    negb (existsb jumps (t_output t))
            then Some (mkTable None (t_output t))
            else None
        end
      else if eqb_str c (bs "OUTPUT")
      then
        if eqb_str op (bs "-I") then Some (mkTable (t_chain t) (r :: t_output t))
        else if eqb_str op (bs "-C")
        then if bool_decide (r ∈ t_output t) then Some t else None
        else if eqb_str op (bs "-D")
        then if bool_decide (r ∈ t_output t)
             then Some (mkTable (t_chain t) (remove_first r (t_output t))) else None
        else None
      else None
  | _ => None
  end.

(** [iptables] and [ip6tables]. [nf_match spec p] tells whether a packet matches the
    options of a rule. A command does what is documented or fails; [-C] fails only
    when the rule is not there; [-S OUTPUT] prints the rules as they were given. *)
Class Netfilter : Type := {
  nf_match : rule -> packet -> bool;
  nf_match_target : forall t p, nf_match [bs "-j"; t] p = true;
  nf_match_out : forall r p, nf_match (bs "-o" :: bs "lo" :: r) p = pk_lo p && nf_match r p;
  nf_match_proto : forall x r p,
    nf_match (bs "-p" :: x :: r) p = eqb_str (pk_proto p) x && nf_match r p;
  nf_match_dport : forall n r p, is_port n ->
    nf_match (bs "--dport" :: itoa n :: r) p = (pk_dport p =? n) && nf_match r p;
  nf_match_multiport : forall ns r p, Forall is_port ns -> ns <> [] -> (length ns <= 15)%nat ->
    nf_match (bs "-m" :: bs "multiport" :: bs "--dports" :: join (bs ",") (itoa <$> ns) :: r) p =
    bool_decide (pk_dport p ∈ ns) && nf_match r p;
  nf : Type;
  nf_table : gostring -> nf -> table;
  nf_run : gostring -> rule -> nf -> nf * bool;
  nf_effect : forall t args s,
    if (nf_run t args s).2
    then table_step args (nf_table t s) = Some (nf_table t (nf_run t args s).1)
    else nf_table t (nf_run t args s).1 = nf_table t s;
  nf_other : forall t u args s, u <> t -> nf_table u (nf_run t args s).1 = nf_table u s;
  nf_check : forall t r s, r ∈ t_output (nf_table t s) ->
    (nf_run t (bs "-C" :: bs "OUTPUT" :: r) s).2 = true;
  nf_show : gostring -> nf -> option gostring;
  nf_show_law : forall t s out, nf_show t s = Some out ->
    exists policy, has_prefix policy (bs "-A OUTPUT ") = false /\
    split_on x0a out = policy :: ((fun r => bs "-A OUTPUT " ++ join (bs " ") r) <$> t_output (nf_table t s))
}.

(* ------------------------------------------------------------------ *)
(** * The rules                                                          *)
(* ------------------------------------------------------------------ *)

(** [tools]: what of the two is found; a tool is known by its name. *)
Definition iptables : gostring := bs "iptables".
Definition ip6tables : gostring := bs "ip6tables".
Definition found (which : list gostring -> gostring) (t : gostring) : bool := negb (eqb_str (which [t]) []).
Definition tools (which : list gostring -> gostring) : list gostring := List.filter (found which) [iptables; ip6tables].

(** [GroupID] *)
Fixpoint find_gid (name : gostring) (lines : list gostring) : option Z :=
  match lines with
  | [] => None
  | line :: lines =>
      match split_on x3a line with
      | n :: _ :: gid :: _ => if eqb_str n name then atoi gid else find_gid name lines
      | _ => find_gid name lines
      end
  end.
Definition GroupID (name : gostring) (etc_group : option gostring) : option Z :=
  match etc_group with None => None | Some data => find_gid name (split_on x0a data) end.

(** The loop in steps of 15; [fuel] is the number of ports. *)
Fixpoint multiports (fuel : nat) (allowed : list Z) : list rule :=
  match fuel, allowed with
  | S fuel, _ :: _ =>
      [bs "-o"; bs "lo"; bs "-p"; bs "tcp"; bs "-m"; bs "multiport"; bs "--dports";
       join (bs ",") (itoa <$> take 15 allowed); bs "-j"; bs "RETURN"] ::
      multiports fuel (drop 15 allowed)
  | _, _ => []
  end.

Definition allowed_ports (cfg : Config) : list Z :=
  firewall_AllowLocalPorts (Firewall cfg) ++
  (if udpgw_Enabled (UDPGW cfg) then udpgw_Ports (UDPGW cfg) else []).

Definition Rules (cfg : Config) : list rule :=
  (if firewall_BlockLocal (Firewall cfg)
   then multiports (length (allowed_ports cfg)) (allowed_ports cfg) ++
        [[bs "-o"; bs "lo"; bs "-p"; bs "udp"; bs "--dport"; bs "53"; bs "-j"; bs "RETURN"];
         [bs "-o"; bs "lo"; bs "-p"; bs "tcp"; bs "--dport"; bs "53"; bs "-j"; bs "RETURN"];
         [bs "-o"; bs "lo"; bs "-j"; bs "REJECT"]]
   else []) ++
  (if firewall_BlockSMTP (Firewall cfg)
   then [[bs "-p"; bs "tcp"; bs "--dport"; bs "25"; bs "-j"; bs "REJECT"]] else []) ++
  [[bs "-j"; bs "RETURN"]].

(* ------------------------------------------------------------------ *)
(** * The commands                                                       *)
(* ------------------------------------------------------------------ *)

Section firewall.
Context `{Netfilter}.

(** Computations over the tables; [run] is [tool.run] of one tool. *)
Definition W (A : Type) : Type := nf -> nf * A.
#[export] Instance W_ret : MRet W := fun A a s => (s, a).
#[export] Instance W_bind : MBind W := fun A B f m s => let '(s, a) := m s in f a s.
Definition run (t : gostring) (args : rule) : W bool := nf_run t args.

Variable cfg : Config.
(** The text of the error of a command. *)
Variable show_err : gostring -> rule -> gostring.

Fixpoint append_rules (t : gostring) (rs : list rule) : W (list gostring) :=
  match rs with
  | [] => mret []
  | r :: rs =>
      done ← run t (bs "-A" :: chain :: r);
      errs ← append_rules t rs;
      mret (if (done : bool) then errs
            else (t ++ bs " " ++ join (bs " ") r ++ bs ": " ++ show_err t r) :: errs)
  end.

Definition jump (gid : Z) : rule :=
  [bs "-m"; bs "owner"; bs "--gid-owner"; itoa gid; bs "-j"; chain].

(** One tool; the errors. *)
Definition apply_tool (gid : Z) (t : gostring) : W (list gostring) :=
  _ ← run t [bs "-N"; chain];
  flushed ← run t [bs "-F"; chain];
  if negb flushed then mret [t ++ bs ": " ++ show_err t [bs "-F"]]
  else
    errs ← append_rules t (Rules cfg);
    there ← run t (bs "-C" :: bs "OUTPUT" :: jump gid);
    if (there : bool) then mret errs
    else
      added ← run t (bs "-I" :: bs "OUTPUT" :: jump gid);
      mret (errs ++ if (added : bool) then [] else [t ++ bs " jump: " ++ show_err t [bs "-I"]]).

Fixpoint each_tool {A} (f : gostring -> W (list A)) (ts : list gostring) : W (list A) :=
  match ts with
  | [] => mret []
  | t :: ts => a ← f t; b ← each_tool f ts; mret (a ++ b)
  end.

(** [Remove] *)
Fixpoint delete_jumps (t : gostring) (lines : list gostring) : W () :=
  match lines with
  | [] => mret tt
  | line :: lines =>
      if has_prefix line (bs "-A OUTPUT ") && has_suffix line (bs "-j " ++ chain)
      then _ ← run t (bs "-D" :: bs "OUTPUT" :: fields (trim_prefix line (bs "-A OUTPUT ")));
           delete_jumps t lines
      else delete_jumps t lines
  end.
Definition remove_tool (t : gostring) : W (list gostring) :=
  fun s => match nf_show t s with
           | None => (s, [])
           | Some out =>
               (_ ← delete_jumps t (split_on x0a out);
                _ ← run t [bs "-F"; chain];
                _ ← run t [bs "-X"; chain];
                mret []) s
           end.

Inductive fw_err : Type := noIptables | noGroup | failed (errs : list gostring).

Definition RemoveChain (tools : list gostring) : W (option fw_err) :=
  _ ← each_tool remove_tool tools; mret None.

Definition Apply (tools : list gostring) (etc_group : option gostring) : W (option fw_err) :=
  if negb (firewall_Enabled (Firewall cfg)) then RemoveChain tools
  else match tools with
       | [] => mret (Some noIptables)
       | _ =>
           match GroupID (ud_Group (UserDefaults cfg)) etc_group with
           | None => mret (Some noGroup)
           | Some gid =>
               errs ← each_tool (apply_tool gid) tools;
               mret (match errs with [] => None | _ => Some (failed errs) end)
           end
       end.

Definition Active (iptables : bool) (t : gostring) : W bool := fun s =>
  (s, iptables && match nf_show t s with
                  | Some out => contains out (bs "-j " ++ chain)
                  | None => false
                  end).
End firewall.
