(* ===== verification/FirewallProps.v ===== *)
(** What the rules of [Firewall] let through, and that installing and removing them
    does exactly that. *)
From S2P Require Import Prelude GoStrings Config Firewall.

Lemma filter_all {A} (P : A -> Prop) `{forall x, Decision (P x)} (l : list A) :
  Forall P l -> filter P l = l.
Proof.
  induction 1 as [|x l Hx _ IH]; [done|]. rewrite filter_cons_True by done. by rewrite IH.
Qed.

Section firewall.
Context `{Netfilter}.
Variable cfg : Config.
Variable show_err : gostring -> rule -> gostring.

(* ------------------------------------------------------------------ *)
(** * The policy                                                         *)
(* ------------------------------------------------------------------ *)

(** The first rule that matches decides; [RETURN] goes back to OUTPUT. *)
Fixpoint blocked (rs : list rule) (p : packet) : bool :=
  match rs with
  | [] => false
  | r :: rs => if nf_match r p then bool_decide (last r = Some (bs "REJECT")) else blocked rs p
  end.

Lemma blocked_app rs rs' p :
  blocked (rs ++ rs') p = if existsb (fun r => nf_match r p) rs then blocked rs p else blocked rs' p.
Proof.
  induction rs as [|r rs IH]; [done|]. cbn. destruct (nf_match r p); [done|]. apply IH.
Qed.

Lemma multiports_match fuel allowed p : Forall is_port allowed -> (length allowed <= fuel)%nat ->
  existsb (fun r => nf_match r p) (multiports fuel allowed) =
  pk_lo p && eqb_str (pk_proto p) (bs "tcp") && bool_decide (pk_dport p ∈ allowed).
Proof.
  revert allowed. induction fuel as [|fuel IH]; intros allowed Hp Hl.
  - destruct allowed; [|cbn in Hl; lia]. cbn. by rewrite andb_false_r.
  - destruct allowed as [|a allowed]; [cbn; by rewrite andb_false_r|].
    cbn [multiports existsb]. set (l := a :: allowed) in *.
    rewrite IH; [|by apply Forall_drop|rewrite length_drop; subst l; cbn in *; lia].
    rewrite nf_match_out, nf_match_proto, nf_match_multiport, nf_match_target.
    + destruct (pk_lo p), (eqb_str _ _); cbn; try done. rewrite andb_true_r.
      assert (Hin : pk_dport p ∈ l <-> pk_dport p ∈ take 15 l \/ pk_dport p ∈ drop 15 l).
      { by rewrite <- elem_of_app, take_drop. }
      destruct (decide (pk_dport p ∈ take 15 l)) as [Ht|Ht].
      * by rewrite (bool_decide_true _ Ht), (bool_decide_true _ (proj2 Hin (or_introl Ht))).
      * rewrite (bool_decide_false _ Ht). cbn. apply bool_decide_ext. tauto.
    + by apply Forall_take.
    + done.
    + rewrite length_take. lia.
Qed.

Lemma multiports_return fuel allowed p : blocked (multiports fuel allowed) p = false.
Proof.
  revert allowed. induction fuel as [|fuel IH]; intros allowed; [done|].
  destruct allowed; [done|]. cbn [multiports blocked]. by case_match.
Qed.

(** What a VPN user may reach on the server itself. *)
Definition reachable_here (p : packet) : bool :=
  (eqb_str (pk_proto p) (bs "tcp") && bool_decide (pk_dport p ∈ allowed_ports cfg)) ||
  ((eqb_str (pk_proto p) (bs "tcp") || eqb_str (pk_proto p) (bs "udp")) && (pk_dport p =? 53)).

(** C32 The chain does what the package promises, for every packet and any number of
    allowed ports: with [block_local] a VPN user reaches on the server itself exactly
    the allowed TCP ports (the udpgw ports among them when it is enabled) and DNS,
    and with [block_smtp] no TCP port 25 elsewhere; everything else passes. *)
Theorem Rules_policy p :
  Forall is_port (allowed_ports cfg) ->
  blocked (Rules cfg) p =
  if firewall_BlockLocal (Firewall cfg) && pk_lo p then negb (reachable_here p)
  else firewall_BlockSMTP (Firewall cfg) && eqb_str (pk_proto p) (bs "tcp") && (pk_dport p =? 25).
Proof.
  intros Hp. unfold Rules, reachable_here.
  change (bs "53") with (itoa 53). change (bs "25") with (itoa 25).
  assert (Hsmtp : blocked ((if firewall_BlockSMTP (Firewall cfg)
       then [[bs "-p"; bs "tcp"; bs "--dport"; itoa 25; bs "-j"; bs "REJECT"]] else []) ++
       [[bs "-j"; bs "RETURN"]]) p =
     firewall_BlockSMTP (Firewall cfg) && eqb_str (pk_proto p) (bs "tcp") && (pk_dport p =? 25)).
  { destruct (firewall_BlockSMTP (Firewall cfg)); cbn [app blocked]; [|by rewrite nf_match_target].
    rewrite nf_match_proto, nf_match_dport, !nf_match_target by by split.
    destruct (eqb_str _ _), (_ =? _); done. }
  destruct (firewall_BlockLocal (Firewall cfg)); [|exact Hsmtp].
  rewrite blocked_app, blocked_app, Hsmtp, existsb_app, multiports_match by done.
  rewrite multiports_return. cbn [existsb blocked].
  rewrite !nf_match_out, !nf_match_proto, !nf_match_dport, !nf_match_target by by split.
  generalize (eqb_str (pk_proto p) (bs "tcp")), (eqb_str (pk_proto p) (bs "udp")),
    (bool_decide (pk_dport p ∈ allowed_ports cfg)). intros tcp udp ok.
  destruct (pk_lo p), tcp, udp, (pk_dport p =? 53), ok; done.
Qed.

(* ------------------------------------------------------------------ *)
(** * Installing                                                         *)
(* ------------------------------------------------------------------ *)

Abbreviation tab t s := (nf_table t s).

(** One command of the tool [t]. *)
Lemma run_step t args s :
  (forall u, u <> t -> tab u (nf_run t args s).1 = tab u s) /\
  (((nf_run t args s).2 = true /\ table_step args (tab t s) = Some (tab t (nf_run t args s).1)) \/
   ((nf_run t args s).2 = false /\ tab t (nf_run t args s).1 = tab t s)).
Proof.
  split; [intros u Hu; by apply nf_other|]. pose proof (nf_effect t args s) as He.
  destruct (nf_run t args s).2; [by left|by right].
Qed.

Lemma append_rules_done t rs s s' l :
  append_rules show_err t rs s = (s', []) -> t_chain (tab t s) = Some l ->
  t_chain (tab t s') = Some (l ++ rs) /\ t_output (tab t s') = t_output (tab t s) /\
  forall u, u <> t -> tab u s' = tab u s.
Proof.
  revert s l. induction rs as [|r rs IH]; intros s l; cbn [append_rules].
  - intros [= <-] Hl. by rewrite app_nil_r.
  - unfold mbind, W_bind, run. destruct (run_step t (bs "-A" :: chain :: r) s) as [Ho Hs].
    destruct (nf_run t (bs "-A" :: chain :: r) s) as [s1 done]. cbn [fst snd] in *.
    destruct (append_rules show_err t rs s1) as [s2 errs] eqn:E.
    destruct done; [|done]. intros [= <- ->] Hl.
    destruct Hs as [[_ Hs]|[? _]]; [|done].
    assert (Hs1 : tab t s1 = mkTable (Some (l ++ [r])) (t_output (tab t s))).
    { destruct (tab t s) as [c o]. cbn in Hl. subst c. by injection Hs. }
    destruct (IH s1 (l ++ [r]) E) as (Hc & Hout & Hoth); [by rewrite Hs1|].
    rewrite Hc, Hout, Hs1, <- app_assoc. split_and!; [done|done|].
    intros u Hu. by rewrite Hoth, Ho.
Qed.

(** What a tool has after a successful [Apply]. *)
Definition installed (gid : Z) (before after : table) : Prop :=
  t_chain after = Some (Rules cfg) /\
  t_output after = if decide (jump gid ∈ t_output before) then t_output before
                   else jump gid :: t_output before.

Lemma apply_tool_done gid t s s' :
  apply_tool cfg show_err gid t s = (s', []) ->
  installed gid (tab t s) (tab t s') /\ forall u, u <> t -> tab u s' = tab u s.
Proof.
  unfold apply_tool, mbind, W_bind, run.
  destruct (run_step t [bs "-N"; chain] s) as [Ho1 Hs1].
  destruct (nf_run t [bs "-N"; chain] s) as [s1 d1]. cbn [fst snd] in *.
  assert (Hout1 : t_output (tab t s1) = t_output (tab t s)).
  { destruct Hs1 as [[_ Hs1]|[_ ->]]; [|done]. cbn in Hs1.
    destruct (t_chain (tab t s)); [done|]. by injection Hs1 as <-. }
  destruct (run_step t [bs "-F"; chain] s1) as [Ho2 Hs2].
  destruct (nf_run t [bs "-F"; chain] s1) as [s2 d2]. cbn [fst snd] in *.
  destruct d2; cbn [negb]; [|done]. destruct Hs2 as [[_ Hs2]|[? _]]; [|done].
  assert (H2 : tab t s2 = mkTable (Some []) (t_output (tab t s))).
  { rewrite <- Hout1. cbn in Hs2. destruct (t_chain (tab t s1)); [|done]. by injection Hs2. }
  clear Hs1 Hs2. destruct (append_rules show_err t (Rules cfg) s2) as [s3 errs] eqn:E3.
  destruct (run_step t (bs "-C" :: bs "OUTPUT" :: jump gid) s3) as [Ho4 Hs4].
  pose proof (nf_check t (jump gid) s3) as Hcheck.
  destruct (nf_run t (bs "-C" :: bs "OUTPUT" :: jump gid) s3) as [s4 d4]. cbn [fst snd] in *.
  assert (Hcommon : errs = [] -> t_chain (tab t s4) = Some (Rules cfg) /\
    t_output (tab t s4) = t_output (tab t s) /\
    (d4 = true <-> jump gid ∈ t_output (tab t s)) /\
    forall u, u <> t -> tab u s4 = tab u s).
  { intros ->. destruct (append_rules_done _ _ _ _ [] E3) as (Hc & Hout & Hoth); [by rewrite H2|].
    rewrite H2 in Hout. cbn in Hout. rewrite Hout in Hcheck.
    assert (E4 : tab t s4 = tab t s3 /\ (d4 = true -> jump gid ∈ t_output (tab t s))).
    { destruct Hs4 as [[-> Hs4]|[-> Hs4]]; [|by rewrite Hs4]. cbn in Hs4. rewrite <- Hout.
      case_bool_decide; [|done]. by injection Hs4 as <-. }
    destruct E4 as [-> Hin]. split_and!; [done|done|by split|].
    intros u Hu. rewrite Ho4, Hoth, Ho2, Ho1 by done. done. }
  destruct d4.
  - intros [= <- ->]. destruct (Hcommon eq_refl) as (Hc & Hout & [Hin _] & Hoth).
    split; [|done]. split; [done|]. by rewrite decide_True by by apply Hin.
  - destruct (run_step t (bs "-I" :: bs "OUTPUT" :: jump gid) s4) as [Ho5 Hs5].
    destruct (nf_run t (bs "-I" :: bs "OUTPUT" :: jump gid) s4) as [s5 d5]. cbn [fst snd] in *.
    destruct errs as [|e errs]; [|done]. destruct d5; [|done]. intros [= <-].
    destruct (Hcommon eq_refl) as (Hc & Hout & [_ Hin] & Hoth).
    destruct Hs5 as [[_ Hs5]|[? _]]; [|done]. cbn in Hs5. injection Hs5 as Hs5. rewrite <- Hs5.
    split; [|intros u Hu; by rewrite Ho5, Hoth]. split; [done|]. cbn. rewrite Hout.
    rewrite decide_False; [done|]. intros Hj. by specialize (Hin Hj).
Qed.

Lemma each_tool_done gid ts s s' : NoDup ts ->
  each_tool (apply_tool cfg show_err gid) ts s = (s', []) ->
  (forall t, t ∈ ts -> installed gid (tab t s) (tab t s')) /\
  forall u, u ∉ ts -> tab u s' = tab u s.
Proof.
  intros Hnd. revert s. induction Hnd as [|t ts Hnin Hnd IH]; intros s; cbn [each_tool].
  - intros [= <-]. split; [by intros t ?%elem_of_nil|done].
  - unfold mbind, W_bind. destruct (apply_tool cfg show_err gid t s) as [s1 a] eqn:E1.
    destruct (each_tool _ ts s1) as [s2 b] eqn:E2. intros [= <- Hab].
    apply app_eq_nil in Hab as [-> ->]. apply apply_tool_done in E1 as [Hi Ho].
    destruct (IH s1 E2) as [IHi IHo]. split.
    + intros u [->|Hu]%elem_of_cons; [by rewrite IHo|].
      rewrite <- (Ho u) by (intros ->; done). by apply IHi.
    + intros u [Hne Hu]%not_elem_of_cons. by rewrite IHo, Ho.
Qed.

(** C33 A reported success of [Apply] is one: whatever was there before, afterwards the
    chain of every tool holds exactly the rules of the configuration, once, and OUTPUT
    is as before but for one jump to the chain for the VPN group, which is added only
    when it is missing; so applying again changes nothing. *)
Theorem Apply_installs tools etc_group s s' :
  NoDup tools -> firewall_Enabled (Firewall cfg) = true ->
  Apply cfg show_err tools etc_group s = (s', None) ->
  exists gid, GroupID (ud_Group (UserDefaults cfg)) etc_group = Some gid /\
    (forall t, t ∈ tools -> installed gid (tab t s) (tab t s')) /\
    forall s'', Apply cfg show_err tools etc_group s' = (s'', None) ->
      forall t, t ∈ tools -> tab t s'' = tab t s'.
Proof.
  intros Hnd He. unfold Apply. rewrite He. cbn [negb]. destruct tools as [|t0 ts]; [done|].
  destruct (GroupID _ _) as [gid|]; [|done]. unfold mbind, W_bind.
  destruct (each_tool _ (t0 :: ts) s) as [s1 errs] eqn:E. destruct errs; [|done]. intros [= <-].
  destruct (each_tool_done _ _ _ _ Hnd E) as [Hi _].
  exists gid. split; [done|]. split; [done|]. intros s''.
  destruct (each_tool _ (t0 :: ts) s1) as [s2 errs2] eqn:E2. destruct errs2; [|done]. intros [= <-] t Ht.
  destruct (each_tool_done _ _ _ _ Hnd E2) as [Hi2 _].
  destruct (Hi t Ht) as [Hc Ho], (Hi2 t Ht) as [Hc2 Ho2].
  assert (Hj : jump gid ∈ t_output (tab t s1)).
  { rewrite Ho. destruct (decide (jump gid ∈ t_output (tab t s))) as [Hin|Hin]; [exact Hin|by left]. }
  rewrite decide_True in Ho2 by done.
  destruct (tab t s2), (tab t s1). cbn in *. by subst.
Qed.

(* ------------------------------------------------------------------ *)
(** * Removing                                                           *)
(* ------------------------------------------------------------------ *)

(** The rules that [Remove] takes for jumps to the chain, as it sees them printed. *)
Definition line_of (r : rule) : gostring := bs "-A OUTPUT " ++ join (bs " ") r.
Definition ours (r : rule) : bool := has_suffix (line_of r) (bs "-j " ++ chain).

Lemma remove_first_filter r l : ours r = true ->
  filter (fun x => ours x = false) (remove_first r l) = filter (fun x => ours x = false) l.
Proof.
  intros Hr. induction l as [|x l IH]; [done|]. cbn [remove_first]. case_decide as E.
  - subst x. rewrite (filter_cons_False (fun x => ours x = false)); [done|congruence].
  - rewrite !filter_cons, IH. done.
Qed.

Lemma remove_first_perm r l : r ∈ l -> l ≡ₚ r :: remove_first r l.
Proof.
  induction l as [|x l IH]; [by intros ?%elem_of_nil|]. intros Hin. cbn [remove_first].
  case_decide as E; [by subst|]. apply elem_of_cons in Hin as [?|Hin]; [congruence|].
  rewrite (IH Hin) at 1. by constructor.
Qed.

(** Commands that the documentation accepts succeed. *)
Hypothesis commands_work : forall t args s,
  is_Some (table_step args (nf_table t s)) -> (nf_run t args s).2 = true.

Lemma run_works t args s tb : table_step args (tab t s) = Some tb ->
  tab t (nf_run t args s).1 = tb /\ forall u, u <> t -> tab u (nf_run t args s).1 = tab u s.
Proof.
  intros E. destruct (run_step t args s) as [Ho Hs]. split; [|done].
  destruct Hs as [[_ Hs]|[Hf _]]; [congruence|]. rewrite commands_work in Hf; [done|by rewrite E].
Qed.

Lemma line_fields r : Forall printable r -> fields (trim_prefix (line_of r) (bs "-A OUTPUT ")) = r.
Proof.
  intros Hr. unfold line_of, trim_prefix. rewrite has_prefix_app, drop_app_length.
  unfold fields. rewrite <- (app_nil_r (join (bs " ") r)). apply fields_join; [done|done|by right].
Qed.

Lemma delete_jumps_done t rs s :
  Forall (Forall printable) rs ->
  (exists rest, t_output (tab t s) ≡ₚ filter (fun r => ours r = true) rs ++ rest) ->
  let s' := (delete_jumps t (line_of <$> rs) s).1 in
  t_chain (tab t s') = t_chain (tab t s) /\
  (exists rest, t_output (tab t s) ≡ₚ filter (fun r => ours r = true) rs ++ rest /\ t_output (tab t s') ≡ₚ rest) /\
  filter (fun r => ours r = false) (t_output (tab t s')) = filter (fun r => ours r = false) (t_output (tab t s)) /\
  forall u, u <> t -> tab u s' = tab u s.
Proof.
  intros Hp. revert s. induction Hp as [|r rs Hr Hp IH]; intros s (rest & Hrest); cbv zeta.
  - cbn. split_and!; [done| |done|done]. by exists (t_output (tab t s)).
  - rewrite fmap_cons. cbn [delete_jumps].
    assert (Hpre : has_prefix (line_of r) (bs "-A OUTPUT ") = true) by apply has_prefix_app.
    rewrite Hpre. change (has_suffix (line_of r) (bs "-j " ++ chain)) with (ours r). cbn [andb].
    destruct (ours r) eqn:Eo.
    + rewrite line_fields by done. rewrite filter_cons_True in Hrest by done.
      assert (Hin : r ∈ t_output (tab t s)) by (rewrite Hrest; by left).
      unfold mbind, W_bind, run. set (args := bs "-D" :: bs "OUTPUT" :: r).
      destruct (run_works t args s (mkTable (t_chain (tab t s)) (remove_first r (t_output (tab t s)))))
        as [Ht Ho].
      { subst args. cbn. by rewrite bool_decide_true. }
      destruct (nf_run t args s) as [s1 d]. cbn [fst] in *.
      assert (Hrest1 : t_output (tab t s1) ≡ₚ filter (fun r => ours r = true) rs ++ rest).
      { rewrite Ht. cbn. pose proof (remove_first_perm r _ Hin) as Hperm.
        rewrite Hrest in Hperm at 1. by apply Permutation_cons_inv in Hperm. }
      destruct (IH s1) as (Hc & (rest' & R1 & R2) & Hf & Hoth); [by exists rest|].
      rewrite Hc, Ht. cbn [t_chain t_output]. split_and!; [done| | |].
      * exists rest'. split; [|done]. rewrite filter_cons_True by done.
        rewrite (remove_first_perm r _ Hin). cbn. constructor. rewrite Ht in R1. exact R1.
      * rewrite Hf, Ht. cbn. by apply remove_first_filter.
      * intros u Hu. by rewrite Hoth, Ho.
    + rewrite filter_cons_False in Hrest by congruence.
      destruct (IH s) as (Hc & (rest' & R1 & R2) & Hf & Hoth); [by exists rest|].
      split_and!; [done| |done|done]. exists rest'. split; [|done].
      by rewrite filter_cons_False by congruence.
Qed.

Hypothesis shows_work : forall t s, Forall (Forall printable) (t_output (tab t s)) ->
  is_Some (nf_show t s).

(** What a tool has after [Remove]. *)
Definition removed (before after : table) : Prop :=
  t_chain after = None /\ t_output after = filter (fun r => ours r = false) (t_output before).

Lemma delete_skip t l ls : has_prefix l (bs "-A OUTPUT ") = false ->
  delete_jumps t (l :: ls) = delete_jumps t ls.
Proof. intros Hl. cbn [delete_jumps]. by rewrite Hl. Qed.

Lemma delete_all_jumps t s : Forall (Forall printable) (t_output (tab t s)) ->
  let s' := (delete_jumps t (line_of <$> t_output (tab t s)) s).1 in
  tab t s' = mkTable (t_chain (tab t s)) (filter (fun r => ours r = false) (t_output (tab t s))) /\
  forall u, u <> t -> tab u s' = tab u s.
Proof.
  intros Hp. destruct (delete_jumps_done t _ s Hp) as (Hc & (rest & R1 & R2) & Hf & Ho).
  { exists (filter (fun r => ~ ours r = true) (t_output (tab t s))).
    symmetry. apply filter_app_complement. }
  split; [|done]. set (s' := (delete_jumps _ _ _).1) in *.
  assert (Hrest : rest ≡ₚ filter (fun r => ~ ours r = true) (t_output (tab t s))).
  { rewrite <- (filter_app_complement (fun r => ours r = true) (t_output (tab t s))) in R1 at 1.
    by apply Permutation_app_inv_l in R1. }
  assert (Hall : filter (fun r => ours r = false) (t_output (tab t s')) = t_output (tab t s')).
  { assert (Hn : Forall (fun r => ours r = false) (t_output (tab t s'))).
    { apply Forall_forall. intros r Hin. rewrite R2, Hrest in Hin.
      apply list_elem_of_filter in Hin as [Hn _]. by destruct (ours r). }
    by apply filter_all. }
  destruct (tab t s') as [c o] eqn:Et. cbn in *. by rewrite <- Hc, <- Hall, Hf.
Qed.

Lemma step_X o : existsb jumps o = false ->
  table_step [bs "-X"; chain] (mkTable (Some []) o) = Some (mkTable None o).
Proof. intros Ho. unfold table_step. cbn [t_chain t_output]. by rewrite Ho. Qed.

Lemma remove_tool_done t s : Forall (Forall printable) (t_output (tab t s)) ->
  Forall (fun r => jumps r = ours r) (t_output (tab t s)) ->
  removed (tab t s) (tab t (remove_tool t s).1) /\ forall u, u <> t -> tab u (remove_tool t s).1 = tab u s.
Proof.
  intros Hp Hj. unfold remove_tool. destruct (shows_work t s Hp) as [out Hout]. rewrite Hout.
  destruct (nf_show_law _ _ _ Hout) as (policy & Hpol & ->). rewrite delete_skip by done.
  destruct (delete_all_jumps t s Hp) as [Hd Hdo]. unfold line_of in Hd, Hdo.
  unfold mbind, W_bind, run. destruct (delete_jumps _ _ s) as [s1 []]. cbn [fst] in Hd, Hdo.
  destruct (run_step t [bs "-F"; chain] s1) as [Ho2 Hs2].
  pose proof (commands_work t [bs "-F"; chain] s1) as Hw2.
  destruct (nf_run t [bs "-F"; chain] s1) as [s2 d2]. cbn [fst snd] in *.
  assert (H2 : tab t s2 = mkTable (match t_chain (tab t s) with Some _ => Some [] | None => None end)
                            (filter (fun r => ours r = false) (t_output (tab t s)))).
  { destruct Hs2 as [[_ Hs2]|[-> Hs2]]; rewrite Hd in *; cbn in *; destruct (t_chain (tab t s)).
    - by injection Hs2 as <-.
    - done.
    - discriminate Hw2. by eexists.
    - done. }
  destruct (run_step t [bs "-X"; chain] s2) as [Ho3 Hs3].
  pose proof (commands_work t [bs "-X"; chain] s2) as Hw3.
  destruct (nf_run t [bs "-X"; chain] s2) as [s3 d3]. cbn [fst snd] in *.
  assert (Hnoj : existsb jumps (filter (fun r => ours r = false) (t_output (tab t s))) = false).
  { apply not_true_iff_false. intros (r & Hr & Hjr)%existsb_exists.
    apply list_elem_of_In, list_elem_of_filter in Hr as [Ho Hr].
    rewrite Forall_forall in Hj. rewrite (Hj r Hr) in Hjr. congruence. }
  split; [|intros u Hu; cbn; by rewrite Ho3, Ho2, Hdo]. cbn.
  rewrite H2 in Hs3, Hw3. destruct (t_chain (tab t s)) as [rs|].
  - rewrite (step_X _ Hnoj) in Hs3, Hw3. destruct Hs3 as [[_ Hs3]|[-> _]]; [by injection Hs3 as <-|].
    discriminate Hw3. by eexists.
  - destruct Hs3 as [[_ Hs3]|[_ ->]]; [discriminate Hs3|done].
Qed.

Lemma RemoveChain_done tools s : NoDup tools ->
  (forall t, t ∈ tools -> Forall (Forall printable) (t_output (tab t s))) ->
  (forall t, t ∈ tools -> Forall (fun r => jumps r = ours r) (t_output (tab t s))) ->
  (forall t, t ∈ tools -> removed (tab t s) (tab t (RemoveChain tools s).1)) /\
  (forall t, t ∉ tools -> tab t (RemoveChain tools s).1 = tab t s).
Proof.
  intros Hnd. unfold RemoveChain, mbind, W_bind.
  revert s. induction Hnd as [|t ts Hnin Hnd IH]; intros s Hp Hj; cbn [each_tool].
  - split; [by intros t ?%elem_of_nil|done].
  - unfold mbind, W_bind.
    destruct (remove_tool_done t s) as [Hr Ho]; [by apply Hp; left|by apply Hj; left|].
    destruct (remove_tool t s) as [s1 a]. cbn [fst] in *.
    assert (Hsame : forall u, u ∈ ts -> tab u s1 = tab u s) by (intros u Hu; apply Ho; by intros ->).
    destruct (IH s1) as [IHr IHo].
    { intros u Hu. rewrite Hsame by done. apply Hp. by right. }
    { intros u Hu. rewrite Hsame by done. apply Hj. by right. }
    destruct (each_tool _ ts s1) as [s2 b]. cbn in *. split.
    + intros u [->|Hu]%elem_of_cons; [by rewrite IHo|]. rewrite <- (Hsame u) by done. by apply IHr.
    + intros u [Hne Hu]%not_elem_of_cons. by rewrite IHo, Ho.
Qed.

(** [Remove] leaves nothing behind and takes nothing else: on tools whose commands
    work, afterwards the chain is gone and OUTPUT is what it was without the jumps to
    the chain, in the same order; this holds however many jumps there were and whether
    the chain was there or not. *)
Theorem Remove_clean tools s : NoDup tools ->
  (forall t, t ∈ tools -> Forall (Forall printable) (t_output (tab t s))) ->
  (forall t, t ∈ tools -> Forall (fun r => jumps r = ours r) (t_output (tab t s))) ->
  (forall t, t ∈ tools -> removed (tab t s) (tab t (RemoveChain tools s).1)) /\
  (forall t, t ∉ tools -> tab t (RemoveChain tools s).1 = tab t s).
Proof. apply RemoveChain_done. Qed.
End firewall.

(* ------------------------------------------------------------------ *)
(** * A concrete iptables                                                *)
(* ------------------------------------------------------------------ *)

(** A tool that understands the options in use and never fails without a reason. *)
Fixpoint toy_match (r : rule) (p : packet) {struct r} : bool :=
  match r with
  | o :: x :: rest =>
      if eqb_str o (bs "-j") then true
      else if eqb_str o (bs "-o") then pk_lo p && toy_match rest p
      else if eqb_str o (bs "-p") then eqb_str (pk_proto p) x && toy_match rest p
      else if eqb_str o (bs "--dport") || eqb_str o (bs "--dports")
      then bool_decide (pk_dport p ∈ omap atoi (split_on x2c x)) && toy_match rest p
      else toy_match rest p
  | _ => true
  end.

Lemma omap_atoi ns : Forall is_port ns -> omap atoi (itoa <$> ns) = ns.
Proof.
  induction 1 as [|n ns Hn _ IH]; [done|]. rewrite fmap_cons. cbn [omap list_omap].
  rewrite atoi_itoa by (unfold is_port in Hn; lia). by f_equal.
Qed.

Lemma itoa_no_comma n : x2c ∉ itoa n.
Proof.
  intros Hin. pose proof (itoa_bytes n) as H. rewrite Forall_forall in H.
  by destruct (H _ Hin) as [[d Hd]|?].
Qed.

Lemma split_ports ns : ns <> [] -> Forall is_port ns ->
  omap atoi (split_on x2c (join (bs ",") (itoa <$> ns))) = ns.
Proof.
  intros Hne Hns. change (bs ",") with [x2c]. rewrite split_join; [by apply omap_atoi|by destruct ns|].
  apply Forall_fmap, Forall_forall. intros n _. apply itoa_no_comma.
Qed.

Abbreviation toy_tables := (gmap gostring table).
Definition toy_table (t : gostring) (s : toy_tables) : table := default (mkTable None []) (s !! t).
Definition toy_run (t : gostring) (args : rule) (s : toy_tables) : toy_tables * bool :=
  match table_step args (toy_table t s) with
  | Some tb => (<[t := tb]> s, true)
  | None => (s, false)
  end.
Definition toy_line (r : rule) : gostring := bs "-A OUTPUT " ++ join (bs " ") r.
Definition toy_show (t : gostring) (s : toy_tables) : option gostring :=
  let ls := bs "-P OUTPUT ACCEPT" :: (toy_line <$> t_output (toy_table t s)) in
  if bool_decide (Forall (fun l => x0a ∉ l) ls) then Some (join [x0a] ls) else None.

Lemma toy_table_insert t u tb s :
  toy_table u (<[t := tb]> s) = if decide (u = t) then tb else toy_table u s.
Proof.
  unfold toy_table. destruct (decide (u = t)) as [->|Hu];
    [by rewrite lookup_insert_eq|by rewrite lookup_insert_ne].
Qed.

Lemma line_one_line r : Forall printable r -> x0a ∉ toy_line r.
Proof.
  intros Hr. unfold toy_line. rewrite elem_of_app. intros [H|H]; [not_elem H|].
  induction Hr as [|w ws [_ Hw] Hws IH]; [by apply elem_of_nil in H|].
  assert (Hn : x0a ∉ w).
  { intros Hin. rewrite Forall_forall in Hw. specialize (Hw _ Hin). vm_compute in Hw. tauto. }
  destruct ws; [done|]. change (join (bs " ") (w :: g :: ws)) with (w ++ x20 :: join (bs " ") (g :: ws)) in H.
  apply elem_of_app in H as [H|[H|H]%elem_of_cons]; [done|done|by apply IH].
Qed.

Definition toy_netfilter : Netfilter.
Proof.
  refine {| nf_match := toy_match; nf := toy_tables; nf_table := toy_table; nf_run := toy_run;
            nf_show := toy_show |}.
  - done.
  - done.
  - done.
  - intros n r p Hn. change (toy_match (bs "--dport" :: itoa n :: r) p) with
      (bool_decide (pk_dport p ∈ omap atoi (split_on x2c (itoa n))) && toy_match r p).
    rewrite split_on_no_sep by apply itoa_no_comma. cbn [omap list_omap].
    rewrite atoi_itoa by (unfold is_port in Hn; lia). f_equal.
    destruct (Z.eqb_spec (pk_dport p) n); case_bool_decide as Hx; try done; exfalso; set_solver.
  - intros ns r p Hns Hne _. change (toy_match (bs "-m" :: bs "multiport" :: bs "--dports" ::
      join (bs ",") (itoa <$> ns) :: r) p) with
      (bool_decide (pk_dport p ∈ omap atoi (split_on x2c (join (bs ",") (itoa <$> ns)))) && toy_match r p).
    by rewrite split_ports.
  - intros t args s. unfold toy_run. destruct (table_step args (toy_table t s)); cbn; [|done].
    by rewrite toy_table_insert, decide_True.
  - intros t u args s Hu. unfold toy_run. destruct (table_step args (toy_table t s)); cbn; [|done].
    by rewrite toy_table_insert, decide_False.
  - intros t r s Hr. unfold toy_run. change (table_step (bs "-C" :: bs "OUTPUT" :: r) (toy_table t s)) with
      (if bool_decide (r ∈ t_output (toy_table t s)) then Some (toy_table t s) else None).
    by rewrite bool_decide_true.
  - intros t s out. unfold toy_show. cbv zeta.
    set (ls := bs "-P OUTPUT ACCEPT" :: (toy_line <$> t_output (toy_table t s))).
    destruct (bool_decide (Forall _ ls)) eqn:El; [|done]. apply bool_decide_eq_true in El.
    intros E. assert (out = join [x0a] ls) as -> by congruence.
    exists (bs "-P OUTPUT ACCEPT"). split; [done|]. by rewrite split_join.
Defined.
#[local] Existing Instance toy_netfilter.

Definition ipt : gostring := bs "iptables".
Definition group_file : gostring := bs "root:x:0:" ++ [x0a] ++ bs "sshvpn:x:1001:".
Definition other_rule : rule := [bs "-p"; bs "udp"; bs "-j"; bs "DROP"].
Definition old_tables : nf := ({[ipt := mkTable None [other_rule]]} : toy_tables).
Definition quiet (_ : gostring) (_ : rule) : gostring := [].

Lemma Rules_policy_witness :
  blocked (Rules Defaults) (mkPacket true (bs "tcp") 3306) = true /\
  blocked (Rules Defaults) (mkPacket true (bs "tcp") 7300) = false.
Proof.
  assert (Hp : Forall is_port (allowed_ports Defaults)).
  { repeat constructor; unfold is_port; cbn; lia. }
  split; rewrite (Rules_policy Defaults _ Hp); vm_compute; reflexivity.
Defined.

Lemma Apply_installs_witness :
  let s' := (Apply Defaults quiet [ipt] (Some group_file) old_tables).1 in
  t_chain (nf_table ipt s') = Some (Rules Defaults) /\
  t_output (nf_table ipt s') = [jump 1001; other_rule].
Proof.
  destruct (Apply Defaults quiet [ipt] (Some group_file) old_tables) as [s' r] eqn:E. cbv zeta. cbn [fst].
  assert (r = None) as -> by (apply (f_equal snd) in E; vm_compute in E; exact (eq_sym E)).
  destruct (Apply_installs Defaults quiet [ipt] (Some group_file) old_tables s'
    (NoDup_singleton ipt) eq_refl E) as (gid & Hg & Hi & _).
  assert (gid = 1001) as -> by (vm_compute in Hg; by injection Hg).
  destruct (Hi ipt ltac:(by left)) as [Hc Ho]. split; [exact Hc|].
  etransitivity; [exact Ho|vm_compute; reflexivity].
Defined.

Definition used_tables : nf :=
  ({[ipt := mkTable (Some [[bs "-j"; bs "RETURN"]]) [jump 1001; other_rule; jump 7]]} : toy_tables).

Lemma toy_commands_work t args (s : @nf toy_netfilter) :
  is_Some (table_step args (nf_table t s)) -> (nf_run t args s).2 = true.
Proof. intros [tb E]. cbn in *. unfold toy_run. by rewrite E. Qed.
Lemma toy_shows_work t (s : @nf toy_netfilter) :
  Forall (Forall printable) (t_output (nf_table t s)) -> is_Some (nf_show t s).
Proof.
  intros Hp. cbn. unfold toy_show. cbv zeta. rewrite bool_decide_true; [by eexists|].
  constructor; [intros H; not_elem H|]. apply Forall_fmap. eapply Forall_impl; [exact Hp|].
  intros r Hr. apply line_one_line, Hr.
Qed.

Lemma Remove_clean_witness :
  nf_table ipt (RemoveChain [ipt] used_tables).1 = mkTable None [other_rule].
Proof.
  assert (Hp : Forall (Forall printable) [jump 1001; other_rule; jump 7]).
  { repeat constructor; (discriminate || vm_compute; intuition discriminate). }
  assert (Hj : Forall (fun r => jumps r = ours r) [jump 1001; other_rule; jump 7]).
  { repeat constructor; vm_compute; reflexivity. }
  assert (Ht : t_output (nf_table ipt used_tables) = [jump 1001; other_rule; jump 7])
    by (vm_compute; reflexivity).
  destruct (Remove_clean toy_commands_work toy_shows_work [ipt] used_tables (NoDup_singleton ipt)) as [Hr _].
  { intros t ->%list_elem_of_singleton. by rewrite Ht. }
  { intros t ->%list_elem_of_singleton. by rewrite Ht. }
  destruct (Hr ipt ltac:(by left)) as [Hc Ho].
  transitivity (mkTable (t_chain (nf_table ipt (RemoveChain [ipt] used_tables).1))
                  (t_output (nf_table ipt (RemoveChain [ipt] used_tables).1))).
  - by destruct (nf_table ipt _).
  - rewrite Hc, Ho. vm_compute. reflexivity.
Defined.
