(* ===== verification/Host.v ===== *)
(** The machine the components share, and systemd on it ([src/internal/sysx/sysx.go]
    and [src/internal/system/service.go]): one state that joins the account database
    with the commands run, the disk, the kernel's settings and the packet filter. *)
From S2P Require Import Prelude GoStrings Files Config Security Store Users Netopt Firewall.

Section host.
Context `{Sys : System, Dsk : Disk, Nft : Netfilter}.

Record host : Type := mkHost {
  h_mgr : mgr;
  h_fs : fsys;
  h_sys : gmap gostring gostring;
  h_nf : nf
}.

Definition H (A : Type) : Type := host -> host * A.
#[export] Instance H_ret : MRet H := fun A a s => (s, a).
#[export] Instance H_bind : MBind H := fun A B f m s => let '(s, a) := m s in f a s.

(** What a component does to its part of the machine. *)
Definition users_op {A} (c : M A) : H (result merr A) := fun s =>
  let '(x, r) := c (h_mgr s) in (mkHost x (h_fs s) (h_sys s) (h_nf s), r).
Definition disk_op {A} (c : F A) : H A := fun s =>
  let '(x, r) := c (h_fs s) in (mkHost (h_mgr s) x (h_sys s) (h_nf s), r).
Definition net_op {A} (c : N A) : H A := fun s =>
  let '(x, r) := c (mkMachine (h_fs s) (h_sys s)) in
  (mkHost (h_mgr s) (mc_fs x) (mc_sys x) (h_nf s), r).
Definition fw_op {A} (c : W A) : H A := fun s =>
  let '(x, r) := c (h_nf s) in (mkHost (h_mgr s) (h_fs s) (h_sys s) x, r).
Definition sees {A} (f : world -> A) : H A := fun s => (s, f (m_world (h_mgr s))).

Definition is_root : H bool := r ← users_op RequireRoot; mret (is_ok r).

(* ------------------------------------------------------------------ *)
(** * systemd                                                            *)
(* ------------------------------------------------------------------ *)

Definition HasSystemd : H bool := disk_op (FileExists (bs "/run/systemd/system")).
Definition Systemctl (args : list gostring) : H bool :=
  r ← users_op (Run (bs "systemctl" :: args)); mret (is_ok r).
Definition output_of (r : result merr gostring) : gostring :=
  match r with Ok out => out | Err _ => [] end.

Definition UnitActive (unit : gostring) : H bool :=
  out ← users_op (Output [bs "systemctl"; bs "is-active"; unit]);
  mret (eqb_str (trim_space (output_of out)) (bs "active")).
Definition UnitEnabled (unit : gostring) : H bool :=
  out ← users_op (Output [bs "systemctl"; bs "is-enabled"; unit]);
  let s := trim_space (output_of out) in
  mret (eqb_str s (bs "enabled") || eqb_str s (bs "enabled-runtime") || eqb_str s (bs "alias")).
Definition UnitExists (unit : gostring) : H bool :=
  r ← users_op (Run [bs "systemctl"; bs "list-unit-files"; bs "--no-legend"; bs "--no-pager"; unit]);
  mret (match r with Ok out => contains out unit | Err _ => false end).

(** ** [src/internal/system/service.go] *)

Record ServiceStatus : Type := mkService {
  svc_Name : gostring;
  svc_Active : bool;
  svc_Enabled : bool;
  svc_Status : gostring
}.

Definition GetServiceStatus (name : gostring) : H ServiceStatus :=
  a ← users_op (Run [bs "systemctl"; bs "is-active"; name]);
  e ← users_op (Run [bs "systemctl"; bs "is-enabled"; name]);
  let status := match a with Ok out => trim_space out | Err _ => bs "inactive" end in
  mret (mkService name (match a with Ok _ => eqb_str status (bs "active") | Err _ => false end)
          (match e with Ok out => eqb_str (trim_space out) (bs "enabled") | Err _ => false end) status).

Definition RestartService (name : gostring) : H bool := Systemctl [bs "restart"; name].
Definition StopService (name : gostring) : H bool := Systemctl [bs "stop"; name].
Definition StartService (name : gostring) : H bool := Systemctl [bs "start"; name].

Fixpoint managed_services (names : list gostring) : H (list ServiceStatus) :=
  match names with
  | [] => mret []
  | name :: names =>
      s ← GetServiceStatus name;
      rest ← managed_services names;
      mret (if eqb_str (svc_Status s) [] then rest else s :: rest)
  end.
Definition GetManagedServices : H (list ServiceStatus) :=
  managed_services [bs "ssh"; bs "sshd"; bs "sshfortress"].

(* ------------------------------------------------------------------ *)
(** * Properties                                                         *)
(* ------------------------------------------------------------------ *)

(** Asking systemd and running its commands leaves the files, the kernel's settings, the
    packet filter and the database as they are. *)
Definition quiet {A} (c : H A) : Prop := forall s,
  f_files (h_fs (c s).1) = f_files (h_fs s) /\ h_sys (c s).1 = h_sys s /\ h_nf (c s).1 = h_nf s /\
  m_db (h_mgr (c s).1) = m_db (h_mgr s).

Lemma quiet_ret {A} (a : A) : quiet (mret a).
Proof. done. Qed.
Lemma quiet_bind {A B} (c : H A) (k : A -> H B) : quiet c -> (forall a, quiet (k a)) -> quiet (c ≫= k).
Proof.
  intros Hc Hk s. unfold mbind, H_bind. specialize (Hc s). destruct (c s) as [s1 a].
  destruct (Hk a s1) as (E1 & E2 & E3 & E4). destruct Hc as (F1 & F2 & F3 & F4). cbn in *.
  rewrite E1, E2, E3, E4. done.
Qed.
Lemma quiet_users {A} (c : M A) : (forall s, m_db (c s).1 = m_db s) -> quiet (users_op c).
Proof.
  intros Hc s. unfold users_op. specialize (Hc (h_mgr s)). by destruct (c (h_mgr s)) as [x r].
Qed.
Lemma quiet_HasSystemd : quiet HasSystemd.
Proof. done. Qed.
Lemma Run_db stdin argv s : m_db (RunInput stdin argv s).1 = m_db s.
Proof. unfold RunInput. by destruct (exec _ _ _) as [w [out ok]]. Qed.
Lemma Output_db argv s : m_db (Output argv s).1 = m_db s.
Proof. unfold Output. by destruct (exec _ _ _) as [w [out ok]]. Qed.

Lemma quiet_Systemctl args : quiet (Systemctl args).
Proof. apply quiet_bind; [apply quiet_users, Run_db|intros; apply quiet_ret]. Qed.
Lemma quiet_UnitActive unit : quiet (UnitActive unit).
Proof. apply quiet_bind; [apply quiet_users, Output_db|intros; apply quiet_ret]. Qed.
Lemma quiet_UnitExists unit : quiet (UnitExists unit).
Proof. apply quiet_bind; [apply quiet_users, Run_db|intros; apply quiet_ret]. Qed.
Lemma quiet_is_root : quiet is_root.
Proof.
  apply quiet_bind; [apply quiet_users|intros; apply quiet_ret].
  intros s. unfold RequireRoot, mbind, M_bind, asks, guard. cbn. by destruct (euid _ =? 0).
Qed.

Lemma RequireRoot_is s : RequireRoot s = (s, if euid (m_world s) =? 0 then Ok tt else Err ErrNotRoot).
Proof. unfold RequireRoot, mbind, M_bind, asks, guard. by destruct (euid _ =? 0). Qed.
Lemma is_root_is s : is_root s = (s, euid (m_world (h_mgr s)) =? 0).
Proof.
  unfold is_root, users_op, mbind, H_bind. rewrite RequireRoot_is. destruct s as [m fs sy nf]. cbn [h_mgr h_fs h_sys h_nf].
  by destruct (euid _ =? 0).
Qed.

(** [GetManagedServices] says it includes only services that exist; a unit that does
    not exist has the status "inactive", so it is included: all three always are,
    unless a successful [is-active] prints nothing. *)
Lemma GetManagedServices_all s :
  (forall name w, (exec [] [bs "systemctl"; bs "is-active"; name] w).2.2 = true ->
     trim_space (exec [] [bs "systemctl"; bs "is-active"; name] w).2.1 <> []) ->
  svc_Name <$> (GetManagedServices s).2 = [bs "ssh"; bs "sshd"; bs "sshfortress"].
Proof.
  intros Hp. assert (Hone : forall name s, svc_Name (GetServiceStatus name s).2 = name /\
      svc_Status (GetServiceStatus name s).2 <> []).
  { intros name t. unfold GetServiceStatus, mbind, H_bind, users_op, Run, RunInput.
    specialize (Hp name (m_world (h_mgr t))).
    destruct (exec [] [_; bs "is-active"; name] (m_world (h_mgr t))) as [w [out ok]].
    cbn [h_mgr m_world m_db m_ran]. destruct (exec [] _ w) as [w2 [out2 ok2]]. cbn in *.
    destruct ok; [split; [done|by apply Hp]|done]. }
  unfold GetManagedServices. generalize [bs "ssh"; bs "sshd"; bs "sshfortress"]. intros names.
  revert s. induction names as [|name names IH]; intros s; [done|].
  cbn [managed_services]. unfold mbind, H_bind.
  destruct (Hone name s) as [Hn Hs]. destruct (GetServiceStatus name s) as [s1 st]. cbn in Hn, Hs.
  specialize (IH s1). destruct (managed_services names s1) as [s2 rest]. cbn in IH |- *.
  apply eqb_str_false in Hs as ->. cbn. by rewrite Hn, IH.
Qed.
End host.
