(* ===== verification/Badvpn.v ===== *)
(** The external UDP gateway under systemd ([src/internal/badvpn/badvpn.go]). *)
From S2P Require Import Prelude GoStrings Files Config Security Store Procfs Users Netopt Firewall Host.

Definition Unit_ : gostring := bs "badvpn-udpgw".
Definition unitPath : gostring := bs "/etc/systemd/system/" ++ Unit_ ++ bs ".service".

Record Status : Type := mkStatus {
  st_Installed : bool;
  st_Running : bool;
  st_Enabled : bool;
  st_PID : Z;
  st_Binary : gostring
}.

Section unit.
Variable cfg : Config.

(** badvpn listens on 16 addresses at most. *)
Definition unit_ports : list Z := take 16 (udpgw_Ports (UDPGW cfg)).
Definition unit_args : list gostring :=
  [badvpn_BinaryPath (BadVPN cfg); bs "--logger"; bs "syslog"; bs "--loglevel"; bs "warning"] ++
  mjoin ((fun p => [bs "--listen-addr"; udpgw_Listen (UDPGW cfg) ++ bs ":" ++ itoa p]) <$> unit_ports) ++
  [bs "--max-clients"; itoa (udpgw_MaxClients (UDPGW cfg));
   bs "--max-connections-for-client"; itoa (udpgw_MaxConnectionsPerClient (UDPGW cfg))].
Definition UnitFile : gostring :=
  join [x0a]
    [bs "[Unit]";
     bs "Description=BadVPN UDP Gateway for SSH-VPN (voice/video calls, games, DNS)";
     bs "After=network.target";
     [];
     bs "[Service]";
     bs "Type=simple";
     bs "ExecStart=" ++ join (bs " ") unit_args;
     bs "Restart=always";
     bs "RestartSec=2";
     bs "DynamicUser=yes";
     bs "NoNewPrivileges=yes";
     bs "LimitNOFILE=1048576";
     [];
     bs "[Install]";
     bs "WantedBy=multi-user.target";
     []].
End unit.

Inductive unit_err : Type := bvNotRoot | bvMissing | bvWrite | bvEnable | bvRestart.

Section badvpn.
Context `{Sys : System, Dsk : Disk, Nft : Netfilter}.
Variable cfg : Config.

Definition GetStatus : H Status :=
  let bin := badvpn_BinaryPath (BadVPN cfg) in
  installed ← disk_op (FileExists bin);
  systemd ← HasSystemd;
  if negb systemd then mret (mkStatus installed false false 0 bin)
  else
    running ← UnitActive Unit_;
    enabled ← UnitEnabled Unit_;
    pid ← (if (running : bool)
           then out ← users_op (Output [bs "systemctl"; bs "show"; Unit_; bs "--property=MainPID"; bs "--value"]);
                mret (atoi_or0 (trim_space (output_of out)))
           else mret 0);
    mret (mkStatus installed running enabled pid bin).

Definition Apply : H (option unit_err) :=
  root ← is_root;
  if negb root then mret (Some bvNotRoot)
  else
    installed ← disk_op (FileExists (badvpn_BinaryPath (BadVPN cfg)));
    if negb installed then mret (Some bvMissing)
    else
      w ← disk_op (WriteIfChanged unitPath (UnitFile cfg));
      if negb w.2 then mret (Some bvWrite)
      else
        _ ← Systemctl [bs "daemon-reload"];
        enabled ← Systemctl [bs "enable"; Unit_];
        if negb enabled then mret (Some bvEnable)
        else
          active ← (if (w.1 : bool) then mret true else UnitActive Unit_);
          if w.1 || negb active
          then started ← Systemctl [bs "restart"; Unit_];
               mret (if (started : bool) then None else Some bvRestart)
          else mret None.

Definition Disable : H () :=
  systemd ← HasSystemd;
  if negb systemd then mret tt
  else
    known ← UnitExists (Unit_ ++ bs ".service");
    if negb known then mret tt
    else _ ← Systemctl [bs "disable"; bs "--now"; Unit_]; mret tt.

Definition RemoveUnit : H () :=
  _ ← Disable;
  _ ← disk_op (Remove unitPath);
  _ ← Systemctl [bs "daemon-reload"];
  mret tt.
End badvpn.
