(* ===== verification/Setup.v ===== *)
(** Provisioning and removal ([src/internal/setup/setup.go]): the composition of the
    settings of sshd, the kernel, the packet filter, the UDP gateway and systemd. *)
From S2P Require Import Prelude GoStrings Files Config ConfigFile Security Store Procfs Session Users.
From S2P Require Import Netopt Firewall Sshd Host Badvpn.

Definition UnitPath : gostring := bs "/etc/systemd/system/sshfortress.service".

(** What went wrong in a step; its text is what the report shows. *)
Inductive step_err : Type :=
| stepRoot
| stepDirs
| stepUsers (e : merr)
| stepSshd (e : apply_err)
| stepNetopt
| stepFirewall (e : fw_err)
| stepBadvpn (e : unit_err)
| stepWriteUnit
| stepSystemctl (args : list gostring)
| noSystemdFound.

Record Step : Type := mkStep { s_Name : gostring; s_OK : bool; s_Detail : gostring }.

Definition DaemonUnit (bin cfgPath : gostring) : gostring :=
  join [x0a]
    [bs "[Unit]";
     bs "Description=SSH-VPN daemon (limits, quotas, UDP gateway, WebSocket/TLS gateway)";
     bs "Documentation=https://github.com/SandBaad/SSH-VPN";
     bs "After=network-online.target ssh.service sshd.service";
     bs "Wants=network-online.target";
     [];
     bs "[Service]";
     bs "Type=simple";
     bs "ExecStart=" ++ bin ++ bs " daemon --config " ++ cfgPath;
     bs "Restart=always";
     bs "RestartSec=3";
     bs "# Sessions opened through the gateway are child sshd processes: keep them";
     bs "# alive when the daemon restarts or is upgraded.";
     bs "KillMode=process";
     bs "LimitNOFILE=1048576";
     bs "TasksMax=infinity";
     [];
     bs "[Install]";
     bs "WantedBy=multi-user.target";
     []].

Section setup.
Context `{Sys : System, Cal : Calendar, Uni : Unicode, CU : !Codec UserRecord, Blt : Bolt}.
Context `{Dsk : Disk, Nft : Netfilter, Knl : Kernel, CS : !Codec (gmap gostring gostring)}.
Variable cfg : Config.
(** The texts of errors, the order of a Go map, and what [Which] and the probes of
    sshd find: its binary and version, [sshd -t] on the files, its systemd units. *)
Variable err_text : step_err -> gostring.
Variable nf_err : gostring -> rule -> gostring.
Variable net_err : gostring -> gostring.
Variable walk : gmap gostring gostring -> list (gostring * gostring).
Variable have_sshd : bool.
Variable version : Version.
Variable sshd_test : gmap gostring gostring -> bool * gostring.
Variable services : Sshd.services.
Variable banner_err : gostring.
Variable tools : list gostring.
Variables executable : gostring.
Variable installed_bin : option gostring.

(** The closure [add]. *)
Definition step (name : gostring) (e : option step_err) (detail : gostring) : Step :=
  match e with
  | None => mkStep name true detail
  | Some e => mkStep name false (err_text e)
  end.

Definition dirs_step : H (list Step) :=
  made ← disk_op (EnsureDirs cfg);
  mret [step (bs "directories") (if (made : bool) then None else Some stepDirs) (DataDir cfg)].

Definition group_step : H (list Step) :=
  let um := NewManager cfg in
  g ← users_op (EnsureGroup um);
  match g with
  | Err e => mret [step (bs "VPN group") (Some (stepUsers e)) []]
  | Ok _ =>
      n ← users_op (MigrateGroups um);
      mret [step (bs "VPN group") (match n with Ok _ => None | Err e => Some (stepUsers e) end)
              (bs "group " ++ ud_Group (UserDefaults cfg) ++ bs " (" ++
               itoa (match n with Ok n => n | Err _ => 0 end) ++ bs " users moved from v1)")]
  end.

Definition sshd_step : H (list Step) :=
  systemd ← HasSystemd;
  root ← is_root;
  r ← disk_op (Sshd.Apply cfg root have_sshd (negb systemd) version sshd_test services banner_err);
  match r with
  | (Some res, None) =>
      let d := r_SSHVersion res ++ bs " via " ++ r_File res in
      let d := if r_SocketFix res then d ++ bs "; switched ssh.socket → ssh.service" else d in
      let d := match Sshd.r_Warnings res with [] => d | ws => d ++ bs "; " ++ join (bs "; ") ws end in
      mret [step (bs "sshd tuning") None d]
  | (_, Some e) => mret [step (bs "sshd tuning") (Some (stepSshd e)) []]
  | (None, None) => mret []
  end.

Definition network_step : H (list Step) :=
  if negb (network_AutoOptimize (Network cfg)) then mret []
  else
    root ← is_root;
    r ← net_op (Netopt.Apply cfg net_err root);
    match r with
    | None => mret [step (bs "network optimization") (Some stepNetopt) []]
    | Some r =>
        bbr ← net_op (sys BBRActive);
        let d := itoa (r_Applied r) ++ bs "/" ++ itoa (r_Total r) ++ bs " kernel settings" in
        let d := if (bbr : bool) then d ++ bs ", BBR on" else d in
        let d := match Netopt.r_Warnings r with [] => d | ws => d ++ bs "; " ++ join (bs "; ") ws end in
        mret [step (bs "network optimization") None d]
    end.

Definition firewall_step : H (list Step) :=
  if firewall_Enabled (Config.Firewall cfg)
  then
    etc_group ← sees (read_file (bs "/etc/group"));
    e ← fw_op (Firewall.Apply cfg nf_err tools etc_group);
    mret [step (bs "firewall") (stepFirewall <$> (e : option fw_err)) (bs "egress rules for VPN users")]
  else _ ← fw_op (RemoveChain tools); mret [].

Definition udpgw_step : H (list Step) :=
  if udpgw_Enabled (UDPGW cfg) && eqb_str (udpgw_Mode (UDPGW cfg)) (bs "badvpn")
  then e ← Badvpn.Apply cfg;
       mret [step (bs "badvpn-udpgw") (stepBadvpn <$> (e : option unit_err)) (bs "external binary")]
  else _ ← Disable; mret [].

(** The calls of systemctl, up to the first that fails. *)
Fixpoint systemctl_all (calls : list (list gostring)) : H (option step_err) :=
  match calls with
  | [] => mret None
  | args :: calls =>
      ok ← Systemctl args;
      if (ok : bool) then systemctl_all calls else mret (Some (stepSystemctl args))
  end.

Definition daemon_step : H (list Step) :=
  systemd ← HasSystemd;
  if negb systemd
  then mret [step (bs "daemon") (Some noSystemdFound) (bs "run `sshfortress daemon` under your init system")]
  else
    w ← disk_op (WriteIfChanged UnitPath (DaemonUnit (default executable installed_bin) (Path cfg)));
    e ← (if negb w.2 then mret (Some stepWriteUnit)
         else
           _ ← Systemctl [bs "daemon-reload"];
           systemctl_all [[bs "enable"; bs "sshfortress"]; [bs "restart"; bs "sshfortress"]]);
    mret [step (bs "daemon") e (bs "sshfortress.service (restarted; sessions kept)")].

Fixpoint run_steps (l : list (H (list Step))) : H (list Step) :=
  match l with
  | [] => mret []
  | c :: l => a ← c; b ← run_steps l; mret (a ++ b)
  end.

Definition Apply : H (list Step) :=
  root ← is_root;
  if negb root then mret [step (bs "root") (Some stepRoot) []]
  else run_steps [dirs_step; group_step; sshd_step; network_step; firewall_step; udpgw_step; daemon_step].

(** ** Uninstall *)

Definition remove_daemon : H (list Step) :=
  systemd ← HasSystemd;
  if negb systemd then mret []
  else
    _ ← Systemctl [bs "disable"; bs "--now"; bs "sshfortress"];
    _ ← disk_op (Remove UnitPath);
    _ ← Systemctl [bs "daemon-reload"];
    mret [step (bs "daemon removed") None []].
Definition remove_badvpn : H (list Step) := _ ← RemoveUnit; mret [].
Definition remove_firewall : H (list Step) :=
  e ← fw_op (RemoveChain tools);
  mret [step (bs "firewall rules removed") (stepFirewall <$> (e : option fw_err)) []].
Definition remove_sshd : H (list Step) :=
  e ← disk_op (RemoveAll cfg have_sshd sshd_test);
  mret [step (bs "sshd settings removed") (stepSshd <$> (e : option apply_err)) []].
Definition reset_network : H (list Step) :=
  root ← is_root;
  ok ← net_op (Netopt.Reset cfg walk root);
  mret [step (bs "network profile reset") (if (ok : bool) then None else Some stepNetopt) []].

Definition Uninstall (keepOptimizations : bool) : H (list Step) :=
  run_steps ([remove_daemon; remove_badvpn; remove_firewall; remove_sshd] ++
             (if keepOptimizations then [] else [reset_network])).
End setup.
