(* ===== verification/SetupProps.v ===== *)
(** What [Setup] promises: a report of every part whatever fails, and a removal that
    takes exactly the system integration. *)
From S2P Require Import Prelude GoStrings Paths Files Config ConfigFile Security Store Procfs Session Users.
From S2P Require Import UsersLinux BackupProps Netopt NetoptProps Firewall FirewallProps Sshd SshdApply Host Badvpn Setup.

Section setup.
Context `{Sys : System, Cal : Calendar, Uni : Unicode, CU : !Codec UserRecord, Blt : Bolt}.
Context `{Dsk : Disk, Nft : Netfilter, Knl : Kernel, CS : !Codec (gmap gostring gostring)}.
Variable cfg : Config.
Variable err_text : step_err -> gostring.
Variable nf_err : gostring -> rule -> gostring.
Variable net_err : gostring -> gostring.
Variable walk : gmap gostring gostring -> list (gostring * gostring).
Variable have_sshd : bool.
Variable version : Version.
Variable sshd_test : gmap gostring gostring -> bool * gostring.
Variable services : Sshd.services.
Variable banner_err : gostring.
Variable tools : list gostring.
Variable executable : gostring.
Variable installed_bin : option gostring.

Abbreviation Apply' := (Setup.Apply cfg err_text nf_err net_err have_sshd version sshd_test services
  banner_err tools executable installed_bin).

(* ------------------------------------------------------------------ *)
(** * The report                                                         *)
(* ------------------------------------------------------------------ *)

(** A step that puts exactly these names on the report. *)
Definition reports (c : H (list Step)) (names : list gostring) : Prop :=
  forall s, s_Name <$> (c s).2 = names.

Lemma reports_bind {A} (c : H A) (k : A -> H (list Step)) names :
  (forall a, reports (k a) names) -> reports (c ≫= k) names.
Proof. intros Hk s. unfold mbind, H_bind. destruct (c s) as [s1 a]. apply Hk. Qed.
Lemma reports_ret l names : s_Name <$> l = names -> reports (mret l) names.
Proof. by intros <- s. Qed.
Lemma reports_step name e d : reports (mret [step err_text name e d]) [name].
Proof. intros s. by destruct e. Qed.

Ltac reports_tac :=
  repeat lazymatch goal with
  | |- reports (_ ≫= _) _ => apply reports_bind; intros ?
  | |- reports (if ?b then _ else _) _ => destruct b
  | |- reports (match ?b with _ => _ end) _ => destruct b
  | |- reports (let _ := _ in _) _ => cbv zeta
  | |- reports (mret [step _ _ _ _]) _ => apply reports_step
  | |- reports (mret _) _ => by apply reports_ret
  end.

(** [Sshd.Apply] gives a result or an error. *)
Definition spoken {A} (P : A -> Prop) (c : F A) : Prop := forall fs, P (c fs).2.
Lemma spoken_bind {A B} (P : B -> Prop) (c : F A) (k : A -> F B) :
  (forall a, spoken P (k a)) -> spoken P (c ≫= k).
Proof. intros Hk fs. unfold mbind, F_bind. destruct (c fs) as [fs1 a]. apply Hk. Qed.
Lemma spoken_ret {A} (P : A -> Prop) a : P a -> spoken P (mret a).
Proof. by intros Ha fs. Qed.

Lemma sshd_answers root noSystemd :
  spoken (fun r => r <> (None, None))
    (Sshd.Apply cfg root have_sshd noSystemd version sshd_test services banner_err).
Proof.
  unfold Sshd.Apply.
  repeat lazymatch goal with
  | |- spoken _ (_ ≫= _) => apply spoken_bind; intros ?
  | |- spoken _ (if ?b then _ else _) => destruct b
  | |- spoken _ (let _ := _ in _) => cbv zeta
  | |- spoken _ (match ?b with _ => _ end) => destruct b
  | |- spoken _ (mret _) => by apply spoken_ret
  end.
Qed.

Lemma sshd_step_reports :
  reports (sshd_step cfg err_text have_sshd version sshd_test services banner_err) [bs "sshd tuning"].
Proof.
  unfold sshd_step. apply reports_bind. intros systemd. apply reports_bind. intros root s.
  unfold mbind, H_bind, disk_op.
  pose proof (sshd_answers root (negb systemd) (h_fs s)) as Hn. cbv beta in Hn.
  destruct (Sshd.Apply _ _ _ _ _ _ _ _ (h_fs s)) as [fs [[res|] [e|]]]; cbn in Hn |- *; try done.
Qed.

Definition expected_steps : list gostring :=
  [bs "directories"; bs "VPN group"; bs "sshd tuning"] ++
  (if network_AutoOptimize (Network cfg) then [bs "network optimization"] else []) ++
  (if firewall_Enabled (Config.Firewall cfg) then [bs "firewall"] else []) ++
  (if udpgw_Enabled (UDPGW cfg) && eqb_str (udpgw_Mode (UDPGW cfg)) (bs "badvpn")
   then [bs "badvpn-udpgw"] else []) ++
  [bs "daemon"].

Lemma run_steps_reports l names : Forall2 reports l names -> reports (run_steps l) (mjoin names).
Proof.
  intros Hl. induction Hl as [|c ns l names Hc _ IH]; [by intros s|]. intros s. cbn [run_steps].
  unfold mbind, H_bind. specialize (Hc s). destruct (c s) as [s1 a]. specialize (IH s1).
  destruct (run_steps l s1) as [s2 b]. cbn in *. by rewrite fmap_app, Hc, IH.
Qed.

(** Provisioning goes through every part: run as root, the report has one line per
    part of the configuration, in order, whatever fails on the way (no step is left
    out because an earlier one failed); without root nothing is touched and the report
    says so. *)
Theorem Apply_reports_all s :
  if euid (m_world (h_mgr s)) =? 0 then s_Name <$> (Apply' s).2 = expected_steps
  else Apply' s = (s, [mkStep (bs "root") false (err_text stepRoot)]).
Proof.
  unfold Setup.Apply. unfold mbind at 1 2, H_bind at 1 2. rewrite is_root_is.
  destruct (euid _ =? 0); cbn [negb]; [|done].
  match goal with |- context [run_steps ?l] => assert (Hr : reports (run_steps l) expected_steps) end.
  2:{ apply Hr. }
  change expected_steps with (mjoin [[bs "directories"]; [bs "VPN group"]; [bs "sshd tuning"];
    (if network_AutoOptimize (Network cfg) then [bs "network optimization"] else []);
    (if firewall_Enabled (Config.Firewall cfg) then [bs "firewall"] else []);
    (if udpgw_Enabled (UDPGW cfg) && eqb_str (udpgw_Mode (UDPGW cfg)) (bs "badvpn")
     then [bs "badvpn-udpgw"] else []); [bs "daemon"]]).
  apply run_steps_reports. repeat (apply Forall2_cons; split); [..|constructor].
  - unfold dirs_step. reports_tac.
  - unfold group_step. reports_tac.
  - apply sshd_step_reports.
  - unfold network_step. destruct (network_AutoOptimize _); cbn [negb]; reports_tac.
  - unfold firewall_step. destruct (firewall_Enabled _); reports_tac.
  - unfold udpgw_step. destruct (udpgw_Enabled _ && _); reports_tac.
  - unfold daemon_step. reports_tac.
Qed.
End setup.

(* ------------------------------------------------------------------ *)
(** * Removal                                                            *)
(* ------------------------------------------------------------------ *)

Section uninstall.
Context `{Sys : System, Cal : Calendar, Uni : Unicode, CU : !Codec UserRecord, Blt : Bolt}.
Context `{Dsk : Disk, Nft : Netfilter, Knl : Kernel, CS : !Codec (gmap gostring gostring)}.
Hypothesis works : forall n, op_fails n = false.
Variable cfg : Config.
Variable err_text : step_err -> gostring.
Variable walk : gmap gostring gostring -> list (gostring * gostring).
Variable have_sshd : bool.
Variable sshd_test : gmap gostring gostring -> bool * gostring.
Variable tools : list gostring.

Definition files_of (s : host) : files := f_files (h_fs s).

(** What a step does to the files and the packet filter; the database and the kernel's
    settings stay. *)
Definition acts {A} (c : H A) (f : files -> files) (g : nf -> nf) : Prop := forall s,
  files_of (c s).1 = f (files_of s) /\ h_nf (c s).1 = g (h_nf s) /\
  m_db (h_mgr (c s).1) = m_db (h_mgr s) /\ h_sys (c s).1 = h_sys s.

Lemma acts_quiet {A} (c : H A) : quiet c -> acts c (fun m => m) (fun n => n).
Proof. intros Hc s. destruct (Hc s) as (E1 & E2 & E3 & E4). done. Qed.
Lemma acts_bind {A B} (c : H A) (k : A -> H B) f g f' g' :
  acts c f g -> (forall a, acts (k a) f' g') -> acts (c ≫= k) (fun m => f' (f m)) (fun n => g' (g n)).
Proof.
  intros Hc Hk s. unfold mbind, H_bind. destruct (Hc s) as (E1 & E2 & E3 & E4).
  destruct (c s) as [s1 a]. destruct (Hk a s1) as (F1 & F2 & F3 & F4). cbn in *.
  by rewrite F1, F2, F3, F4, E1, E2, E3, E4.
Qed.
Lemma acts_ret {A} (a : A) : acts (mret a) (fun m => m) (fun n => n).
Proof. done. Qed.
Lemma acts_disk {A} (c : F A) f : does c f -> acts (disk_op c) (fun m => (f m).1) (fun n => n).
Proof. intros Hc s. destruct (Hc (h_fs s)) as (fs & E & Ef). unfold disk_op. by rewrite E. Qed.
Lemma acts_fw {A} (c : W A) : acts (fw_op c) (fun m => m) (fun n => (c n).1).
Proof. intros s. unfold fw_op. by destruct (c (h_nf s)). Qed.

(** The steps as functions of the files. *)
Definition systemd_there (m : files) : bool := bool_decide (is_Some (m !! bs "/run/systemd/system")).
Definition no_daemon (m : files) : files := if systemd_there m then delete UnitPath m else m.

Lemma HasSystemd_run s : exists fs,
  HasSystemd s = (mkHost (h_mgr s) fs (h_sys s) (h_nf s), systemd_there (files_of s)) /\ f_files fs = files_of s.
Proof.
  unfold HasSystemd, disk_op.
  destruct (does_FileExists works (bs "/run/systemd/system") (h_fs s)) as (fs & E & Ef). rewrite E. by exists fs.
Qed.
Lemma acts_if_systemd {A} (c : H A) (a : A) f : acts c f (fun n => n) ->
  acts (sd ← HasSystemd; if negb sd then mret a else c)
       (fun m => if systemd_there m then f m else m) (fun n => n).
Proof.
  intros Hc s. destruct (HasSystemd_run s) as (fs & E & Ef). unfold mbind, H_bind. rewrite E.
  destruct (systemd_there (files_of s)); cbn [negb]; [|done].
  destruct (Hc (mkHost (h_mgr s) fs (h_sys s) (h_nf s))) as (F1 & F2 & F3 & F4).
  unfold files_of in *. cbn [h_fs h_nf h_mgr h_sys] in *. by rewrite F1, F2, F3, F4, Ef.
Qed.

(** Commands of systemd before and after. *)
Lemma acts_command {A B} (c : H A) (k : H B) f g : quiet c -> acts k f g ->
  acts (_ ← c; k) f g.
Proof. intros Hc Hk. exact (acts_bind c (fun _ => k) _ _ f g (acts_quiet c Hc) (fun _ => Hk)). Qed.
Lemma acts_change {B} (k : H B) h f g : acts k f g ->
  acts (_ ← disk_op (change h); k) (fun m => f (h m)) g.
Proof.
  intros Hk. exact (acts_bind _ (fun _ => k) _ _ f g (acts_disk _ _ (does_change works h)) (fun _ => Hk)).
Qed.

Lemma acts_remove_daemon : acts (remove_daemon err_text) no_daemon (fun n => n).
Proof.
  apply acts_if_systemd, acts_command; [apply quiet_Systemctl|].
  apply (acts_change _ (delete UnitPath) (fun m => m)), acts_command; [apply quiet_Systemctl|].
  apply acts_ret.
Qed.

Lemma quiet_Disable : quiet Disable.
Proof.
  unfold Disable. apply quiet_bind; [apply quiet_HasSystemd|]. intros sd.
  destruct sd; cbn [negb]; [|apply quiet_ret]. apply quiet_bind; [apply quiet_UnitExists|].
  intros known. destruct known; cbn [negb]; [|apply quiet_ret].
  apply quiet_bind; [apply quiet_Systemctl|intros _; apply quiet_ret].
Qed.

Lemma acts_remove_badvpn : acts remove_badvpn (delete unitPath) (fun n => n).
Proof.
  refine (acts_bind _ _ (delete unitPath) (fun n => n) (fun m => m) (fun n => n) _ (fun _ => acts_ret _)).
  apply acts_command; [apply quiet_Disable|].
  apply (acts_change _ (delete unitPath) (fun m => m)), acts_command; [apply quiet_Systemctl|].
  apply acts_ret.
Qed.

Lemma acts_remove_firewall :
  acts (remove_firewall err_text tools) (fun m => m) (fun n => (RemoveChain tools n).1).
Proof.
  unfold remove_firewall.
  apply (acts_bind _ _ _ _ (fun m => m) (fun n => n) (acts_fw _)). intros; apply acts_ret.
Qed.

Lemma remove_sshd_run s : exists fs,
  remove_sshd cfg err_text have_sshd sshd_test s =
    (mkHost (h_mgr s) fs (h_sys s) (h_nf s),
     [step err_text (bs "sshd settings removed")
        (stepSshd <$> (removal cfg have_sshd sshd_test (files_of s)).2) []]) /\
  f_files fs = (removal cfg have_sshd sshd_test (files_of s)).1.
Proof.
  destruct (does_RemoveAll works cfg have_sshd sshd_test (h_fs s)) as (fs & E & Ef).
  exists fs. split; [|exact Ef]. unfold remove_sshd, mbind, H_bind, disk_op. by rewrite E.
Qed.

Abbreviation copy := (backupPath cfg).
Definition tuning_files : list gostring := [SysctlFile; ModulesFile; LimitsFile; copy].
Definition untuned (m : files) : files :=
  delete copy (delete LimitsFile (delete ModulesFile (delete SysctlFile m))).

Lemma reset_network_run s : exists s' ok,
  reset_network cfg err_text walk s =
    (s', [step err_text (bs "network profile reset") (if (ok : bool) then None else Some stepNetopt) []]) /\
  files_of s' = (if ok then untuned (files_of s) else files_of s) /\
  h_sys s' = (if ok then reset_sys cfg walk (no_tuning (files_of s)) (h_sys s) else h_sys s) /\
  h_nf s' = h_nf s /\ m_db (h_mgr s') = m_db (h_mgr s).
Proof.
  unfold reset_network, mbind, H_bind. pose proof (quiet_is_root s) as (E1 & E2 & E3 & E4).
  destruct (is_root s) as [s1 root]. cbn in E1, E2, E3, E4. unfold net_op.
  destruct root.
  - pose proof (Reset_run cfg walk works (mkMachine (h_fs s1) (h_sys s1))) as (Hf & Hs & Hok).
    destruct (Netopt.Reset cfg walk true _) as [x ok]. cbn in Hf, Hs, Hok. subst ok.
    eexists _, true. split; [reflexivity|]. unfold files_of. cbn. by rewrite Hf, Hs, E1, E2.
  - eexists _, false. by split.
Qed.

(** Where the settings of sshd live. *)
Definition sshd_files (m : files) : list gostring :=
  mainPath cfg :: match m !! mainPath cfg with
                  | Some data => match drop_of cfg data with Some p => [p] | None => [] end
                  | None => []
                  end.
(** What [Uninstall] may touch; the files of the network tuning only when they are not kept. *)
Definition own_files (keep : bool) (m : files) : list gostring :=
  [UnitPath; unitPath] ++ (if keep then [] else tuning_files) ++ sshd_files m.

(** The settings that the copy of the original values has a value for. *)
Definition saved_settings (m : files) : list gostring :=
  match m !! copy ≫= unmarshal with
  | Some orig => (fun e => sysPath e.1) <$> map_to_list (orig : gmap gostring gostring)
  | None => []
  end.

Lemma restored_other l m p : p ∉ (fun e => sysPath e.1) <$> l -> restored l m !! p = m !! p.
Proof.
  intros Hp. unfold restored. generalize (mkFs ∅ 0 []). revert m.
  induction l as [|[k v] l IH]; intros m fs; [done|]. rewrite fmap_cons, not_elem_of_cons in Hp. destruct Hp as [Hk Hp].
  cbn [restore_all]. unfold mbind, N_bind, write. cbv zeta. cbn [mc_fs mc_sys fst] in *.
  destruct (_ && _); rewrite (IH Hp); [by rewrite lookup_insert_ne|done].
Qed.

Lemma untuned_other m q : q ∉ tuning_files -> untuned m !! q = m !! q.
Proof.
  unfold tuning_files. rewrite !not_elem_of_cons. intros (H1 & H2 & H3 & H4 & _).
  unfold untuned. by rewrite !lookup_delete_ne.
Qed.
Lemma untuned_none m : Forall (fun p => untuned m !! p = None) tuning_files.
Proof.
  unfold tuning_files, untuned. repeat constructor; rewrite !lookup_delete; repeat case_decide; done.
Qed.


(** The files before and after the removal of sshd's settings. *)
Section taken.
Variable m : files.
Hypothesis main_apart : mainPath cfg ∉ [UnitPath; unitPath] ++ tuning_files.
Abbreviation removal' := (removal cfg have_sshd sshd_test).
Definition unitless : files := delete unitPath (no_daemon m).

Lemma unitless_other q : q <> UnitPath -> q <> unitPath -> unitless !! q = m !! q.
Proof.
  intros H1 H2. unfold unitless, no_daemon. rewrite lookup_delete_ne by done.
  destruct (systemd_there m); [by rewrite lookup_delete_ne|done].
Qed.
Lemma main_there : unitless !! mainPath cfg = m !! mainPath cfg.
Proof. apply unitless_other; intros E; apply main_apart; rewrite E; set_solver. Qed.

Lemma removed_other q : q ∉ [UnitPath; unitPath] ++ sshd_files m -> (removal' unitless).1 !! q = m !! q.
Proof.
  unfold sshd_files. rewrite !elem_of_app, !elem_of_cons.
  intros Hq. rewrite RemoveAll_leaves; [apply unitless_other; tauto|tauto|].
  intros data p Hd Hp ->. rewrite main_there in Hd. rewrite Hd, Hp in Hq. set_solver.
Qed.
(** A file but sshd's main one is as it was, or gone. *)
Lemma removed_sub q : q <> mainPath cfg -> (removal' unitless).1 !! q = m !! q \/ (removal' unitless).1 !! q = None.
Proof.
  intros Hq. assert (Hu : unitless !! q = m !! q \/ unitless !! q = None).
  { unfold unitless, no_daemon. rewrite lookup_delete. case_decide; [by right|].
    destruct (systemd_there m); [|by left]. rewrite lookup_delete. case_decide; [by right|by left]. }
  unfold removal. destruct (unitless !! mainPath cfg) as [data|]; [|done].
  assert (E : restored_files cfg data unitless !! q = m !! q \/ restored_files cfg data unitless !! q = None).
  { unfold restored_files, without_drop. rewrite lookup_insert_ne by done.
    destruct (drop_of cfg data); [|done]. rewrite lookup_delete. case_decide; [by right|done]. }
  destruct (have_sshd && _); cbn [fst]; [|exact E]. by rewrite lookup_insert_ne.
Qed.
(** A file that was gone stays gone, unless it is sshd's. *)
Lemma removed_none q : q <> mainPath cfg -> unitless !! q = None -> (removal' unitless).1 !! q = None.
Proof.
  intros Hq Hn. unfold removal. destruct (unitless !! mainPath cfg) as [data|] eqn:Ed; [|done].
  assert (E : restored_files cfg data unitless !! q = None).
  { unfold restored_files, without_drop. rewrite lookup_insert_ne by done.
    destruct (drop_of cfg data); [|done]. rewrite lookup_delete. by case_decide. }
  destruct (have_sshd && _); cbn [fst]; [|exact E]. by rewrite lookup_insert_ne.
Qed.
Lemma removed_accepted : (removal' unitless).2 = None ->
  exists data, m !! mainPath cfg = Some data /\
    (removal' unitless).1 !! mainPath cfg = Some (uncommentPorts (stripBlocks data)) /\
    forall p, drop_of cfg data = Some p -> p <> mainPath cfg -> (removal' unitless).1 !! p = None.
Proof.
  unfold removal. rewrite main_there. destruct (m !! mainPath cfg) as [data|]; [|done].
  destruct (have_sshd && _); [done|]. intros _. exists data. split; [done|]. cbn [fst].
  unfold restored_files. rewrite lookup_insert_eq. split; [done|]. intros p Hp Hne.
  rewrite lookup_insert_ne by done. unfold without_drop. rewrite Hp. by rewrite lookup_delete_eq.
Qed.
End taken.

Hypothesis commands_work : forall t args n,
  is_Some (table_step args (nf_table t n)) -> (nf_run t args n).2 = true.
Hypothesis shows_work : forall t n,
  Forall (Forall printable) (t_output (nf_table t n)) -> is_Some (nf_show t n).

(** The whole removal: what the steps do, one after the other. *)
Lemma Uninstall_run keep s : let m := files_of s in
  let m4 := (removal cfg have_sshd sshd_test (unitless m)).1 in
  exists ok pre s', Uninstall cfg err_text walk have_sshd sshd_test tools keep s =
      (s', pre ++
           step err_text (bs "sshd settings removed")
             (stepSshd <$> (removal cfg have_sshd sshd_test (unitless m)).2) [] ::
           if keep then []
           else [step err_text (bs "network profile reset") (if (ok : bool) then None else Some stepNetopt) []]) /\
    files_of s' = (if negb keep && ok then untuned m4 else m4) /\
    h_sys s' = (if negb keep && ok then reset_sys cfg walk (no_tuning m4) (h_sys s) else h_sys s) /\
    h_nf s' = (RemoveChain tools (h_nf s)).1 /\ m_db (h_mgr s') = m_db (h_mgr s).
Proof.
  intros m m4. unfold Uninstall. cbn [app run_steps]. unfold mbind, H_bind, mret, H_ret.
  destruct (acts_remove_daemon s) as (D1 & D2 & D3 & D4).
  destruct (remove_daemon err_text s) as [s1 a1]. cbn [fst] in D1, D2, D3, D4.
  destruct (acts_remove_badvpn s1) as (B1 & B2 & B3 & B4).
  destruct (remove_badvpn s1) as [s2 a2]. cbn [fst] in B1, B2, B3, B4.
  destruct (acts_remove_firewall s2) as (W1 & W2 & W3 & W4).
  destruct (remove_firewall err_text tools s2) as [s3 a3]. cbn [fst] in W1, W2, W3, W4.
  destruct (remove_sshd_run s3) as (fs4 & E4 & F4). rewrite E4.
  set (s4 := mkHost (h_mgr s3) fs4 (h_sys s3) (h_nf s3)).
  assert (N3 : h_nf s3 = (RemoveChain tools (h_nf s)).1) by (by rewrite W2, B2, D2).
  assert (M3 : m_db (h_mgr s3) = m_db (h_mgr s)) by (by rewrite W3, B3, D3).
  assert (K3 : h_sys s3 = h_sys s) by (by rewrite W4, B4, D4).
  assert (U3 : files_of s3 = unitless m) by (by rewrite W1, B1, D1).
  rewrite U3 in *. fold m4 in F4.
  destruct keep; cbn [run_steps negb andb].
  - exists true, (a1 ++ a2 ++ a3), s4.
    split_and!; [by rewrite <- (app_assoc a1), <- (app_assoc a2)|exact F4|exact K3|exact N3|exact M3].
  - destruct (reset_network_run s4) as (s5 & ok & E5 & F5 & K5 & N5 & M5).
    unfold mbind, H_bind, mret, H_ret. rewrite E5. exists ok, (a1 ++ a2 ++ a3), s5.
    split_and!; [by rewrite <- (app_assoc a1), <- (app_assoc a2)|
                 by rewrite F5; destruct ok; [rewrite <- F4|]|
                 rewrite K5; unfold files_of; cbn; by rewrite F4, K3|by rewrite N5|by rewrite M5].
Qed.

(** What the reset does to the settings: none but the saved ones is written, before the
    remaining files of sysctl are loaded again. *)
Lemma reset_saved m4 m sy : (forall orig, walk orig ≡ₚ map_to_list orig) ->
  (m4 !! copy = m !! copy \/ m4 !! copy = None) ->
  exists y, reset_sys cfg walk (no_tuning m4) sy = sysctl_system y /\
    forall p, p ∉ saved_settings m -> y !! p = sy !! p.
Proof.
  intros Hw Hc. unfold reset_sys. eexists. split; [done|]. intros p Hp.
  assert (Hn : no_tuning m4 !! copy = m !! copy \/ no_tuning m4 !! copy = None).
  { unfold no_tuning. rewrite !lookup_delete. repeat case_decide; auto. }
  unfold saved_settings in Hp. destruct Hn as [-> | ->]; [|done].
  destruct (m !! copy ≫= unmarshal) as [orig|]; [|done]. apply restored_other. by rewrite (Hw orig).
Qed.

End uninstall.

(* ------------------------------------------------------------------ *)
(** * A concrete removal                                                 *)
(* ------------------------------------------------------------------ *)

Section example.
#[local] Existing Instances new_server toy_netfilter open_kernel sysctl_codec sound_disk.

Definition sshd_config : gostring :=
  bs "Include /etc/ssh/sshd_config.d/*.conf" ++ [x0a] ++ portComment ++ bs "Port 22" ++ [x0a].
Definition applied_files : files :=
  <[bs "/run/systemd/system" := []]> (<[UnitPath := bs "unit"]> (<[SysctlFile := bs "net"]>
  (<[bs "/etc/ssh/sshd_config.d/00-sshvpn.conf" := bs "UseDNS no"]>
  {[mainPath Defaults := sshd_config; bs "/etc/hosts" := bs "localhost"]}))).
Definition applied_host : host :=
  mkHost (mkMgr (mkDB ∅ ∅ ∅) tt []) (mkFs applied_files 0 []) ∅ used_tables.
Definition run_uninstall : host * list Step :=
  Uninstall Defaults (fun _ => []) map_to_list true (fun _ => (true, [])) [ipt] false applied_host.

End example.
