(* ===== verification/SetupUndo.v ===== *)
(** Provisioning can be undone ([Setup]): the phases of [Apply], what each leaves on the
    machine, and the machine after [Apply] and [Uninstall]. *)
From S2P Require Import Prelude GoStrings Paths Files Config ConfigFile Security Store Procfs Session Users UsersProps.
From S2P Require Import UsersLinux BackupProps Netopt NetoptProps Firewall FirewallProps Sshd SshdProps SshdApply SshdAgain.
From S2P Require Import Host Badvpn Setup SetupProps.

(* ------------------------------------------------------------------ *)
(** * Steps that write few files                                         *)
(* ------------------------------------------------------------------ *)

Section only.
Context `{Sys : System, Dsk : Disk, Nft : Netfilter}.
Hypothesis works : forall n, op_fails n = false.

(** [c] writes no file outside [ps], and nothing else but the log of commands. *)
Definition only {A} (ps : list gostring) (c : H A) : Prop := forall s,
  (forall q, q ∉ ps -> files_of (c s).1 !! q = files_of s !! q) /\
  h_sys (c s).1 = h_sys s /\ h_nf (c s).1 = h_nf s /\ m_db (h_mgr (c s).1) = m_db (h_mgr s).

Lemma only_quiet {A} ps (c : H A) : quiet c -> only ps c.
Proof.
  intros Hc s. destruct (Hc s) as (F1 & F2 & F3 & F4). split_and!; [|done..].
  intros q _. unfold files_of. by rewrite F1.
Qed.
Lemma only_ret {A} ps (a : A) : only ps (mret a).
Proof. apply only_quiet, quiet_ret. Qed.
Lemma only_bind {A B} ps (c : H A) (k : A -> H B) : only ps c -> (forall a, only ps (k a)) -> only ps (c ≫= k).
Proof.
  intros Hc Hk s. unfold mbind, H_bind. destruct (Hc s) as (F1 & F2 & F3 & F4).
  destruct (c s) as [s1 a]. destruct (Hk a s1) as (G1 & G2 & G3 & G4). cbn in *.
  split_and!; [|by rewrite G2|by rewrite G3|by rewrite G4]. intros q Hq. by rewrite G1, F1.
Qed.
Lemma only_disk {A} ps (c : F A) f : does c f ->
  (forall m q, q ∉ ps -> (f m).1 !! q = m !! q) -> only ps (disk_op c).
Proof.
  intros Hc Hf s. unfold disk_op, files_of. destruct (Hc (h_fs s)) as (fs & E & Ef). rewrite E. cbn.
  split_and!; [|done..]. intros q Hq. by rewrite Ef, Hf.
Qed.
Lemma only_read {A} ps (c : F A) f : does c (fun m => (m, f m)) -> only ps (disk_op c).
Proof. intros Hc. by eapply only_disk. Qed.
Lemma only_write p d : only [p] (disk_op (WriteIfChanged p d)).
Proof.
  eapply only_disk; [apply (does_WriteIfChanged works)|]. intros m q Hq. cbn.
  rewrite lookup_insert_ne; [done|]. intros ->. apply Hq. by left.
Qed.
End only.

Create HintDb only.
#[export] Hint Resolve only_ret : only.
#[export] Hint Extern 3 (only _ (Systemctl _)) => apply only_quiet, quiet_Systemctl : only.
#[export] Hint Extern 3 (only _ HasSystemd) => apply only_quiet, quiet_HasSystemd : only.
#[export] Hint Extern 3 (only _ is_root) => apply only_quiet, quiet_is_root : only.
#[export] Hint Extern 3 (only _ (UnitActive _)) => apply only_quiet, quiet_UnitActive : only.
#[export] Hint Extern 3 (only _ Disable) => apply only_quiet, quiet_Disable : only.

Ltac only_tac :=
  repeat lazymatch goal with
  | |- only _ (_ ≫= _) => apply only_bind; [|intros ?]
  | |- only _ (if ?b then _ else _) => destruct b
  | |- only _ (match ?x with _ => _ end) => destruct x
  | |- only _ (let _ := _ in _) => cbv zeta
  | |- only _ _ => solve [eauto with only]
  end.

(* ------------------------------------------------------------------ *)
(** * The phases of [Apply]                                              *)
(* ------------------------------------------------------------------ *)

Section apply.
Context `{Sys : System, Cal : Calendar, Uni : Unicode, CU : !Codec UserRecord, Blt : Bolt}.
Context `{Dsk : Disk, Nft : Netfilter, Knl : Kernel, CS : !Codec (gmap gostring gostring)}.
Hypothesis works : forall n, op_fails n = false.
Variable cfg : Config.
Variable err_text : step_err -> gostring.
Variable nf_err : gostring -> rule -> gostring.
Variable net_err : gostring -> gostring.
Variable have_sshd : bool.
Variable version : Version.
Variable sshd_test : gmap gostring gostring -> bool * gostring.
Variable services : Sshd.services.
Variable banner_err : gostring.
Variable tools : list gostring.
Variable executable : gostring.
Variable installed_bin : option gostring.

Definition all_ok (steps : list Step) : Prop := Forall (fun st => s_OK st = true) steps.

Lemma only_dirs : only [] (dirs_step cfg err_text).
Proof.
  unfold dirs_step. only_tac. eapply (only_read _ _ (fun _ => true)). unfold EnsureDirs.
  intros fs. unfold mbind, F_bind, try_op. rewrite works. cbn. rewrite works. by eexists.
Qed.
Lemma only_group : only [] (group_step cfg err_text).
Proof.
  unfold group_step. cbv zeta. only_tac; apply only_quiet, quiet_users.
  - apply same_EnsureGroup.
  - apply same_MigrateGroups.
Qed.
Lemma only_udpgw : only [unitPath] (udpgw_step cfg err_text).
Proof.
  pose proof (only_write works unitPath (UnitFile cfg)) as Hw.
  unfold udpgw_step, Badvpn.Apply. only_tac.
  eapply only_read, (does_FileExists works).
Qed.
Lemma only_systemctl_all calls : only [] (systemctl_all calls).
Proof. induction calls as [|args calls IH]; cbn [systemctl_all]; only_tac. Qed.
Lemma only_mono {A} ps qs (c : H A) : only ps c -> ps ⊆ qs -> only qs c.
Proof.
  intros Hc Hs s. destruct (Hc s) as (F1 & F2). split; [|done]. intros q Hq. apply F1. intros Hp. by apply Hq, Hs.
Qed.
Lemma only_daemon : only [UnitPath] (daemon_step cfg err_text executable installed_bin).
Proof.
  pose proof (only_write works UnitPath (DaemonUnit (default executable installed_bin) (Path cfg))) as Hw.
  unfold daemon_step. only_tac. eapply only_mono; [apply only_systemctl_all|set_solver].
Qed.
(** Without systemd there is no unit. *)
Lemma daemon_off s : systemd_there (files_of s) = false ->
  files_of (daemon_step cfg err_text executable installed_bin s).1 = files_of s.
Proof.
  intros Hs. destruct (HasSystemd_run works s) as (fs & E & Ef).
  unfold daemon_step, mbind, H_bind. rewrite E, Hs. exact Ef.
Qed.

Abbreviation main := (mainPath cfg).
Abbreviation sshd_step' := (sshd_step cfg err_text have_sshd version sshd_test services banner_err).

(** The part of the machine that a step on the disk leaves alone. *)
Definition rest_same (s s' : host) : Prop :=
  h_sys s' = h_sys s /\ h_nf s' = h_nf s /\ m_db (h_mgr s') = m_db (h_mgr s).

(** A step of sshd that succeeds has settled on a level. *)
Lemma sshd_step_ok s orig s' steps : files_of s !! main = Some orig ->
  sshd_step' s = (s', steps) -> all_ok steps ->
  let m := prepared_files cfg orig (files_of s) in
  exists level, files_of s' = with_limits (negb (systemd_there (files_of s))) services
      (tried cfg version orig (drop_in cfg (m !! main)) level m) /\ rest_same s s'.
Proof.
  intros Horig Hr Hok m. destruct (HasSystemd_run works s) as (fs & E & Ef).
  unfold sshd_step in Hr. unfold mbind, H_bind in Hr. rewrite E, is_root_is in Hr. cbn [h_mgr] in Hr.
  unfold disk_op in Hr. cbn [h_fs h_mgr h_sys h_nf] in Hr.
  destruct (Sshd.Apply _ _ _ _ _ _ _ _ fs) as [fs' [r e]] eqn:EA.
  assert (Hs : exists res, r = Some res /\ e = None).
  { pose proof (sshd_answers cfg have_sshd version sshd_test services banner_err
      (euid (m_world (h_mgr s)) =? 0) (negb (systemd_there (files_of s))) fs) as Hn.
    cbv beta in Hn. rewrite EA in Hn. cbn in Hn.
    destruct r as [res|], e as [e|]; [|by exists res| |done]; injection Hr as _ <-;
      by apply Forall_cons in Hok as [? _]. }
  destruct Hs as (res & -> & ->).
  assert (Hrs : (euid (m_world (h_mgr s)) =? 0) = true /\ have_sshd = true).
  { unfold Sshd.Apply in EA. destruct (euid _ =? 0); [|done]. by destruct have_sshd. }
  destruct Hrs as [Hroot Hh]. rewrite Hroot, Hh in EA.
  pose proof (Apply_cases works cfg version sshd_test services banner_err _ fs fs' orig _ _
    ltac:(rewrite Ef; exact Horig) EA) as Hc. cbv zeta in Hc. rewrite Ef in Hc. fold m in Hc.
  destruct (first_accepted _ _ _ _ _ _ _) as [level|]; [|by destruct Hc]. destruct Hc as (F & _ & _).
  exists level. injection Hr as <- _. by split.
Qed.

(** What the network profile leaves. *)
Definition tuned (s s' : host) : Prop :=
  if network_AutoOptimize (Network cfg)
  then exists t, mc_sys t = h_sys s /\ f_files (mc_fs t) = files_of s /\
         files_of s' = f_files (mc_fs (Netopt.Apply cfg net_err true t).1) /\
         h_sys s' = mc_sys (Netopt.Apply cfg net_err true t).1
  else files_of s' = files_of s /\ h_sys s' = h_sys s.
Lemma network_step_ok s s' steps :
  network_step cfg err_text net_err s = (s', steps) -> all_ok steps ->
  tuned s s' /\ h_nf s' = h_nf s /\ m_db (h_mgr s') = m_db (h_mgr s).
Proof.
  unfold network_step, tuned. destruct (network_AutoOptimize _); cbn [negb].
  2:{ intros [= <- <-] _. done. }
  unfold mbind, H_bind. rewrite is_root_is. intros Hr Hok. unfold net_op in Hr.
  destruct (euid _ =? 0) eqn:Er.
  2:{ exfalso. cbn in Hr. injection Hr as _ <-. by apply Forall_cons in Hok as [? _]. }
  set (t := mkMachine (h_fs s) (h_sys s)) in *.
  destruct (Netopt.Apply cfg net_err true t) as [t' r] eqn:EA.
  destruct r as [r|].
  2:{ exfalso. injection Hr as _ <-. by apply Forall_cons in Hok as [? _]. }
  cbn in Hr. injection Hr as <- _. split; [|done]. exists t. rewrite EA. by split_and!.
Qed.

Hypothesis commands_work : forall t args n,
  is_Some (table_step args (nf_table t n)) -> (nf_run t args n).2 = true.
Hypothesis shows_work : forall t n,
  Forall (Forall printable) (t_output (nf_table t n)) -> is_Some (nf_show t n).

(** Rules that [Remove] reads as they are. *)
Definition legible (t : table) : Prop :=
  Forall (Forall printable) (t_output t) /\ Forall (fun r => jumps r = ours r) (t_output t).
Definition others (t : table) : list rule := filter (fun r => ours r = false) (t_output t).

Lemma jump_legible gid : Forall printable (jump gid) /\ ours (jump gid) = true /\ jumps (jump gid) = true.
Proof.
  assert (Hi : printable (itoa gid)).
  { split; [|eapply Forall_impl; [apply itoa_printable|]; by intros b [? _]].
    intros E. destruct gid as [|p|p]; [done| |done].
    pose proof (digits_itoa (Z.pos p) ltac:(lia)) as Hd. by rewrite E in Hd. }
  assert (Ho : ours (jump gid) = true).
  { unfold ours, line_of, has_suffix.
    replace (bs "-A OUTPUT " ++ join (bs " ") (jump gid))
      with ((bs "-A OUTPUT -m owner --gid-owner " ++ itoa gid ++ bs " ") ++ bs "-j " ++ chain).
    - rewrite reverse_app. apply has_prefix_app.
    - unfold jump. cbn [join]. by rewrite <- !app_assoc. }
  split_and!; [|done|done].
  repeat constructor; try discriminate; try apply Hi; vm_compute; intuition discriminate.
Qed.

Lemma installed_others gid before after : installed cfg gid before after -> legible before ->
  legible after /\ others after = others before.
Proof.
  destruct (jump_legible gid) as (Hp & Ho & Hj).
  intros [_ E] [L1 L2]. unfold legible, others. rewrite E. destruct (decide _); [done|].
  split; [|by rewrite filter_cons_False by congruence].
  split; constructor; congruence || done.
Qed.
Lemma removed_others before after : removed before after -> legible before ->
  legible after /\ others after = others before.
Proof.
  intros [_ E] [L1 L2]. unfold legible, others. rewrite E.
  rewrite Forall_forall in L1, L2.
  split; [split; apply Forall_forall; intros r [_ Hr]%list_elem_of_filter; auto|].
  apply filter_all, Forall_forall. by intros r [Hr _]%list_elem_of_filter.
Qed.

Definition wired (s s' : host) : Prop :=
  (forall t, t ∈ tools -> legible (nf_table t (h_nf s')) /\
     others (nf_table t (h_nf s')) = others (nf_table t (h_nf s))) /\
  (forall t, t ∉ tools -> nf_table t (h_nf s') = nf_table t (h_nf s)).

Lemma firewall_step_ok s s' steps : NoDup tools ->
  (forall t, t ∈ tools -> legible (nf_table t (h_nf s))) ->
  firewall_step cfg err_text nf_err tools s = (s', steps) -> all_ok steps ->
  wired s s' /\ files_of s' = files_of s /\ h_sys s' = h_sys s /\ m_db (h_mgr s') = m_db (h_mgr s).
Proof.
  intros Hnd Hleg. unfold firewall_step, mbind, H_bind, fw_op, sees.
  destruct (firewall_Enabled _) eqn:Hen.
  - destruct (Firewall.Apply _ _ _ _ (h_nf s)) as [n e] eqn:EA. intros [= <- <-] Hok.
    destruct e as [e|]; [by apply Forall_cons in Hok as [? _]|].
    assert (Hi : exists gid, (forall t, t ∈ tools -> installed cfg gid (nf_table t (h_nf s)) (nf_table t n)) /\
        forall u, u ∉ tools -> nf_table u n = nf_table u (h_nf s)).
    { unfold Firewall.Apply in EA. rewrite Hen in EA. cbn [negb] in EA. destruct tools as [|t0 ts]; [done|].
      destruct (GroupID _ _) as [gid|]; [|done]. unfold mbind, W_bind in EA. exists gid.
      destruct (each_tool _ (t0 :: ts) (h_nf s)) as [n1 errs] eqn:E1. destruct errs; [|done].
      injection EA as <-. by apply (each_tool_done cfg nf_err). }
    destruct Hi as (gid & Hi & Ho). split; [|done]. split; [|done].
    intros t Ht. eapply installed_others; [by apply Hi|by apply Hleg].
  - pose proof (RemoveChain_done commands_work shows_work tools (h_nf s) Hnd
      (fun t Ht => proj1 (Hleg t Ht)) (fun t Ht => proj2 (Hleg t Ht))) as [Hi Ho].
    destruct (RemoveChain tools (h_nf s)) as [n e]. cbn [fst] in Hi, Ho. intros [= <- <-] _.
    split; [|done]. split; [|done]. intros t Ht. eapply removed_others; [by apply Hi|by apply Hleg].
Qed.

(* ------------------------------------------------------------------ *)
(** * The whole of [Apply]                                               *)
(* ------------------------------------------------------------------ *)

(** Where [Apply] writes: the main file of sshd, files that stay, and files that are
    new on a machine where it has not run. *)
Definition left_files : list gostring := [orig_copy cfg; bannerPath; limits_path services].
Definition drop_paths (drop : option (gostring * gostring)) : list gostring :=
  match drop with Some (_, p) => [p] | None => [] end.
Definition added (drop : option (gostring * gostring)) : list gostring :=
  [UnitPath; unitPath] ++ tuning_files cfg ++ drop_paths drop.
Definition systemd_dir : gostring := bs "/run/systemd/system".

Section whole.
Variable orig : gostring.
Abbreviation drop := (drop_in cfg (Some orig)).
Hypothesis paths_apart : NoDup (systemd_dir :: main :: left_files ++ added drop).

Lemma apart_main : main ∉ left_files /\ main ∉ added drop.
Proof. apply NoDup_cons in paths_apart as [_ [Hn _]%NoDup_cons]. by apply not_elem_of_app in Hn. Qed.
Lemma apart_dir : systemd_dir ∉ main :: left_files ++ added drop.
Proof. by apply NoDup_cons in paths_apart as [? _]. Qed.
Lemma apart_added q : q ∈ added drop -> q ∉ left_files /\ q <> main.
Proof.
  intros Hq. apply NoDup_cons in paths_apart as [_ [Hn Hnd]%NoDup_cons].
  apply NoDup_app in Hnd as (_ & Hd & _). split; [intros Hl; by apply (Hd q)|].
  intros ->. apply Hn, elem_of_app. by right.
Qed.

(** The new files but the drop-in are different ones, and not sshd's. *)
Lemma apart_new q : q ∈ [UnitPath; unitPath] ++ tuning_files cfg -> q ∉ main :: left_files ++ drop_paths drop.
Proof.
  intros Hq. assert (Ha : q ∈ added drop) by (unfold added; set_solver).
  destruct (apart_added q Ha) as [Hl Hm].
  apply NoDup_cons in paths_apart as [_ [_ Hnd]%NoDup_cons]. apply NoDup_app in Hnd as (_ & _ & Hnd).
  unfold added in Hnd. rewrite app_assoc in Hnd. apply NoDup_app in Hnd as (_ & Hd & _). specialize (Hd q Hq).
  set_solver.
Qed.
Lemma copy_tuning : backupPath cfg ∈ tuning_files cfg.
Proof. unfold tuning_files. do 3 right. by left. Qed.
Lemma copy_new : backupPath cfg ∈ [UnitPath; unitPath] ++ tuning_files cfg.
Proof. apply elem_of_app. right. apply copy_tuning. Qed.
Lemma copy_own : backupPath cfg <> ModulesFile /\ backupPath cfg <> SysctlFile /\ backupPath cfg <> LimitsFile.
Proof.
  apply NoDup_cons in paths_apart as [_ [_ Hnd]%NoDup_cons]. apply NoDup_app in Hnd as (_ & _ & Hnd).
  apply NoDup_app in Hnd as (_ & _ & Hnd). apply NoDup_app in Hnd as (Hnd & _ & _).
  clear -Hnd. unfold tuning_files in Hnd. rewrite !NoDup_cons, !not_elem_of_cons in Hnd.
  destruct Hnd as ((? & ? & ? & _) & (? & ? & _) & (? & _) & _). split_and!; congruence.
Qed.
Lemma apart_units q : q ∈ [UnitPath; unitPath] -> q ∉ tuning_files cfg.
Proof.
  intros Hq. apply NoDup_cons in paths_apart as [_ [_ Hnd]%NoDup_cons]. apply NoDup_app in Hnd as (_ & _ & Hnd).
  apply NoDup_app in Hnd as (_ & Hd & _). specialize (Hd q Hq). set_solver.
Qed.

(** The files after the step of sshd. *)
Lemma sshd_files_other m ns level q : q ∉ main :: left_files ++ drop_paths drop ->
  with_limits ns services (tried cfg version orig drop level (prepared_files cfg orig m)) !! q = m !! q.
Proof.
  rewrite not_elem_of_cons, not_elem_of_app. unfold left_files. rewrite !not_elem_of_cons.
  intros (Hm & (Ho & Hb & Hl & _) & Hd). unfold with_limits.
  assert (E : tried cfg version orig drop level (prepared_files cfg orig m) !! q = m !! q).
  { rewrite tried_other; [by apply prepared_other|done|]. unfold drop_paths in Hd.
    destruct drop as [[d p]|]; cbn; [|done]. intros [= ->]. apply Hd. by left. }
  destruct ns; [exact E|]. by rewrite lookup_insert_ne.
Qed.
Lemma sshd_files_main m ns level :
  with_limits ns services (tried cfg version orig drop level (prepared_files cfg orig m)) !! main =
  Some (new_main cfg version (is_drop drop) orig level).
Proof.
  destruct apart_main as [Hl _]. unfold with_limits, tried, left_files in *.
  destruct ns; [|rewrite lookup_insert_ne by (intros E; apply Hl; rewrite <- E; set_solver)];
    by rewrite lookup_insert_eq.
Qed.
Lemma prepared_main m : m !! main = Some orig -> prepared_files cfg orig m !! main = Some orig.
Proof.
  intros Hm. destruct apart_main as [Hl _]. unfold left_files in Hl. rewrite !not_elem_of_cons in Hl.
  rewrite prepared_other; tauto.
Qed.

Abbreviation Apply' := (Setup.Apply cfg err_text nf_err net_err have_sshd version sshd_test services
  banner_err tools executable installed_bin).

Lemma run_steps_ok c l s s' steps : run_steps (c :: l) s = (s', steps) -> all_ok steps ->
  exists s1 a b, c s = (s1, a) /\ all_ok a /\ run_steps l s1 = (s', b) /\ all_ok b.
Proof.
  cbn [run_steps]. unfold mbind, H_bind. destruct (c s) as [s1 a]. destruct (run_steps l s1) as [s2 b] eqn:E.
  unfold mret, H_ret. intros [= <- <-] Hok. apply Forall_app in Hok as [Ha Hb]. by exists s1, a, b.
Qed.

(** What a successful [Apply] leaves. *)
Record applied (level : Z) (s s' : host) : Prop := {
  ap_main : files_of s' !! main = Some (new_main cfg version (is_drop drop) orig level);
  ap_other : forall q, q ∉ main :: left_files ++ added drop -> files_of s' !! q = files_of s !! q;
  ap_unit : systemd_there (files_of s) = false -> files_of s' !! UnitPath = files_of s !! UnitPath;
  ap_kernel : if network_AutoOptimize (Network cfg)
    then exists t, mc_sys t = h_sys s /\ f_files (mc_fs t) !! backupPath cfg = files_of s !! backupPath cfg /\
           files_of s' !! backupPath cfg = f_files (mc_fs (Netopt.Apply cfg net_err true t).1) !! backupPath cfg /\
           h_sys s' = mc_sys (Netopt.Apply cfg net_err true t).1
    else h_sys s' = h_sys s /\ files_of s' !! backupPath cfg = files_of s !! backupPath cfg;
  ap_wired : wired s s';
  ap_db : m_db (h_mgr s') = m_db (h_mgr s)
}.

Lemma untouched_off q : q ∉ main :: left_files ++ added drop ->
  q <> UnitPath /\ q <> unitPath /\ q ∉ tuning_files cfg /\ q ∉ main :: left_files ++ drop_paths drop.
Proof. unfold added. set_solver. Qed.

(** The phases: after sshd, after the network profile, and the end. *)
Lemma Apply_phases s s' steps : NoDup tools ->
  files_of s !! main = Some orig -> (forall t, t ∈ tools -> legible (nf_table t (h_nf s))) ->
  Apply' s = (s', steps) -> all_ok steps -> exists level s3 s4,
    files_of s3 = with_limits (negb (systemd_there (files_of s))) services
      (tried cfg version orig drop level (prepared_files cfg orig (files_of s))) /\
    h_sys s3 = h_sys s /\ tuned s3 s4 /\
    (forall q, q ∉ [UnitPath; unitPath] -> files_of s' !! q = files_of s4 !! q) /\
    (systemd_there (files_of s4) = false -> files_of s' !! UnitPath = files_of s4 !! UnitPath) /\
    h_sys s' = h_sys s4 /\ wired s s' /\ m_db (h_mgr s') = m_db (h_mgr s).
Proof.
  intros Hnd Horig Hleg HA Hok. unfold Setup.Apply, mbind, H_bind in HA. rewrite is_root_is in HA.
  destruct (euid _ =? 0); cbn [negb] in HA.
  2:{ injection HA as _ <-. by apply Forall_cons in Hok as [? _]. }
  apply run_steps_ok in HA as (s1 & a1 & ? & E1 & _ & HA & Hok'); [|exact Hok]. clear Hok.
  apply run_steps_ok in HA as (s2 & a2 & ? & E2 & _ & HA & Hok); [|exact Hok']. clear Hok'.
  apply run_steps_ok in HA as (s3 & a3 & ? & E3 & O3 & HA & Hok'); [|exact Hok]. clear Hok.
  apply run_steps_ok in HA as (s4 & a4 & ? & E4 & O4 & HA & Hok); [|exact Hok']. clear Hok'.
  apply run_steps_ok in HA as (s5 & a5 & ? & E5 & O5 & HA & Hok'); [|exact Hok]. clear Hok.
  apply run_steps_ok in HA as (s6 & a6 & ? & E6 & _ & HA & Hok); [|exact Hok']. clear Hok'.
  apply run_steps_ok in HA as (s7 & a7 & ? & E7 & _ & HA & _); [|exact Hok]. clear Hok.
  injection HA as <- _.
  destruct (only_dirs s) as (F1 & K1 & N1 & M1). rewrite E1 in F1, K1, N1, M1. cbn [fst] in F1, K1, N1, M1.
  destruct (only_group s1) as (F2 & K2 & N2 & M2). rewrite E2 in F2, K2, N2, M2. cbn [fst] in F2, K2, N2, M2.
  assert (F12 : files_of s2 = files_of s).
  { apply map_eq. intros q. rewrite F2, F1; [done|set_solver..]. }
  destruct (sshd_step_ok s2 orig s3 a3) as (level & F3 & K3 & N3 & M3); [by rewrite F12|done|done|].
  rewrite F12, (prepared_main _ Horig) in F3.
  destruct (network_step_ok s3 s4 a4 E4 O4) as (T4 & N4 & M4).
  destruct (firewall_step_ok s4 s5 a5 Hnd) as (W5 & F5 & K5 & M5); [|exact E5|exact O5|].
  { intros t Ht. rewrite N4, N3, N2, N1. by apply Hleg. }
  destruct (only_udpgw s5) as (F6 & K6 & N6 & M6). rewrite E6 in F6, K6, N6, M6. cbn [fst] in F6, K6, N6, M6.
  destruct (only_daemon s6) as (F7 & K7 & N7 & M7). pose proof (daemon_off s6) as D7.
  rewrite E7 in F7, K7, N7, M7, D7. cbn [fst] in F7, K7, N7, M7, D7.
  exists level, s3, s4. split_and!; [exact F3|congruence|exact T4| | |congruence| |congruence].
  - intros q Hq. rewrite F7, F6, F5; [done|set_solver..].
  - intros Hs. rewrite D7, F6, F5; [done|intros H; not_elem H|].
    unfold systemd_there in *. rewrite F6, F5; [done|intros H; not_elem H].
  - destruct W5 as [W1 W2]. unfold wired. rewrite N7, N6.
    assert (N14 : h_nf s4 = h_nf s) by congruence. by rewrite <- N14.
Qed.

Lemma tuned_other q s s' : tuned s s' -> q ∉ tuning_files cfg -> files_of s' !! q = files_of s !! q.
Proof.
  unfold tuned. destruct (network_AutoOptimize _); [|by intros [-> _]].
  intros (t & _ & Ht & -> & _) Hq. rewrite <- Ht. apply (Apply_leaves cfg net_err works).
  unfold tuning_files in Hq. set_solver.
Qed.

Lemma Apply_run s s' steps : NoDup tools ->
  files_of s !! main = Some orig -> (forall t, t ∈ tools -> legible (nf_table t (h_nf s))) ->
  Apply' s = (s', steps) -> all_ok steps -> exists level, applied level s s'.
Proof.
  intros Hnd Horig Hleg HA Hok.
  destruct (Apply_phases s s' steps Hnd Horig Hleg HA Hok) as (level & s3 & s4 & F3 & K3 & T4 & F4 & U4 & K4 & W & M).
  exists level. destruct apart_main as [_ Hma].
  assert (H3 : forall q, q ∉ main :: left_files ++ drop_paths drop -> files_of s3 !! q = files_of s !! q)
    by (intros q Hq; rewrite F3; by apply sshd_files_other).
  split; [| | | |exact W|exact M].
  - rewrite F4 by (unfold added in Hma; set_solver).
    rewrite (tuned_other main s3 s4 T4) by (unfold added in Hma; set_solver).
    rewrite F3. apply sshd_files_main.
  - intros q Hq. destruct (untouched_off q Hq) as (Q1 & Q2 & Q3 & Q4).
    rewrite F4, (tuned_other q s3 s4 T4), H3; [done..|set_solver].
  - assert (Hcommon : forall q, q ∉ tuning_files cfg -> q ∉ main :: left_files ++ drop_paths drop ->
      files_of s4 !! q = files_of s !! q) by (intros q Q1 Q2; by rewrite (tuned_other q s3 s4 T4), H3).
    intros Hs. rewrite U4; [apply Hcommon; [apply apart_units|apply apart_new]; set_solver|].
    unfold systemd_there in *. rewrite Hcommon; [exact Hs|..]; pose proof apart_dir as Hd;
      clear -Hd; unfold added, systemd_dir in Hd; set_solver.
  - pose proof copy_tuning as Hc.
    assert (Hu : backupPath cfg ∉ [UnitPath; unitPath]) by (intros Hin; by apply apart_units in Hin).
    assert (E3 : files_of s3 !! backupPath cfg = files_of s !! backupPath cfg)
      by (apply H3, apart_new, copy_new).
    unfold tuned in T4. rewrite K4, (F4 _ Hu). destruct (network_AutoOptimize _).
    + destruct T4 as (t & Kt & Ft & -> & ->). exists t. rewrite Ft. by split_and!; [rewrite Kt|..].
    + destruct T4 as [-> ->]. done.
Qed.

(* ------------------------------------------------------------------ *)
(** * The machine after both                                             *)
(* ------------------------------------------------------------------ *)

Variable walk : gmap gostring gostring -> list (gostring * gostring).
Abbreviation Uninstall' := (Uninstall cfg err_text walk have_sshd sshd_test tools false).

Lemma drop_of_in data : drop_of cfg data = snd <$> drop_in cfg (Some data).
Proof. unfold drop_of, drop_in. by destruct (dropInDir _ _). Qed.

(** The files that [Uninstall] makes of [m] when the main file is [data]. *)
Definition taken_back (data : gostring) (m : files) : files :=
  <[main := uncommentPorts (stripBlocks data)]> (without_drop cfg data (unitless m)).
Lemma taken_back_other data m q : q <> main -> drop_of cfg data = snd <$> drop ->
  taken_back data m !! q = if decide (q ∈ drop_paths drop) then None else unitless m !! q.
Proof.
  intros Hq Hd. unfold taken_back, without_drop. rewrite lookup_insert_ne by done. rewrite Hd.
  unfold drop_paths. destruct drop as [[d p]|]; cbn [fmap option_fmap option_map snd]; [|by case_decide as Hx; [apply elem_of_nil in Hx|]].
  rewrite lookup_delete. by repeat case_decide; set_solver.
Qed.

Lemma Uninstall_ok s s' steps data : files_of s !! main = Some data ->
  Uninstall' s = (s', steps) -> all_ok steps ->
  files_of s' = untuned cfg (taken_back data (files_of s)) /\
  h_sys s' = reset_sys cfg walk (no_tuning (taken_back data (files_of s))) (h_sys s) /\
  h_nf s' = (RemoveChain tools (h_nf s)).1 /\ m_db (h_mgr s') = m_db (h_mgr s).
Proof.
  intros Hd HU Hok.
  destruct (Uninstall_run works cfg err_text walk have_sshd sshd_test tools false s)
    as (ok & pre & s5 & E & F & K & N & M). rewrite HU in E. injection E as <- ->.
  apply Forall_app in Hok as [_ [Hs [Hn _]%Forall_cons]%Forall_cons].
  assert (ok = true) as -> by by destruct ok. cbn [negb andb] in F, K.
  destruct apart_main as [_ Hma]. assert (Hm : unitless (files_of s) !! main = Some data).
  { rewrite <- Hd. apply unitless_other; intros E; apply Hma; rewrite E; unfold added; repeat (first [by left|right]). }
  assert (Er : (removal cfg have_sshd sshd_test (unitless (files_of s))).1 = taken_back data (files_of s)).
  { destruct (removal _ _ _ _).2 as [e|] eqn:Er in Hs; [done|]. clear -Er Hm. unfold removal in *.
    rewrite Hm in *. by destruct (have_sshd && _). }
  by rewrite Er in F, K.
Qed.

Lemma untuned_lookup m q : untuned cfg m !! q = if decide (q ∈ tuning_files cfg) then None else m !! q.
Proof.
  case_decide as Hq; [|by apply untuned_other]. pose proof (untuned_none cfg m) as Hn.
  rewrite Forall_forall in Hn. by apply Hn.
Qed.

(** Every file but the main one and those that stay. *)
Lemma undone_files s s1 level q : applied level s s1 -> Forall (fun q => files_of s !! q = None) (added drop) ->
  drop_of cfg (new_main cfg version (is_drop drop) orig level) = snd <$> drop -> q ∉ main :: left_files ->
  untuned cfg (taken_back (new_main cfg version (is_drop drop) orig level) (files_of s1)) !! q = files_of s !! q.
Proof.
  intros Hap Hnew Hdrop [Hm Hl]%not_elem_of_cons. rewrite Forall_forall in Hnew.
  rewrite untuned_lookup, taken_back_other by done. unfold unitless, no_daemon.
  destruct (decide (q ∈ added drop)) as [Ha|Ha].
  - rewrite (Hnew q Ha). case_decide as Ht; [done|]. case_decide as Hd; [done|].
    rewrite lookup_delete. case_decide as Hu; [done|].
    assert (q = UnitPath) as -> by (unfold added in Ha; set_solver).
    destruct (systemd_there (files_of s1)) eqn:Es; [apply lookup_delete_eq|].
    rewrite (ap_unit _ _ _ Hap); [by apply Hnew|].
    unfold systemd_there in *. rewrite (ap_other _ _ _ Hap) in Es; [exact Es|apply apart_dir].
  - assert (Hq : q <> UnitPath /\ q <> unitPath /\ q ∉ tuning_files cfg /\ q ∉ drop_paths drop)
      by (unfold added in Ha; set_solver).
    destruct Hq as (Q1 & Q2 & Q3 & Q4). rewrite !decide_False by done. rewrite lookup_delete_ne by done.
    rewrite <- (ap_other _ _ _ Hap q) by set_solver.
    destruct (systemd_there _); [by rewrite lookup_delete_ne|done].
Qed.
Lemma undone_copy s s1 level : applied level s s1 ->
  drop_of cfg (new_main cfg version (is_drop drop) orig level) = snd <$> drop ->
  taken_back (new_main cfg version (is_drop drop) orig level) (files_of s1) !! backupPath cfg =
  files_of s1 !! backupPath cfg.
Proof.
  intros Hap Hdrop. pose proof copy_tuning as Ht.
  pose proof (apart_new (backupPath cfg) copy_new) as Hn.
  rewrite taken_back_other by (done || set_solver). rewrite decide_False by set_solver.
  apply unitless_other; intros E; apply (apart_units (backupPath cfg)); try done; rewrite E; set_solver.
Qed.

(** Where the kernel's settings end. *)
Lemma undone_kernel s s1 m p c :
  (forall m, walk m ≡ₚ map_to_list m) ->
  (if network_AutoOptimize (Network cfg)
   then exists t, mc_sys t = h_sys s /\ f_files (mc_fs t) !! backupPath cfg = files_of s !! backupPath cfg /\
          files_of s1 !! backupPath cfg = f_files (mc_fs (Netopt.Apply cfg net_err true t).1) !! backupPath cfg /\
          h_sys s1 = mc_sys (Netopt.Apply cfg net_err true t).1
   else h_sys s1 = h_sys s /\ files_of s1 !! backupPath cfg = files_of s !! backupPath cfg) ->
  files_of s !! backupPath cfg = None -> m !! backupPath cfg = files_of s1 !! backupPath cfg ->
  (forall ps m, same_values (h_sys s) m -> stable (originals ps m) /\ is_Some (marshal (originals ps m))) ->
  h_sys s !! p = Some c -> p <> available_cc -> Forall printable (fields c) ->
  sys_accepts p (norm c ++ [x0a]) = true -> (forall m, sysctl_system m !! p = m !! p) ->
  norm <$> reset_sys cfg walk (no_tuning m) (h_sys s1) !! p = Some (norm c).
Proof.
  intros Hwalk Hk Hn Hm Hst Hc Hav Hpr Hacc Hsys.
  assert (Hcopy : no_tuning m !! backupPath cfg = files_of s1 !! backupPath cfg)
    by (by rewrite (no_tuning_copy _ copy_own)).
  destruct (network_AutoOptimize _).
  - destruct Hk as (t & Kt & Ft & Fc & K1). rewrite <- Kt in *.
    rewrite (reset_reads cfg net_err walk works copy_own t (no_tuning m) (h_sys s1) p c); try done; [by rewrite Hc|..].
    + by rewrite Ft.
    + by rewrite Hcopy.
  - destruct Hk as [K1 Fc]. unfold reset_sys. rewrite Hcopy, Fc, Hn. cbn [mbind option_bind].
    rewrite Hsys, K1, Hc. done.
Qed.

(** C29 Provisioning can be undone: on a working disk, after an [Apply] and an [Uninstall]
    that both report no failure, a machine on which nothing was installed has its
    accounts, its files, its packet filter and its kernel settings back. The main file
    of sshd has its text again, to the byte with a drop-in (with a final newline
    without); every other file is as before, but for the three that stay (the
    pristine copy, the banner, the raised file limit of sshd's unit); OUTPUT has the rules it had,
    the chain is gone; every setting reads as before. The conditions: the paths are different ones,
    sshd's file has no marks of the program, and it includes the same directory when its
    Port lines are commented out; the rules of OUTPUT are legible; the kernel takes its own
    values back and no file of the distribution sets them. *)
Theorem Apply_Uninstall s s1 steps s2 steps' :
  NoDup tools -> files_of s !! main = Some orig -> no_marks cfg -> plain orig ->
  Forall (fun l => has_prefix l portComment = false) (text_lines orig) ->
  (forall l, drop_in cfg (Some (new_main cfg version (is_drop drop) orig l)) = drop) ->
  Forall (fun q => files_of s !! q = None) (added drop) ->
  (forall t, t ∈ tools -> legible (nf_table t (h_nf s))) ->
  (forall m, walk m ≡ₚ map_to_list m) ->
  (forall ps m, same_values (h_sys s) m -> stable (originals ps m) /\ is_Some (marshal (originals ps m))) ->
  Apply' s = (s1, steps) -> all_ok steps -> Uninstall' s1 = (s2, steps') -> all_ok steps' ->
  m_db (h_mgr s2) = m_db (h_mgr s) /\
  files_of s2 !! main = Some (if is_drop drop then orig else closed orig) /\
  (forall q, q ∉ main :: left_files -> files_of s2 !! q = files_of s !! q) /\
  (forall t, t ∈ tools -> t_chain (nf_table t (h_nf s2)) = None /\
     t_output (nf_table t (h_nf s2)) = others (nf_table t (h_nf s))) /\
  (forall t, t ∉ tools -> nf_table t (h_nf s2) = nf_table t (h_nf s)) /\
  (forall p c, h_sys s !! p = Some c -> p <> available_cc -> Forall printable (fields c) ->
     sys_accepts p (norm c ++ [x0a]) = true -> (forall m, sysctl_system m !! p = m !! p) ->
     norm <$> h_sys s2 !! p = Some (norm c)).
Proof.
  intros Hnd Horig Hc Hp Hports Hinc Hnew Hleg Hwalk Hst HA Hok HU Hok'.
  destruct (Apply_run s s1 steps Hnd Horig Hleg HA Hok) as [level Hap].
  destruct (Uninstall_ok s1 s2 steps' _ (ap_main _ _ _ Hap) HU Hok') as (F & K & N & M).
  assert (Hdrop : drop_of cfg (new_main cfg version (is_drop drop) orig level) = snd <$> drop)
    by (by rewrite drop_of_in, Hinc).
  destruct (ap_wired _ _ _ Hap) as [Win Wout].
  destruct (RemoveChain_done commands_work shows_work tools (h_nf s1) Hnd
    (fun t Ht => proj1 (proj1 (Win t Ht))) (fun t Ht => proj2 (proj1 (Win t Ht)))) as [Rin Rout].
  split_and!.
  - by rewrite M, (ap_db _ _ _ Hap).
  - rewrite F, untuned_lookup, decide_False by (destruct apart_main as [_ Hma]; unfold added in Hma; set_solver).
    unfold taken_back. by rewrite lookup_insert_eq, removed_main.
  - intros q Hq. rewrite F. by apply undone_files.
  - intros t Ht. rewrite N. destruct (Rin t Ht) as [-> ->]. split; [done|]. by apply Win.
  - intros t Ht. by rewrite N, Rout, Wout.
  - intros p c Hpc Hav Hpr Hacc Hsys. rewrite K.
    apply (undone_kernel s s1); try done; [by apply (ap_kernel level)| |by apply (undone_copy s s1)].
    rewrite Forall_forall in Hnew. apply Hnew. unfold added. rewrite app_assoc. apply elem_of_app. left. apply copy_new.
Qed.
End whole.
End apply.

(* ------------------------------------------------------------------ *)
(** * A concrete server                                                  *)
(* ------------------------------------------------------------------ *)

Section example.
(** A server with the group of the accounts, on which every command succeeds. *)
Definition ready_server : System := {|
  world := ();
  euid _ := 0;
  read_file p _ := if eqb_str p (bs "/etc/group") then Some group_file else None;
  exec _ _ w := (w, (bs "sshvpn:x:1001:", true));
  db_lock w := (w, true);
  little_endian := true;
  proc_env _ := demo_proc;
  kill_answers _ w := (w, (None, None, None, fun _ => None));
  float_overflow _ := 0
|}.
#[local] Existing Instances ready_server plain_calendar user_codec keyed_bolt toy_netfilter open_kernel sysctl_codec sound_disk.

Definition clean_main : gostring :=
  bs "Include /etc/ssh/sshd_config.d/*.conf" ++ [x0a] ++ bs "Port 2222" ++ [x0a].
Definition clean_server : host :=
  mkHost (mkMgr (mkDB ∅ ∅ ∅) tt [])
    (mkFs (<[systemd_dir := []]> {[mainPath Defaults := clean_main; bs "/etc/hosts" := bs "localhost"]}) 0 [])
    (mc_sys small_kernel) old_tables.
Definition run_setup : host * list Step :=
  Setup.Apply Defaults (fun _ => []) (fun _ _ => []) (fun _ => []) true (mkVersion 9 9 []) old_sshd
    (mkServices true false true true) [] [ipt] (bs "/usr/local/bin/sshfortress") None clean_server.
Definition run_removal : host * list Step :=
  Uninstall Defaults (fun _ => []) map_to_list true old_sshd [ipt] false run_setup.1.

Example setup_changes : files_of run_setup.1 !! mainPath Defaults <> Some clean_main /\
  read_sys backlog (h_sys run_setup.1) = Some (bs "8192").
Proof. split; [intros E; vm_compute in E; discriminate|vm_compute; reflexivity]. Qed.

Lemma clean_paths : NoDup (systemd_dir :: mainPath Defaults ::
  left_files Defaults (mkServices true false true true) ++ added Defaults (drop_in Defaults (Some clean_main))).
Proof. apply (bool_decide_unpack _). vm_compute. exact I. Qed.

Lemma clean_main_plain : plain clean_main.
Proof. by apply closed_plain. Qed.
Lemma clean_rules t : t ∈ [ipt] -> legible (nf_table t (h_nf clean_server)).
Proof.
  intros ->%list_elem_of_singleton. assert (E : t_output (nf_table ipt (h_nf clean_server)) = [other_rule]) by reflexivity.
  unfold legible. rewrite E. split; repeat constructor; (discriminate || vm_compute; intuition discriminate).
Qed.
Lemma backlog_printable : Forall printable (fields (bs "4096" ++ [x0a])).
Proof. repeat constructor; [discriminate|..]; vm_compute; intuition discriminate. Qed.

Lemma Apply_Uninstall_witness :
  files_of run_removal.1 !! mainPath Defaults = Some clean_main /\
  files_of run_removal.1 !! UnitPath = None /\
  t_output (nf_table ipt (h_nf run_removal.1)) = [other_rule] /\
  norm <$> h_sys run_removal.1 !! sysPath backlog = Some (bs "4096").
Proof.
  unfold run_removal. destruct run_setup as [s1 steps] eqn:E1. cbn [fst].
  destruct (Uninstall _ _ _ _ _ _ _ s1) as [s2 steps'] eqn:E2. cbn [fst].
  assert (O1 : all_ok steps).
  { apply (f_equal snd) in E1. cbn [snd] in E1. rewrite <- E1. apply (bool_decide_unpack _). vm_compute. exact I. }
  assert (O2 : all_ok steps').
  { assert (E : run_removal.2 = steps') by (unfold run_removal; rewrite E1; exact (f_equal snd E2)).
    rewrite <- E. apply (bool_decide_unpack _). vm_compute. exact I. }
  destruct (Apply_Uninstall sound_works Defaults (fun _ => []) (fun _ _ => []) (fun _ => []) true (mkVersion 9 9 [])
    old_sshd (mkServices true false true true) [] [ipt] (bs "/usr/local/bin/sshfortress") None
    toy_commands_work toy_shows_work clean_main
    clean_paths map_to_list clean_server s1 steps s2 steps')
    as (_ & Hm & Hf & Ht & _ & Hk).
  - apply NoDup_singleton.
  - vm_compute. reflexivity.
  - exact defaults_no_marks.
  - exact clean_main_plain.
  - repeat constructor.
  - intros l. vm_compute. reflexivity.
  - apply (bool_decide_unpack _). vm_compute. exact I.
  - exact clean_rules.
  - reflexivity.
  - intros ps m _. exact (conj I (sysctl_marshals (originals ps m))).
  - exact E1.
  - exact O1.
  - exact E2.
  - exact O2.
  - split; [exact Hm|]. split; [rewrite Hf; [vm_compute; reflexivity|]|].
    { apply (bool_decide_unpack (UnitPath ∉ _)). vm_compute. exact I. }
    split; [destruct (Ht ipt ltac:(by left)) as [_ Ho]; exact Ho|].
    apply (Hk (sysPath backlog) (bs "4096" ++ [x0a])).
    + vm_compute. reflexivity.
    + apply (bool_decide_unpack (sysPath backlog <> available_cc)). vm_compute. exact I.
    + exact backlog_printable.
    + reflexivity.
    + reflexivity.
Defined.
End example.
