(* ===== verification/Doctor.v ===== *)
(** The diagnosis ([src/internal/doctor/doctor.go]): a report computed from what the
    other components, the system and the network answer. *)
From Stdlib Require Import Btauto.
From S2P Require Import Prelude GoStrings Files Procfs Session Gateway Daemon Config Security Store Users Netopt Sshd.

Definition OK : gostring := bs "ok".
Definition Warn : gostring := bs "warn".
Definition Fail : gostring := bs "fail".
Definition Skip : gostring := bs "skip".

Record Check : Type := mkCheck {
  ck_Name : gostring;
  ck_Status : gostring;
  ck_Detail : gostring;
  ck_Fix : gostring
}.

(** ** Helpers *)

Definition firstLine (s : gostring) : gostring :=
  match index_byte s x0a with Some i => take i s | None => s end.
Definition shorten (s : gostring) : gostring :=
  if 90 <? len s then take 87 s ++ bs "..." else s.
Definition orUnknown (s : gostring) : gostring := match s with [] => bs "unknown" | _ => s end.
Definition joinInts (v : list Z) : gostring := join (bs ", ") (itoa <$> v).
Definition lastN {A} (v : list A) (n : Z) : list A :=
  if n <? len v then slice_from (len v - n) v else v.
Definition first (v : option (list gostring)) : gostring :=
  match v with Some (x :: _) => x | _ => [] end.

Fixpoint mem_lines (lines : list gostring) (ram swap : Z) : Z * Z :=
  match lines with
  | [] => (ram, swap)
  | line :: lines =>
      match fields line with
      | f0 :: f1 :: _ =>
          let n := u64 (parse_uint_or0 f1 * 1024) in
          if eqb_str f0 (bs "MemTotal:") then mem_lines lines n swap
          else if eqb_str f0 (bs "SwapTotal:") then mem_lines lines ram n
          else mem_lines lines ram swap
      | _ => mem_lines lines ram swap
      end
  end.
Definition memInfo (data : option gostring) : Z * Z :=
  match data with None => (0, 0) | Some data => mem_lines (split_on x0a data) 0 0 end.

Definition tally (n : Z * Z * Z) (c : Check) : Z * Z * Z :=
  let '(ok, warn, fail) := n in
  if eqb_str (ck_Status c) OK then (ok + 1, warn, fail)
  else if eqb_str (ck_Status c) Warn then (ok, warn + 1, fail)
  else if eqb_str (ck_Status c) Fail then (ok, warn, fail + 1)
  else (ok, warn, fail).
Definition Summary (cs : list Check) : Z * Z * Z := foldl tally (0, 0, 0) cs.

(* ------------------------------------------------------------------ *)
(** * Evidence                                                           *)
(* ------------------------------------------------------------------ *)

(** What [Run] asks, and is answered: the sshd binary (empty when there is none) and
    its version, [sshd -t], the settings [sshd -T] gives for a user, the accounts (asked
    for twice), systemd, the ports in use, the daemon's snapshot, the ports of the UDP
    gateway that can be dialled, the kernel's settings, the packet filter, the memory,
    and the look-up of a name (its duration, or the error). *)
Record evidence : Type := mkEvidence {
  e_root : bool;
  e_now : Z;
  e_binary : gostring;
  e_version : Version;
  e_sshd_test : bool * gostring;
  e_effective : gostring -> result gostring (gmap gostring (list gostring));
  e_users : option (list UserRecord);
  e_users_later : option (list UserRecord);
  e_systemd : bool;
  e_socket_exists : bool;
  e_socket_active : bool;
  e_socket_enabled : bool;
  e_daemon_active : bool;
  e_tcp : option TCPTable;
  e_state : option State;
  e_dial : gostring -> bool;
  e_kernel : gmap gostring gostring;
  e_meminfo : option gostring;
  e_firewall : bool;
  e_lookup : result gostring Z
}.

Section doctor.
Variable cfg : Config.
Variable e : evidence.
(** Texts that packages [fmt] and [time] make, and the order in which Go walks the
    maps. *)
Variable quote : gostring -> gostring.
Variable format_time : Z -> gostring.
Variable show_ms : Z -> gostring.
Variable walk_want : list (gostring * gostring) -> list (gostring * gostring).
Variable walk_failed : gmap gostring gostring -> list (gostring * gostring).

Definition probe : gostring :=
  match e_users e with Some (u :: _) => Username u | _ => [] end.

Definition check_root : list Check :=
  if e_root e then []
  else [mkCheck (bs "Root") Warn (bs "not running as root: many checks are incomplete")
          (bs "run: sudo sshfortress doctor")].

Definition check_config : Check :=
  if (e_sshd_test e).1 then mkCheck (bs "sshd config") OK (bs "valid") []
  else mkCheck (bs "sshd config") Fail (firstLine (e_sshd_test e).2)
         (bs "check " ++ ssh_ConfigPath (SSH cfg) ++ bs " then run: sshfortress apply").

(** What a VPN server should have, and what is wrong with it. *)
Definition want : list (gostring * gostring) :=
  [(bs "usedns", bs "no"); (bs "tcpkeepalive", bs "yes")] ++
  (match probe with [] => [] | _ => [(bs "passwordauthentication", bs "yes")] end) ++
  (if ssh_Compression (SSH cfg) then [] else [(bs "compression", bs "no")]).
Definition wrong_values (eff : gmap gostring (list gostring)) (l : list (gostring * gostring))
    : list gostring :=
  omap (fun '(k, w) => let got := first (eff !! k) in
                       if eqb_str got w then None
                       else Some (k ++ bs "=" ++ got ++ bs " (want " ++ w ++ bs ")")) l.
Definition bad_settings (eff : gmap gostring (list gostring)) : list gostring :=
  wrong_values eff (walk_want want) ++
  (if atoi_or0 (first (eff !! bs "clientaliveinterval")) =? 0
   then [bs "clientaliveinterval=0 (dead phones keep their slot)"] else []) ++
  (let fw := first (eff !! bs "allowtcpforwarding") in
   match probe with
   | [] => []
   | _ => if negb (eqb_str fw (bs "yes")) && negb (eqb_str fw (bs "local")) && negb (eqb_str fw (bs "all"))
          then [bs "allowtcpforwarding=" ++ fw ++ bs " (tunnels can't work)"] else []
   end) ++
  (let ms := first (eff !! bs "maxstartups") in
   if has_prefix ms (bs "10:")
   then [bs "maxstartups=" ++ ms ++ bs " (refuses users when many reconnect at once)"] else []).
Definition check_settings : Check :=
  match e_effective e probe with
  | Err err => mkCheck (bs "sshd settings") Skip err []
  | Ok eff =>
      match bad_settings eff with
      | [] => mkCheck (bs "sshd settings") OK
                (bs "tuned for VPN" ++
                 match probe with [] => [] | p => bs " (checked as VPN user " ++ quote p ++ bs ")" end) []
      | bad => mkCheck (bs "sshd settings") Warn (join (bs "; ") bad) (bs "run: sshfortress apply")
      end
  end.

Definition check_socket : list Check :=
  if e_systemd e && e_socket_exists e && (e_socket_active e || e_socket_enabled e)
  then [mkCheck (bs "ssh.socket") Warn (bs "socket activation is on: extra SSH ports are ignored")
          (bs "run: sshfortress apply (switches to ssh.service)")]
  else [].

Definition listening (p : Z) : bool :=
  match e_tcp e with Some t => bool_decide (u16 p ∈ ListenPorts t) | None => false end.
Definition missing : list gostring := itoa <$> filter (fun p => listening p = false) (ssh_Ports (SSH cfg)).
Definition check_ports : Check :=
  match missing with
  | [] => mkCheck (bs "SSH ports") OK (bs "listening on " ++ joinInts (ssh_Ports (SSH cfg))) []
  | m => mkCheck (bs "SSH ports") Fail (bs "not listening on " ++ join (bs ", ") m)
           (bs "run: sshfortress apply; check firewall/other services on these ports")
  end.

Definition daemonOK : bool := match e_state e with Some st => Fresh st (e_now e) | None => false end.
Definition check_daemon : list Check :=
  if e_systemd e && negb (e_daemon_active e)
  then [mkCheck (bs "Daemon") Fail (bs "sshfortress service is not running: no limits, quotas or UDP gateway")
          (bs "systemctl enable --now sshfortress")]
  else match e_state e with
       | Some st =>
           if daemonOK
           then mkCheck (bs "Daemon") OK
                  (bs "up since " ++ format_time (st_StartedAt st) ++ bs ", " ++
                   itoa (len (Daemon.st_Sessions st)) ++ bs " online") [] ::
                ((fun w => mkCheck (bs "Daemon warning") Warn w []) <$> lastN (st_Warnings st) 3)
           else [mkCheck (bs "Daemon") Warn (bs "no fresh state from the daemon") (bs "journalctl -u sshfortress -n 50")]
       | None => [mkCheck (bs "Daemon") Warn (bs "no fresh state from the daemon") (bs "journalctl -u sshfortress -n 50")]
       end.

Definition udp_up (p : Z) : bool := e_dial e (join_host_port (udpgw_Listen (UDPGW cfg)) p).
Definition check_udpgw : Check :=
  let name := bs "UDP gateway (calls)" in
  if udpgw_Enabled (UDPGW cfg)
  then
    let up := itoa <$> filter (fun p => udp_up p = true) (udpgw_Ports (UDPGW cfg)) in
    let down := itoa <$> filter (fun p => udp_up p = false) (udpgw_Ports (UDPGW cfg)) in
    match down, up with
    | [], _ => mkCheck name OK (udpgw_Mode (UDPGW cfg) ++ bs " mode, ports " ++ join (bs ", ") up) []
    | _, _ :: _ => mkCheck name Warn (bs "down on " ++ join (bs ", ") down) (bs "journalctl -u sshfortress -n 50")
    | _, [] => mkCheck name Fail (bs "not reachable: voice/video calls and games won't work")
                 (bs "systemctl restart sshfortress")
    end
  else mkCheck name Warn (bs "disabled: UDP (calls, games, QUIC) won't work through SSH")
         (bs "set udpgw.enabled: true and run: sshfortress apply").

Definition check_gateway : Check :=
  let name := bs "Gateway" in
  if gateway_Enabled (Config.Gateway cfg)
  then
    match (if daemonOK then e_state e ≫= Daemon.st_Gateway else None) with
    | Some g =>
        match walk_failed (Gateway.st_Failed g) with
        | [] => mkCheck name OK (bs "SSH/WebSocket/TLS on " ++ joinInts (Gateway.st_Ports g)) []
        | f => mkCheck name Warn
                 (bs "some ports failed — " ++ join (bs "; ") ((fun '(p, er) => p ++ bs ": " ++ shorten er) <$> f))
                 (bs "free those ports or change gateway.ports")
        end
    | None => mkCheck name Warn (bs "enabled but no state from the daemon") (bs "systemctl restart sshfortress")
    end
  else mkCheck name Skip (bs "disabled (WebSocket/CDN/TLS access is off)")
         (bs "sshfortress gateway enable --ports 80,443").

Definition check_bbr : Check :=
  if BBRActive (e_kernel e)
  then mkCheck (bs "BBR") OK (bs "active, qdisc " ++ default [] (read_sys qdisc_key (e_kernel e))) []
  else mkCheck (bs "BBR") Warn
         (bs "congestion control is " ++ orUnknown (default [] (read_sys cc_key (e_kernel e))))
         (bs "run: sshfortress optimize").
Definition check_profile : list Check :=
  let '(a, t) := Score (Status cfg (e_meminfo e) (e_kernel e)) in
  let detail := itoa a ++ bs "/" ++ itoa t ++ bs " settings applied" in
  if (0 <? t) && (a * 100 / t <? 80)
  then [mkCheck (bs "Network profile") Warn detail (bs "run: sshfortress optimize")]
  else if 0 <? t then [mkCheck (bs "Network profile") OK detail []]
  else [].
Definition check_firewall : list Check :=
  if firewall_Enabled (Config.Firewall cfg)
  then if e_firewall e
       then [mkCheck (bs "Firewall") OK (bs "VPN users can't reach local services or send spam") []]
       else [mkCheck (bs "Firewall") Warn (bs "egress rules not installed")
               (bs "apt install iptables; systemctl restart sshfortress")]
  else [].

Definition check_memory : list Check :=
  let '(ram, swap) := memInfo (e_meminfo e) in
  if 0 <? ram
  then
    let detail := bs "RAM " ++ itoa (Z.shiftr ram 20) ++ bs " MB, swap " ++ itoa (Z.shiftr swap 20) ++ bs " MB" in
    if (ram <? Z.shiftl 900 20) && (swap =? 0)
    then [mkCheck (bs "Memory") Warn
            (detail ++ bs " — each SSH session uses ~5 MB; small servers can run out") (bs "add a 1-2 GB swap file")]
    else [mkCheck (bs "Memory") OK detail []]
  else [].
Definition check_dns : Check :=
  match e_lookup e with
  | Err err => mkCheck (bs "DNS") Fail (bs "cannot resolve telegram.org: " ++ shorten err) (bs "check /etc/resolv.conf")
  | Ok el =>
      if 500 * 1000000 <? el
      then mkCheck (bs "DNS") Warn (bs "slow lookups (" ++ show_ms el ++ bs ") slow down every new site")
             (bs "use a faster resolver, e.g. 1.1.1.1")
      else mkCheck (bs "DNS") OK (bs "resolves in " ++ show_ms el) []
  end.

Definition expiredActive (users : list UserRecord) : list UserRecord :=
  filter (fun u => IsExpired u (e_now e) && negb (Disabled u) = true) users.
Definition check_users : list Check :=
  match e_users_later e with
  | None => []
  | Some users =>
      if (0 <? len (expiredActive users)) && negb daemonOK
      then [mkCheck (bs "Users") Warn
              (itoa (len (expiredActive users)) ++ bs " expired users still enabled (daemon not running)")
              (bs "systemctl enable --now sshfortress")]
      else [mkCheck (bs "Users") OK (itoa (len users) ++ bs " managed users") []]
  end.

Definition Run : list Check :=
  check_root ++
  match e_binary e with
  | [] => [mkCheck (bs "OpenSSH server") Fail (bs "sshd not found")
             (bs "apt install openssh-server  (or dnf install openssh-server)")]
  | bin =>
      [mkCheck (bs "OpenSSH server") OK (orUnknown (Raw (e_version e)) ++ bs " (" ++ bin ++ bs ")") [];
       check_config; check_settings] ++
      check_socket ++ [check_ports] ++ check_daemon ++ [check_udpgw; check_gateway; check_bbr] ++
      check_profile ++ check_firewall ++ check_memory ++ [check_dns] ++ check_users
  end.

(** What the command exits with: with [--json] it returns before the problems are counted. *)
Definition exit_status (json : bool) : Z :=
  if json then 0
  else let '(_, _, fail) := Summary Run in if 0 <? fail then 2 else 0.
End doctor.

(* ------------------------------------------------------------------ *)
(** * Properties                                                         *)
(* ------------------------------------------------------------------ *)

Definition is_fail (c : Check) : bool := eqb_str (ck_Status c) Fail.
Definition failing (cs : list Check) : bool := existsb is_fail cs.

Lemma failing_app a b : failing (a ++ b) = failing a || failing b.
Proof. apply existsb_app. Qed.

(** The three numbers of the summary, each with its own status. *)
Definition count (st : gostring) (cs : list Check) : Z := len (filter (fun c => ck_Status c = st) cs).
Lemma count_cons st c cs :
  count st (c :: cs) = (if decide (ck_Status c = st) then 1 else 0) + count st cs.
Proof. unfold count. rewrite filter_cons. case_decide; rewrite ?len_cons; lia. Qed.
Lemma tally_count ok warn fail c : tally (ok, warn, fail) c =
  (ok + (if decide (ck_Status c = OK) then 1 else 0), warn + (if decide (ck_Status c = Warn) then 1 else 0),
   fail + (if decide (ck_Status c = Fail) then 1 else 0)).
Proof.
  assert (Hne : OK <> Warn /\ OK <> Fail /\ Warn <> Fail) by done.
  destruct Hne as (H1 & H2 & H3). unfold tally, eqb_str.
  repeat (case_bool_decide || case_decide); try congruence; repeat lazymatch goal with |- (_, _) = (_, _) => apply f_equal2 end; lia.
Qed.
Lemma Summary_counts cs : Summary cs = (count OK cs, count Warn cs, count Fail cs).
Proof.
  unfold Summary. enough (H : forall a b c, foldl tally (a, b, c) cs =
    (a + count OK cs, b + count Warn cs, c + count Fail cs)) by apply H.
  induction cs as [|ch cs IH]; intros a b c; [by rewrite !Z.add_0_r|]. cbn [foldl].
  rewrite tally_count, IH, !count_cons. repeat lazymatch goal with |- (_, _) = (_, _) => apply f_equal2 end; lia.
Qed.

Lemma count_fail cs : (0 <? count Fail cs) = failing cs.
Proof.
  induction cs as [|c cs IH]; [done|]. rewrite count_cons. cbn [failing existsb].
  pose proof (len_nonneg (filter (fun c => ck_Status c = Fail) cs)) as Hn. fold (count Fail cs) in Hn.
  unfold is_fail, eqb_str. case_decide as E.
  - rewrite bool_decide_true by done. lia.
  - rewrite bool_decide_false by done. exact IH.
Qed.

Section properties.
Variable cfg : Config.
Variable e : evidence.
Variable quote : gostring -> gostring.
Variable format_time : Z -> gostring.
Variable show_ms : Z -> gostring.
Variable walk_want : list (gostring * gostring) -> list (gostring * gostring).
Variable walk_failed : gmap gostring gostring -> list (gostring * gostring).

Abbreviation Run' := (Run cfg e quote format_time show_ms walk_want walk_failed).

(** What makes the command fail: what a VPN server cannot work without. *)
Definition broken : Prop :=
  e_binary e = [] \/
  (e_sshd_test e).1 = false \/
  (exists p, p ∈ ssh_Ports (SSH cfg) /\ listening e p = false) \/
  (e_systemd e = true /\ e_daemon_active e = false) \/
  (udpgw_Enabled (UDPGW cfg) = true /\ udpgw_Ports (UDPGW cfg) <> [] /\
   forall p, p ∈ udpgw_Ports (UDPGW cfg) -> udp_up cfg e p = false) \/
  (exists err, e_lookup e = Err err).

Lemma failing_ports : failing [check_ports cfg e] = true <->
  exists p, p ∈ ssh_Ports (SSH cfg) /\ listening e p = false.
Proof.
  unfold check_ports, missing.
  destruct (filter (fun p => listening e p = false) (ssh_Ports (SSH cfg))) as [|p l] eqn:E; cbn [fmap list_fmap].
  - split; [done|]. intros (p & Hp & Hl). exfalso.
    assert (Hin : p ∈ filter (fun p => listening e p = false) (ssh_Ports (SSH cfg)))
      by (by apply list_elem_of_filter). rewrite E in Hin. by apply elem_of_nil in Hin.
  - split; [|done]. intros _. exists p.
    assert (Hin : p ∈ filter (fun p => listening e p = false) (ssh_Ports (SSH cfg)))
      by (rewrite E; left). by apply list_elem_of_filter in Hin as [? ?].
Qed.

Lemma failing_udpgw : failing [check_udpgw cfg e] = true <->
  udpgw_Enabled (UDPGW cfg) = true /\ udpgw_Ports (UDPGW cfg) <> [] /\
  forall p, p ∈ udpgw_Ports (UDPGW cfg) -> udp_up cfg e p = false.
Proof.
  unfold check_udpgw. destruct (udpgw_Enabled (UDPGW cfg)); [|by split; [|intros [? _]]].
  set (ps := udpgw_Ports (UDPGW cfg)).
  destruct (filter (fun p => udp_up cfg e p = false) ps) as [|d ds] eqn:Ed; cbn [fmap list_fmap].
  - split; [done|]. intros (_ & Hne & Hall). destruct ps as [|p ps]; [done|].
    assert (Hin : p ∈ filter (fun p => udp_up cfg e p = false) (p :: ps))
      by (apply list_elem_of_filter; split; [apply Hall; left|left]).
    rewrite Ed in Hin. by apply elem_of_nil in Hin.
  - assert (Hd : d ∈ ps) by (assert (Hin : d ∈ filter (fun p => udp_up cfg e p = false) ps)
      by (rewrite Ed; left); by apply list_elem_of_filter in Hin as [? ?]).
    destruct (filter (fun p => udp_up cfg e p = true) ps) as [|u us] eqn:Eu; cbn [fmap list_fmap].
    + split; [|done]. intros _. split; [done|]. split; [by intros En; rewrite En in Hd; apply elem_of_nil in Hd|].
      intros p Hp. destruct (udp_up cfg e p) eqn:Eup; [|done].
      assert (Hin : p ∈ filter (fun p => udp_up cfg e p = true) ps) by (by apply list_elem_of_filter).
      rewrite Eu in Hin. by apply elem_of_nil in Hin.
    + split; [done|]. intros (_ & _ & Hall).
      assert (Hin : u ∈ filter (fun p => udp_up cfg e p = true) ps) by (rewrite Eu; left).
      apply list_elem_of_filter in Hin as [Hu Hin]. by rewrite Hall in Hu.
Qed.

Lemma failing_daemon : failing (check_daemon e format_time) = true <->
  e_systemd e = true /\ e_daemon_active e = false.
Proof.
  assert (Hw : forall l, failing ((fun w => mkCheck (bs "Daemon warning") Warn w []) <$> l) = false)
    by (intros l; by induction l).
  unfold check_daemon. destruct (e_systemd e), (e_daemon_active e); cbn [andb negb]; try done.
  all: split; [|intros [? ?]; done].
  all: destruct (e_state e) as [st|]; [|done]; destruct (daemonOK e); [|done];
    change (failing (?c :: ?l)) with (is_fail c || failing l); rewrite Hw; done.
Qed.

Lemma failing_config : failing [check_config cfg e] = true <-> (e_sshd_test e).1 = false.
Proof. unfold check_config. by destruct (e_sshd_test e).1. Qed.
Lemma failing_dns : failing [check_dns e show_ms] = true <-> exists err, e_lookup e = Err err.
Proof.
  unfold check_dns. destruct (e_lookup e) as [el|err]; [|by split; [exists err|]].
  destruct (_ <? el); by split; [|intros [? ?]].
Qed.

(** The checks that at most warn. *)
Definition advisory : list Check :=
  check_root e ++ [check_settings cfg e quote walk_want] ++ check_socket e ++
  [check_gateway cfg e walk_failed; check_bbr e] ++ check_profile cfg e ++ check_firewall cfg e ++
  check_memory e ++ check_users e.
Lemma advisory_passes : failing advisory = false.
Proof.
  unfold advisory. rewrite !failing_app, !orb_false_iff. split_and!.
  - unfold check_root. by destruct (e_root e).
  - unfold check_settings. destruct (e_effective e _) as [eff|err]; [|done]. by destruct (bad_settings _ _ _ _).
  - unfold check_socket. by destruct (_ && _).
  - unfold check_gateway, check_bbr. destruct (BBRActive _), (gateway_Enabled _); try done;
      (destruct (if daemonOK e then _ else _) as [g|]; [|done]); by destruct (walk_failed _).
  - unfold check_profile. destruct (Score _) as [a t].
    destruct (0 <? t); [|done]. by destruct (true && (a * 100 / t <? 80)).
  - unfold check_firewall. by destruct (firewall_Enabled _), (e_firewall e).
  - unfold check_memory. destruct (memInfo _) as [ram swap].
    destruct (0 <? ram); [|done]. by destruct ((ram <? _) && (swap =? 0)).
  - unfold check_users. destruct (e_users_later e) as [us|]; [|done]. by destruct (_ && _).
Qed.

(** With an sshd, only these checks can fail. *)
Lemma failing_Run : e_binary e <> [] ->
  failing Run' = failing [check_config cfg e] || failing [check_ports cfg e] ||
                 failing (check_daemon e format_time) || failing [check_udpgw cfg e] ||
                 failing [check_dns e show_ms].
Proof.
  intros Hb. pose proof advisory_passes as Ha. unfold advisory in Ha.
  rewrite !failing_app, !orb_false_iff in Ha. destruct Ha as (H1 & H2 & H3 & H4 & H5 & H6 & H7 & H8).
  unfold Run. destruct (e_binary e) as [|x bin]; [done|].
  rewrite !failing_app, H1, H3, H5, H6, H7, H8. unfold failing in *. cbn [existsb] in *.
  rewrite !orb_false_r in *. apply orb_false_iff in H4 as [H4 H4']. rewrite H2, H4, H4'.
  change (is_fail (mkCheck (bs "OpenSSH server") OK ?d ?f)) with false. btauto.
Qed.

(** C37 The diagnosis fails exactly when the server cannot serve: there is no sshd, sshd
    rejects its configuration, a configured SSH port is not open, the daemon is not
    running, every port of the enabled UDP gateway is closed, or names cannot be
    resolved; everything else is a warning. [doctor] exits with 2 exactly then and with 0
    otherwise, and [doctor --json] shows the same checks and always exits with 0. *)
Theorem Run_fails_iff :
  let s := exit_status cfg e quote format_time show_ms walk_want walk_failed in
  ((exists k, k ∈ Run' /\ ck_Status k = Fail) <-> broken) /\
  (s false = 2 <-> broken) /\ (s false = 0 <-> ~ broken) /\ s true = 0.
Proof.
  assert (Hs : exit_status cfg e quote format_time show_ms walk_want walk_failed false =
               if failing Run' then 2 else 0).
  { unfold exit_status. by rewrite Summary_counts, count_fail. }
  assert (Hf : (exists k, k ∈ Run' /\ ck_Status k = Fail) <-> failing Run' = true).
  { unfold failing. rewrite existsb_exists. setoid_rewrite <- list_elem_of_In. unfold is_fail.
    split; intros (k & Hk & Hst); exists k; (split; [done|]); by apply eqb_str_true. }
  cbv zeta. rewrite Hs, Hf. enough (failing Run' = true <-> broken) as Hb.
  { split; [exact Hb|]. split_and!; [destruct (failing Run'); naive_solver..|done]. }
  destruct (decide (e_binary e = [])) as [Eb|Hb].
  { unfold broken. split; [by left|]. intros _. unfold Run. rewrite failing_app, Eb. apply orb_true_r. }
  rewrite failing_Run, !orb_true_iff by done. unfold broken.
  rewrite failing_config, failing_ports, failing_daemon, failing_udpgw, failing_dns. tauto.
Qed.
End properties.
