(* ===== verification/GoFloat.v ===== *)
(** [float64] arithmetic as the program's displays use it: values are dyadic numbers
    ([Config.float]); every operation rounds to 53 bits, half to even, and the values
    stay far from the ends of the exponent range. *)
From S2P Require Import Prelude GoStrings Config.

(** The nearest integer to [num / den], half to even. *)
Definition rhe (num den : Z) : Z :=
  let q := num / den in
  let r := 2 * (num mod den) in
  if r <? den then q else if den <? r then q + 1 else if Z.even q then q else q + 1.

Definition pow2 (num den k : Z) : Z * Z :=
  if 0 <=? k then (num * 2 ^ k, den) else (num, den * 2 ^ (- k)).

(** The double nearest to [num / den]. *)
Definition fround (num den : Z) : float :=
  if num =? 0 then mkFloat 0 0
  else
    let n := Z.abs num in
    let e0 := Z.log2 n - Z.log2 den in
    let '(a, b) := pow2 n den (- e0) in
    let e := if a <? b then e0 - 1 else e0 in
    let '(a, b) := pow2 n den (52 - e) in
    mkFloat (Z.sgn num * rhe a b) (e - 52).

Definition fnum (f : float) : Z := if 0 <=? fl_e f then fl_m f * 2 ^ fl_e f else fl_m f.
Definition fden (f : float) : Z := if 0 <=? fl_e f then 1 else 2 ^ (- fl_e f).

Definition of_int (n : Z) : float := fround n 1.
Definition fadd (a b : float) : float :=
  fround (fnum a * fden b + fnum b * fden a) (fden a * fden b).
Definition fmul (a b : float) : float := fround (fnum a * fnum b) (fden a * fden b).
(** Division by a positive number. *)
Definition fdiv (a b : float) : float := fround (fnum a * fden b) (fden a * fnum b).
(** [int(f)]: towards zero. *)
Definition ftrunc (f : float) : Z := Z.quot (fnum f) (fden f).

(** [%.nf] *)
Definition pad0 (n : nat) (s : gostring) : gostring := replicate (n - length s) x30 ++ s.
Definition fixed (prec : nat) (f : float) : gostring :=
  let n := rhe (Z.abs (fnum f) * 10 ^ Z.of_nat prec) (fden f) in
  let sign := if fnum f <? 0 then bs "-" else [] in
  match prec with
  | O => sign ++ itoa n
  | _ => sign ++ itoa (n / 10 ^ Z.of_nat prec) ++ bs "." ++
         pad0 prec (itoa (n mod 10 ^ Z.of_nat prec))
  end.

Example fixed_third : fixed 1 (fdiv (of_int 1) (of_int 3)) = bs "0.3".
Proof. vm_compute. reflexivity. Qed.
Example fixed_even : fixed 0 (fdiv (of_int 5) (of_int 2)) = bs "2".
Proof. vm_compute. reflexivity. Qed.
(** One tenth is above its decimal text, and three of them are not three tenths. *)
Example tenth : of_int 3 = mkFloat (3 * 2 ^ 51) (-51) /\
  fmul (of_int 3) (fround 1 10) <> fround 3 10.
Proof. vm_compute. split; [reflexivity|discriminate]. Qed.

(* ------------------------------------------------------------------ *)
(** * Rounding                                                           *)
(* ------------------------------------------------------------------ *)

Lemma rhe_exact q den : 0 < den -> rhe (q * den) den = q.
Proof.
  intros Hd. unfold rhe. rewrite Z.div_mul, Z.mod_mul by lia.
  by replace (2 * 0 <? den) with true by (symmetry; lia).
Qed.

(** The result is at most half a unit away. *)
Lemma rhe_near num den : 0 < den -> - den <= 2 * (rhe num den * den - num) <= den.
Proof.
  intros Hd. unfold rhe.
  pose proof (Z.div_mod num den ltac:(lia)). pose proof (Z.mod_pos_bound num den Hd).
  destruct (Z.ltb_spec (2 * (num mod den)) den); [nia|].
  destruct (Z.ltb_spec den (2 * (num mod den))); [nia|]. destruct (Z.even _); nia.
Qed.

(** Integers below 2^53 are doubles. *)
Lemma of_int_exact n : 0 <= n < 2 ^ 53 ->
  fnum (of_int n) = n * fden (of_int n).
Proof.
  intros Hn. unfold of_int, fround. destruct (Z.eqb_spec n 0) as [->|Hz]; [done|].
  rewrite Z.abs_eq, Z.sgn_pos by lia. change (Z.log2 1) with 0. rewrite Z.sub_0_r.
  pose proof (Z.log2_spec n ltac:(lia)) as [Hl Hu]. set (e := Z.log2 n) in *.
  assert (He : 0 <= e <= 52).
  { split; [apply Z.log2_nonneg|]. apply Z.lt_succ_r. change (Z.succ 52) with 53.
    apply (Z.pow_lt_mono_r_iff 2); lia. }
  assert (Eq : (let '(a, b) := pow2 n 1 (- e) in a <? b) = false).
  { unfold pow2. destruct (Z.leb_spec 0 (- e)); [replace e with 0 by lia; cbn; lia|].
    rewrite Z.opp_involutive. lia. }
  destruct (pow2 n 1 (- e)) as [a b]. rewrite Eq. unfold pow2.
  replace (0 <=? 52 - e) with true by (symmetry; apply Z.leb_le; lia).
  replace (rhe (n * 2 ^ (52 - e)) 1) with (n * 2 ^ (52 - e))
    by (symmetry; rewrite <- (Z.mul_1_r (n * 2 ^ (52 - e))) at 1; apply rhe_exact; lia).
  unfold fnum, fden. cbn [fl_m fl_e]. destruct (Z.leb_spec 0 (e - 52)).
  - replace (e - 52) with 0 by lia. replace (52 - e) with 0 by lia. lia.
  - replace (- (e - 52)) with (52 - e) by lia. lia.
Qed.

(** Common factors do not matter. *)
Lemma rhe_scale num den c : 0 < den -> 0 < c -> rhe (num * c) (den * c) = rhe num den.
Proof.
  intros Hd Hc. unfold rhe. rewrite Z.div_mul_cancel_r, Z.mul_mod_distr_r by lia.
  replace (2 * (num mod den * c)) with (2 * (num mod den) * c) by lia.
  assert (E1 : (2 * (num mod den) * c <? den * c) = (2 * (num mod den) <? den))
    by (destruct (Z.ltb_spec (2 * (num mod den)) den); [apply Z.ltb_lt|apply Z.ltb_ge]; nia).
  assert (E2 : (den * c <? 2 * (num mod den) * c) = (den <? 2 * (num mod den)))
    by (destruct (Z.ltb_spec den (2 * (num mod den))); [apply Z.ltb_lt|apply Z.ltb_ge]; nia).
  by rewrite E1, E2.
Qed.

Lemma pow2_scale num den k c :
  pow2 (num * c) (den * c) k = ((pow2 num den k).1 * c, (pow2 num den k).2 * c).
Proof. unfold pow2. destruct (0 <=? k); cbn [fst snd]; f_equal; lia. Qed.

Lemma fround_scale n den j : 0 < n -> 0 < den -> 0 <= j ->
  fround (n * 2 ^ j) (den * 2 ^ j) = fround n den.
Proof.
  intros Hn Hd Hj. assert (Hp : 0 < 2 ^ j) by lia. unfold fround.
  replace (n * 2 ^ j =? 0) with false by (symmetry; apply Z.eqb_neq; nia).
  replace (n =? 0) with false by (symmetry; apply Z.eqb_neq; lia).
  rewrite !Z.abs_eq, !Z.sgn_pos by nia. rewrite !Z.log2_mul_pow2 by lia.
  replace (j + Z.log2 n - (j + Z.log2 den)) with (Z.log2 n - Z.log2 den) by lia.
  rewrite !pow2_scale. destruct (pow2 n den (- _)) as [a b]. cbn [fst snd].
  replace (a * 2 ^ j <? b * 2 ^ j) with (a <? b)
    by (destruct (Z.ltb_spec a b); symmetry; [apply Z.ltb_lt|apply Z.ltb_ge]; nia).
  set (e := if a <? b then _ else _).
  destruct (pow2 n den (52 - e)) as [a' b'] eqn:E. cbn [fst snd].
  rewrite rhe_scale; [done| |done]. unfold pow2 in E. destruct (0 <=? 52 - e) eqn:He; injection E as <- <-; [done|].
  apply Z.mul_pos_pos; [done|]. apply Z.pow_pos_nonneg; lia.
Qed.

(** Halving is exact: a quotient of an integer below 2^53 by a power of two. *)
Lemma fround_pow2 n k : 0 < n < 2 ^ 53 -> 0 <= k ->
  fround n (2 ^ k) = mkFloat (n * 2 ^ (52 - Z.log2 n)) (Z.log2 n - k - 52).
Proof.
  intros Hn Hk. unfold fround. replace (n =? 0) with false by (symmetry; apply Z.eqb_neq; lia).
  rewrite Z.abs_eq, Z.sgn_pos, Z.log2_pow2 by lia.
  pose proof (Z.log2_spec n ltac:(lia)) as [Hl Hu]. set (e := Z.log2 n) in *.
  assert (He : 0 <= e <= 52).
  { split; [apply Z.log2_nonneg|]. apply Z.lt_succ_r. change (Z.succ 52) with 53.
    apply (Z.pow_lt_mono_r_iff 2); lia. }
  assert (Eq : (let '(a, b) := pow2 n (2 ^ k) (- (e - k)) in a <? b) = false).
  { unfold pow2. destruct (Z.leb_spec 0 (- (e - k))); apply Z.ltb_ge.
    - replace k with (e + - (e - k)) at 1 by lia. rewrite Z.pow_add_r by lia.
      apply Z.mul_le_mono_nonneg_r; lia.
    - rewrite <- Z.pow_add_r by lia. by replace (k + - - (e - k)) with e by lia. }
  destruct (pow2 n (2 ^ k) (- (e - k))) as [a b]. rewrite Eq. unfold pow2.
  replace (0 <=? 52 - (e - k)) with true by (symmetry; apply Z.leb_le; lia).
  replace (n * 2 ^ (52 - (e - k))) with (n * 2 ^ (52 - e) * 2 ^ k)
    by (rewrite <- Z.mul_assoc, <- Z.pow_add_r by lia; do 2 f_equal; lia).
  rewrite rhe_exact by lia. f_equal; lia.
Qed.

Lemma of_int_den n : 0 < n < 2 ^ 53 -> exists j, 0 <= j /\ fden (of_int n) = 2 ^ j.
Proof.
  intros Hn. unfold of_int. change 1 with (2 ^ 0). rewrite fround_pow2 by lia.
  unfold fden. cbn [fl_e]. destruct (0 <=? _) eqn:E; [by exists 0|]. eexists. split; [|done]. lia.
Qed.

(** One decimal of an integer over a power of two. *)
Lemma fixed1_quotient n k : 0 < n < 2 ^ 53 -> 0 <= k < 53 ->
  fixed 1 (fdiv (of_int n) (of_int (2 ^ k))) =
    itoa (rhe (n * 10) (2 ^ k) / 10) ++ bs "." ++ pad0 1 (itoa (rhe (n * 10) (2 ^ k) mod 10)).
Proof.
  intros Hn Hk.
  assert (Hk' : 0 < 2 ^ k < 2 ^ 53) by (split; [lia|apply Z.pow_lt_mono_r; lia]).
  destruct (of_int_den n Hn) as (j & Hj & Ej). destruct (of_int_den (2 ^ k) Hk') as (i & Hi & Ei).
  unfold fdiv. rewrite !of_int_exact by lia. rewrite Ej, Ei.
  replace (n * 2 ^ j * 2 ^ i) with (n * 2 ^ (j + i)) by (rewrite Z.pow_add_r by lia; lia).
  replace (2 ^ j * (2 ^ k * 2 ^ i)) with (2 ^ k * 2 ^ (j + i)) by (rewrite Z.pow_add_r by lia; lia).
  rewrite fround_scale, fround_pow2 by lia.
  pose proof (Z.log2_spec n ltac:(lia)) as [Hl Hu]. set (e := Z.log2 n) in *.
  assert (He : 0 <= e <= 52).
  { split; [apply Z.log2_nonneg|]. apply Z.lt_succ_r. change (Z.succ 52) with 53.
    apply (Z.pow_lt_mono_r_iff 2); lia. }
  assert (Er : rhe (Z.abs (fnum (mkFloat (n * 2 ^ (52 - e)) (e - k - 52))) * 10 ^ Z.of_nat 1)
                   (fden (mkFloat (n * 2 ^ (52 - e)) (e - k - 52))) = rhe (n * 10) (2 ^ k)).
  { unfold fnum, fden. cbn [fl_m fl_e]. destruct (Z.leb_spec 0 (e - k - 52)).
    - replace (e - k - 52) with 0 by lia. replace k with 0 by lia. replace (52 - e) with 0 by lia.
      rewrite Z.abs_eq by lia. f_equal; lia.
    - rewrite Z.abs_eq by nia. replace (- (e - k - 52)) with (k + (52 - e)) by lia.
      rewrite Z.pow_add_r by lia.
      replace (n * 2 ^ (52 - e) * 10 ^ Z.of_nat 1) with (n * 10 * 2 ^ (52 - e)) by lia.
      apply rhe_scale; lia. }
  unfold fixed. rewrite Er. replace (fnum _ <? 0) with false; [done|]. symmetry. apply Z.ltb_ge.
  unfold fnum. cbn [fl_m fl_e]. destruct (0 <=? _); nia.
Qed.

(* ------------------------------------------------------------------ *)
(** * Rounding does not cross an integer                                 *)
(* ------------------------------------------------------------------ *)

Lemma fden_pos f : 0 < fden f.
Proof. unfold fden. destruct (Z.leb_spec 0 (fl_e f)); [lia|]. apply Z.pow_pos_nonneg; lia. Qed.

Lemma rhe_le num den q : 0 < den -> num <= q * den -> rhe num den <= q.
Proof. intros Hd Hn. pose proof (rhe_near num den Hd). nia. Qed.
Lemma rhe_nonneg num den : 0 < den -> 0 <= num -> 0 <= rhe num den.
Proof. intros Hd Hn. pose proof (rhe_near num den Hd). nia. Qed.

(** The exponent that [fround] chooses: 2^e is at most the number. *)
Lemma fround_exponent n den : 0 < n -> 0 < den ->
  let e0 := Z.log2 n - Z.log2 den in
  let '(a, b) := pow2 n den (- e0) in
  let e := if a <? b then e0 - 1 else e0 in
  den * 2 ^ e <= n \/ (e < 0 /\ den <= n * 2 ^ (- e)).
Proof.
  intros Hn Hd e0. pose proof (Z.log2_spec n Hn) as [Hn1 Hn2]. pose proof (Z.log2_spec den Hd) as [Hd1 Hd2].
  set (ln := Z.log2 n) in *. set (ld := Z.log2 den) in *.
  pose proof (Z.log2_nonneg n). pose proof (Z.log2_nonneg den). fold ln in H. fold ld in H0.
  destruct (pow2 n den (- e0)) as [a b] eqn:Ep. destruct (Z.ltb_spec a b) as [Hab|Hab].
  - assert (Hlow : den * 2 ^ ln <= n * 2 ^ (ld + 1)).
    { transitivity (2 ^ (ld + 1) * 2 ^ ln); [apply Z.mul_le_mono_nonneg_r; [lia|]|].
      - change (Z.succ ld) with (ld + 1) in Hd2. lia.
      - rewrite (Z.mul_comm n). apply Z.mul_le_mono_nonneg_l; [lia|done]. }
    destruct (decide (0 <= e0 - 1)) as [He|He].
    + left. replace ln with ((e0 - 1) + (ld + 1)) in Hlow by (unfold e0; lia).
      rewrite Z.pow_add_r in Hlow by lia. rewrite Z.mul_assoc in Hlow.
      apply Z.mul_le_mono_pos_r in Hlow; [done|lia].
    + right. split; [lia|]. replace (ld + 1) with ((- (e0 - 1)) + ln) in Hlow by (unfold e0; lia).
      rewrite Z.pow_add_r in Hlow by lia. rewrite Z.mul_assoc in Hlow.
      apply Z.mul_le_mono_pos_r in Hlow; [done|lia].
  - unfold pow2 in Ep. destruct (Z.leb_spec 0 (- e0)); injection Ep as <- <-.
    + destruct (decide (e0 = 0)) as [E|]; [|right; lia]. left. rewrite E in *. cbn in *. lia.
    + left. rewrite Z.opp_involutive in Hab. done.
Qed.

(** A number between zero and an integer stays there when it is rounded. *)
Lemma fround_range num den n : 0 <= num -> 0 < den -> num <= n * den -> 0 <= n < 2 ^ 53 ->
  0 <= fnum (fround num den) <= n * fden (fround num den).
Proof.
  intros Hn Hd Hle Hr. unfold fround. destruct (Z.eqb_spec num 0) as [->|Hz]; [cbn; lia|].
  rewrite Z.abs_eq, Z.sgn_pos by lia.
  pose proof (fround_exponent num den ltac:(lia) Hd) as He. cbv zeta in He.
  destruct (pow2 num den (- (Z.log2 num - Z.log2 den))) as [a b]. set (e := if a <? b then _ else _) in *.
  assert (Hsmall : e <= 52).
  { destruct He as [He|He]; [|lia]. destruct (decide (e < 0)); [lia|].
    assert (2 ^ e <= n) by nia. apply Z.lt_succ_r. change (Z.succ 52) with 53.
    apply (Z.pow_lt_mono_r_iff 2); lia. }
  unfold pow2. replace (0 <=? 52 - e) with true by (symmetry; apply Z.leb_le; lia).
  rewrite Z.mul_1_l. assert (Hp : 0 < 2 ^ (52 - e)) by (apply Z.pow_pos_nonneg; lia).
  pose proof (rhe_nonneg (num * 2 ^ (52 - e)) den Hd ltac:(nia)).
  pose proof (rhe_le (num * 2 ^ (52 - e)) den (n * 2 ^ (52 - e)) Hd ltac:(nia)).
  unfold fnum, fden. cbn [fl_m fl_e]. destruct (Z.leb_spec 0 (e - 52)).
  - replace (e - 52) with 0 by lia. replace (52 - e) with 0 in * by lia. lia.
  - replace (- (e - 52)) with (52 - e) by lia. lia.
Qed.
