(* ===== verification/SysInfo.v ===== *)
(** System information ([src/internal/system/info.go]): parsers of /proc, the public
    address with its cache, and the units of the displays. *)
From S2P Require Import Prelude GoStrings NetAddr NetParse Procfs Config GoFloat.

(* ------------------------------------------------------------------ *)
(** * Units                                                              *)
(* ------------------------------------------------------------------ *)

(** The loop of [FormatBytes]: the divisor and the index of the unit. *)
Fixpoint unit_loop (fuel : nat) (n div : Z) (exp : nat) : Z * nat :=
  match fuel with
  | O => (div, exp)
  | S fuel => if n <? 1024 then (div, exp) else unit_loop fuel (n / 1024) (u64 (div * 1024)) (S exp)
  end.
Definition units : gostring := bs "KMGTPE".

Definition FormatBytes (b : Z) : gostring :=
  if b <? 1024 then itoa b ++ bs " B"
  else
    let '(div, exp) := unit_loop 64 (b / 1024) 1024 0 in
    fixed 1 (fdiv (of_int b) (of_int div)) ++ bs " " ++ [byte_at (Z.of_nat exp) units] ++ bs "B".

Definition Second : Z := 1000000000.
(** [d.Hours()] and [d.Minutes()] *)
Definition duration_in (unit d : Z) : float :=
  fadd (of_int (Z.quot d unit)) (fdiv (of_int (Z.rem d unit)) (of_int unit)).
Definition hours_of (d : Z) : Z := ftrunc (duration_in (3600 * Second) d).
Definition minutes_of (d : Z) : Z := ftrunc (duration_in (60 * Second) d).

Definition FormatUptime (d : Z) : gostring :=
  let days := Z.quot (hours_of d) 24 in
  let hours := Z.rem (hours_of d) 24 in
  let mins := Z.rem (minutes_of d) 60 in
  if 0 <? days then itoa days ++ bs "d " ++ itoa hours ++ bs "h " ++ itoa mins ++ bs "m"
  else if 0 <? hours then itoa hours ++ bs "h " ++ itoa mins ++ bs "m"
  else itoa mins ++ bs "m".

(* ------------------------------------------------------------------ *)
(** * Counters                                                           *)
(* ------------------------------------------------------------------ *)

Record NetTraffic : Type := mkTraffic { nt_Interface : gostring; nt_RxBytes : Z; nt_TxBytes : Z }.

(** The lines a [bufio.Scanner] gives: without a final empty one, each without a
    carriage return at its end. *)
Definition scan_lines (data : gostring) : list gostring :=
  let ls := split_on x0a data in
  (fun l => trim_suffix l [x0d]) <$>
    (match last ls with Some [] => take (length ls - 1) ls | _ => ls end).

Definition net_line (line : gostring) : option NetTraffic :=
  match cut x3a line with
  | None => None
  | Some (name, rest) =>
      let iface := trim_space name in
      if eqb_str iface (bs "lo") then None
      else
        let fs := fields rest in
        if (length fs <? 9)%nat then None
        else Some (mkTraffic iface (parse_uint_or0 (nth 0 fs [])) (parse_uint_or0 (nth 8 fs [])))
  end.
Definition GetNetTraffic (data : option gostring) : list NetTraffic :=
  match data with None => [] | Some data => omap net_line (drop 2 (scan_lines data)) end.

Definition mem_line (line : gostring) : option (gostring * Z) :=
  match cut x3a line with
  | None => None
  | Some (k, v) => Some (trim_space k, parse_uint_or0 (trim_space (trim_suffix (trim_space v) (bs " kB"))))
  end.
Definition parseMemInfo (data : gostring) : gmap gostring Z :=
  foldl (fun m line => match mem_line line with Some (k, v) => <[k := v]> m | None => m end)
        ∅ (split_on x0a data).

(* ------------------------------------------------------------------ *)
(** * The public address                                                 *)
(* ------------------------------------------------------------------ *)

(** [ip.To4()] *)
Definition To4 (a : Addr) : option (list byte) :=
  match Unmap a with Addr4 ip => Some ip | _ => None end.
(** The tests of the [net] package on the four bytes of an IPv4 address. *)
Definition v4_byte (i : Z) (ip : list byte) : Z := b2z (byte_at i ip).
Definition IsLoopback4 (ip : list byte) : bool := v4_byte 0 ip =? 127.
Definition IsPrivate4 (ip : list byte) : bool :=
  (v4_byte 0 ip =? 10) || ((v4_byte 0 ip =? 172) && (Z.land (v4_byte 1 ip) 0xf0 =? 16)) ||
  ((v4_byte 0 ip =? 192) && (v4_byte 1 ip =? 168)).
Definition IsLinkLocal4 (ip : list byte) : bool := (v4_byte 0 ip =? 169) && (v4_byte 1 ip =? 254).

Definition public_v4 (a : Addr) : option gostring :=
  match To4 a with
  | None => None
  | Some ip =>
      if IsLoopback4 ip || IsPrivate4 ip || IsLinkLocal4 ip then None
      else if (v4_byte 0 ip =? 100) && (Z.land (v4_byte 1 ip) 0xC0 =? 64) then None
      else Some (dotted ip)
  end.

(** The interfaces' addresses ([None] when they cannot be read), and what the external
    services print; [ip.String()] is the parameter [show_ip]. *)
Fixpoint first_public (addrs : list Addr) : option gostring :=
  match addrs with
  | [] => None
  | a :: addrs => match public_v4 a with Some s => Some s | None => first_public addrs end
  end.
Definition getPublicIP (show_ip : gostring -> gostring) (ifaces : option (list (option (list Addr))))
    (services : list (option gostring)) : gostring :=
  match first_public (default [] ((fun l => mjoin (default [] <$> l)) <$> ifaces)) with
  | Some s => s
  | None =>
      match omap (fun out => match out with
                             | Some out => if ParseIP_ok (trim_space out) then Some (show_ip (trim_space out)) else None
                             | None => None
                             end) services with
      | s :: _ => s
      | [] => bs "unknown"
      end
  end.

(** The cache of ten minutes; [find] is what [getPublicIP] would answer. *)
Record ip_cache : Type := mkIPCache { ip_val : gostring; ip_at : Z }.
Definition PublicIP (now : Z) (find : gostring) (c : ip_cache) : ip_cache * gostring :=
  if negb (eqb_str (ip_val c) []) && (now - ip_at c <? 600 * Second) then (c, ip_val c)
  else (mkIPCache find now, find).

(* ------------------------------------------------------------------ *)
(** * The dashboard's figures                                            *)
(* ------------------------------------------------------------------ *)

Record Info : Type := mkInfo {
  i_Hostname : gostring;
  i_OS : gostring;
  i_Kernel : gostring;
  i_Uptime : Z;
  i_PublicIP : gostring;
  i_CPUModel : gostring;
  i_MemTotal : Z;
  i_MemUsed : Z;
  i_MemPercent : float;
  i_DiskTotal : Z;
  i_DiskUsed : Z;
  i_DiskPercent : float;
  i_LoadAvg : gostring
}.

Definition os_name (data : option gostring) : gostring :=
  match data with
  | None => []
  | Some data =>
      match filter (fun l => has_prefix l (bs "PRETTY_NAME=") = true) (split_on x0a data) with
      | l :: _ => trim_set [x22] (trim_prefix l (bs "PRETTY_NAME="))
      | [] => []
      end
  end.
Definition cpu_model (data : option gostring) : gostring :=
  match data with
  | None => []
  | Some data =>
      match omap (fun l => if has_prefix l (bs "model name") then snd <$> cut x3a l else None)
                 (split_on x0a data) with
      | v :: _ => trim_space v
      | [] => []
      end
  end.
(** [float64(a) / float64(b) * 100] for [b > 0] *)
Definition percent (a b : Z) : float := fmul (fdiv (of_int a) (of_int b)) (of_int 100).
Definition memory (data : option gostring) : Z * Z * float :=
  match data with
  | None => (0, 0, mkFloat 0 0)
  | Some data =>
      let m := parseMemInfo data in
      let get k := default 0 (m !! bs k) in
      let total := u64 (get "MemTotal"%string * 1024) in
      let free := get "MemAvailable"%string in
      let free := if free =? 0 then u64 (u64 (get "MemFree"%string + get "Buffers"%string) + get "Cached"%string) else free in
      let used := u64 (total - u64 (free * 1024)) in
      (total, used, if 0 <? total then percent used total else mkFloat 0 0)
  end.
Definition disk_usage (out : option gostring) : Z * Z * float :=
  match split_on x0a <$> out with
  | Some (_ :: l :: _) =>
      let fs := fields l in
      if (length fs <? 5)%nat then (0, 0, mkFloat 0 0)
      else
        let total := parse_uint_or0 (nth 1 fs []) in
        let used := parse_uint_or0 (nth 2 fs []) in
        (total, used, if 0 <? total then percent used total else mkFloat 0 0)
  | _ => (0, 0, mkFloat 0 0)
  end.
Definition load_avg (data : option gostring) : gostring :=
  match data with
  | None => []
  | Some data => let fs := fields data in
                 if (length fs <? 3)%nat then [] else join (bs " ") (take 3 fs)
  end.
(** [parse_float] is [strconv.ParseFloat]. *)
Definition uptime (parse_float : gostring -> option float) (data : option gostring) : Z :=
  match fields <$> data with
  | Some (f :: _) => match parse_float f with Some secs => i64 (ftrunc secs * Second) | None => 0 end
  | _ => 0
  end.
Definition GetInfo (parse_float : gostring -> option float) (read : gostring -> option gostring)
    (hostname : gostring) (uname df : option gostring) (public_ip : gostring) : Info :=
  let '(mt, mu, mp) := memory (read (bs "/proc/meminfo")) in
  let '(dt, du, dp) := disk_usage df in
  mkInfo hostname (os_name (read (bs "/etc/os-release"))) (trim_space (default [] uname))
    (uptime parse_float (read (bs "/proc/uptime"))) public_ip
    (cpu_model (read (bs "/proc/cpuinfo"))) mt mu mp dt du dp (load_avg (read (bs "/proc/loadavg"))).

(* ------------------------------------------------------------------ *)
(** * Properties                                                         *)
(* ------------------------------------------------------------------ *)

Example bytes_1536 : FormatBytes 1536 = bs "1.5 KB".
Proof. vm_compute. reflexivity. Qed.
Example bytes_max : FormatBytes (2 ^ 64 - 1) = bs "16.0 EB".
Proof. vm_compute. reflexivity. Qed.
Example uptime_2d : FormatUptime ((2 * 86400 + 3 * 3600 + 240) * Second) = bs "2d 3h 4m".
Proof. vm_compute. reflexivity. Qed.

(** Each round of the loop moves on by one unit. *)
Lemma unit_loop_spec fuel n div exp b :
  0 <= n < 2 ^ 54 -> div = 1024 ^ Z.of_nat (S exp) -> n = b / div -> 0 <= b < 2 ^ 64 ->
  n < 1024 ^ Z.of_nat fuel ->
  exists k, unit_loop fuel n div exp = (1024 ^ Z.of_nat (S k), k) /\ (exp <= k)%nat /\
    (n = 0 \/ 1024 ^ Z.of_nat (S k) <= b) /\ b < 1024 ^ Z.of_nat (S (S k)).
Proof.
  revert n div exp. induction fuel as [|fuel IH]; intros n div exp Hn Hdiv Hnb Hb Hf.
  - exists exp. subst div. split; [done|]. split; [lia|].
    change (1024 ^ Z.of_nat 0) with 1 in Hf. assert (n = 0) as Hz by lia. split; [by left|].
    pose proof (Z.mul_succ_div_gt b (1024 ^ Z.of_nat (S exp)) ltac:(lia)).
    rewrite <- Hnb, Hz in H. rewrite (Nat2Z.inj_succ (S exp)), Z.pow_succ_r by lia. lia.
  - cbn [unit_loop]. destruct (Z.ltb_spec n 1024) as [Hs|Hs].
    + exists exp. subst div. split; [done|]. split; [lia|].
      pose proof (Z.mul_div_le b (1024 ^ Z.of_nat (S exp)) ltac:(lia)).
      pose proof (Z.mul_succ_div_gt b (1024 ^ Z.of_nat (S exp)) ltac:(lia)). rewrite <- Hnb in *.
      split; [nia|]. rewrite (Nat2Z.inj_succ (S exp)), Z.pow_succ_r by lia. nia.
    + assert (Hle : div * 1024 <= b).
      { subst n. pose proof (Z.mul_div_le b div ltac:(subst; lia)). subst div. nia. }
      assert (Eu : u64 (div * 1024) = 1024 ^ Z.of_nat (S (S exp))).
      { rewrite uwrap_small by (subst div; lia). subst div.
        rewrite (Nat2Z.inj_succ (S exp)), Z.pow_succ_r by lia. lia. }
      destruct (IH (n / 1024) (u64 (div * 1024)) (S exp)) as (k & E & Hk & Hor & Hb2).
      * pose proof (Z.div_lt n 1024 ltac:(lia) ltac:(lia)). pose proof (Z.div_pos n 1024 ltac:(lia) ltac:(lia)). lia.
      * exact Eu.
      * rewrite Hnb, Z.div_div by (subst; lia). rewrite Eu. f_equal. subst div.
        rewrite (Nat2Z.inj_succ (S exp)), Z.pow_succ_r by lia. lia.
      * done.
      * rewrite Nat2Z.inj_succ, Z.pow_succ_r in Hf by lia. apply Z.div_lt_upper_bound; lia.
      * exists k. split; [done|]. split; [lia|]. split; [|done]. right.
        destruct Hor as [Hz|]; [|done].
        pose proof (Z.div_le_lower_bound n 1024 1 ltac:(lia) ltac:(lia)). lia.
Qed.

(** The loop ends, for every 64-bit count, at one of the six units, and at the right
    one: the index into the units is never out of range. *)
Lemma unit_of_bytes b : 1024 <= b < 2 ^ 64 ->
  exists k, unit_loop 64 (b / 1024) 1024 0 = (1024 ^ Z.of_nat (S k), k) /\ (k < 6)%nat /\
    1024 ^ Z.of_nat (S k) <= b < 1024 ^ Z.of_nat (S (S k)).
Proof.
  intros Hb. assert (H54 : b / 1024 < 2 ^ 54) by (apply Z.div_lt_upper_bound; lia).
  assert (H1 : 1 <= b / 1024) by (apply Z.div_le_lower_bound; lia).
  destruct (unit_loop_spec 64 (b / 1024) 1024 0 b) as (k & E & _ & Hor & Hlt);
    [lia|done|done|lia| |].
  { eapply Z.lt_trans; [exact H54|]. change 1024 with (2 ^ 10). rewrite <- Z.pow_mul_r by lia.
    apply Z.pow_lt_mono_r; lia. }
  exists k. split; [done|]. destruct Hor as [Hz|Hge]; [lia|]. split; [|done].
  destruct (decide (k < 6)%nat) as [|Hk]; [done|exfalso].
  assert (Hm : 1024 ^ 7 <= 1024 ^ Z.of_nat (S k)) by (apply Z.pow_le_mono_r; lia).
  assert (2 ^ 64 < 1024 ^ 7) by lia. lia.
Qed.

Lemma pow1024 k : 1024 ^ Z.of_nat k = 2 ^ (10 * Z.of_nat k).
Proof. change 1024 with (2 ^ 10). rewrite <- Z.pow_mul_r by lia. done. Qed.

(** A byte count is shown in the largest unit that it reaches, to the nearest tenth: the
    number on the display times the unit is within half a tenth of the count (for
    counts below 2^53, where [float64] is exact). *)
Lemma FormatBytes_close b : 0 <= b < 2 ^ 53 ->
  if b <? 1024 then FormatBytes b = itoa b ++ bs " B"
  else exists k t, (k < 6)%nat /\
    1024 ^ Z.of_nat (S k) <= b < 1024 ^ Z.of_nat (S (S k)) /\
    - 1024 ^ Z.of_nat (S k) <= 2 * (t * 1024 ^ Z.of_nat (S k) - b * 10) <= 1024 ^ Z.of_nat (S k) /\
    FormatBytes b = itoa (t / 10) ++ bs "." ++ pad0 1 (itoa (t mod 10)) ++ bs " " ++
                    [byte_at (Z.of_nat k) units] ++ bs "B".
Proof.
  intros Hb. unfold FormatBytes. destruct (Z.ltb_spec b 1024) as [|Hge]; [done|].
  destruct (unit_of_bytes b) as (k & E & Hk & Hbounds); [lia|]. rewrite E.
  exists k, (rhe (b * 10) (1024 ^ Z.of_nat (S k))). split; [done|]. split; [done|].
  assert (Hp : 0 < 1024 ^ Z.of_nat (S k)) by (apply Z.pow_pos_nonneg; lia).
  split; [by apply rhe_near|].
  assert (Hk5 : 10 * Z.of_nat (S k) < 53).
  { destruct (Z.lt_ge_cases (10 * Z.of_nat (S k)) 53) as [|Hbig]; [done|exfalso].
    rewrite pow1024 in Hbounds. pose proof (Z.pow_le_mono_r 2 53 (10 * Z.of_nat (S k)) ltac:(lia) Hbig). lia. }
  rewrite pow1024, fixed1_quotient by lia. by rewrite <- !app_assoc.
Qed.

(** The address put on the cards is a public one when it comes from an interface. *)
Lemma first_public_sound addrs s : first_public addrs = Some s ->
  exists a ip, a ∈ addrs /\ To4 a = Some ip /\ s = dotted ip /\
    IsLoopback4 ip = false /\ IsPrivate4 ip = false /\ IsLinkLocal4 ip = false /\
    ~ (v4_byte 0 ip = 100 /\ 64 <= v4_byte 1 ip < 128).
Proof.
  induction addrs as [|a addrs IH]; [done|]. cbn [first_public].
  destruct (public_v4 a) as [t|] eqn:E.
  - intros [= <-]. unfold public_v4 in E. destruct (To4 a) as [ip|] eqn:Et; [|done].
    destruct (IsLoopback4 ip || IsPrivate4 ip || IsLinkLocal4 ip) eqn:Eb; [done|].
    apply orb_false_iff in Eb as [Eb E3]. apply orb_false_iff in Eb as [E1 E2].
    destruct (_ && _) eqn:Ec; [done|]. injection E as <-.
    exists a, ip. split; [left|]. split_and!; try done. intros [H1 H2].
    apply andb_false_iff in Ec as [Ec|Ec]; [lia|]. apply Z.eqb_neq in Ec. apply Ec.
    clear - H2. unfold v4_byte in *. set (x := byte_at 1 ip) in *. clearbody x.
    destruct x; try (by vm_compute); exfalso; vm_compute in H2; destruct H2 as [Ha Hb']; by try apply Ha.
  - intros Hs. destruct (IH Hs) as (a' & ip & Hin & Hrest). exists a', ip. split; [by right|done].
Qed.

(** The cache: a known address is kept for ten minutes, and asked again afterwards. *)
Lemma PublicIP_cached now find c : PublicIP now find c =
  if bool_decide (ip_val c <> [] /\ now < ip_at c + 600 * Second) then (c, ip_val c)
  else (mkIPCache find now, find).
Proof.
  unfold PublicIP, eqb_str. case_bool_decide as H1; case_bool_decide as H2; cbn [negb andb].
  - destruct H2 as [H2 _]. done.
  - done.
  - replace (now - ip_at c <? _) with true by (symmetry; lia). done.
  - replace (now - ip_at c <? _) with false; [done|]. symmetry. apply Z.ltb_ge.
    destruct (Z.lt_ge_cases now (ip_at c + 600 * Second)); [|lia]. exfalso. by apply H2.
Qed.
