(* ===== verification/Card.v ===== *)
(** The connection card ([src/internal/card/card.go]). *)
From S2P Require Import Prelude GoStrings Config Security Store Procfs Session Users GoFloat SysInfo.

(** [Host]: the configured name, or the public address found once. *)
Definition Host (cfg : Config) (cached : option gostring) (public_ip : gostring)
    : option gostring * gostring :=
  match trim_space (server_Host (Server cfg)) with
  | [] => match cached with
          | Some ip => (cached, ip)
          | None => (Some public_ip, public_ip)
          end
  | h => (cached, h)
  end.

Definition FormatBytes (b : Z) : gostring := SysInfo.FormatBytes (if b <? 0 then 0 else b).

Definition Traffic (u : UserRecord) : gostring :=
  if TrafficLimit u <=? 0 then FormatBytes (TrafficUsed u) ++ bs " / unlimited"
  else FormatBytes (TrafficUsed u) ++ bs " / " ++ FormatBytes (TrafficLimit u) ++ bs " (" ++
       fixed 0 (percent (TrafficUsed u) (TrafficLimit u)) ++ bs "%)".

Definition ints (v : list Z) : gostring := join (bs ", ") (itoa <$> v).

(** [%-12s] *)
Definition pad_right (n : nat) (s : gostring) : gostring := s ++ replicate (n - length s) x20.
Definition row (k v : gostring) : gostring := bs "  " ++ pad_right 12 (k ++ bs ":") ++ bs " " ++ v ++ [x0a].
Definition rule_line : gostring := mjoin (replicate 46 (bs "━")).

Definition days_left `{Calendar} (u : UserRecord) (now : Z) : Z :=
  let days := ceil_days (ExpiresAt u - now) in if days <? 0 then 0 else days.

Definition Render `{Calendar} (cfg : Config) (u : UserRecord) (password host : gostring) (now : Z)
    : gostring :=
  let gw := gateway_Enabled (Gateway cfg) && (0 <? len (gateway_Ports (Gateway cfg))) in
  rule_line ++ [x0a] ++ bs "  SSH-VPN account" ++ [x0a] ++ rule_line ++ [x0a] ++
  row (bs "Host") host ++
  row (bs "Username") (Username u) ++
  row (bs "Password") (match password with [] => bs "(unchanged)" | _ => password end) ++
  row (bs "Expires") (format_date (ExpiresAt u) ++ bs " (" ++ itoa (days_left u now) ++ bs " days)") ++
  row (bs "Devices") (itoa (MaxConnections u)) ++
  row (bs "Traffic") (Traffic u) ++ [x0a] ++
  row (bs "SSH") (ints (ssh_Ports (SSH cfg))) ++
  (if gw then row (bs "Gateway") (ints (gateway_Ports (Gateway cfg)) ++
                    bs "  (SSH · WebSocket · SSL/TLS — any SNI)") else []) ++
  (match udpgw_Enabled (UDPGW cfg), last (udpgw_Ports (UDPGW cfg)) with
   | true, Some p => row (bs "UDPGW") (bs "127.0.0.1:" ++ itoa p ++ bs "  (enable for calls & games)")
   | _, _ => []
   end) ++
  (if gw then [x0a] ++ bs "  WebSocket payload:" ++ [x0a] ++
              bs "  GET / HTTP/1.1[crlf]Host: " ++ host ++ bs "[crlf]Upgrade: websocket[crlf][crlf]" ++ [x0a]
   else []) ++
  rule_line ++ [x0a].

(** The detected address is the same for the life of the process. *)
Lemma Host_once cfg ip ip' : let '(c, h) := Host cfg None ip in (Host cfg c ip').2 = h.
Proof. unfold Host. destruct (trim_space _) as [|x h]; done. Qed.

(** A card never shows a negative amount, and the share of the quota only when there is
    one. *)
Example traffic_half : Traffic (mkUser (bs "al") 2 0 0 false [] [] (2 * 1024 ^ 3) (1024 ^ 3) 0) =
  bs "1.0 GB / 2.0 GB (50%)".
Proof. vm_compute. reflexivity. Qed.
Example traffic_free : Traffic (mkUser (bs "al") 2 0 0 false [] [] 0 (-5) 0) = bs "0 B / unlimited".
Proof. vm_compute. reflexivity. Qed.
