(* ===== verification/Cli.v ===== *)
(** The commands ([src/cmd/sshfortress/main.go], [users.go] and [ops.go]): how the
    arguments become operations of the components, and how a changed configuration is
    saved. The commands themselves are in [Commands], their texts in [Reports]. *)
From S2P Require Import Prelude GoStrings Files Procfs Session Gateway Daemon.
From S2P Require Import Config ConfigFile Security Store Users Netopt Firewall Host GoFloat SysInfo Card.

(* ------------------------------------------------------------------ *)
(** * Arguments and texts                                                *)
(* ------------------------------------------------------------------ *)

(** [strings.FieldsFunc] on commas and blanks. *)
Fixpoint port_fields (cur : gostring) (s : gostring) : list gostring :=
  match s with
  | [] => flush cur []
  | c :: s => if decide (c = x2c \/ c = x20) then flush cur (port_fields [] s)
              else port_fields (cur ++ [c]) s
  end.
Definition parse_port (f : gostring) : option Z :=
  n ← atoi (trim_space f); if (n <? 1) || (65535 <? n) then None else Some n.
Definition parsePorts (s : gostring) : option (list Z) := mapM parse_port (port_fields [] s).

Definition ago (t : option Z) (now : Z) : gostring :=
  match t with
  | None => bs "never"
  | Some t =>
      let d := now - t in
      if d <? 60 * Second then bs "just now"
      else if d <? 3600 * Second then itoa (minutes_of d) ++ bs "m ago"
      else if d <? 48 * 3600 * Second then itoa (hours_of d) ++ bs "h ago"
      else itoa (ftrunc (fdiv (duration_in (3600 * Second) d) (of_int 24))) ++ bs "d ago"
  end.

Definition rate (bps : Z) : gostring := if bps =? 0 then bs "-" else SysInfo.FormatBytes bps ++ bs "/s".

(** The answer to a question, read as one word. *)
Definition confirmed `{Unicode} (answer : gostring) : bool :=
  let a := to_lower (trim_space answer) in eqb_str a (bs "y") || eqb_str a (bs "yes").

(** [liveSessions]: the snapshot of the daemon while it is fresh, or a scan. *)
Definition liveSessions (st : option State) (now : Z) (scan : list Session.Session)
    : list LiveSession * bool :=
  match st with
  | Some st => if Fresh st now then (Daemon.st_Sessions st, true)
               else ((fun s => mkLive s 0 0) <$> scan, false)
  | None => ((fun s => mkLive s 0 0) <$> scan, false)
  end.

(* ------------------------------------------------------------------ *)
(** * User commands                                                      *)
(* ------------------------------------------------------------------ *)

Section users.
Context `{Sys : System, Cal : Calendar, Uni : Unicode, CU : !Codec UserRecord, Blt : Bolt}.
Variable cfg : Config.
Variable now : Z.
Abbreviation um := (NewManager cfg).

(** The quota of [user add]: [None] when the flag was not given; an explicit zero is
    passed on as minus one. *)
Definition add_quota (traffic : option float) : float :=
  match traffic with
  | None => mkFloat 0 0
  | Some g => if fl_m g =? 0 then mkFloat (-1) 0 else g
  end.
Definition user_renew (name days : gostring) (reset : bool) : M UserRecord :=
  match atoi days with
  | None => fail (refused (bs "DAYS must be a number"))
  | Some n =>
      u ← Renew name n now;
      if reset then ResetTraffic name else mret u
  end.

Definition user_lock (name : gostring) : M () := Lock um name [].
Definition user_unlock (name : gostring) : M () := Unlock name now.
Definition user_kick (name : gostring) : M gostring :=
  n ← Kick um name; mret (bs "disconnected " ++ itoa n ++ bs " session(s)").

Definition user_limit (name n : gostring) : M () :=
  match atoi n with
  | None => fail (refused (bs "N must be a number"))
  | Some n => SetMaxConnections name n
  end.

Definition user_traffic (name : gostring) (set : option float) (reset : bool) : M gostring :=
  _ ← (match set with Some g => _ ← SetTrafficLimit name (gb g); mret tt | None => mret tt end);
  _ ← (if (reset : bool) then _ ← ResetTraffic name; mret tt else mret tt);
  u ← Get um name now;
  mret (Username (info_record u) ++ bs ": " ++ Card.Traffic (info_record u)).

(** [parse_in layout text] is [time.ParseInLocation] in the local zone. *)
Variable parse_in : gostring -> gostring -> option Z.
Definition layouts : list gostring := [bs "2006-01-02 15:04"; bs "2006-01-02T15:04"; bs "2006-01-02"].
Definition parse_date (text : gostring) : option Z := head (omap (fun l => parse_in l text) layouts).
Definition user_expiry (name date : gostring) : M UserRecord :=
  match parse_date date with
  | None => fail (refused (bs "date must look like 2026-12-31"))
  | Some t => SetExpiry name t now
  end.
End users.

(* ------------------------------------------------------------------ *)
(** * Commands that change the configuration                             *)
(* ------------------------------------------------------------------ *)

Definition with_gateway (f : GatewayConfig -> GatewayConfig) (c : Config) : Config :=
  mkConfig (DataDir c) (LogDir c) (Server c) (SSH c) (UDPGW c) (BadVPN c) (f (Config.Gateway c))
    (Limiter c) (Network c) (Config.Firewall c) (UserDefaults c) (Monitor c) (path c).
Definition with_udpgw (f : UDPGWConfig -> UDPGWConfig) (c : Config) : Config :=
  mkConfig (DataDir c) (LogDir c) (Server c) (SSH c) (f (UDPGW c)) (BadVPN c) (Config.Gateway c)
    (Limiter c) (Network c) (Config.Firewall c) (UserDefaults c) (Monitor c) (path c).
Definition gateway_set (enabled : bool) (ports : list Z) (g : GatewayConfig) : GatewayConfig :=
  mkGatewayConfig enabled (gateway_Listen g) ports (gateway_TLSCert g) (gateway_TLSKey g)
    (gateway_MaxConnections g) (gateway_HandshakeTimeoutSecs g).
Definition udpgw_set (enabled : bool) (mode : gostring) (ports : list Z) (u : UDPGWConfig) : UDPGWConfig :=
  mkUDPGWConfig enabled mode (udpgw_Listen u) ports (udpgw_MaxClients u)
    (udpgw_MaxConnectionsPerClient u) (udpgw_FlowIdleSecs u) (udpgw_DNS u).

(** What the commands make of the configuration they have loaded. *)
Inductive edit : Type :=
| gatewayEnable (ports : gostring)
| gatewayDisable
| udpgwMode (mode : gostring)
| udpgwPorts (ports : gostring).

Inductive cli_err : Type :=
| badPorts
| noPorts
| invalid (e : cfgerr)
| saveFailed
| restartFailed_
| loadFailed (e : cfgerr)
| noDirs
| noDatabase
| notRoot_.

Section config.
Context `{Sys : System, Uni : Unicode, Dsk : Disk, Nft : Netfilter, Yml : YAML}.

Definition gateway_enable (s : gostring) (c : Config) : result cli_err Config :=
  ps ← (match s with
        | [] => Ok (gateway_Ports (Config.Gateway c))
        | _ => match parsePorts s with Some ps => Ok ps | None => Err badPorts end
        end);
  match ps with
  | [] => Err noPorts
  | _ => Ok (with_gateway (gateway_set true ps) c)
  end.
Definition gateway_disable (c : Config) : result cli_err Config :=
  Ok (with_gateway (fun g => gateway_set false (gateway_Ports g) g) c).
Definition udpgw_mode (mode : gostring) (c : Config) : result cli_err Config :=
  Ok (with_udpgw (fun u => udpgw_set true (to_lower mode) (udpgw_Ports u) u) c).
Definition udpgw_ports (s : gostring) (c : Config) : result cli_err Config :=
  match parsePorts s with
  | Some ps => Ok (with_udpgw (fun u => udpgw_set (udpgw_Enabled u) (udpgw_Mode u) ps u) c)
  | None => Err badPorts
  end.
Definition apply_edit (e : edit) (c : Config) : result cli_err Config :=
  match e with
  | gatewayEnable s => gateway_enable s c
  | gatewayDisable => gateway_disable c
  | udpgwMode mode => udpgw_mode mode c
  | udpgwPorts s => udpgw_ports s c
  end.

(** The message that is printed, when there is no error. *)
Definition saveAndRestart (c : Config) : H (result cli_err gostring) :=
  match Validate c with
  | Some e => mret (Err (invalid e))
  | None =>
      saved ← disk_op (Save c (Path c));
      if negb saved then mret (Err saveFailed)
      else
        let only_saved := bs "saved; restart the daemon to apply" in
        systemd ← HasSystemd;
        if negb systemd then mret (Ok only_saved)
        else
          known ← UnitExists (bs "sshfortress.service");
          if negb known then mret (Ok only_saved)
          else
            restarted ← Systemctl [bs "restart"; bs "sshfortress"];
            mret (if (restarted : bool) then Ok (bs "saved and restarted the daemon (existing sessions are kept)")
                  else Err restartFailed_)
  end.

(** [config.Load]; [cfgFile] is the flag [--config]. *)
Definition load_config (cfgFile : gostring) : H (result cfgerr Config) := fun s =>
  (s, Load yaml_unmarshal cfgFile (read_config (h_fs s))).

(** [store.Open] on the path of the configuration: its directory, then the buckets. *)
Definition open_db : H bool :=
  made ← disk_op try_op;
  if negb made then mret false
  else r ← users_op (db_write Store.Open); mret (is_ok r).

Definition load (cfgFile : gostring) : H (result cli_err Config) :=
  c ← load_config cfgFile;
  match c with
  | Err e => mret (Err (loadFailed e))
  | Ok c =>
      made ← disk_op (EnsureDirs c);
      if negb made then mret (Err noDirs)
      else opened ← open_db; mret (if (opened : bool) then Ok c else Err noDatabase)
  end.

Definition run_edit (cfgFile : gostring) (e : edit) : H (result cli_err gostring) :=
  c ← load cfgFile;
  match c with
  | Err e => mret (Err e)
  | Ok c => match apply_edit e c with
            | Err e => mret (Err e)
            | Ok c => saveAndRestart c
            end
  end.

(** The flags of [setup]; [None] for the ports means the flag was not given. *)
Record setup_flags : Type := mkFlags {
  fl_gwPorts : option gostring;
  fl_sshPorts : option gostring;
  fl_host : gostring;
  fl_noGW : bool;
  fl_noOpt : bool;
  fl_noFW : bool
}.
Definition set_gateway_flags (f : setup_flags) (c : Config) : result cli_err Config :=
  c ← (match fl_gwPorts f with
       | None => Ok c
       | Some s => match parsePorts s with
                   | Some ps => Ok (with_gateway (gateway_set (0 <? len ps) ps) c)
                   | None => Err badPorts
                   end
       end);
  Ok (if fl_noGW f then with_gateway (fun g => gateway_set false (gateway_Ports g) g) c else c).
Definition set_ssh_ports (ps : list Z) (c : Config) : Config :=
  let s := SSH c in
  mkConfig (DataDir c) (LogDir c) (Server c)
    (mkSSHConfig ps (ssh_ConfigPath s) (ssh_SSHDPath s) (ssh_MaxAuthTries s) (ssh_PasswordAuth s)
       (ssh_Tuning s) (ssh_Compression s) (ssh_ClientAliveInterval s) (ssh_ClientAliveCountMax s)
       (ssh_MaxStartups s) (ssh_LoginGraceTime s) (ssh_Banner s))
    (UDPGW c) (BadVPN c) (Config.Gateway c) (Limiter c) (Network c) (Config.Firewall c)
    (UserDefaults c) (Monitor c) (path c).
Definition set_other_flags (f : setup_flags) (c : Config) : Config :=
  let fw := Config.Firewall c in
  mkConfig (DataDir c) (LogDir c)
    (match fl_host f with [] => Server c | h => mkServerConfig h end)
    (SSH c) (UDPGW c) (BadVPN c) (Config.Gateway c) (Limiter c)
    (if fl_noOpt f then mkNetworkConfig false (network_CongestionControl (Network c))
                          (network_CustomSysctls (Network c)) else Network c)
    (if fl_noFW f then mkFirewallConfig false (firewall_BlockLocal fw) (firewall_BlockSMTP fw)
                         (firewall_AllowLocalPorts fw) else fw)
    (UserDefaults c) (Monitor c) (path c).
Definition apply_flags (f : setup_flags) (c : Config) : result cli_err Config :=
  c ← set_gateway_flags f c;
  c ← (match fl_sshPorts f with
       | None => Ok c
       | Some s => match parsePorts s with
                   | Some ps => Ok (set_ssh_ports ps c)
                   | None => Err badPorts
                   end
       end);
  Ok (set_other_flags f c).

(** [setup] up to the provisioning: the configuration that it goes on with. *)
Definition run_setup (cfgFile : gostring) (f : setup_flags) : H (result cli_err Config) :=
  root ← is_root;
  if negb root then mret (Err notRoot_)
  else
    let p := or_str cfgFile DefaultPath in
    c ← load_config p;
    match c with
    | Err e => mret (Err (loadFailed e))
    | Ok c =>
        match apply_flags f c with
        | Err e => mret (Err e)
        | Ok c =>
            match Validate c with
            | Some e => mret (Err (invalid e))
            | None =>
                saved ← disk_op (Save c p);
                if negb saved then mret (Err saveFailed) else load p
            end
        end
    end.
End config.
