(* ===== verification/CliProps.v ===== *)
(** What the commands of [Cli] guarantee: a configuration they save can be loaded
    again, unless its UDP gateway has been left without ports, and lists of ports are
    read as they are written. *)
From S2P Require Import Prelude GoStrings Files Procfs Session Gateway Daemon.
From S2P Require Import Config ConfigFile Security Store Users Netopt Firewall Host GoFloat SysInfo Card Cli.
From S2P Require Import HttpHead UsersLinux FirewallProps NetoptProps.

(* ------------------------------------------------------------------ *)
(** * Normalising what validates                                         *)
(* ------------------------------------------------------------------ *)

Lemma uniqSorted_perm l : NoDup l -> uniqSorted l ≡ₚ l.
Proof.
  intros Hn. unfold uniqSorted. rewrite merge_sort_Permutation. rewrite uniq_go_id; [done|done|set_solver].
Qed.

Section normal.
Context `{Uni : Unicode}.

Lemma normalize_valid c :
  Validate c = None -> ssh_Ports (SSH c) <> [] -> udpgw_Ports (UDPGW c) <> [] ->
  Validate (normalize c) = None.
Proof.
  intros (Hr & Hm & Hp & Hs & Hn)%Validate_None Hssh Hudp. apply Validate_None.
  assert (Em : udpgw_Mode (UDPGW (normalize c)) = udpgw_Mode (UDPGW c)).
  { cbn. rewrite (word_fixed _ _ Hm) by by left. apply or_str_ne. intros E. rewrite E in Hm. vm_compute in Hm; set_solver. }
  assert (Ep : limiter_Policy (Limiter (normalize c)) = limiter_Policy (Limiter c)).
  { cbn. rewrite (word_fixed _ _ Hp) by by right. apply or_str_ne. intros E. rewrite E in Hp. vm_compute in Hp; set_solver. }
  assert (E1 : ssh_Ports (SSH (normalize c)) = uniqSorted (ssh_Ports (SSH c))) by (cbn; by destruct (ssh_Ports _)).
  assert (E2 : udpgw_Ports (UDPGW (normalize c)) = uniqSorted (udpgw_Ports (UDPGW c))) by (cbn; by destruct (udpgw_Ports _)).
  assert (E3 : gateway_Ports (Config.Gateway (normalize c)) = uniqSorted (gateway_Ports (Config.Gateway c))) by done.
  rewrite Em, Ep, E1, E2, E3. split_and!; [|done|done| |].
  - apply Forall_forall. intros p. rewrite !elem_of_app, !(proj2 (proj2 (uniqSorted_spec _))).
    rewrite Forall_forall in Hr. intros Hin. apply Hr. by rewrite !elem_of_app.
  - cbn. destruct (ssh_MaxStartups (SSH c)) eqn:E; [vm_compute; set_solver|]. rewrite <- E in *. by rewrite E in *.
  - assert (Hperm : owned_ports (normalize c) ≡ₚ owned_ports c).
    { unfold owned_ports in *. rewrite E1, E2, E3.
      change (gateway_Enabled (Config.Gateway (normalize c))) with (gateway_Enabled (Config.Gateway c)).
      change (udpgw_Enabled (UDPGW (normalize c))) with (udpgw_Enabled (UDPGW c)).
      apply NoDup_app in Hn as (H1 & _ & Hn). apply NoDup_app in Hn as (H2 & _ & H3).
      f_equiv; [by apply uniqSorted_perm|]. f_equiv.
      - destruct (gateway_Enabled _); [by apply uniqSorted_perm|done].
      - destruct (udpgw_Enabled _); [by apply uniqSorted_perm|done]. }
    by rewrite Hperm.
Qed.

(** Whatever was loaded has been normalised. *)
Lemma Load_normalized unmarshal p read c : Load unmarshal p read = Ok c ->
  path c = or_str p DefaultPath /\ ssh_Ports (SSH c) <> [] /\ udpgw_Ports (UDPGW c) <> [].
Proof.
  unfold Load.
  assert (Hne : forall c', ssh_Ports (SSH (normalize c')) <> [] /\ udpgw_Ports (UDPGW (normalize c')) <> []).
  { intros c'. split; apply uniqSorted_nonempty; [by destruct (ssh_Ports (SSH c'))|by destruct (udpgw_Ports (UDPGW c'))]. }
  destruct (read _) as [| |data].
  - intros [= <-]. by split.
  - done.
  - destruct (unmarshal _ _) as [c1|]; [|done]. destruct (Validate _); [done|]. intros [= <-]. by split.
Qed.
End normal.

(* ------------------------------------------------------------------ *)
(** * Lists of ports                                                     *)
(* ------------------------------------------------------------------ *)

(** The last byte of a white-space rune of several bytes is not ASCII. *)
Lemma space_len_2 y x : space_len [y; x] = 2%nat -> 128 <= b2z x.
Proof. destruct y; try discriminate; destruct x; (discriminate || (intros _; vm_compute; discriminate)). Qed.
Lemma space_len_3 z y x : space_len [z; y; x] = 3%nat -> 128 <= b2z x.
Proof.
  destruct z; try discriminate; destruct y; try discriminate;
    destruct x; (discriminate || (intros _; vm_compute; discriminate)).
Qed.

Lemma space_len_rev_printable x s : 33 <= b2z x < 127 -> space_len_rev (x :: s) = 0%nat.
Proof.
  intros Hx. assert (Hb : ascii_space x = false).
  { pose proof (space_len_printable x [] Hx) as E. destruct x; try reflexivity; by vm_compute in E. }
  unfold space_len_rev. rewrite Hb.
  rewrite !decide_False; [done| |]; destruct s as [|y [|z s]]; cbn [take].
  all: change (reverse [x]) with [x] || change (reverse [x; y]) with [y; x]
    || change (reverse [x; y; z]) with [z; y; x].
  all: try rewrite (space_len_printable x [] Hx); try done.
  all: try (intros E; first [apply space_len_2 in E|apply space_len_3 in E]; lia).
  destruct y; try discriminate; destruct x; discriminate.
Qed.

Lemma trim_space_printable s : Forall (fun b => 33 <= b2z b < 127) s -> trim_space s = s.
Proof.
  intros Hs. apply trim_space_trimmed. split.
  - destruct Hs; [done|by apply space_len_printable].
  - apply Forall_reverse in Hs. destruct Hs; [done|by apply space_len_rev_printable].
Qed.

Lemma port_fields_word w cur s : Forall (fun b => b <> x2c /\ b <> x20) w ->
  port_fields cur (w ++ s) = port_fields (cur ++ w) s.
Proof.
  revert cur. induction w as [|x w IH]; intros cur Hw; [by rewrite app_nil_r|].
  apply Forall_cons in Hw as [[Hc Hb] Hw]. cbn [app port_fields].
  rewrite decide_False by (by intros [|]). rewrite IH by done. by rewrite <- app_assoc.
Qed.

Lemma port_fields_join ws : Forall (fun w => w <> [] /\ Forall (fun b => b <> x2c /\ b <> x20) w) ws ->
  port_fields [] (join (bs ",") ws) = ws.
Proof.
  induction 1 as [|w ws [Hne Hw] Hws IH]; [done|]. destruct ws as [|w' ws].
  - cbn [join]. rewrite <- (app_nil_r w) at 1. rewrite port_fields_word by done. cbn.
    by destruct w.
  - change (join (bs ",") (w :: w' :: ws)) with (w ++ x2c :: join (bs ",") (w' :: ws)).
    rewrite port_fields_word by done. cbn [app port_fields]. rewrite decide_True by by left.
    rewrite IH. by destruct w.
Qed.

(** Ports written as the messages write them are read back. *)
Lemma parsePorts_join ps : Forall (fun p => 1 <= p <= 65535) ps ->
  parsePorts (join (bs ",") (itoa <$> ps)) = Some ps.
Proof.
  intros Hps. unfold parsePorts. rewrite port_fields_join.
  - induction Hps as [|p ps Hp Hps IH]; [done|]. cbn [fmap list_fmap mapM].
    assert (E : parse_port (itoa p) = Some p).
    { unfold parse_port. rewrite trim_space_printable by (eapply Forall_impl; [apply itoa_printable|naive_solver]).
      rewrite atoi_itoa by lia. cbn.
      by rewrite (proj2 (Z.ltb_ge p 1) ltac:(lia)), (proj2 (Z.ltb_ge 65535 p) ltac:(lia)). }
    rewrite E. cbn. by rewrite IH.
  - apply Forall_fmap. eapply Forall_impl; [exact Hps|]. intros p Hp. split.
    + intros E. assert (Ha : atoi (itoa p) = Some p) by (apply atoi_itoa; cbn in Hp; lia). by rewrite E in Ha.
    + eapply Forall_impl; [apply itoa_printable|]. intros b [Hb Hc]. split; [done|]. intros ->. vm_compute in Hb. by destruct Hb as [Hb _].
Qed.

(* ------------------------------------------------------------------ *)
(** * The configuration commands                                         *)
(* ------------------------------------------------------------------ *)

(** Whether the configuration was written: the restart comes after it. *)
Definition was_saved {A} (r : result cli_err A) : bool :=
  match r with Ok _ | Err restartFailed_ => true | _ => false end.

(** An edit leaves the paths and sshd's ports alone. *)
Lemma apply_edit_keeps `{Uni : Unicode} e c c' : apply_edit e c = Ok c' -> path c' = path c /\ SSH c' = SSH c.
Proof.
  unfold apply_edit, gateway_enable, gateway_disable, udpgw_mode, udpgw_ports, mbind, result_bind.
  destruct e as [s| |m|s]; cbn beta iota.
  - destruct s as [|x s]; [|destruct (parsePorts _); [|done]].
    + destruct (gateway_Ports _); [done|by intros [= <-]].
    + destruct l; [done|by intros [= <-]].
  - by intros [= <-].
  - by intros [= <-].
  - destruct (parsePorts s); [by intros [= <-]|done].
Qed.
Lemma apply_edit_unsaved `{Uni : Unicode} e c x : apply_edit e c = Err x -> was_saved (A := gostring) (Err x) = false.
Proof.
  unfold apply_edit, gateway_enable, gateway_disable, udpgw_mode, udpgw_ports, mbind, result_bind.
  destruct e as [s| |m|s]; cbn beta iota; [|done|done|].
  - destruct s as [|b s]; [destruct (gateway_Ports _)|destruct (parsePorts _) as [[]|]]; by intros [= <-].
  - destruct (parsePorts s); [done|by intros [= <-]].
Qed.

Section commands.
Context `{Sys : System, Uni : Unicode, Dsk : Disk, Nft : Netfilter, Yml : YAML}.

(** Commands that do not touch the disk. *)
Definition off_disk {A} (c : H A) : Prop := forall s,
  f_files (h_fs (c s).1) = f_files (h_fs s) /\ f_seen (h_fs (c s).1) = f_seen (h_fs s).

Lemma off_ret {A} (a : A) : off_disk (mret a).
Proof. done. Qed.
Lemma off_bind {A B} (c : H A) (k : A -> H B) : off_disk c -> (forall a, off_disk (k a)) -> off_disk (c ≫= k).
Proof.
  intros Hc Hk s. unfold mbind, H_bind. specialize (Hc s). destruct (c s) as [s1 a].
  destruct (Hk a s1) as [E1 E2]. destruct Hc as [F1 F2]. cbn in *. by rewrite E1, E2.
Qed.
Lemma off_users {A} (c : M A) : off_disk (users_op c).
Proof. intros s. unfold users_op. by destruct (c (h_mgr s)). Qed.
Lemma off_HasSystemd : off_disk HasSystemd.
Proof. done. Qed.
Lemma off_Systemctl args : off_disk (Systemctl args).
Proof. apply off_bind; [apply off_users|intros; apply off_ret]. Qed.
Lemma off_UnitExists u : off_disk (UnitExists u).
Proof. apply off_bind; [apply off_users|intros; apply off_ret]. Qed.
Lemma off_is_root : off_disk is_root.
Proof. apply off_bind; [apply off_users|intros; apply off_ret]. Qed.

Lemma off_try_op : off_disk (disk_op try_op).
Proof. done. Qed.
Lemma off_open_db : off_disk open_db.
Proof.
  apply off_bind; [apply off_try_op|]. intros []; [|apply off_ret].
  apply off_bind; [apply off_users|intros; apply off_ret].
Qed.

Lemma load_inv cfgFile s s' r : load cfgFile s = (s', r) ->
  f_files (h_fs s') = f_files (h_fs s) /\ f_seen (h_fs s') = f_seen (h_fs s) /\
  match r with
  | Ok c => Load yaml_unmarshal cfgFile (read_config (h_fs s)) = Ok c
  | Err x => was_saved (A := gostring) (Err x) = false
  end.
Proof.
  unfold load, load_config, mbind, H_bind.
  destruct (Load _ _ _) as [c|e]; [|by intros [= <- <-]].
  unfold disk_op, EnsureDirs, mbind, F_bind, try_op.
  destruct (op_fails _); cbn [negb]; [by intros [= <- <-]|].
  cbn [f_files f_ops f_seen]. destruct (op_fails _); cbn [negb]; [by intros [= <- <-]|].
  match goal with |- context [open_db ?x] => pose proof (off_open_db x) as [F1 F2]; destruct (open_db x) as [s1 b] end.
  cbn in F1, F2. intros [= <- <-]. rewrite F1, F2. by destruct b.
Qed.

Lemma Load_default cfgFile read :
  Load yaml_unmarshal cfgFile read = Load yaml_unmarshal (or_str cfgFile DefaultPath) read.
Proof. by destruct cfgFile. Qed.

(** What [saveAndRestart] does to the disk. *)
Lemma saveAndRestart_inv c s s' r : saveAndRestart c s = (s', r) ->
  let saved m := Validate c = None /\
    exists d, yaml_marshal c = Some d /\ m !! Path c = Some (save_header ++ d) in
  (exists new, f_seen (h_fs s') = f_seen (h_fs s) ++ new /\ forall m, m ∈ new ->
     m !! Path c = f_files (h_fs s) !! Path c \/ saved m) /\
  (if was_saved r then saved (f_files (h_fs s'))
   else f_files (h_fs s') !! Path c = f_files (h_fs s) !! Path c).
Proof.
  assert (Hnil : forall P : files -> Prop, exists new, f_seen (h_fs s) = f_seen (h_fs s) ++ new /\ forall m, m ∈ new -> P m).
  { intros P. exists []. rewrite app_nil_r. split; [done|]. intros m Hm. by apply elem_of_nil in Hm. }
  unfold saveAndRestart. destruct (Validate c) as [e|] eqn:Ev.
  { intros [= <- <-]. by split; [apply Hnil|]. }
  unfold mbind at 1, H_bind at 1, disk_op.
  destruct (Save c (Path c) (h_fs s)) as [fs1 ok] eqn:Es. intros E.
  assert (Hq : (match Path c with [] => Path c | _ => Path c end) = Path c) by (by destruct (Path c)).
  apply Save_steps in Es. rewrite !Hq in Es. destruct Es as [(new & Hnew & Hm) Hok].
  destruct ok; cbn [negb] in E.
  2:{ injection E as <- <-. cbn. split; [|done]. exists new. split; [done|]. intros m Hin.
      destruct (Hm m Hin); [by left|by right]. }
  assert (Hoff : f_files (h_fs s') = f_files fs1 /\ f_seen (h_fs s') = f_seen fs1 /\ was_saved r = true).
  { clear Hnew Hm Hok. unfold mbind, H_bind in E. set (s1 := mkHost _ _ _ _) in E.
    destruct (off_HasSystemd s1) as [F1 F2]. destruct (HasSystemd s1) as [s2 b]. cbn in F1, F2.
    destruct b; cbn [negb] in E; [|injection E as <- <-; cbn; auto].
    destruct (off_UnitExists (bs "sshfortress.service") s2) as [F3 F4].
    destruct (UnitExists _ s2) as [s3 b]. cbn in F3, F4. rewrite F1 in F3. rewrite F2 in F4.
    destruct b; cbn [negb] in E; [|injection E as <- <-; cbn; auto].
    destruct (off_Systemctl [bs "restart"; bs "sshfortress"] s3) as [F5 F6].
    destruct (Systemctl _ s3) as [s4 b]. cbn in F5, F6. rewrite F3 in F5. rewrite F4 in F6.
    injection E as <- <-. split_and!; [done..|by destruct b]. }
  destruct Hoff as (F1 & F2 & Hr). cbv zeta. rewrite F1, F2, Hr.
  split; [|done]. exists new. split; [done|]. intros m Hin. destruct (Hm m Hin); [by left|by right].
Qed.

(** C35 The commands that change the configuration never damage it: at every moment the
    file is the old one or the complete text of the edited configuration, which
    validates; when the command reports an error before the restart the file is the old
    one; and once it was saved (and YAML can hold its texts) the next command loads the
    edited configuration with its defaults filled in, or reports the mistake that this
    makes; there is none when the edit leaves the UDP gateway a port. *)
Theorem edits_keep_config cfgFile e s s' r :
  run_edit cfgFile e s = (s', r) ->
  let p := or_str cfgFile DefaultPath in
  let before := Load yaml_unmarshal cfgFile (read_config (h_fs s)) in
  let edited c := exists c0, before = Ok c0 /\ apply_edit e c0 = Ok c /\ Validate c = None in
  let holds m c := exists d, yaml_marshal c = Some d /\ m !! p = Some (save_header ++ d) in
  (exists new, f_seen (h_fs s') = f_seen (h_fs s) ++ new /\ forall m, m ∈ new ->
     m !! p = f_files (h_fs s) !! p \/ exists c, edited c /\ holds m c) /\
  (if was_saved r then exists c, edited c /\ holds (f_files (h_fs s')) c /\
     (yaml_ok c -> Load yaml_unmarshal cfgFile (read_config (h_fs s')) =
        match Validate (normalize c) with Some e => Err e | None => Ok (set_path p (normalize c)) end) /\
     (udpgw_Ports (UDPGW c) <> [] -> Validate (normalize c) = None)
   else f_files (h_fs s') !! p = f_files (h_fs s) !! p).
Proof.
  intros E p before edited holds. unfold run_edit, mbind, H_bind in E.
  destruct (load cfgFile s) as [s1 c0] eqn:El.
  apply load_inv in El as (F1 & F2 & Hc0). rewrite <- F1, <- F2.
  assert (Hnil : forall P : files -> Prop, exists new, f_seen (h_fs s1) = f_seen (h_fs s1) ++ new /\
      forall m, m ∈ new -> P m).
  { intros P. exists []. rewrite app_nil_r. split; [done|]. intros m Hm. by apply elem_of_nil in Hm. }
  destruct c0 as [c0|err].
  2:{ injection E as <- <-. rewrite Hc0. by split. }
  destruct (apply_edit e c0) as [c|err] eqn:Ea.
  2:{ injection E as <- <-. rewrite (apply_edit_unsaved _ _ _ Ea). by split. }
  destruct (apply_edit_keeps _ _ _ Ea) as [Hp Hssh].
  destruct (Load_normalized _ _ _ _ Hc0) as (Hp0 & Hne & _).
  assert (Path c = p) as Epath.
  { unfold Path. rewrite Hp, Hp0. unfold p. by destruct cfgFile. }
  apply saveAndRestart_inv in E. rewrite Epath in E. destruct E as [(new & Hnew & Hm) Hr].
  split.
  - exists new. split; [done|]. intros m Hin. destruct (Hm m Hin) as [|[Hv Hd]]; [by left|right].
    exists c. split; [by exists c0|done].
  - destruct (was_saved r); [|done]. destruct Hr as [Hv (d & Hd & Hf)].
    exists c. split; [by exists c0|]. split; [by exists d|]. split.
    + intros Hy. rewrite Load_default. fold p. by rewrite (Load_saved c p _ d) by (done || unfold p; by destruct cfgFile).
    + intros Hu. by apply (normalize_valid c); rewrite ?Hssh.
Qed.
End commands.

(* ------------------------------------------------------------------ *)
(** * A list of ports left empty                                         *)
(* ------------------------------------------------------------------ *)

(** A saved configuration whose normalised form has a clash is refused by every
    command that loads it. *)
Lemma clash_locked_out `{Uni : Unicode, Dsk : Disk, Yml : YAML} c e :
  Validate (normalize c) = Some e ->
  forall q fs d, q <> [] -> yaml_ok c -> yaml_marshal c = Some d -> f_files fs !! q = Some (save_header ++ d) ->
  Load yaml_unmarshal q (read_config fs) = Err e.
Proof. intros He q fs d Hq Hy Hd Hf. by rewrite (Load_saved c q fs d), He. Qed.

(** [setup --gateway-ports 22 --ssh-ports] with an empty list: the configuration has no
    SSH port, so it validates and is saved; the default port 22 filled in by the next
    load clashes with the gateway's, and no command loads it any more. *)
Lemma setup_empty_ssh_ports :
  exists c e, apply_flags (mkFlags (Some (bs "22")) (Some []) [] false false false) Defaults = Ok c /\
    Validate c = None /\ Validate (@normalize ascii_tables c) = Some e.
Proof. do 2 eexists. split_and!; [reflexivity|vm_compute; reflexivity..]. Qed.

(** [udpgw ports --set] with an empty list does the same when the gateway uses one of
    the default ports of the UDP gateway. *)
Lemma udpgw_empty_ports :
  let c0 := with_udpgw (udpgw_set true (bs "builtin") [7100]) (with_gateway (gateway_set true [7300]) Defaults) in
  Validate (@normalize ascii_tables c0) = None /\
  exists c e, @apply_edit ascii_tables (udpgwPorts []) c0 = Ok c /\
    Validate c = None /\ Validate (@normalize ascii_tables c) = Some e.
Proof. split; [vm_compute; reflexivity|]. do 2 eexists. split_and!; [reflexivity|vm_compute; reflexivity..]. Qed.

(* ------------------------------------------------------------------ *)
(** * A concrete edit                                                    *)
(* ------------------------------------------------------------------ *)

Section example.
#[local] Existing Instances toy_system toy_netfilter ascii_tables sound_disk.

(** A YAML library that knows one configuration. *)
Definition one_yaml (K : Config) : YAML.
Proof.
  refine {| yaml_marshal c := Some [];
            yaml_unmarshal _ base := Some (set_path (path base) K);
            yaml_ok c := set_path [] c = set_path [] K |}.
  intros _ c d base Hc _ _. f_equal. apply (f_equal (set_path (path base))) in Hc. exact (eq_sym Hc).
Defined.

Definition ports_set : Config := with_udpgw (udpgw_set true (bs "builtin") [7300; 7200]) Defaults.
#[local] Instance ports_yaml : YAML := one_yaml ports_set.

Definition empty_host : host := mkHost (mkMgr empty_db None []) (mkFs ∅ 0 []) ∅ used_tables.
Definition ports_edited : host * result cli_err gostring :=
  run_edit [] (udpgwPorts (bs "7300,7200")) empty_host.

Lemma edits_keep_config_witness :
  ports_edited.2 = Ok (bs "saved; restart the daemon to apply") /\
  Load yaml_unmarshal [] (read_config (h_fs ports_edited.1)) =
    Ok (set_path DefaultPath (normalize ports_set)) /\
  udpgw_Ports (UDPGW (normalize ports_set)) = [7200; 7300].
Proof.
  destruct ports_edited as [s' r] eqn:E. cbn [fst snd].
  assert (r = Ok (bs "saved; restart the daemon to apply")) as -> by (apply (f_equal snd) in E; by vm_compute in E).
  destruct (edits_keep_config [] (udpgwPorts (bs "7300,7200")) empty_host s' _ E)
    as (_ & c & (c0 & Hc0 & Hc & _) & _ & Hload & Hok).
  assert (Hp : set_path [] c = set_path [] ports_set /\ udpgw_Ports (UDPGW c) = [7300; 7200]).
  { assert (Hd : Load yaml_unmarshal [] (read_config (h_fs empty_host)) = Ok (set_path DefaultPath Defaults))
      by (vm_compute; reflexivity).
    assert (c0 = set_path DefaultPath Defaults) as -> by congruence.
    assert (Hs : apply_edit (udpgwPorts (bs "7300,7200")) (set_path DefaultPath Defaults) =
      Ok (set_path DefaultPath ports_set)) by (vm_compute; reflexivity).
    assert (c = set_path DefaultPath ports_set) as -> by congruence. by split. }
  destruct Hp as [Hp Hu]. split; [done|]. split; [|vm_compute; reflexivity].
  rewrite (Hload Hp), Hok by by rewrite Hu.
  apply (f_equal (fun c => set_path DefaultPath (normalize c))) in Hp. exact (f_equal Ok Hp).
Defined.
End example.
