(* ===== verification/Reports.v ===== *)
(** What the commands print ([src/cmd/sshfortress/users.go] and [ops.go]) when standard
    output is not a terminal, so [color] leaves the text as it is. Tables are lists of
    rows of cells: their alignment is done by [text/tabwriter]. *)
From S2P Require Import Prelude GoStrings Files Procfs Session Gateway Daemon UdpgwServer.
From S2P Require Import Config Security Store Users Netopt Host Setup Doctor GoFloat SysInfo Card Backup Cli.

Section reports.
(** [t.Format(layout)] in the local zone. *)
Variable format_time : gostring -> Z -> gostring.
Abbreviation clock := (format_time (bs "15:04:05")).
Abbreviation stamp := (format_time (bs "2006-01-02 15:04")).
Abbreviation day := (format_time (bs "2006-01-02")).

(** [%v] of numbers and of a map to texts (printed by ascending key). *)
Definition show_ints (l : list Z) : gostring := show_strs (itoa <$> l).
Definition show_map (m : gmap gostring gostring) : gostring :=
  bs "map[" ++ join (bs " ") ((fun k => k ++ bs ":" ++ default [] (m !! k))
                               <$> merge_sort str_le (fst <$> map_to_list m)) ++ bs "]".

(** ** [online] *)

Definition online_header : list gostring :=
  [bs "USER"; bs "CLIENT"; bs "VIA"; bs "SINCE"; bs "TRAFFIC"; bs "SPEED"; bs "UDP"].
Definition online_row (s : LiveSession) : list gostring :=
  let x := ls_Session s in
  [ss_Username x; ss_ClientIP x; ss_Via x; clock (ss_StartedAt x); Card.FormatBytes (i64 (ss_Bytes x));
   rate (ls_RateBps s); itoa (ls_UDPFlows s)].
Definition online_report (ss : list LiveSession) : list (list gostring) * gostring :=
  (online_header :: (online_row <$> ss), itoa (len ss) ++ bs " session(s)").

(** ** [status] *)

Definition udpgw_line (u : UDPGWState) : gostring :=
  bs "  udpgw      " ++ (if us_Healthy u then bs "ok" else bs "down") ++ bs " (" ++ us_Mode u ++
  bs ") ports " ++ show_ints (us_Ports u) ++
  match us_Stats u with
  | Some st => bs "  · " ++ itoa (UdpgwServer.st_Clients st) ++ bs " clients, " ++ itoa (UdpgwServer.st_Flows st) ++ bs " flows"
  | None => []
  end.
Definition gateway_line (g : Gateway.Stats) : gostring :=
  bs "  gateway    ports " ++ show_ints (st_Ports g) ++ bs "  · " ++ itoa (Gateway.st_Sessions g) ++
  bs " sessions, " ++ itoa (st_Total g) ++ bs " total" ++
  (if decide (st_Failed g = ∅) then [] else bs "  failed: " ++ show_map (st_Failed g)).
Definition daemon_lines (st : option State) (now : Z) : list gostring :=
  match st with
  | Some st =>
      if Fresh st now
      then [bs "  daemon     running  up since " ++ stamp (st_StartedAt st);
            bs "  online     " ++ itoa (len (Daemon.st_Sessions st)) ++ bs " session(s), " ++ rate (st_TotalBps st)] ++
           match st_UDPGW st with Some u => [udpgw_line u] | None => [] end ++
           match st_Gateway st with Some g => [gateway_line g] | None => [] end
      else [bs "  daemon     not running (systemctl status sshfortress)"]
  | None => [bs "  daemon     not running (systemctl status sshfortress)"]
  end.
Definition event_line (ev : Event) : gostring :=
  bs "    " ++ format_time (bs "01-02 15:04") (ev_Time ev) ++ bs " " ++ ev_Text ev.
Definition status_report (version : gostring) (st : option State) (users : list UserRecord)
    (cc : gostring) (now : Z) : list gostring :=
  [bs "SSH-VPN v" ++ version] ++ daemon_lines st now ++
  [bs "  users      " ++ itoa (len users); bs "  tcp cc     " ++ cc] ++
  match st with
  | Some st => match st_Events st with
               | [] => []
               | evs => bs "  recent:" :: (event_line <$> lastN evs 5)
               end
  | None => []
  end.

(** ** [optimize], [apply], [doctor] *)

Definition param_row (p : Param) : list gostring :=
  [if p_Applied p then bs "✓" else if negb (p_Supported p) then bs "-" else bs "✗";
   p_Key p; p_Current p; p_Value p].
Definition optimize_status (ps : list Param) : list (list gostring) * gostring :=
  let '(a, t) := Score ps in
  ([[]; bs "SETTING"; bs "CURRENT"; bs "TARGET"] :: (param_row <$> ps),
   itoa a ++ bs "/" ++ itoa t ++ bs " applied").
Definition optimize_applied (r : Result) : list gostring :=
  (bs "applied " ++ itoa (r_Applied r) ++ bs "/" ++ itoa (r_Total r) ++ bs " settings (persisted to " ++
   SysctlFile ++ bs ")") :: ((fun w => bs "  ! " ++ w) <$> r_Warnings r).

Definition step_line (s : Step) : gostring :=
  bs "  " ++ (if s_OK s then bs "✓" else bs "✗") ++ bs " " ++ pad_right 22 (s_Name s) ++ bs " " ++ s_Detail s.

Definition check_mark (c : Check) : gostring :=
  let s := ck_Status c in
  if eqb_str s OK then bs "✓" else if eqb_str s Warn then bs "!"
  else if eqb_str s Fail then bs "✗" else if eqb_str s Skip then bs "-" else [].
Definition check_lines (c : Check) : list gostring :=
  (bs " " ++ check_mark c ++ bs " " ++ pad_right 20 (ck_Name c) ++ bs " " ++ ck_Detail c) ::
  match ck_Fix c with
  | [] => []
  | fix_ => if eqb_str (ck_Status c) OK then [] else [bs "   → " ++ fix_]
  end.
Definition doctor_report (cs : list Check) : list gostring :=
  let '(ok, warn, fail) := Summary cs in
  mjoin (check_lines <$> cs) ++
  [[]; itoa ok ++ bs " ok, " ++ itoa warn ++ bs " warnings, " ++ itoa fail ++ bs " problems"].

(** ** [gateway status]; the failed ports come in the order of a walk through the map. *)

Definition gateway_report (g : option Gateway.Stats) (walk : gmap gostring gostring -> list (gostring * gostring))
    : list gostring :=
  match g with
  | None => [bs "gateway is not running"]
  | Some g =>
      (bs "ports " ++ show_ints (st_Ports g) ++ bs " · " ++ itoa (Gateway.st_Sessions g) ++ bs " live sessions · " ++
       itoa (st_Total g) ++ bs " total · " ++ itoa (st_Rejected g) ++ bs " rejected") ::
      ((fun k => bs "  " ++ pad_right 9 k ++ bs " " ++ itoa (default 0 (st_ByVia g !! k)))
         <$> merge_sort str_le (fst <$> map_to_list (st_ByVia g))) ++
      ((fun kv => bs "  port " ++ kv.1 ++ bs " failed: " ++ kv.2) <$> walk (st_Failed g))
  end.

(** ** [backup list] and [backup restore] *)

Definition backup_row (b : BackupRecord) : list gostring :=
  [bk_ID b; stamp (bk_CreatedAt b); itoa (bk_UserCount b); Card.FormatBytes (bk_SizeBytes b); bk_FilePath b].
Definition backup_report (l : list BackupRecord) : list (list gostring) :=
  [bs "ID"; bs "DATE"; bs "USERS"; bs "SIZE"; bs "FILE"] :: (backup_row <$> l).
Definition restore_report (r : RestoreResult) (warnings : list gostring) : list gostring :=
  (bs "restored " ++ itoa (rr_Users r) ++ bs " users (" ++ itoa (len (rr_Created r)) ++
   bs " accounts created, " ++ itoa (rr_Passwords r) ++ bs " passwords)") ::
  match rr_ConfigSaved r with
  | [] => []
  | p => [bs "the backed-up config was saved as " ++ p ++
          bs " (review it, then copy over config.yaml if you want it)"]
  end ++ ((fun w => bs "  ! " ++ w) <$> warnings).

(** ** [user list] and [user info] *)

Definition user_row (u : UserInfo) : list gostring :=
  let r := info_record u in
  [Username r; info_Status u; itoa (info_ActiveSessions u) ++ bs "/" ++ itoa (MaxConnections r);
   day (ExpiresAt r) ++ bs " (" ++ itoa (info_DaysLeft u) ++ bs "d)"; Card.Traffic r; Notes r].
Definition users_report (l : list UserInfo) : list (list gostring) + gostring :=
  match l with
  | [] => inr (bs "No users yet. Create one: sshfortress user add NAME")
  | _ => inl ([bs "USER"; bs "STATUS"; bs "ONLINE"; bs "EXPIRES"; bs "TRAFFIC"; bs "NOTE"] :: (user_row <$> l))
  end.
Definition session_line (s : Session.Session) : gostring :=
  bs "  • " ++ ss_ClientIP s ++ bs " via " ++ ss_Via s ++ bs " since " ++ clock (ss_StartedAt s) ++
  bs " (" ++ Card.FormatBytes (i64 (ss_Bytes s)) ++ bs ")".
Definition user_lines (u : UserInfo) (now : Z) : list gostring :=
  (bs "  Status: " ++ info_Status u ++ bs "   Created: " ++ day (CreatedAt (info_record u)) ++
   bs "   Last seen: " ++ ago (let t := LastSeen (info_record u) in if t =? 0 then None else Some t) now) :: (session_line <$> info_Sessions u).
End reports.
