(* ===== verification/TlsCert.v ===== *)
(** The certificate of the gateway ([src/internal/gateway/tlscert.go]): a configured pair
    of files, or a self-signed one that is made once and kept. Keys, signatures and PEM
    are the business of the crypto packages, which are an interface. *)
From S2P Require Import Prelude GoStrings Paths Files Config.

Record template : Type := mkTemplate {
  tp_CommonName : gostring;
  tp_DNSNames : list gostring;
  tp_NotBefore : Z;
  tp_NotAfter : Z
}.

(** [x509_pair] is [tls.X509KeyPair] on two PEM texts; [self_signed] is a fresh ECDSA key
    with a certificate it signs for a template, both encoded (certificate first), or no
    result when the random source or an encoder fails. What it makes is a valid pair. *)
Class Crypto : Type := {
  certificate : Type;
  x509_pair : gostring -> gostring -> option certificate;
  self_signed : template -> option (gostring * gostring);
  self_signed_law : forall t c k, self_signed t = Some (c, k) -> is_Some (x509_pair c k)
}.

Inductive tls_err : Type := badPair | noDir | noKey | writeKey | writeCert.

Section tls.
Context `{Dsk : Disk, Cry : Crypto}.
(** [time.Now().AddDate(10, 0, 0)]. *)
Variable in_ten_years : Z -> Z.

(** [tls.LoadX509KeyPair] *)
Definition load_pair (certFile keyFile : gostring) : F (option certificate) :=
  c ← ReadFile certFile;
  match c with
  | None => mret None
  | Some c =>
      k ← ReadFile keyFile;
      mret (match k with Some k => x509_pair c k | None => None end)
  end.

Definition cert_template (host : gostring) (now : Z) : template :=
  let host := or_str host (bs "localhost") in
  mkTemplate host [host] (now - 24 * 3600 * 1000000000) (in_ten_years now).

Definition pair_result (c : option certificate) : result tls_err certificate :=
  match c with Some c => Ok c | None => Err badPair end.

Definition loadOrCreateCert (certFile keyFile dir host : gostring) (now : Z) : F (result tls_err certificate) :=
  if negb (eqb_str certFile []) && negb (eqb_str keyFile [])
  then c ← load_pair certFile keyFile; mret (pair_result c)
  else
    let certFile := path_join dir (bs "cert.pem") in
    let keyFile := path_join dir (bs "key.pem") in
    c ← load_pair certFile keyFile;
    match c with
    | Some c => mret (Ok c)
    | None =>
        made ← try_op;
        if negb made then mret (Err noDir)
        else match self_signed (cert_template host now) with
             | None => mret (Err noKey)
             | Some (certPEM, keyPEM) =>
                 key ← WriteFile keyFile keyPEM;
                 if negb key then mret (Err writeKey)
                 else
                   cert ← WriteFile certFile certPEM;
                   if negb cert then mret (Err writeCert)
                   else mret (pair_result (x509_pair certPEM keyPEM))
             end
    end.

(* ------------------------------------------------------------------ *)
(** * Properties                                                         *)
(* ------------------------------------------------------------------ *)

Section working.
Hypothesis works : forall n, op_fails n = false.

Definition pair_in (certFile keyFile : gostring) (m : files) : option certificate :=
  c ← m !! certFile; k ← m !! keyFile; x509_pair c k.

Lemma does_load_pair certFile keyFile :
  does (load_pair certFile keyFile) (fun m => (m, pair_in certFile keyFile m)).
Proof.
  intros fs. unfold load_pair, pair_in, mbind at 1, F_bind.
  destruct (does_ReadFile works certFile fs) as (fs1 & -> & F1). cbn [fst snd] in F1 |- *.
  destruct (f_files fs !! certFile) as [c|]; [|by exists fs1].
  unfold mbind at 1, F_bind. destruct (does_ReadFile works keyFile fs1) as (fs2 & -> & F2).
  cbn [fst snd] in F2 |- *. exists fs2. rewrite F1 in *. split; [|done].
  cbn. by destruct (f_files fs !! keyFile).
Qed.

(** A configured pair is used as it is, and nothing is written. *)
Lemma configured_pair certFile keyFile dir host now fs :
  certFile <> [] -> keyFile <> [] ->
  let r := loadOrCreateCert certFile keyFile dir host now fs in
  r.2 = pair_result (pair_in certFile keyFile (f_files fs)) /\ f_files r.1 = f_files fs.
Proof.
  intros Hc Hk. unfold loadOrCreateCert. apply eqb_str_false in Hc as ->. apply eqb_str_false in Hk as ->.
  cbn [negb andb]. unfold mbind, F_bind.
  by destruct (does_load_pair certFile keyFile fs) as (fs1 & -> & F1).
Qed.

(** Without a configured pair the gateway has a certificate whenever one can be made. *)
Lemma certificate_made dir host now fs :
  is_Some (self_signed (cert_template host now)) ->
  is_ok (loadOrCreateCert [] [] dir host now fs).2 = true.
Proof.
  intros [[certPEM keyPEM] Hs]. destruct (loadOrCreateCert [] [] dir host now fs) as [fs' r] eqn:E.
  unfold loadOrCreateCert in E. change (eqb_str [] []) with true in E. cbn [negb andb] in E. cbv zeta in E.
  apply (does_step _ _ _ _ _ (does_load_pair _ _)) in E as (gs1 & _ & E). cbn [snd] in E.
  destruct (pair_in _ _ _) as [c'|]; [by injection E as _ <-|].
  apply (does_step _ _ _ _ _ (does_try_op works)) in E as (gs2 & _ & E). cbn [snd negb] in E. rewrite Hs in E.
  apply (does_step _ _ _ _ _ (does_WriteFile works _ keyPEM)) in E as (gs3 & _ & E). cbn [snd negb] in E.
  apply (does_step _ _ _ _ _ (does_WriteFile works _ certPEM)) in E as (gs4 & _ & E). cbn [snd negb] in E.
  injection E as _ <-. by destruct (self_signed_law _ _ _ Hs) as [c ->].
Qed.

(** The certificate made at the first start is the one of every later start. *)
Lemma certificate_kept dir host host' now now' fs fs1 c :
  path_join dir (bs "cert.pem") <> path_join dir (bs "key.pem") ->
  loadOrCreateCert [] [] dir host now fs = (fs1, Ok c) ->
  exists fs2, loadOrCreateCert [] [] dir host' now' fs1 = (fs2, Ok c) /\ f_files fs2 = f_files fs1.
Proof.
  intros Hne E. set (cf := path_join dir (bs "cert.pem")) in *. set (kf := path_join dir (bs "key.pem")) in *.
  assert (Hkept : forall fs, pair_in cf kf (f_files fs) = Some c ->
    exists fs2, loadOrCreateCert [] [] dir host' now' fs = (fs2, Ok c) /\ f_files fs2 = f_files fs).
  { intros gs Hc. unfold loadOrCreateCert. change (eqb_str [] []) with true. cbn [negb andb]. cbv zeta.
    unfold mbind, F_bind. fold cf kf.
    destruct (does_load_pair cf kf gs) as (gs1 & -> & F1). cbn [fst snd] in F1 |- *. rewrite Hc. by exists gs1. }
  apply Hkept. unfold loadOrCreateCert in E. cbn [negb andb] in E. cbv zeta in E. fold cf kf in E.
  change (eqb_str [] []) with true in E. cbn [negb andb] in E.
  apply (does_step _ _ _ _ _ (does_load_pair cf kf)) in E as (gs1 & F1 & E). cbn [fst snd] in F1, E.
  destruct (pair_in cf kf (f_files fs)) as [c'|] eqn:Ec; [injection E as <- <-; by rewrite F1|].
  apply (does_step _ _ _ _ _ (does_try_op works)) in E as (gs2 & F2 & E). cbn [fst snd negb] in F2, E.
  destruct (self_signed _) as [[certPEM keyPEM]|] eqn:Es; [|done].
  apply (does_step _ _ _ _ _ (does_WriteFile works kf keyPEM)) in E as (gs3 & F3 & E).
  cbn [fst snd negb] in F3, E.
  apply (does_step _ _ _ _ _ (does_WriteFile works cf certPEM)) in E as (gs4 & F4 & E).
  cbn [fst snd negb] in F4, E. injection E as <- E.
  unfold pair_in. rewrite F4, lookup_insert_eq. cbn. rewrite lookup_insert_ne, F3, lookup_insert_eq by done. cbn.
  unfold pair_result in E. destruct (x509_pair certPEM keyPEM); [by injection E as <-|done].
Qed.
End working.
End tls.
