(* ===== verification/DaemonRun.v ===== *)
(** The whole run of the daemon ([Run] of [src/internal/daemon/daemon.go]) on the machine
    the components share: the start of every part, the loop, the shutdown; and the state
    file ([Read] and [Write] of [src/internal/state/state.go]). The lines of the log go to
    standard error and are left out. *)
From S2P Require Import Prelude GoStrings Paths Files Procfs Session UdpgwServer Gateway Daemon.
From S2P Require Import Config Security Store Users Netopt Firewall Host Badvpn TlsCert.

Definition RunDir : gostring := bs "/run/sshfortress".

(* ------------------------------------------------------------------ *)
(** * The state file                                                     *)
(* ------------------------------------------------------------------ *)

Definition StatePath : gostring := path_join RunDir (bs "state.json").

Section state_file.
Context `{Dsk : Disk, CSt : !Codec State}.

Definition read_state : F (option State) :=
  d ← ReadFile StatePath; mret (d ≫= unmarshal).
Definition write_state (st : State) : F bool :=
  match marshal st with
  | None => mret false
  | Some data => WriteFileAtomic StatePath data
  end.
End state_file.

(* ------------------------------------------------------------------ *)
(** * Run                                                                *)
(* ------------------------------------------------------------------ *)

Inductive run_end : Type :=
| endNotRoot
| endNoRunDir
| endPanic
| endStopped.

Section run.
Context `{Sys : System, Cal : Calendar, Uni : Unicode, CU : !Codec UserRecord, Blt : Bolt}.
Context `{Dsk : Disk, Nft : Netfilter, Knl : Kernel, CS : !Codec (gmap gostring gostring), CSt : !Codec State}.
Context `{Cry : Crypto}.
Variable cfg : Config.
(** As in [Daemon]. *)
Variable clock : world -> Z.
Variable version : gostring.
Variable show_err : dberr -> gostring.
Variable scan_err : gostring.
Variable rate : Z -> Z -> Z.
Variable state_written : world -> bool.
Variable walk_deltas : gmap gostring Z -> list (gostring * Z).
Variable walk_users : gmap gostring UserRecord -> list (gostring * UserRecord).
(** The texts of errors, and what the system answers to the start: the tools of the
    packet filter, the binary of sshd, the addresses of the UDP gateway that cannot be
    opened and the order in which Go walks their map, those that can be dialled, the ports of the gateway that cannot be opened
    and the processes that are alive. *)
Variable show_merr : merr -> gostring.
Variable show_fw : fw_err -> gostring.
Variable show_unit : unit_err -> gostring.
Variable show_start : newerr + starterr -> gostring.
Variable net_text : gostring.
Variable nf_err : gostring -> rule -> gostring.
Variable net_err : gostring -> gostring.
Variable tools : list gostring.
Variable have_sshd : bool.
Variable listen_udp : gostring -> option gostring.
Variable walk_failed : gmap gostring gostring -> list (gostring * gostring).
Variable dial : gostring -> bool.
Variable listen : Z -> option gostring.
Variable alive : Z -> bool.
Variable in_ten_years : Z -> Z.

(** The machine and the process on it; the database and the commands run are the
    machine's and the daemon's. *)
Definition P (A : Type) : Type := host * daemon -> (host * daemon) * A.
#[export] Instance P_ret : MRet P := fun A a s => (s, a).
#[export] Instance P_bind : MBind P := fun A B f m s => let '(s, a) := m s in f a s.
Definition on_host {A} (c : H A) : P A := fun '(h, d) =>
  let '(h, a) := c (mkHost (d_mgr d) (h_fs h) (h_sys h) (h_nf h)) in ((h, Daemon.set_mgr (h_mgr h) d), a).
Definition on_daemon (f : daemon -> daemon) : P () := fun '(h, d) =>
  let d := f d in ((mkHost (d_mgr d) (h_fs h) (h_sys h) (h_nf h), d), tt).

Abbreviation warning m := (on_daemon (warn m)).

Definition start_group : P () :=
  let um := NewManager cfg in
  let g := ud_Group (UserDefaults cfg) in
  made ← on_host (users_op (EnsureGroup um));
  _ ← (match made with
       | Err e => warning (bs "create group " ++ g ++ bs ": " ++ show_merr e)
       | Ok _ => mret tt
       end);
  moved ← on_host (users_op (MigrateGroups um));
  match moved with
  | Err e => warning (bs "migrate users to group: " ++ show_merr e)
  | Ok _ => mret tt
  end.

Definition start_network : P () :=
  if negb (network_AutoOptimize (Network cfg)) then mret tt
  else
    root ← on_host is_root;
    r ← on_host (net_op (Netopt.Apply cfg net_err root));
    match r with
    | None => warning (bs "network optimization: " ++ net_text)
    | Some r =>
        on_daemon (fun d => foldl (fun d w => warn (bs "network: " ++ w) d) d (Netopt.r_Warnings r))
    end.

Definition start_firewall : P () :=
  etc_group ← on_host (sees (read_file (bs "/etc/group")));
  e ← on_host (fw_op (Firewall.Apply cfg nf_err tools etc_group));
  match e with
  | Some e => warning (show_fw e)
  | None => mret tt
  end.

(** [startUDPGW]: badvpn is applied, or retired when the built-in gateway takes its ports. *)
Definition start_udpgw : P () :=
  let c := UDPGW cfg in
  if negb (udpgw_Enabled c) then on_daemon (startUDPGW cfg None [])
  else if eqb_str (udpgw_Mode c) (bs "badvpn")
  then e ← on_host (Badvpn.Apply cfg); on_daemon (startUDPGW cfg (show_unit <$> (e : option unit_err)) [])
  else _ ← on_host Disable; on_daemon (startUDPGW cfg None (walk_failed (UdpgwServer.Listen listen_udp (udpAddrs cfg) ∅))).

Definition udpHealthy : bool := existsb dial (udpAddrs cfg).
Definition first_health : P () :=
  if udpgw_Enabled (UDPGW cfg)
  then on_daemon (fun d => set_udp (d_udp d) (set_healthy udpHealthy <$> d_udpState d) d)
  else mret tt.

(** [startGateway]: the certificate is needed only when there is a gateway to start. *)
Definition start_gateway (old : option State) : P () :=
  let c := Config.Gateway cfg in
  if negb (gateway_Enabled c) || (len (gateway_Ports c) =? 0) || negb have_sshd
  then on_daemon (startGateway cfg old have_sshd false listen alive show_start)
  else
    now ← (fun s => (s, now_of clock s.2));
    cert ← on_host (disk_op (loadOrCreateCert in_ten_years (gateway_TLSCert c) (gateway_TLSKey c)
                               (path_join (path_dir (Path cfg)) (bs "tls")) (server_Host (Server cfg)) now));
    on_daemon (startGateway cfg old have_sshd (is_ok cert) listen alive show_start).

(** The interval of [time.NewTicker], which panics when it is not positive. *)
Definition interval : Z := i64 (limiter_IntervalSecs (Limiter cfg) * Gateway.Second).

Definition one_tick : daemon -> daemon :=
  tick cfg clock version show_err scan_err rate state_written walk_deltas walk_users.
Definition step (e : loop_event) : P () :=
  on_daemon (fun d => loop_step cfg clock version show_err scan_err rate state_written walk_deltas walk_users d e).
Fixpoint loop (es : list loop_event) : P () :=
  match es with
  | [] => mret tt
  | e :: es => _ ← step e; loop es
  end.
Definition stop : P () := on_daemon (shutdown cfg clock version state_written).

(** Everything before the loop; the state file of an earlier daemon. *)
Definition start_parts (old : option State) : P () :=
  _ ← start_group; _ ← start_network; _ ← start_firewall; _ ← start_udpgw; _ ← first_health; start_gateway old.

(** [Run] up to its loop: the reason why it ends before it, if it does. *)
Definition boot : P (option run_end) :=
  root ← on_host is_root;
  if negb root then mret (Some endNotRoot)
  else
    _ ← on_daemon (fun d => set_started (now_of clock d) d);
    made ← on_host (disk_op try_op);
    if negb made then mret (Some endNoRunDir)
    else
      old ← on_host (disk_op read_state);
      _ ← on_daemon (take_over old);
      _ ← start_parts old;
      if interval <=? 0 then _ ← stop; mret (Some endPanic) else mret None.

(** [Run] with the events its select picks before the process is told to stop. *)
Definition Run (es : list loop_event) : P run_end :=
  ended ← boot;
  match ended with
  | Some e => mret e
  | None => _ ← on_daemon one_tick; _ ← loop es; _ ← stop; mret endStopped
  end.
End run.
