(* ===== verification/DaemonRunProps.v ===== *)
(** What the whole run of the daemon guarantees: the traffic on record grows by every byte
    of the sessions exactly once, across passes and restarts. *)
From S2P Require Import Prelude GoStrings Paths Files NetAddr Procfs Session UdpgwServer Gateway Daemon DaemonProps DaemonTraffic.
From S2P Require Import Config Security Store Users UsersProps Firewall FirewallProps Netopt NetoptProps Host Badvpn TlsCert DaemonRun.

Section run.
Context `{Sys : System, Cal : Calendar, Uni : Unicode, CU : !Codec UserRecord, Blt : Bolt}.
Context `{Dsk : Disk, Nft : Netfilter, Knl : Kernel, CS : !Codec (gmap gostring gostring), CSt : !Codec State}.
Context `{Cry : Crypto}.
Context (cfg : Config) (clock : world -> Z) (version : gostring)
  (show_err : dberr -> gostring) (scan_err : gostring) (rate : Z -> Z -> Z)
  (state_written : world -> bool)
  (walk_deltas : gmap gostring Z -> list (gostring * Z))
  (walk_users : gmap gostring UserRecord -> list (gostring * UserRecord))
  (show_merr : merr -> gostring) (show_fw : fw_err -> gostring) (show_unit : unit_err -> gostring)
  (show_start : newerr + starterr -> gostring) (net_text : gostring)
  (nf_err : gostring -> rule -> gostring) (net_err : gostring -> gostring) (tools : list gostring)
  (have_sshd : bool) (listen_udp : gostring -> option gostring)
  (walk_failed : gmap gostring gostring -> list (gostring * gostring)) (dial : gostring -> bool)
  (listen : Z -> option gostring) (alive : Z -> bool) (in_ten_years : Z -> Z).
Implicit Types d : daemon.

Abbreviation tick := (tick cfg clock version show_err scan_err rate state_written walk_deltas walk_users).
Abbreviation shutdown := (shutdown cfg clock version state_written).
Abbreviation start_parts := (start_parts cfg clock show_merr show_fw show_unit show_start net_text nf_err net_err
  tools have_sshd listen_udp walk_failed dial listen alive in_ten_years).
Abbreviation boot := (boot cfg clock version state_written show_merr show_fw show_unit show_start net_text nf_err net_err
  tools have_sshd listen_udp walk_failed dial listen alive in_ten_years).

(* ------------------------------------------------------------------ *)
(** * The start leaves the accounting alone                              *)
(* ------------------------------------------------------------------ *)

(** The bases of the accounting and the database. *)
Definition books d : (gmap Z IOBase * Z * Z) * DB := (bases d, m_db (d_mgr d)).
Definition still {A} (c : P A) : Prop := forall x, books (c x).1.2 = books x.2.

Definition keeps_db {A} (c : H A) : Prop := forall s, m_db (h_mgr (c s).1) = m_db (h_mgr s).
Lemma keeps_db_bind {A B} (c : H A) (k : A -> H B) : keeps_db c -> (forall a, keeps_db (k a)) -> keeps_db (c ≫= k).
Proof. intros Hc Hk s. unfold mbind, H_bind. specialize (Hc s). destruct (c s) as [s1 a]. by rewrite Hk. Qed.
Lemma keeps_db_quiet {A} (c : H A) : quiet c -> keeps_db c.
Proof. intros Hq s. apply (Hq s). Qed.
Lemma keeps_db_users {A} (c : M A) : UsersProps.keeps same_db c -> keeps_db (users_op c).
Proof. intros Hc s. unfold users_op. specialize (Hc (h_mgr s)). by destruct (c (h_mgr s)). Qed.
Lemma keeps_db_disk {A} (c : F A) : keeps_db (disk_op c).
Proof. intros s. unfold disk_op. by destruct (c (h_fs s)). Qed.
Lemma keeps_db_net {A} (c : N A) : keeps_db (net_op c).
Proof. intros s. unfold net_op. by destruct (c _). Qed.
Lemma keeps_db_fw {A} (c : W A) : keeps_db (fw_op c).
Proof. intros s. unfold fw_op. by destruct (c _). Qed.

Ltac keeps_db_tac :=
  repeat lazymatch goal with
  | |- keeps_db (_ ≫= _) => apply keeps_db_bind; [|intros ?]
  | |- keeps_db (disk_op _) => apply keeps_db_disk
  | |- keeps_db (net_op _) => apply keeps_db_net
  | |- keeps_db (fw_op _) => apply keeps_db_fw
  | |- keeps_db (Systemctl _) => apply keeps_db_quiet, quiet_Systemctl
  | |- keeps_db (UnitActive _) => apply keeps_db_quiet, quiet_UnitActive
  | |- keeps_db (UnitExists _) => apply keeps_db_quiet, quiet_UnitExists
  | |- keeps_db is_root => apply keeps_db_quiet, quiet_is_root
  | |- keeps_db HasSystemd => apply keeps_db_quiet, quiet_HasSystemd
  | |- keeps_db (users_op _) => apply keeps_db_users; eauto with keeps
  | |- keeps_db (if ?b then _ else _) => destruct b
  | |- keeps_db (sees _) => done
  | |- keeps_db (mret _) => done
  end.
Lemma keeps_db_Apply : keeps_db (Badvpn.Apply cfg).
Proof. unfold Badvpn.Apply. keeps_db_tac. Qed.
Lemma keeps_db_Disable : keeps_db Disable.
Proof. unfold Disable. keeps_db_tac. Qed.

Lemma still_ret {A} (a : A) : still (mret a).
Proof. done. Qed.
Lemma still_bind {A B} (c : P A) (k : A -> P B) : still c -> (forall a, still (k a)) -> still (c ≫= k).
Proof.
  intros Hc Hk x. unfold mbind, P_bind. specialize (Hc x). destruct (c x) as [y a]. rewrite (Hk a y). exact Hc.
Qed.
Lemma still_host {A} (c : H A) : keeps_db c -> still (on_host c).
Proof.
  intros Hc [h d]. unfold on_host, books. specialize (Hc (mkHost (d_mgr d) (h_fs h) (h_sys h) (h_nf h))).
  destruct (c _) as [h' a]. cbn in *. by rewrite Hc.
Qed.
Lemma still_daemon f : (forall d, books (f d) = books d) -> still (on_daemon f).
Proof. intros Hf [h d]. apply Hf. Qed.
Lemma still_now : still (fun s : host * daemon => (s, now_of clock s.2)).
Proof. done. Qed.

Lemma warn_books m d : books (warn m d) = books d.
Proof. done. Qed.
Lemma warns_books {A} (f : A -> gostring) l d : books (foldl (fun d w => warn (f w) d) d l) = books d.
Proof. revert d. induction l as [|w l IH]; intros d; [done|]. cbn [foldl]. by rewrite IH. Qed.
Lemma startUDPGW_books b l d : books (startUDPGW cfg b l d) = books d.
Proof.
  unfold startUDPGW. destruct (negb _); [done|]. destruct (eqb_str _ _); [by destruct b|].
  cbv zeta. match goal with |- context [foldl ?f ?d l] => change (books (foldl f d l) = books d); generalize d end.
  induction l as [|[a e] l IH]; intros d0; [done|]. cbn [foldl]. by rewrite IH.
Qed.
Lemma startGateway_books old b c d : books (startGateway cfg old b c listen alive show_start d) = books d.
Proof.
  unfold startGateway. destruct (_ || _); [done|]. destruct (negb b); [done|].
  destruct (Gateway.New _ _ _) as [g|e]; [|done]. cbv zeta.
  destruct (Gateway.Start _ _) as [g' [e|]]; done.
Qed.

Ltac still_tac :=
  repeat lazymatch goal with
  | |- still (_ ≫= _) => apply still_bind; [|intros ?]
  | |- still (on_host _) => apply still_host; keeps_db_tac
  | |- still (on_daemon (warn _)) => by apply still_daemon
  | |- still (if ?b then _ else _) => destruct b
  | |- still (match ?b with _ => _ end) => destruct b
  | |- still (let _ := _ in _) => cbv zeta
  | |- still (mret _) => apply still_ret
  end.

Lemma start_parts_still old : still (start_parts old).
Proof.
  unfold DaemonRun.start_parts, start_group, start_network, start_firewall, start_udpgw, first_health, start_gateway.
  still_tac; try (apply still_daemon; intros d).
  all: first [apply warns_books|apply startUDPGW_books|apply startGateway_books|apply still_now
             |apply keeps_db_Apply|apply keeps_db_Disable|done].
Qed.

(** The file holds the text of a state. *)
Definition holds_state (h : host) (st : State) : Prop :=
  exists data, f_files (h_fs h) !! StatePath = Some data /\ marshal st = Some data /\ stable st.

Hypothesis works : forall n, op_fails n = false.

Lemma root_quiet (h : host) d : exists h' d' b,
  on_host is_root (h, d) = ((h', d'), b) /\ h_fs h' = h_fs h /\ books d' = books d.
Proof.
  pose proof (still_host is_root (keeps_db_quiet _ quiet_is_root) (h, d)) as Hb. unfold on_host, is_root, users_op, mbind, H_bind in *. cbn in *.
  destruct (RequireRoot (d_mgr d)) as [m r]. cbn in *. do 3 eexists. split; [done|]. by split.
Qed.

Lemma read_state_reads fs data st : f_files fs !! StatePath = Some data -> marshal st = Some data -> stable st ->
  read_state fs = (mkFs (f_files fs) (S (f_ops fs)) (f_seen fs), Some st).
Proof.
  intros Hf Hm Hst. unfold read_state, ReadFile, mbind, F_bind. rewrite works, Hf.
  exact (f_equal (pair _) (codec_law _ _ Hst Hm)).
Qed.

(** A new process takes the bases over from the file and leaves the database alone. *)
Lemma boot_books (h h' : host) d d' st : holds_state h st -> boot (h, d) = ((h', d'), None) ->
  d_prev d' = st_IOBase st /\ m_db (d_mgr d') = m_db (d_mgr d).
Proof.
  intros (data & Hf & Hm & Hst) Hb. unfold DaemonRun.boot in Hb.
  destruct (root_quiet h d) as (h1 & d1 & b & E1 & F1 & B1). unfold mbind, P_bind in Hb. rewrite E1 in Hb.
  destruct b; cbn [negb] in Hb; [|done]. unfold on_daemon, on_host, disk_op, try_op in Hb. cbn in Hb.
  rewrite works in Hb. cbn -[read_state] in Hb. rewrite F1 in Hb.
  rewrite (read_state_reads _ data st) in Hb by done. cbn in Hb.
  match type of Hb with context [start_parts ?o ?x] => pose proof (start_parts_still o x) as Hk; destruct (start_parts o x) as [[h2 d2] []] end.
  cbn in Hk, Hb. destruct (interval cfg <=? 0); [by destruct (stop _ _ _ _ _) as [? []]|].
  injection Hb as <- <-. unfold books, bases in Hk, B1. injection Hk as -> _ _ ->. injection B1 as _ _ _ <-. done.
Qed.

(** What a stop and a pass leave in the file. *)
Lemma shutdown_saves d : state_written (m_world (d_mgr d)) = true ->
  exists st, d_published (shutdown d) = Some st /\ st_IOBase st = d_prev d.
Proof.
  intros Hw. unfold Daemon.shutdown, publish. cbv zeta. cbn. rewrite Hw. by eexists.
Qed.
Lemma publish_saves p d : state_written (m_world (d_mgr d)) = true ->
  exists st, d_published (publish cfg clock version state_written p d) = Some st /\ st_IOBase st = d_prev d.
Proof.
  intros Hw. unfold publish. destruct (default _ p) as [ss t]. cbv zeta. rewrite Hw. by eexists.
Qed.
Lemma tick_saves d : (forall w, state_written w = true) -> is_Some (scanned cfg d) ->
  exists st, d_published (tick d) = Some st /\ st_IOBase st = d_prev (tick d).
Proof.
  intros Hw Hs. unfold Daemon.tick, scanned in *. destruct (list_users d) as [d1 [recs|e]]; [|by destruct Hs].
  destruct (Scan _ _ _) as [ss|]; [|by destruct Hs]. cbv zeta. destruct (manage _ _) as [managed byName].
  match goal with |- context [publish _ _ _ _ ?p ?d] => set (p0 := p); set (d0 := d) end.
  destruct (publish_saves p0 d0 (Hw _)) as (st & Ep & Eb). exists st. split; [exact Ep|]. rewrite Eb.
  pose proof (publish_bases cfg clock version state_written p0 d0) as Hb. unfold bases in Hb. by injection Hb as -> _ _.
Qed.

(* ------------------------------------------------------------------ *)
(** * Traffic over passes and restarts                                   *)
(* ------------------------------------------------------------------ *)

(** A daemon that was stopped, or killed after a pass, and the one that is started on the
    state file it has left, while the traffic on record stays what it was. *)
Definition left_behind d st : Prop :=
  (state_written (m_world (d_mgr d)) = true /\ d_published (shutdown d) = Some st) \/
  (d_published d = Some st /\ st_IOBase st = d_prev d).
Definition restarted name d d' : Prop :=
  exists st h s h', left_behind d st /\ holds_state h st /\ usage name (New s) = usage name d /\
    boot (h, New s) = ((h', d'), None).

Lemma restarted_books name d d' : restarted name d d' -> d_prev d' = d_prev d /\ usage name d' = usage name d.
Proof.
  intros (st & h & s & h' & Hl & Hf & Hu & Hb). destruct (boot_books h h' (New s) d' st Hf Hb) as [-> Hdb].
  split; [|rewrite <- Hu; unfold usage; by rewrite Hdb].
  destruct Hl as [[Hw Hp]|[_ E]]; [|done]. destruct (shutdown_saves d Hw) as (st' & E & E'). by rewrite Hp in E; injection E as ->.
Qed.

(** Whatever happens between two passes (the watchdog, other commands on the database), it
    leaves the bases and the traffic on record for the user as they are. *)
Definition carried name d d' : Prop :=
  bases d' = bases d /\ usage name d' = usage name d /\ keyed (m_db (d_mgr d')).

Abbreviation charges := (charges clock rate).

(** Daemons that come and go, as one user sees them: passes that could read the users and
    the processes and save the traffic, each with what it counts for the sessions of the
    user; passes that could not read them; and restarts after a first pass. *)
Inductive passes (name : gostring) d : list (list charge) -> daemon -> Prop :=
| passes_none : passes name d [] d
| passes_pass l d1 d2 ss :
    passes name d l d1 -> carried name d1 d2 -> scanned cfg d2 = Some ss -> sound_scan ss ->
    d_warnings (tick d2) = d_warnings d2 -> passes name d (l ++ [charges name d2 ss]) (tick d2)
| passes_skip l d1 d2 :
    passes name d l d1 -> carried name d1 d2 -> scanned cfg d2 = None -> passes name d l (tick d2)
| passes_restart l d1 d2 :
    passes name d l d1 -> l <> [] -> restarted name d1 d2 -> passes name d l d2.

Definition of_session (pid start : Z) (c : charge) : Prop := ch_PID c = pid /\ ch_Start c = start.
#[global] Instance of_session_dec pid start c : Decision (of_session pid start c).
Proof. unfold of_session. apply _. Defined.

(** A pass sees the session with this byte counter. *)
Definition seen_at (pid start b : Z) (cs : list charge) : Prop := exists a, mkCharge pid start b a ∈ cs.

Lemma skip_usage name d : scanned cfg d = None -> usage name (tick d) = usage name d.
Proof.
  unfold Daemon.tick, scanned. assert (Hu : usage name (list_users d).1 = usage name d)
    by (unfold list_users; by destruct (db_lock _)).
  destruct (list_users d) as [d1 [recs|e]]; [|done]. by destruct (Scan _ _ _).
Qed.

Lemma amount_app l k : amount (l ++ k) = amount l + amount k.
Proof. unfold amount. by rewrite fmap_app, total_app. Qed.

Lemma carried_bases_ok name d d' : carried name d d' -> bases_ok d -> bases_ok d'.
Proof. intros (Hb & _) Hp. unfold bases_ok, bases in *. by injection Hb as -> _ _. Qed.

Lemma tick_bases_ok d ss : scanned cfg d = Some ss -> sound_scan ss -> bases_ok (tick d).
Proof.
  intros Hss [_ Hb] pid p.
  pose proof (tick_bases cfg clock version show_err scan_err rate state_written walk_deltas walk_users d) as Ht.
  rewrite Hss in Ht. unfold bases in Ht. injection Ht as -> _ _. unfold account_sessions. rewrite account_next. cbn [a_next]. clear Hss.
  induction ss as [|s ss IH] using rev_ind; [done|]. rewrite foldl_app. cbn [foldl].
  apply Forall_app in Hb as [Hb Hs]. rewrite Forall_singleton in Hs.
  intros [[_ <-]|[_ Hp]]%lookup_insert_Some; [cbn; lia|by apply IH].
Qed.

(** What one pass counts for one session, and the base it leaves. *)
Lemma pass_session name d ss pid start b :
  scanned cfg d = Some ss -> sound_scan ss -> bases_ok d -> seen_at pid start b (charges name d ss) ->
  amount (filter (of_session pid start) (charges name d ss)) = b - counted_from pid start b d /\
  d_prev (tick d) !! pid = Some (mkIOBase start b).
Proof.
  intros Hss [Hnd Hby] Hp [a Ha]. unfold DaemonTraffic.charges in *.
  apply list_elem_of_fmap in Ha as (s & Es & Hs). injection Es as -> -> -> ->.
  apply list_elem_of_filter in Hs as [Hn Hs]. split.
  2:{ pose proof (tick_bases cfg clock version show_err scan_err rate state_written walk_deltas walk_users d) as Ht.
      rewrite Hss in Ht. unfold bases in Ht. injection Ht as -> _ _. by apply account_next_lookup. }
  rewrite Forall_forall in Hby.
  destruct (session_delta_counted rate d (now_of clock d - d_lastTick d) s (Hby s Hs) Hp) as [<- _].
  apply list_elem_of_split in Hs as (l1 & l2 & ->).
  rewrite fmap_app, fmap_cons, NoDup_app, NoDup_cons in Hnd. destruct Hnd as (_ & Hl1 & Hl2 & _).
  assert (Hout : forall l, ss_PID s ∉ ss_PID <$> l ->
    filter (of_session (ss_PID s) (ss_StartedAt s)) (charge_of clock rate d <$> filter (fun x => ss_Username x = name) l) = []).
  { intros l Hl.
    induction l as [|x l IH]; [done|]. rewrite fmap_cons, not_elem_of_cons in Hl. destruct Hl as [Hx Hl].
    rewrite filter_cons. case_decide; [|by apply IH]. rewrite fmap_cons, filter_cons_False; [by apply IH|].
    intros [Hpid _]. cbn in Hpid. congruence. }
  rewrite filter_app, (filter_cons_True _ s l2) by done.
  rewrite fmap_app, filter_app, (Hout l1), fmap_cons, filter_cons_True, (Hout l2); [..|done|by split|].
  - unfold amount. cbn. lia.
  - intros Hin. apply (Hl1 (ss_PID s)); [done|left].
Qed.

Hypothesis texts : text_stable.
Hypothesis walk_deltas_all : forall m, walk_deltas m ≡ₚ map_to_list m.

Lemma passes_bases_ok name d l d' : passes name d l d' -> bases_ok d -> bases_ok d'.
Proof.
  intros Hrun Hp. induction Hrun as [|l d1 d2 ss Hrun IH Hc Hss Hsc Hw|l d1 d2 Hrun IH Hc Hss|l d1 d2 Hrun IH Hl Hr]; [done|..].
  - by eapply tick_bases_ok.
  - pose proof (tick_bases cfg clock version show_err scan_err rate state_written walk_deltas walk_users d2) as Ht.
    rewrite Hss in Ht. unfold bases_ok. unfold bases in Ht. injection Ht as -> _ _. by eapply carried_bases_ok.
  - destruct (restarted_books name d1 d2 Hr) as [E _]. unfold bases_ok. by rewrite E.
Qed.

(** The traffic on record grows by the sum of the counts. *)
Lemma passes_usage name d l d' : passes name d l d' -> bases_ok d ->
  (forall u, usage name d = Some u -> 0 <= u /\ u + amount (concat l) < 2 ^ 63) ->
  usage name d' = (fun u => u + amount (concat l)) <$> usage name d /\ 0 <= amount (concat l).
Proof.
  intros Hrun Hp. induction Hrun as [|l d1 d2 ss Hrun IH Hc Hss Hsc Hw|l d1 d2 Hrun IH Hc Hss|l d1 d2 Hrun IH Hl Hr]; intros Hu.
  - split; [|done]. destruct (usage name d); cbn; [f_equal; lia|done].
  - assert (Hp2 : bases_ok d2) by (eapply carried_bases_ok; [exact Hc|by eapply passes_bases_ok]).
    destruct Hc as (_ & Eu & Hk).
    pose proof (charges_nonneg clock rate name d2 ss Hsc Hp2) as Hpos.
    rewrite concat_app, amount_app in *. cbn [concat] in *. rewrite app_nil_r in *.
    destruct IH as [IHu IHp]; [intros u Eq; specialize (Hu u Eq); lia|].
    split; [|lia]. rewrite (tick_usage cfg clock version show_err scan_err rate state_written walk_deltas walk_users texts walk_deltas_all name d2 ss) by
      (done || (rewrite Eu, IHu; destruct (usage name d) as [u|]; [|done]; intros ? [= <-]; specialize (Hu u eq_refl); lia)).
    rewrite Eu, IHu. destruct (usage name d); cbn; [f_equal; lia|done].
  - destruct Hc as (_ & Eu & _). by rewrite skip_usage, Eu by done; apply IH.
  - destruct (restarted_books name d1 d2 Hr) as [_ ->]. by apply IH.
Qed.

Lemma Sorted_snoc_le l b : Sorted Z.le (l ++ [b]) -> Sorted Z.le l /\ (l <> [] -> List.last l 0 <= b).
Proof.
  intros Hs. apply Sorted_StronglySorted in Hs; [|exact Z.le_trans].
  split; [by apply StronglySorted_Sorted, (StronglySorted_app_1_l _ l [b])|].
  intros Hne. destruct (exists_last Hne) as (l0 & x & ->). rewrite last_last.
  rewrite (StronglySorted_app Z.le (l0 ++ [x]) [b]) in Hs. destruct Hs as (Hx & _). apply Hx; set_solver.
Qed.

(** What is counted for a session that every pass sees. *)
Lemma passes_session name d l d' pid start cs : passes name d l d' -> bases_ok d ->
  Forall2 (seen_at pid start) cs l -> Sorted Z.le cs ->
  match cs with
  | [] => bases d' = bases d
  | b :: _ => amount (filter (of_session pid start) (concat l)) = List.last cs 0 - counted_from pid start b d /\
      d_prev d' !! pid = Some (mkIOBase start (List.last cs 0))
  end.
Proof.
  intros Hrun Hp. revert cs. induction Hrun as [|l d1 d2 ss Hrun IH Hc Hss Hsc Hw|l d1 d2 Hrun IH Hc Hss|l d1 d2 Hrun IH Hl Hr]; intros cs Hseen Hsort.
  - by apply Forall2_nil_inv_r in Hseen as ->.
  - apply Forall2_app_inv_r in Hseen as (cs0 & k & Hseen & Hk & ->).
    apply Forall2_cons_inv_r in Hk as (b & k' & Hb & Hk & ->). apply Forall2_nil_inv_r in Hk as ->.
    apply Sorted_snoc_le in Hsort as [Hsort Hle]. specialize (IH cs0 Hseen Hsort).
    assert (Hp2 : bases_ok d2) by (eapply carried_bases_ok; [exact Hc|by eapply passes_bases_ok]).
    destruct (pass_session name d2 ss pid start b Hss Hsc Hp2 Hb) as [Ha Hprev].
    destruct Hc as (Eb & _ & _). rewrite concat_app, filter_app, amount_app. cbn [concat]. rewrite app_nil_r, Ha.
    destruct cs0 as [|b0 cs0].
    + apply Forall2_nil_inv_l in Hseen as ->. cbn.
      assert (counted_from pid start b d2 = counted_from pid start b d) as ->; [|split; [lia|done]].
      rewrite IH in Eb. unfold bases in Eb. unfold counted_from. by injection Eb as -> -> ->.
    + destruct IH as [-> IHp]. specialize (Hle ltac:(done)). cbn [app]. change (b0 :: cs0 ++ [b]) with ((b0 :: cs0) ++ [b]).
      rewrite last_last. split; [|done].
      assert (counted_from pid start b d2 = List.last (b0 :: cs0) 0) as ->; [|lia].
      unfold counted_from. unfold bases in Eb. injection Eb as -> _ _. rewrite IHp. cbn [io_Start io_Bytes].
      by rewrite Z.eqb_refl, (proj2 (Z.leb_le _ _) Hle).
  - specialize (IH cs Hseen Hsort). destruct Hc as (Eb & _ & _).
    pose proof (tick_bases cfg clock version show_err scan_err rate state_written walk_deltas walk_users d2) as Ht.
    rewrite Hss, Eb in Ht. destruct cs as [|b cs]; [by rewrite Ht|].
    unfold bases in Ht. by injection Ht as -> _ _.
  - specialize (IH cs Hseen Hsort). destruct (restarted_books name d1 d2 Hr) as [E _].
    destruct cs as [|b cs]; [by apply Forall2_nil_inv_l in Hseen|]. by rewrite E.
Qed.

(** C22 Traffic is counted once: over any run of passes, however they are spaced, with passes
    in between that could not read the users or the processes, and with the daemon stopped,
    or killed after a pass, and started again on its state file any number of times, the
    traffic the database has for a user grows by exactly the sum of what its sessions are
    counted (nothing for a user without a session, and a name without a record gets none); and
    what is counted for a session that the passes see with a counter that does not go down
    adds up to the bytes between where its counting started and its last counter: from zero
    when it opened since the last pass, from its base when the daemon had one, and from its
    first counter when it was open before the first pass of a fresh daemon. The passes are
    those that could save the traffic ([failed_save_loses] is the other case), the sum fits an
    [int64], and nobody else changes the traffic on record. *)
Theorem traffic_counted_once name d l d' :
  passes name d l d' -> bases_ok d ->
  (forall u, usage name d = Some u -> 0 <= u /\ u + amount (concat l) < 2 ^ 63) ->
  usage name d' = (fun u => u + amount (concat l)) <$> usage name d /\
  forall pid start b bs, Forall2 (seen_at pid start) (b :: bs) l -> Sorted Z.le (b :: bs) ->
    amount (filter (of_session pid start) (concat l)) = List.last (b :: bs) 0 - counted_from pid start b d.
Proof.
  intros Hrun Hp Hu. split; [by apply passes_usage|]. intros pid start b bs Hseen Hs.
  by apply (passes_session name d l d' pid start (b :: bs)).
Qed.
End run.

(* ------------------------------------------------------------------ *)
(** * A restart on a concrete machine                                    *)
(* ------------------------------------------------------------------ *)

Section example.
#[local] Existing Instances busy_system busy_calendar user_codec keyed_bolt ascii_tables.
#[local] Existing Instances toy_netfilter open_kernel sysctl_codec sound_disk.

Definition no_crypto : Crypto.
Proof. refine {| certificate := unit; x509_pair _ _ := None; self_signed _ := None |}. done. Defined.
#[local] Existing Instance no_crypto.

Abbreviation busy_shutdown := (shutdown Defaults busy_clock (bs "test") (fun _ => true)).
(** Two passes, at 100 and 250 bytes; the first uses up the quota of the account. *)
Definition first_pass : daemon := busy_tick (set_mgr (at_bytes (with_user alice_later empty_db) 100) busy_daemon).
Definition before_stop : daemon := busy_tick (set_mgr (at_bytes (m_db (d_mgr first_pass)) 250) first_pass).
Definition saved_state : State := default (mkState [] 0 0 0 [] None None ∅ ∅ [] [] 0) (d_published (busy_shutdown before_stop)).
(** A text of the one state that is saved. *)
Definition one_state : Codec State.
Proof.
  refine {| marshal _ := Some (bs "{}"); unmarshal _ := Some saved_state; stable st := st = saved_state |};
    [by intros a d ->|by intros a d [= <-]].
Defined.
#[local] Existing Instance one_state.

Definition next_mgr : mgr := at_bytes (m_db (d_mgr before_stop)) 250.
Definition host_after : host := mkHost next_mgr (mkFs {[StatePath := bs "{}"]} 0 []) ∅ old_tables.
Abbreviation busy_boot := (boot Defaults busy_clock (bs "test") (fun _ => true) (fun _ => []) (fun _ => []) (fun _ => [])
  (fun _ => []) [] (fun _ _ => []) (fun _ => []) [ipt] false (fun _ => None) map_to_list (fun _ => true) (fun _ => None) (fun _ => true) id).
Abbreviation busy_passes := (passes Defaults busy_clock (bs "test") (fun _ => []) [] (fun _ _ => 0) (fun _ => true)
  map_to_list map_to_list (fun _ => []) (fun _ => []) (fun _ => []) (fun _ => []) []
  (fun _ _ => []) (fun _ => []) [ipt] false (fun _ => None) map_to_list (fun _ => true) (fun _ => None) (fun _ => true) id).

(** The daemon of the next process, and its pass at 400 bytes. *)
Definition booted : daemon := (busy_boot (host_after, New next_mgr)).1.2.
Definition third_start : daemon := set_mgr (at_bytes (m_db (d_mgr before_stop)) 400) booted.

Lemma keyed_alice u : Username u = bs "alice" -> keyed (with_user u empty_db).
Proof.
  intros Hu n v Hv. unfold user in Hv. unfold with_user, PutUser, update, set_users in Hv.
  cbn [fst negb marshal user_codec any_codec] in Hv. rewrite Hu in Hv.
  destruct (put_ok _ _); cbn [fst db_users empty_db] in Hv; [|done].
  destruct (decide (n = bs "alice")) as [->|Hne].
  - rewrite lookup_insert_eq in Hv. cbn in Hv. rewrite of_bits_bits, decode_encode in Hv. by injection Hv as <-.
  - by rewrite lookup_insert_ne, lookup_empty in Hv by done.
Qed.
Lemma keyed_computed db : let u := default alice (user db (bs "alice")) in
  db = with_user u empty_db -> Username u = bs "alice" -> keyed db.
Proof. cbv zeta. intros E Hu. rewrite E. by apply keyed_alice. Qed.

Ltac computes := vm_compute; reflexivity.
Ltac keyed_now := apply keyed_computed; [computes|computes].
Definition charge_at (b a : Z) : list charge := [mkCharge 11 alice_start b a].

(** A pass sees the one session of the machine. *)
Lemma one_session w : sound_scan [alice_session w] <-> 0 <= w < 2 ^ 63.
Proof.
  unfold sound_scan. rewrite Forall_singleton. split; [by intros [_ H]|]. split; [apply NoDup_singleton|done].
Qed.

Lemma busy_boot_ends : busy_boot (host_after, New next_mgr) =
  (((busy_boot (host_after, New next_mgr)).1.1, booted), None).
Proof.
  assert (E : (busy_boot (host_after, New next_mgr)).2 = None) by computes. unfold booted.
  destruct (busy_boot _) as [[h' d'] r]. cbn in E |- *. by subst r.
Qed.

Lemma busy_restarted : restarted Defaults busy_clock (bs "test") (fun _ => true) (fun _ => []) (fun _ => []) (fun _ => [])
  (fun _ => []) [] (fun _ _ => []) (fun _ => []) [ipt] false (fun _ => None) map_to_list (fun _ => true) (fun _ => None)
  (fun _ => true) id (bs "alice") before_stop booted.
Proof.
  exists saved_state, host_after, next_mgr, (busy_boot (host_after, New next_mgr)).1.1.
  split; [left; split; [reflexivity|computes]|].
  split; [exists (bs "{}"); split; [computes|by split]|]. split; [computes|exact busy_boot_ends].
Qed.

Lemma busy_run : exists d', busy_passes (bs "alice") busy_daemon [charge_at 100 100; charge_at 250 150; charge_at 400 150] d'.
Proof.
  eexists. change [charge_at 100 100; charge_at 250 150; charge_at 400 150] with
    ((([] ++ [charge_at 100 100]) ++ [charge_at 250 150]) ++ [charge_at 400 150]).
  assert (P1 : busy_passes (bs "alice") busy_daemon ([] ++ [charge_at 100 100]) first_pass).
  { replace (charge_at 100 100) with (charges busy_clock (fun _ _ => 0) (bs "alice")
      (set_mgr (at_bytes (with_user alice_later empty_db) 100) busy_daemon) [alice_session 100]) by computes.
    apply passes_pass with (d1 := busy_daemon);
      [apply passes_none|split; [computes|split; [computes|by apply keyed_alice]]|computes|by apply one_session|computes]. }
  assert (P2 : busy_passes (bs "alice") busy_daemon (([] ++ [charge_at 100 100]) ++ [charge_at 250 150]) before_stop).
  { replace (charge_at 250 150) with (charges busy_clock (fun _ _ => 0) (bs "alice")
      (set_mgr (at_bytes (m_db (d_mgr first_pass)) 250) first_pass) [alice_session 250]) by computes.
    apply passes_pass with (d1 := first_pass);
      [exact P1|split; [computes|split; [computes|keyed_now]]|computes|by apply one_session|computes]. }
  replace (charge_at 400 150) with (charges busy_clock (fun _ _ => 0) (bs "alice") third_start [alice_session 400]) by computes.
  apply passes_pass with (d1 := booted);
    [apply passes_restart with (d1 := before_stop); [exact P2|done|exact busy_restarted]
    |split; [computes|split; [computes|keyed_now]]|computes|by apply one_session|computes].
Qed.

(** Three passes with a restart between the second and the third: the account, which had 10,
    is charged the 400 bytes of its one session. *)
Lemma traffic_counted_once_witness : exists l d', busy_passes (bs "alice") busy_daemon l d' /\
  usage (bs "alice") d' = Some 410 /\ amount (filter (of_session 11 alice_start) (concat l)) = 400.
Proof.
  destruct busy_run as [d' Hrun]. do 2 eexists. split; [exact Hrun|].
  assert (Hw : forall m : gmap gostring Z, map_to_list m ≡ₚ map_to_list m) by done.
  assert (Hp : bases_ok busy_daemon) by (by intros pid p).
  assert (Ht : text_stable) by (by intros u v).
  destruct (traffic_counted_once _ _ _ _ _ _ _ _ _ _ _ _ _ _ _ _ _ _ _ _ _ _ _ _ sound_works Ht Hw _ _ _ _ Hrun Hp) as [Hu Hs].
  { intros u [= <-]. split; [done|]. vm_compute. reflexivity. }
  split; [rewrite Hu; computes|].
  rewrite (Hs 11 alice_start 100 [250; 400]); [computes| |].
  - by repeat constructor; eexists; left.
  - repeat constructor; lia.
Defined.
End example.
