(* ===== verification/Commands.v ===== *)
(** The command line as a whole ([src/cmd/sshfortress/main.go], [users.go], [ops.go]): what
    each command does to the machine, what it prints, and its exit status. Arguments and
    flags come as cobra has parsed them; the texts are those of [Reports]. *)
From S2P Require Import Prelude GoStrings Files Sysx Procfs Session UdpgwServer Gateway Daemon.
From S2P Require Import Config ConfigFile Security Store Users Netopt Firewall Sshd Host Badvpn TlsCert DaemonRun.
From S2P Require Import Setup Backup Doctor GoFloat SysInfo Card Cli Reports.

(* ------------------------------------------------------------------ *)
(** * Commands and what they show                                        *)
(* ------------------------------------------------------------------ *)

(** A flag that was not given is [None] where the code asks whether it was. *)
Inductive user_cmd : Type :=
| userAdd (name pass note : gostring) (days conns : Z) (traffic : option float) (json : bool)
| userList (json : bool)
| userInfo (name : gostring) (json : bool)
| userDel (name : gostring) (yes : bool)
| userRenew (name days : gostring) (reset : bool)
| userPasswd (name : gostring) (pass : option gostring)
| userLock (name : gostring)
| userUnlock (name : gostring)
| userLimit (name n : gostring)
| userTraffic (name : gostring) (set : option float) (reset : bool)
| userKick (name : gostring)
| userPurge (days : Z) (yes : bool)
| userExpiry (name date : gostring).

Inductive cmd : Type :=
| cmdVersion
| cmdDaemon (es : list loop_event)
| cmdOnline (json : bool)
| cmdStatus (json : bool)
| cmdOptimize (action : option gostring) (json : bool)
| cmdApply
| cmdSetup (f : setup_flags)
| cmdEdit (e : edit)
| cmdGatewayStatus (json : bool)
| cmdDoctor (json : bool)
| cmdBackupCreate
| cmdBackupList
| cmdBackupRestore (file : gostring)
| cmdBackupDelete (id : gostring)
| cmdUninstall (keepOpt yes : bool)
| cmdUser (u : user_cmd).

(** The values given to [printJSON]. *)
Inductive json_value : Type :=
| jSessions (ss : list LiveSession)
| jStatus (version : gostring) (users : Z) (cc : gostring) (st : option State)
| jParams (ps : list Param)
| jGateway (g : Gateway.Stats)
| jChecks (cs : list Check)
| jCreated (u : UserRecord) (pw host : gostring)
| jUsers (us : list UserInfo)
| jUser (u : UserInfo).

Inductive shown : Type :=
| sText (text : gostring)
| sLines (lines : list gostring)
| sTable (rows : list (list gostring))
| sJSON (v : json_value)
| sQuestion (prompt : gostring).

Inductive cmd_err : Type :=
| eCli (e : cli_err)
| eUser (e : merr)
| eBackup (e : berr)
| eNetopt
| eRunDir
| eAction (action : gostring).

(* ------------------------------------------------------------------ *)
(** * What the commands are answered                                     *)
(* ------------------------------------------------------------------ *)

Record outside `{System} : Type := mkOutside {
  (** The time, random numbers, the host name, the public address, the reply to a
      question, and the texts packages [time] and [fmt] make. *)
  o_now : world -> Z;
  o_rand : nat -> option Z;
  o_hostname : gostring;
  o_public_ip : world -> gostring;
  (** The services that curl asked for it, and whether they answered: none when an interface
      has a public address. *)
  o_asked_services : world -> list (gostring * bool);
  o_answer : gostring;
  o_format : gostring -> Z -> gostring;
  o_parse : gostring -> gostring -> option Z;
  o_quote : gostring -> gostring;
  o_show_ms : Z -> gostring;
  o_restore_text : gostring * bool -> gostring;
  (** The order in which Go walks a map. *)
  o_walk : gmap gostring gostring -> list (gostring * gostring);
  o_walk_want : list (gostring * gostring) -> list (gostring * gostring);
  o_walk_deltas : gmap gostring Z -> list (gostring * Z);
  o_walk_users : gmap gostring UserRecord -> list (gostring * UserRecord);
  (** What the probes of sshd, of the tools and of the network find. *)
  o_look_path : gostring -> option gostring;
  o_abs : gostring -> option gostring;
  o_runnable : gostring -> bool;
  o_process : Z -> gostring -> gostring -> list gostring -> ended;
  o_show_duration : Z -> gostring;
  o_sshd_test : Config -> gmap gostring gostring -> bool * gostring;
  o_effective : Config -> gmap gostring gostring -> gostring -> result gostring (gmap gostring (list gostring));
  o_services : Sshd.services;
  o_executable : gostring;
  o_dial : gostring -> bool;
  o_lookup : result gostring Z;
  o_listen_udp : gostring -> option gostring;
  o_listen : Z -> option gostring;
  o_alive : Z -> bool;
  o_ten_years : Z -> Z;
  o_rate : Z -> Z -> Z;
  o_written : world -> bool;
  (** The texts of errors. *)
  o_step_text : step_err -> gostring;
  o_nf_err : gostring -> rule -> gostring;
  o_net_err : gostring -> gostring;
  o_banner_err : gostring;
  o_dberr : dberr -> gostring;
  o_scan_err : gostring;
  o_merr : merr -> gostring;
  o_fw_err : fw_err -> gostring;
  o_unit_err : unit_err -> gostring;
  o_start_err : newerr + starterr -> gostring;
  o_net_text : gostring
}.
Arguments mkOutside {_}.

Section commands.
Context `{Sys : System, Cal : Calendar, Uni : Unicode, CU : !Codec UserRecord, Blt : Bolt}.
Context `{Dsk : Disk, Nft : Netfilter, Knl : Kernel, CS : !Codec (gmap gostring gostring), CSt : !Codec State}.
Context `{Cry : Crypto, Yml : YAML, Arc : Archive, CB : !Codec BackupRecord, CC : !Codec BackupContents}.
Variable o : outside.
(** The version of the program, and the flag [--config]. *)
Variable version : gostring.
Variable cfgFile : gostring.

(** What a command prints comes with its result, also when it fails. *)
Definition C (A : Type) : Type := host -> host * (list shown * result cmd_err A).
#[export] Instance C_ret : MRet C := fun A a s => (s, ([], Ok a)).
#[export] Instance C_bind : MBind C := fun A B f m s =>
  match m s with
  | (s, (out, Ok a)) => let '(s, (more, r)) := f a s in (s, (out ++ more, r))
  | (s, (out, Err e)) => (s, (out, Err e))
  end.
Definition cfail {A} (e : cmd_err) : C A := fun s => (s, ([], Err e)).
Definition prints (x : shown) : C () := fun s => (s, ([x], Ok tt)).
Definition line (text : gostring) : C () := prints (sLines [text]).
Definition does_host {A} (c : H A) : C A := fun s => let '(s, a) := c s in (s, ([], Ok a)).
Definition or_fail {A B} (f : B -> cmd_err) (c : H (result B A)) : C A := fun s =>
  let '(s, r) := c s in (s, ([], match r with Ok a => Ok a | Err e => Err (f e) end)).
Definition user_c {A} (c : M A) : C A := or_fail eUser (users_op c).
Definition backup_c {A} (c : B A) : C A := fun s =>
  let '(e, r) := c (mkEngine (h_mgr s) (h_fs s)) in
  (mkHost (en_mgr e) (en_fs e) (h_sys s) (h_nf s),
   ([], match r with Ok a => Ok a | Err e => Err (eBackup e) end)).

Definition time_now : C Z := does_host (sees (o_now o)).
Definition loaded_config : C Config := or_fail eCli (load cfgFile).
Definition snapshot : C (option State) := does_host (disk_op read_state).
(** A list whose error is dropped. *)
Definition some_users : C (list UserRecord) :=
  fun s => let '(s, r) := users_op (db_read (fun op db => Ok (ListUsers op db).1)) s in
           (s, ([], match r with Ok l => Ok l | Err _ => Ok [] end)).

(** [confirm] *)
Definition confirm (prompt : gostring) : C bool :=
  _ ← prints (sQuestion (prompt ++ bs " [y/N] ")); mret (confirmed (o_answer o)).

(* ------------------------------------------------------------------ *)
(** * The user commands                                                  *)
(* ------------------------------------------------------------------ *)

(** A program that only the outcome of is a parameter here: it is one of the commands run. *)
Definition ran (argv : list gostring) (ok : bool) : H () := fun s =>
  (mkHost (mkMgr (m_db (h_mgr s)) (m_world (h_mgr s)) (m_ran (h_mgr s) ++ [mkCommand [] argv ok]))
     (h_fs s) (h_sys s) (h_nf s), tt).
Fixpoint ran_all (l : list (list gostring * bool)) : H () :=
  match l with [] => mret tt | (argv, ok) :: l => _ ← ran argv ok; ran_all l end.
Definition curl (url : gostring) : list gostring :=
  [bs "curl"; bs "-4"; bs "-fsS"; bs "--max-time"; bs "4"; url].
Definition public_ip : H gostring :=
  asked ← sees (o_asked_services o);
  _ ← ran_all ((fun '(url, ok) => (curl url, ok)) <$> asked);
  sees (o_public_ip o).

(** [card.Host] in a new process: the public address is looked up when the configuration has
    no name. *)
Definition card_host (c : Config) : C gostring :=
  ip ← does_host (if eqb_str (trim_space (server_Host (Server c))) [] then public_ip else mret []);
  mret (Card.Host c None ip).2.

Definition run_add (c : Config) (name pass note : gostring) (days conns : Z) (traffic : option float) (json : bool)
    : C () :=
  now ← time_now;
  r ← user_c (Users.Create (NewManager c) (mkOpts name pass conns days (add_quota traffic) note) (o_rand o) now);
  h ← card_host c;
  now ← time_now;
  prints (if (json : bool) then sJSON (jCreated r.1 r.2 h) else sText (Render c r.1 r.2 h now)).

Definition run_list (c : Config) (json : bool) : C () :=
  now ← time_now;
  us ← user_c (Users.List (NewManager c) now);
  prints (if (json : bool) then sJSON (jUsers us)
          else match users_report (o_format o) us with inl rows => sTable rows | inr text => sLines [text] end).

Definition run_info (c : Config) (name : gostring) (json : bool) : C () :=
  now ← time_now;
  u ← user_c (Get (NewManager c) name now);
  if (json : bool) then prints (sJSON (jUser u))
  else
    h ← card_host c;
    _ ← prints (sText (Render c (info_record u) [] h now));
    prints (sLines (user_lines (o_format o) u now)).

Definition run_del (c : Config) (name : gostring) (yes : bool) : C () :=
  go_on ← (if yes then mret true else confirm (bs "Delete " ++ name ++ bs "?"));
  if negb go_on then mret tt
  else _ ← user_c (Users.Delete (NewManager c) name); line (bs "deleted " ++ name).

Definition run_purge (c : Config) (days : Z) (yes : bool) : C () :=
  go_on ← (if yes then mret true
           else confirm (bs "Delete all users expired more than " ++ itoa days ++ bs " days ago?"));
  if negb go_on then mret tt
  else
    now ← time_now;
    r ← does_host (users_op (PurgeExpired (NewManager c) days now));
    let removed := match r with Ok l => l | Err _ => [] end in
    _ ← line (bs "deleted " ++ itoa (len removed) ++ bs " user(s) " ++ show_strs removed);
    match r with Ok _ => mret tt | Err e => cfail (eUser e) end.

Definition run_user (c : Config) (u : user_cmd) : C () :=
  match u with
  | userAdd name pass note days conns traffic json => run_add c name pass note days conns traffic json
  | userList json => run_list c json
  | userInfo name json => run_info c name json
  | userDel name yes => run_del c name yes
  | userRenew name days reset =>
      now ← time_now;
      u ← user_c (user_renew now name days reset);
      line (Username u ++ bs " now expires " ++ o_format o (bs "2006-01-02 15:04") (ExpiresAt u))
  | userPasswd name pass =>
      now ← time_now;
      pw ← user_c (SetPassword name (default [] pass) (o_rand o));
      u ← user_c (Get (NewManager c) name now);
      h ← card_host c;
      prints (sText (Render c (info_record u) pw h now))
  | userLock name => _ ← user_c (user_lock c name); line (bs "locked " ++ name)
  | userUnlock name => now ← time_now; _ ← user_c (user_unlock now name); line (bs "unlocked " ++ name)
  | userLimit name n =>
      _ ← user_c (user_limit name n);
      line (name ++ bs ": max " ++ itoa (atoi_or0 n) ++ bs " connections")
  | userTraffic name set reset =>
      now ← time_now;
      text ← user_c (user_traffic c now name set reset);
      line text
  | userKick name => text ← user_c (user_kick c name); line text
  | userPurge days yes => run_purge c days yes
  | userExpiry name date =>
      now ← time_now;
      u ← user_c (user_expiry now (o_parse o) name date);
      line (Username u ++ bs " expires " ++ o_format o (bs "2006-01-02 15:04") (ExpiresAt u))
  end.

(* ------------------------------------------------------------------ *)
(** * The commands of the system                                         *)
(* ------------------------------------------------------------------ *)

Definition which : list gostring -> gostring := Which (o_look_path o) (o_abs o) (o_runnable o).
Definition output_of (name : gostring) (args : list gostring) : gostring :=
  (Sysx.Run (o_process o) (o_show_duration o) name args).1.
Definition sshd_binary (c : Config) : gostring := Binary c which.
Definition sshd_version (c : Config) : Version := Manager_Version c which output_of.
Definition have_sshd (c : Config) : bool := negb (eqb_str (sshd_binary c) []).
(** The installed program, if it is in PATH: the unit of the daemon starts it. *)
Definition installed_program : option gostring :=
  let p := which [bs "sshfortress"] in if eqb_str p [] then None else Some p.

Definition run_online (c : Config) (json : bool) : C () :=
  st ← snapshot;
  now ← time_now;
  scan ← does_host (sees (fun w =>
    default [] (Scan little_endian (mkScanner (fun _ => None) (udpgw_Ports (UDPGW c)) None) (proc_env w))));
  let ss := (liveSessions st now scan).1 in
  if (json : bool) then prints (sJSON (jSessions ss))
  else
    let '(rows, total) := online_report (o_format o) ss in
    _ ← prints (sTable rows); line total.

Definition run_status (json : bool) : C () :=
  st ← snapshot;
  users ← some_users;
  cc ← does_host (fun s => (s, default [] (read_sys cc_key (h_sys s))));
  now ← time_now;
  prints (if (json : bool) then sJSON (jStatus version (len users) cc st)
          else sLines (status_report (o_format o) version st users cc now)).

Definition run_optimize (c : Config) (action : option gostring) (json : bool) : C () :=
  let action := default (bs "apply") action in
  if eqb_str action (bs "status")
  then
    ps ← does_host (net_op (meminfo ← disk (ReadFile (bs "/proc/meminfo")); sys (Netopt.Status c meminfo)));
    if (json : bool) then prints (sJSON (jParams ps))
    else let '(rows, total) := optimize_status ps in _ ← prints (sTable rows); line total
  else if eqb_str action (bs "apply")
  then
    root ← does_host is_root;
    r ← does_host (net_op (Netopt.Apply c (o_net_err o) root));
    match r with
    | None => cfail eNetopt
    | Some r => prints (sLines (optimize_applied r))
    end
  else if eqb_str action (bs "reset")
  then
    root ← does_host is_root;
    ok ← does_host (net_op (Reset c (o_walk o) root));
    if negb ok then cfail eNetopt else line (bs "restored the original kernel settings")
  else cfail (eAction action).

Definition provision (c : Config) : C () :=
  steps ← does_host (Setup.Apply c (o_step_text o) (o_nf_err o) (o_net_err o) (have_sshd c) (sshd_version c)
    (o_sshd_test o c) (o_services o) (o_banner_err o) (Firewall.tools which) (o_executable o) installed_program);
  prints (sLines (step_line <$> steps)).

Definition run_uninstall (keepOpt yes : bool) : C () :=
  _ ← user_c RequireRoot;
  go_on ← (if yes then mret true
           else confirm (bs "Remove SSH-VPN's sshd settings, firewall rules and service?"));
  if negb go_on then mret tt
  else
    c ← or_fail (fun e => eCli (loadFailed e)) (load_config cfgFile);
    steps ← does_host (Uninstall c (o_step_text o) (o_walk o) (have_sshd c) (o_sshd_test o c) (Firewall.tools which) keepOpt);
    prints (sLines (step_line <$> steps)).

Definition gateway_status (json : bool) : C () :=
  st ← snapshot;
  match st ≫= Daemon.st_Gateway with
  | None => line (bs "gateway is not running")
  | Some g => prints (if (json : bool) then sJSON (jGateway g) else sLines (gateway_report (Some g) (o_walk o)))
  end.

(** What the diagnosis asks of the machine, in its order. *)
Definition asked_if (b : bool) (c : H bool) : H bool := if b then c else mret false.
Definition is_none {A} (x : option A) : bool := match x with None => true | Some _ => false end.
(** [Manager.Version]: ssh is asked when what sshd prints has no version. *)
Definition ask_version (c : Config) : H () :=
  let sshd := sshd_binary c in
  let ssh := which [bs "ssh"] in
  let worked p := is_none (Sysx.Run (o_process o) (o_show_duration o) p [bs "-V"]).2 in
  _ ← ran [sshd; bs "-V"] (worked sshd);
  if is_none (find_version (output_of sshd [bs "-V"])) && negb (eqb_str ssh [])
  then ran [ssh; bs "-V"] (worked ssh) else mret tt.
(** The command of [Manager.Effective]. *)
Definition effective_args (c : Config) (user : gostring) : list gostring :=
  [sshd_binary c; bs "-T"; bs "-f"; ssh_ConfigPath (SSH c)] ++
  match user with [] => [] | _ => [bs "-C"; bs "user=" ++ user ++ bs ",host=probe,addr=192.0.2.1"] end.
(** [firewall.Active] *)
Definition list_output (iptables : gostring) : list gostring :=
  [iptables; bs "-w"; bs "5"; bs "-S"; bs "OUTPUT"].
Definition active_firewall : H bool :=
  let there := found which iptables in
  _ ← (fun s => if there then ran (list_output (which [iptables])) (negb (is_none (nf_show iptables (h_nf s)))) s
                else (s, tt));
  fw_op (Active there iptables).
Definition listed : H (option (list UserRecord)) :=
  r ← users_op listUsers; mret (match r with Ok l => Some l | Err _ => None end).
Definition gather (c : Config) : H evidence :=
  root ← is_root;
  files ← (fun s => (s, f_files (h_fs s)));
  _ ← ask_version c;
  let valid := o_sshd_test o c files in
  _ ← ran [sshd_binary c; bs "-t"; bs "-f"; ssh_ConfigPath (SSH c)] valid.1;
  users ← listed;
  let user := match users with Some (u :: _) => Username u | _ => [] end in
  _ ← ran (effective_args c user) (is_ok (o_effective o c files user));
  systemd ← HasSystemd;
  there ← asked_if systemd (UnitExists (bs "ssh.socket"));
  active ← asked_if there (UnitActive (bs "ssh.socket"));
  enabled ← asked_if (there && negb active) (UnitEnabled (bs "ssh.socket"));
  tcp ← sees (fun w => ReadTCP little_endian (proc_env w));
  st ← disk_op read_state;
  up ← asked_if systemd (UnitActive (bs "sshfortress"));
  kernel ← (fun s => (s, h_sys s));
  meminfo ← disk_op (ReadFile (bs "/proc/meminfo"));
  fw ← asked_if (firewall_Enabled (Config.Firewall c)) active_firewall;
  later ← listed;
  now ← sees (o_now o);
  mret (mkEvidence root now (sshd_binary c) (sshd_version c) valid (o_effective o c files)
          users later systemd there active enabled up tcp st (o_dial o) kernel meminfo fw (o_lookup o)).

(** Without an sshd nothing but the user is looked at. *)
Definition evidence_of (c : Config) : H evidence :=
  if have_sshd c then gather c
  else
    root ← is_root;
    mret (mkEvidence root 0 [] (sshd_version c) (true, []) (fun _ => Err []) None None false false false false false
            None None (o_dial o) ∅ None false (o_lookup o)).
Definition diagnosis (c : Config) (e : evidence) : list Check :=
  Doctor.Run c e (o_quote o) (o_format o (bs "2006-01-02 15:04")) (o_show_ms o) (o_walk_want o) (o_walk o).

(** A diagnosis that found problems ends with 2, unless it was asked for JSON. *)
Definition run_doctor (c : Config) (json : bool) : C Z :=
  e ← does_host (evidence_of c);
  _ ← prints (if (json : bool) then sJSON (jChecks (diagnosis c e)) else sLines (doctor_report (diagnosis c e)));
  mret (exit_status c e (o_quote o) (o_format o (bs "2006-01-02 15:04")) (o_show_ms o) (o_walk_want o) (o_walk o) json).

Definition backup_create (c : Config) : C () :=
  now ← time_now;
  p ← backup_c (Backup.Create c (o_hostname o) version now (o_format o (bs "20060102-150405")) (o_walk o));
  line (bs "backup written: " ++ p).
Definition backup_restore (c : Config) (file : gostring) : C () :=
  r ← backup_c (Restore c file);
  prints (sLines (restore_report r (o_restore_text o <$> rr_Warnings r))).

(** The daemon, with the events its loop takes before it is told to stop. A panic ends a
    process with 2. *)
Definition run_daemon (c : Config) (es : list loop_event) : C Z := fun s =>
  let '((s, d), ended) := DaemonRun.Run c (o_now o) version (o_dberr o) (o_scan_err o) (o_rate o) (o_written o)
    (o_walk_deltas o) (o_walk_users o) (o_merr o) (o_fw_err o) (o_unit_err o) (o_start_err o) (o_net_text o)
    (o_nf_err o) (o_net_err o) (Firewall.tools which) (have_sshd c) (o_listen_udp o) (o_walk o) (o_dial o) (o_listen o) (o_alive o)
    (o_ten_years o) es (s, New (h_mgr s)) in
  (s, ([], match ended with
           | endNotRoot => Err (eUser ErrNotRoot)
           | endNoRunDir => Err eRunDir
           | endPanic => Ok 2
           | endStopped => Ok 0
           end)).

(* ------------------------------------------------------------------ *)
(** * Every command                                                      *)
(* ------------------------------------------------------------------ *)

Definition finish (c : C ()) : C Z := _ ← c; mret 0.

Definition run_cmd (x : cmd) : C Z :=
  match x with
  | cmdVersion => finish (line (bs "SSH-VPN v" ++ version))
  | cmdDaemon es => c ← loaded_config; run_daemon c es
  | cmdOnline json => finish (c ← loaded_config; run_online c json)
  | cmdStatus json => finish (_ ← loaded_config; run_status json)
  | cmdOptimize action json => finish (c ← loaded_config; run_optimize c action json)
  | cmdApply => finish (c ← loaded_config; provision c)
  | cmdSetup f =>
      finish (c ← or_fail eCli (run_setup cfgFile f); _ ← line (bs "Setting up SSH-VPN"); provision c)
  | cmdEdit e => finish (m ← or_fail eCli (run_edit cfgFile e); line m)
  | cmdGatewayStatus json => finish (gateway_status json)
  | cmdDoctor json => c ← loaded_config; run_doctor c json
  | cmdBackupCreate => finish (c ← loaded_config; backup_create c)
  | cmdBackupList =>
      finish (_ ← loaded_config; l ← backup_c ListBackups; prints (sTable (backup_report (o_format o) l)))
  | cmdBackupRestore file => finish (c ← loaded_config; backup_restore c file)
  | cmdBackupDelete id => finish (_ ← loaded_config; backup_c (DeleteBackup id))
  | cmdUninstall keepOpt yes => finish (run_uninstall keepOpt yes)
  | cmdUser u => finish (c ← loaded_config; run_user c u)
  end.

(** [Execute]: what is printed, the error that is reported, and the exit status. *)
Definition Execute (x : cmd) : H (list shown * option cmd_err * Z) := fun s =>
  match run_cmd x s with
  | (s, (out, Ok code)) => (s, (out, None, code))
  | (s, (out, Err e)) => (s, (out, Some e, 1))
  end.
End commands.
