(* ===== verification/CommandsProps.v ===== *)
(** What the command line promises: looking changes nothing, nothing is destroyed without
    being asked for, and the commands that need root do nothing without it. *)
From S2P Require Import Prelude GoStrings Files Sysx Procfs Session UdpgwServer Gateway Daemon.
From S2P Require Import Config ConfigFile Security Store Users UsersProps UsersLinux Netopt NetoptProps Firewall FirewallProps Sshd.
From S2P Require Import Host Badvpn TlsCert DaemonRun DaemonRunProps Setup Backup BackupProps Doctor GoFloat SysInfo Card.
From S2P Require Import Cli CliProps Reports Commands.

Section commands.
Context `{Sys : System, Cal : Calendar, Uni : Unicode, CU : !Codec UserRecord, Blt : Bolt}.
Context `{Dsk : Disk, Nft : Netfilter, Knl : Kernel, CS : !Codec (gmap gostring gostring), CSt : !Codec State}.
Context `{Cry : Crypto, Yml : YAML, Arc : Archive, CB : !Codec BackupRecord, CC : !Codec BackupContents}.
Context (o : outside) (version cfgFile : gostring).

(* ------------------------------------------------------------------ *)
(** * Computations that only look                                        *)
(* ------------------------------------------------------------------ *)

(** The programs that only look: systemd is asked, sshd (or ssh) for its version, sshd to test
    a configuration or to print what it makes of it, iptables to list a chain, and curl for
    the public address. *)
Inductive is_query : list gostring -> Prop :=
| ask_systemd verb rest :
    verb ∈ [bs "is-active"; bs "is-enabled"; bs "list-unit-files"; bs "show"] ->
    is_query (bs "systemctl" :: verb :: rest)
| ask_sshd_version c : is_query [sshd_binary o c; bs "-V"]
| ask_ssh_version : is_query [which o [bs "ssh"]; bs "-V"]
| ask_sshd_test c : is_query [sshd_binary o c; bs "-t"; bs "-f"; ssh_ConfigPath (SSH c)]
| ask_sshd_settings c user : is_query (effective_args o c user)
| ask_iptables : is_query (list_output (which o [iptables]))
| ask_curl url : is_query (curl url).

(** The files (at every moment), the kernel's settings, the packet filter and the database
    are as before, and the commands that were run only asked. *)
Definition untouched (s s' : host) : Prop :=
  f_files (h_fs s') = f_files (h_fs s) /\ f_seen (h_fs s') = f_seen (h_fs s) /\
  h_sys s' = h_sys s /\ h_nf s' = h_nf s /\ m_db (h_mgr s') = m_db (h_mgr s) /\
  exists asked, m_ran (h_mgr s') = m_ran (h_mgr s) ++ asked /\ Forall (fun c => is_query (c_argv c)) asked.

#[export] Instance untouched_preorder : PreOrder untouched.
Proof.
  split.
  - intros s. do 5 (split; [done|]). exists []. by rewrite app_nil_r.
  - intros a b c (A1 & A2 & A3 & A4 & A5 & x & Ax & Fx) (B1 & B2 & B3 & B4 & B5 & y & By & Fy).
    unfold untouched. rewrite B1, B2, B3, B4, B5. do 5 (split; [done|]). exists (x ++ y).
    rewrite By, Ax, app_assoc. split; [done|]. by apply Forall_app.
Qed.

Definition looks {A} (c : H A) : Prop := forall s, untouched s (c s).1.
Definition watches {A} (c : C A) : Prop := forall s, untouched s (c s).1.
Definition peeks {A} (c : M A) : Prop := forall s, m_db (c s).1 = m_db s /\ m_ran (c s).1 = m_ran s.

Lemma peeks_ret {A} (a : A) : peeks (mret a).
Proof. done. Qed.
Lemma peeks_bind {A B} (c : M A) (k : A -> M B) : peeks c -> (forall a, peeks (k a)) -> peeks (c ≫= k).
Proof.
  intros Hc Hk s. unfold mbind, M_bind. specialize (Hc s). destruct (c s) as [s1 [a|e]]; [|exact Hc].
  destruct (Hk a s1) as [E1 E2]. destruct Hc as [F1 F2]. cbn in *. by rewrite E1, E2.
Qed.
Lemma peeks_asks {A} (f : world -> A) : peeks (asks f).
Proof. done. Qed.
Lemma peeks_db_read {A} (op : bool -> DB -> result dberr A) : peeks (db_read op).
Proof. intros s. unfold db_read. by destruct (db_lock _). Qed.
Lemma peeks_root : peeks RequireRoot.
Proof. apply peeks_bind; [apply peeks_asks|]. intros []; done. Qed.
Lemma peeks_List m now : peeks (Users.List m now).
Proof. apply peeks_bind; [apply peeks_db_read|]. intros l. apply peeks_bind; [apply peeks_asks|done]. Qed.
Lemma peeks_Get m name now : peeks (Get m name now).
Proof. apply peeks_bind; [apply peeks_db_read|]. intros l. apply peeks_bind; [apply peeks_asks|done]. Qed.

Lemma untouched_mgr (s : host) x : m_db x = m_db (h_mgr s) -> m_ran x = m_ran (h_mgr s) ->
  untouched s (mkHost x (h_fs s) (h_sys s) (h_nf s)).
Proof. intros Hd Hr. do 4 (split; [done|]). split; [done|]. exists []. rewrite app_nil_r. by split. Qed.
Lemma untouched_fs (s : host) fs : f_files fs = f_files (h_fs s) -> f_seen fs = f_seen (h_fs s) ->
  untouched s (mkHost (h_mgr s) fs (h_sys s) (h_nf s)).
Proof. intros Hd Hr. do 5 (split; [done|]). exists []. rewrite app_nil_r. by split. Qed.

Lemma looks_ret {A} (a : A) : looks (mret a).
Proof. intros s. reflexivity. Qed.
Lemma looks_at {A} (f : host -> A) : looks (fun s => (s, f s)).
Proof. intros s. reflexivity. Qed.
Lemma looks_bind {A B} (c : H A) (k : A -> H B) : looks c -> (forall a, looks (k a)) -> looks (c ≫= k).
Proof.
  intros Hc Hk s. unfold mbind, H_bind. specialize (Hc s). destruct (c s) as [s1 a].
  etransitivity; [exact Hc|apply Hk].
Qed.
Lemma looks_users {A} (c : M A) : peeks c -> looks (users_op c).
Proof.
  intros Hc s. unfold users_op. destruct (Hc (h_mgr s)) as [F1 F2]. destruct (c (h_mgr s)) as [x r].
  by apply untouched_mgr.
Qed.
Lemma looks_disk {A} (c : F A) :
  (forall fs, f_files (c fs).1 = f_files fs /\ f_seen (c fs).1 = f_seen fs) -> looks (disk_op c).
Proof.
  intros Hc s. unfold disk_op. destruct (Hc (h_fs s)) as [F1 F2]. destruct (c (h_fs s)) as [x r].
  by apply untouched_fs.
Qed.
Lemma looks_asks argv : is_query argv -> forall s, untouched s (users_op (RunInput [] argv) s).1 /\
  untouched s (users_op (Output argv) s).1.
Proof.
  intros Hq s. unfold users_op, RunInput, Output. destruct (exec [] argv _) as [w [out ok]]. cbn.
  assert (H : untouched s (mkHost (mkMgr (m_db (h_mgr s)) w (m_ran (h_mgr s) ++ [mkCommand [] argv ok]))
    (h_fs s) (h_sys s) (h_nf s))).
  { do 5 (split; [done|]). eexists. split; [done|]. by constructor. }
  by destruct ok.
Qed.

(* ------------------------------------------------------------------ *)
(** * The parts of the commands that look                                *)
(* ------------------------------------------------------------------ *)

Lemma looks_is_root : looks is_root.
Proof. apply looks_bind; [apply looks_users, peeks_root|intros; apply looks_ret]. Qed.
Lemma looks_ask {A} argv (k : result merr gostring -> H A) : is_query argv ->
  (forall r, looks (k r)) -> looks (users_op (Users.Run argv) ≫= k).
Proof. intros Hq Hk. apply looks_bind; [|done]. intros s. by apply looks_asks. Qed.
Lemma looks_HasSystemd : looks HasSystemd.
Proof. by apply looks_disk. Qed.
Lemma looks_UnitExists u : looks (UnitExists u).
Proof. apply looks_ask; [apply ask_systemd; set_solver|intros; apply looks_ret]. Qed.
Lemma looks_UnitActive u : looks (UnitActive u).
Proof. apply looks_bind; [intros s; apply looks_asks, ask_systemd; set_solver|intros; apply looks_ret]. Qed.
Lemma looks_UnitEnabled u : looks (UnitEnabled u).
Proof. apply looks_bind; [intros s; apply looks_asks, ask_systemd; set_solver|intros; apply looks_ret]. Qed.
Lemma looks_ran argv ok : is_query argv -> looks (ran argv ok).
Proof.
  intros Hq s. unfold ran. do 5 (split; [done|]). eexists. split; [done|]. by constructor.
Qed.
Lemma looks_ran_all l : Forall (fun x => is_query x.1) l -> looks (ran_all l).
Proof.
  induction 1 as [|[argv ok] l Hq _ IH]; cbn [ran_all]; [apply looks_ret|].
  apply looks_bind; [by apply looks_ran|done].
Qed.
Lemma looks_public_ip : looks (public_ip o).
Proof.
  apply looks_bind; [apply looks_at|]. intros asked. apply looks_bind; [|intros; apply looks_at].
  apply looks_ran_all, Forall_fmap, Forall_forall. intros [url ok] _. apply ask_curl.
Qed.
Lemma looks_version c : looks (ask_version o c).
Proof.
  apply looks_bind; [apply looks_ran, ask_sshd_version|]. intros _.
  destruct (_ && _); [apply looks_ran, ask_ssh_version|apply looks_ret].
Qed.
Lemma looks_listed : looks listed.
Proof. apply looks_bind; [apply looks_users, peeks_db_read|intros; apply looks_ret]. Qed.
Lemma looks_asked_if b c : looks c -> looks (asked_if b c).
Proof. intros Hc. destruct b; [done|apply looks_ret]. Qed.
Lemma looks_sees {A} (f : world -> A) : looks (sees f).
Proof. apply looks_at. Qed.
Lemma looks_Active b t : looks (fw_op (Active b t)).
Proof. intros s. destruct s. reflexivity. Qed.
Lemma looks_firewall : looks (active_firewall o).
Proof.
  apply looks_bind; [|intros; apply looks_Active]. intros s.
  destruct (found _ _); [apply looks_ran, ask_iptables|reflexivity].
Qed.

Lemma ReadFile_quiet p fs : f_files (ReadFile p fs).1 = f_files fs /\ f_seen (ReadFile p fs).1 = f_seen fs.
Proof. done. Qed.
Lemma read_state_quiet fs : f_files (read_state fs).1 = f_files fs /\ f_seen (read_state fs).1 = f_seen fs.
Proof. done. Qed.
Lemma existing_quiet l fs : f_files (existing l fs).1 = f_files fs /\ f_seen (existing l fs).1 = f_seen fs.
Proof.
  revert fs. induction l as [|b l IH]; intros fs; [done|]. cbn [existing]. unfold mbind, F_bind.
  destruct (FileExists (bk_FilePath b) fs) as [fs1 there] eqn:E. injection E as <- _.
  match goal with |- context [existing l ?x] => specialize (IH x); destruct (existing l x) as [fs2 rest] end.
  by destruct there.
Qed.

Lemma looks_open_db : looks open_db.
Proof.
  apply looks_bind; [by apply looks_disk|]. intros []; [|apply looks_ret].
  apply looks_bind; [|intros; apply looks_ret]. apply looks_users. intros s.
  unfold db_write, Store.Open, update. destruct (db_lock _) as [w []]; done.
Qed.
Lemma EnsureDirs_quiet c fs : f_files (EnsureDirs c fs).1 = f_files fs /\ f_seen (EnsureDirs c fs).1 = f_seen fs.
Proof. unfold EnsureDirs, mbind, F_bind, try_op. by destruct (op_fails _). Qed.
Lemma looks_load : looks (load cfgFile).
Proof.
  apply looks_bind; [apply looks_at|]. intros [c|e]; [|apply looks_ret].
  apply looks_bind; [apply looks_disk, EnsureDirs_quiet|]. intros []; [|apply looks_ret].
  apply looks_bind; [apply looks_open_db|intros; apply looks_ret].
Qed.

Create HintDb look.
#[local] Hint Resolve looks_ret looks_at looks_is_root looks_HasSystemd looks_UnitExists looks_UnitActive
  looks_UnitEnabled looks_listed looks_asked_if looks_sees looks_firewall looks_load looks_version looks_public_ip : look.

Lemma looks_gather c : looks (gather o c).
Proof.
  unfold gather. cbv zeta. repeat (apply looks_bind; [first [apply looks_ran; constructor|eauto with look]|intros ?]); auto with look.
  all: try apply looks_disk; auto using read_state_quiet, ReadFile_quiet.
Qed.
Lemma looks_evidence c : looks (evidence_of o c).
Proof.
  unfold evidence_of. destruct (have_sshd o c); [apply looks_gather|]. apply looks_bind; auto with look.
Qed.
#[local] Hint Resolve looks_evidence : look.

(* ------------------------------------------------------------------ *)
(** * Commands that look                                                 *)
(* ------------------------------------------------------------------ *)

Lemma watches_ret {A} (a : A) : watches (mret a).
Proof. intros s. reflexivity. Qed.
Lemma watches_fail {A} e : watches (cfail (A := A) e).
Proof. intros s. reflexivity. Qed.
Lemma watches_prints x : watches (prints x).
Proof. intros s. reflexivity. Qed.
Lemma watches_bind {A B} (c : C A) (k : A -> C B) : watches c -> (forall a, watches (k a)) -> watches (c ≫= k).
Proof.
  intros Hc Hk s. unfold mbind, C_bind. specialize (Hc s). destruct (c s) as [s1 [out [a|e]]]; [|exact Hc].
  specialize (Hk a s1). destruct (k a s1) as [s2 [more r]]. by etransitivity.
Qed.
Lemma watches_host {A} (c : H A) : looks c -> watches (does_host c).
Proof. intros Hc s. unfold does_host. specialize (Hc s). by destruct (c s). Qed.
Lemma watches_or_fail {A B} (f : B -> cmd_err) (c : H (result B A)) : looks c -> watches (or_fail f c).
Proof. intros Hc s. unfold or_fail. specialize (Hc s). by destruct (c s). Qed.
Lemma watches_user {A} (c : M A) : peeks c -> watches (user_c c).
Proof. intros Hc. by apply watches_or_fail, looks_users. Qed.
Lemma watches_loaded : watches (loaded_config cfgFile).
Proof. apply watches_or_fail, looks_load. Qed.
Lemma watches_now : watches (time_now o).
Proof. apply watches_host, looks_sees. Qed.
Lemma watches_snapshot : watches snapshot.
Proof. by apply watches_host, looks_disk. Qed.
Lemma watches_some_users : watches some_users.
Proof.
  intros s. unfold some_users.
  pose proof (looks_users _ (peeks_db_read (fun op db => Ok (ListUsers op db).1)) s) as Hl.
  by destruct (users_op _ s).
Qed.
Lemma watches_confirm p : watches (confirm o p).
Proof. apply watches_bind; [apply watches_prints|intros; apply watches_ret]. Qed.
Lemma watches_card_host c : watches (card_host o c).
Proof.
  apply watches_bind; [|intros; apply watches_ret]. apply watches_host. destruct (eqb_str _ _); auto with look.
Qed.
Lemma watches_finish c : watches c -> watches (finish c).
Proof. intros Hc. apply watches_bind; [done|intros; apply watches_ret]. Qed.
Lemma watches_list_backups : watches (backup_c ListBackups).
Proof.
  intros s. unfold backup_c, ListBackups, mbind, B_bind. unfold list_records, mbind, B_bind, on_mgr. cbn [en_mgr en_fs].
  match goal with |- context [db_read ?op _] => pose proof (peeks_db_read op (h_mgr s)) as [D R] end.
  destruct (db_read _ _) as [m r]. cbn in D, R.
  destruct r as [l|[]]; try (cbn; by apply untouched_mgr).
  unfold on_disk. cbn -[existing]. destruct (existing_quiet l (h_fs s)) as [F1 F2].
  destruct (existing l (h_fs s)) as [fs l']. cbn in F1, F2 |- *.
  do 4 (split; [done|]). split; [done|]. exists []. by rewrite app_nil_r.
Qed.

#[local] Hint Resolve watches_ret watches_fail watches_prints watches_loaded watches_now watches_snapshot
  watches_some_users watches_confirm watches_card_host watches_list_backups : look.

(** One step of a command that looks. *)
Ltac watch_step :=
  lazymatch goal with
  | |- watches (_ ≫= _) => apply watches_bind; [|intros ?]
  | |- watches (finish _) => apply watches_finish
  | |- watches (if ?b then _ else _) => destruct b
  | |- watches (match ?x with _ => _ end) => destruct x
  | |- watches (let '(_, _) := ?x in _) => destruct x
  | |- watches (does_host _) => apply watches_host
  | |- watches (user_c _) => apply watches_user
  | |- watches (line _) => apply watches_prints
  | |- watches _ => solve [auto with look]
  | |- looks (_ ≫= _) => apply looks_bind; [|intros ?]
  | |- looks (if ?b then _ else _) => destruct b
  | |- looks _ => solve [auto with look]
  | |- peeks (mret _) => apply peeks_ret
  | |- peeks _ => solve [auto using peeks_List, peeks_Get, peeks_root]
  end.
Ltac watch := cbv zeta; repeat (watch_step; cbv zeta).

Lemma watches_online c json : watches (run_online o c json).
Proof. unfold run_online. watch. Qed.
Lemma watches_status json : watches (run_status o version json).
Proof. unfold run_status. watch. Qed.
Lemma watches_gateway_status json : watches (gateway_status o json).
Proof. unfold gateway_status. watch. Qed.
Lemma watches_doctor c json : watches (run_doctor o c json).
Proof. unfold run_doctor. watch. Qed.
Lemma watches_list c json : watches (run_list o c json).
Proof. unfold run_list. watch. Qed.
Lemma watches_info c name json : watches (run_info o c name json).
Proof. unfold run_info. watch. Qed.

(* ------------------------------------------------------------------ *)
(** * Commands without root                                              *)
(* ------------------------------------------------------------------ *)

(** Opening the database does not change who runs the process. *)
Hypothesis euid_fixed : forall w, euid (db_lock w).1 = euid w.

Definition user_of (s : host) : Z := euid (m_world (h_mgr s)).
Definition same_user {A} (c : C A) : Prop := forall s, user_of (c s).1 = user_of s.

(** Without root the command changes nothing, and when [b] it reports an error. *)
Definition idle {A} (b : bool) (c : C A) : Prop := forall s, user_of s <> 0 ->
  untouched s (c s).1 /\ (b = true -> is_ok (c s).2.2 = false).
Definition refuses_M {A} (c : M A) : Prop := forall s, euid (m_world s) <> 0 -> c s = (s, Err ErrNotRoot).

Lemma same_user_bind {A B} (c : C A) (k : A -> C B) : same_user c -> (forall a, same_user (k a)) -> same_user (c ≫= k).
Proof.
  intros Hc Hk s. unfold mbind, C_bind. specialize (Hc s). destruct (c s) as [s1 [out [a|e]]]; [|exact Hc].
  specialize (Hk a s1). destruct (k a s1) as [s2 [more r]]. by etransitivity.
Qed.
Lemma same_user_confirm p : same_user (confirm o p).
Proof. intros s. reflexivity. Qed.
Lemma same_user_now : same_user (time_now o).
Proof. intros s. reflexivity. Qed.
Lemma same_user_loaded : same_user (loaded_config cfgFile).
Proof.
  intros s. unfold loaded_config, or_fail, load, load_config, mbind, H_bind.
  destruct (Load _ _ _) as [c|e]; [|done]. unfold disk_op at 1. destruct (EnsureDirs _ _) as [fs made].
  destruct made; cbn [negb]; [|done]. unfold open_db, mbind, H_bind, disk_op. destruct (try_op _) as [fs2 []]; cbn [negb]; [|done].
  unfold users_op, db_write, Store.Open, update. cbn [h_mgr m_world]. pose proof (euid_fixed (m_world (h_mgr s))) as E.
  destruct (db_lock _) as [w []]; cbn in E |- *; exact E.
Qed.

Lemma idle_watches {A} (c : C A) : watches c -> idle false c.
Proof. intros Hc s _. by split. Qed.
Lemma idle_fail {A} b e : idle b (cfail (A := A) e).
Proof. intros s _. by split. Qed.
Lemma idle_bind {A B} b (c : C A) (k : A -> C B) :
  watches c -> same_user c -> (forall a, idle b (k a)) -> idle b (c ≫= k).
Proof.
  intros Hc Hu Hk s Hs. unfold mbind, C_bind. specialize (Hc s). specialize (Hu s).
  destruct (c s) as [s1 [out [a|e]]]; [|by split]. cbn in Hc, Hu.
  assert (Hs1 : user_of s1 <> 0) by (by rewrite Hu).
  destruct (Hk a s1 Hs1) as [Hun He]. destruct (k a s1) as [s2 [more r]]. split; [by etransitivity|exact He].
Qed.
Lemma idle_then {A B} b (c : C A) (k : A -> C B) : idle b c -> (forall a, watches (k a)) -> idle b (c ≫= k).
Proof.
  intros Hc Hk s Hs. unfold mbind, C_bind. destruct (Hc s Hs) as [Hun He].
  destruct (c s) as [s1 [out [a|e]]]; [|by split]. cbn in Hun, He. specialize (Hk a s1).
  destruct (k a s1) as [s2 [more r]]. split; [by etransitivity|]. intros ->. by specialize (He eq_refl).
Qed.
Lemma idle_stops {A B} b (c : C A) (k : A -> C B) : idle true c -> idle b (c ≫= k).
Proof.
  intros Hc s Hs. unfold mbind, C_bind. destruct (Hc s Hs) as [Hun He]. specialize (He eq_refl).
  by destruct (c s) as [s1 [out [a|e]]].
Qed.
Lemma idle_finish b c : idle b c -> idle b (finish c).
Proof. intros Hc. apply idle_then; [done|intros; apply watches_ret]. Qed.
Lemma idle_user {A} b (c : M A) : refuses_M c -> idle b (user_c c).
Proof.
  intros Hc s Hs. unfold user_c, or_fail, users_op. rewrite (Hc (h_mgr s) Hs).
  split; [by apply untouched_mgr|done].
Qed.

Lemma idle_root {A} b (k : bool -> C A) : idle b (k false) -> idle b (does_host is_root ≫= k).
Proof.
  intros Hk s Hs. unfold mbind, C_bind, does_host. rewrite is_root_is. fold (user_of s).
  destruct (Z.eqb_spec (user_of s) 0) as [|_]; [done|]. specialize (Hk s Hs). by destruct (k false s) as [s2 [more r]].
Qed.
(** A part that looks for root first. *)
Lemma not_root {A} (k : bool -> H A) s : user_of s <> 0 -> (is_root ≫= k) s = k false s.
Proof.
  intros Hs. unfold mbind, H_bind. rewrite is_root_is. fold (user_of s). by destruct (Z.eqb_spec (user_of s) 0) as [|_].
Qed.

Lemma refuses_root {A} (c : M A) : refuses_M (RequireRoot ≫= fun _ => c).
Proof.
  intros s Hs. unfold mbind, M_bind. rewrite RequireRoot_is. by destruct (Z.eqb_spec (euid (m_world s)) 0).
Qed.
Lemma refuses_Create m opts rand now : refuses_M (Users.Create m opts rand now).
Proof. apply refuses_root. Qed.
Lemma refuses_Delete m name : refuses_M (Users.Delete m name).
Proof. apply refuses_root. Qed.
Lemma refuses_SetPassword name pw rand : refuses_M (SetPassword name pw rand).
Proof. apply refuses_root. Qed.
Lemma purge_refused m cutoff l s : euid (m_world s) <> 0 -> purge m cutoff l s = (s, Ok []).
Proof.
  intros Hs. induction l as [|r l IH]; [done|]. cbn [purge]. destruct (_ && _); [|exact IH].
  unfold mbind, M_bind, attempt. rewrite (refuses_Delete m (Username r) s Hs). by rewrite IH.
Qed.
Lemma PurgeExpired_refused m days now s : euid (m_world s) <> 0 ->
  m_db (PurgeExpired m days now s).1 = m_db s /\ m_ran (PurgeExpired m days now s).1 = m_ran s.
Proof.
  intros Hs. unfold PurgeExpired, mbind, M_bind, listUsers, db_read. pose proof (euid_fixed (m_world s)) as E.
  destruct (db_lock _) as [w op]. destruct (ListUsers op _) as [l [e|]]; [done|].
  rewrite purge_refused; [done|]. cbn in E |- *. by rewrite E.
Qed.

(* ------------------------------------------------------------------ *)
(** * Every command                                                      *)
(* ------------------------------------------------------------------ *)

Definition go_ahead (yes : bool) : bool := yes || confirmed (o_answer o).
Definition tunes (action : option gostring) : bool :=
  let a := default (bs "apply") action in eqb_str a (bs "apply") || eqb_str a (bs "reset").
Definition positive (n : gostring) : bool := match atoi n with Some n => 0 <? n | None => false end.

(** The commands that end with an error when they are not run by root. *)
Definition needs_root (x : cmd) : bool :=
  match x with
  | cmdDaemon _ | cmdSetup _ | cmdUninstall _ _ | cmdBackupRestore _ => true
  | cmdOptimize action _ => tunes action
  | cmdUser (userAdd _ _ _ _ _ _ _) | cmdUser (userPasswd _ _) => true
  | cmdUser (userDel _ yes) => go_ahead yes
  | _ => false
  end.

(** The commands that only look, given their arguments, the answer to their question and
    the user. *)
Definition only_looks (root : bool) (x : cmd) : bool :=
  match x with
  | cmdVersion | cmdOnline _ | cmdStatus _ | cmdGatewayStatus _ | cmdDoctor _ | cmdBackupList => true
  | cmdUser (userList _) | cmdUser (userInfo _ _) => true
  | cmdOptimize action _ => negb (tunes action)
  | cmdUninstall _ yes | cmdUser (userDel _ yes) | cmdUser (userPurge _ yes) => negb (go_ahead yes)
  | cmdUser (userRenew _ days _) => negb (positive days)
  | cmdUser (userLimit _ n) => negb (positive n)
  | cmdUser (userExpiry _ date) => negb (bool_decide (is_Some (parse_date (o_parse o) date)))
  | _ => false
  end ||
  negb root && (needs_root x || match x with cmdApply | cmdUser (userPurge _ _) => true | _ => false end).

(** A question that is not answered with yes. *)
Lemma watches_unconfirmed yes p (k : bool -> C ()) : go_ahead yes = false -> watches (k false) ->
  watches ((if yes then mret true else confirm o p) ≫= k).
Proof.
  unfold go_ahead. intros [-> Hno]%orb_false_iff Hk s. unfold confirm, mbind, C_bind. cbn. rewrite Hno.
  specialize (Hk s). destruct (k false s) as [s2 [more r]]. exact Hk.
Qed.
(** A question before a part that needs root. *)
Lemma idle_confirmed b yes p (k : bool -> C ()) : (b = true -> go_ahead yes = true) ->
  watches (k false) -> idle b (k true) -> idle b ((if yes then mret true else confirm o p) ≫= k).
Proof.
  intros Hb Hf Ht s Hs. destruct (go_ahead yes) eqn:Eg.
  - unfold go_ahead in Eg. specialize (Ht s Hs). unfold confirm, mbind, C_bind.
    destruct yes; cbn; [|cbn in Eg; rewrite Eg]; by destruct (k true s) as [s2 [more r]].
  - split; [by apply watches_unconfirmed|]. intros ->. by specialize (Hb eq_refl).
Qed.

Lemma watches_optimize c action json : tunes action = false -> watches (run_optimize o c action json).
Proof.
  unfold tunes, run_optimize. cbv zeta. intros [-> ->]%orb_false_iff. watch.
Qed.
Lemma idle_optimize c action json : tunes action = true -> idle true (run_optimize o c action json).
Proof.
  unfold tunes, run_optimize. cbv zeta. intros Ht.
  assert (eqb_str (default (bs "apply") action) (bs "status") = false) as ->.
  { apply orb_true_iff in Ht as [->%eqb_str_true| ->%eqb_str_true]; done. }
  destruct (eqb_str _ (bs "apply")); [|destruct (eqb_str _ (bs "reset")); [|done]]; apply idle_root.
  all: intros s _; unfold mbind, C_bind, does_host, net_op; cbn; split; [|done];
    apply untouched_fs; done.
Qed.

Lemma watches_del c name yes : go_ahead yes = false -> watches (run_del o c name yes).
Proof. intros Hg. apply watches_unconfirmed; [done|apply watches_ret]. Qed.
Lemma idle_del c name yes : idle (go_ahead yes) (run_del o c name yes).
Proof.
  apply idle_confirmed; [done|apply watches_ret|].
  apply idle_then; [apply idle_user, refuses_Delete|intros; apply watches_prints].
Qed.
Lemma watches_purge c days yes : go_ahead yes = false -> watches (run_purge o c days yes).
Proof. intros Hg. apply watches_unconfirmed; [done|apply watches_ret]. Qed.
Lemma idle_purge c days yes : idle false (run_purge o c days yes).
Proof.
  apply idle_confirmed; [done|apply watches_ret|]. cbn [negb].
  apply idle_bind; [apply watches_now|apply same_user_now|]. intros now.
  apply idle_then; [|intros; watch].
  intros s Hs. split; [|done]. unfold does_host, users_op.
  destruct (PurgeExpired_refused (NewManager c) days now (h_mgr s) Hs) as [Hd Hr].
  destruct (PurgeExpired _ _ _ _) as [x r]. by apply untouched_mgr.
Qed.

Lemma idle_run_user c u : needs_root (cmdUser u) = true -> idle true (run_user o c u).
Proof.
  destruct u; intros Hn; try done; cbn [run_user].
  - apply idle_bind; [apply watches_now|apply same_user_now|]. intros now.
    apply idle_then; [apply idle_user, refuses_Create|]. intros r. watch.
  - cbn in Hn. rewrite <- Hn. apply idle_del.
  - apply idle_bind; [apply watches_now|apply same_user_now|]. intros now.
    apply idle_then; [apply idle_user, refuses_SetPassword|]. intros r. watch.
Qed.

Lemma watches_refused {A} e (k : A -> C ()) : watches (user_c (fail e) ≫= k).
Proof. intros s. unfold user_c, or_fail, users_op, mbind, C_bind, fail. by apply untouched_mgr. Qed.
Lemma watches_run_user c u : only_looks true (cmdUser u) = true -> watches (run_user o c u).
Proof.
  unfold only_looks. rewrite orb_false_r. destruct u; intros Hu; try done; cbn [run_user].
  - apply watches_list.
  - apply watches_info.
  - apply watches_del. by apply negb_true_iff.
  - watch_step; [watch|]. unfold user_renew. unfold positive in Hu. destruct (atoi days) as [n|]; [|apply watches_refused].
    unfold Renew. apply negb_true_iff, Z.ltb_ge in Hu. apply Z.leb_le in Hu as ->. apply watches_refused.
  - (* limit *) unfold user_limit. unfold positive in Hu. destruct (atoi n) as [k|]; [|apply watches_refused].
    unfold SetMaxConnections. apply negb_true_iff, Z.ltb_ge in Hu.
    assert ((k <? 1) = true) as -> by lia. apply watches_refused.
  - apply watches_purge. by apply negb_true_iff.
  - watch_step; [watch|]. unfold user_expiry. apply negb_true_iff, bool_decide_eq_false in Hu.
    destruct (parse_date _ _); [by destruct Hu|apply watches_refused].
Qed.

Lemma idle_provision c : idle false (provision o c).
Proof.
  apply idle_then; [|intros; watch]. intros s Hs. unfold does_host, Setup.Apply. rewrite not_root by done. split; [reflexivity|done].
Qed.
Lemma idle_setup f : idle true (c ← or_fail eCli (run_setup cfgFile f); _ ← line (bs "Setting up SSH-VPN"); provision o c).
Proof.
  apply idle_stops. intros s Hs. unfold or_fail, run_setup. rewrite not_root by done.
  split; [reflexivity|intros _; reflexivity].
Qed.
Lemma idle_uninstall keepOpt yes : idle true (run_uninstall o cfgFile keepOpt yes).
Proof.
  apply idle_stops. intros s Hs. unfold user_c, or_fail, users_op. rewrite RequireRoot_is.
  destruct (Z.eqb_spec (euid (m_world (h_mgr s))) 0) as [|_]; [done|]. split; [by apply untouched_mgr|done].
Qed.
Lemma watches_uninstall keepOpt yes : go_ahead yes = false -> watches (run_uninstall o cfgFile keepOpt yes).
Proof.
  intros Hg. apply watches_bind; [apply watches_user, peeks_root|]. intros _.
  apply watches_unconfirmed; [done|apply watches_ret].
Qed.
Lemma idle_restore c file : idle true (backup_restore o c file).
Proof.
  apply idle_then; [|intros; watch]. intros s Hs.
  unfold backup_c, Restore, mbind, B_bind, on_mgr. cbn [en_mgr en_fs]. rewrite RequireRoot_is.
  destruct (Z.eqb_spec (euid (m_world (h_mgr s))) 0) as [|_]; [done|]. split; [|done].
  do 5 (split; [done|]). exists []. by rewrite app_nil_r.
Qed.
Lemma idle_daemon c es : idle true (run_daemon o version c es).
Proof.
  intros s Hs. unfold run_daemon, DaemonRun.Run, DaemonRun.boot. unfold mbind, P_bind, on_host. cbn.
  rewrite is_root_is. cbn. unfold user_of in *. cbn.
  destruct (Z.eqb_spec (euid (m_world (h_mgr s))) 0) as [|_]; [done|]. split; [|done].
  do 5 (split; [done|]). exists []. by rewrite app_nil_r.
Qed.

Lemma run_cmd_idle x : needs_root x = true -> idle true (run_cmd o version cfgFile x).
Proof.
  destruct x; intros Hn; try done; cbn [run_cmd].
  - apply idle_bind; [apply watches_loaded|apply same_user_loaded|]. intros; apply idle_daemon.
  - apply idle_finish, idle_bind; [apply watches_loaded|apply same_user_loaded|]. intros; by apply idle_optimize.
  - apply idle_finish, idle_setup.
  - apply idle_finish, idle_bind; [apply watches_loaded|apply same_user_loaded|]. intros; apply idle_restore.
  - apply idle_finish, idle_uninstall.
  - apply idle_finish, idle_bind; [apply watches_loaded|apply same_user_loaded|]. intros; by apply idle_run_user.
Qed.

Lemma run_cmd_watches x : only_looks true x = true -> watches (run_cmd o version cfgFile x).
Proof.
  intros Hl. destruct x; try done; cbn [run_cmd].
  - watch.
  - watch. apply watches_online.
  - watch. apply watches_status.
  - watch. apply watches_optimize. unfold only_looks in Hl. rewrite orb_false_r in Hl. by apply negb_true_iff.
  - watch. apply watches_gateway_status.
  - watch. apply watches_doctor.
  - watch.
  - apply watches_finish, watches_uninstall. unfold only_looks in Hl. rewrite orb_false_r in Hl. by apply negb_true_iff.
  - watch. by apply watches_run_user.
Qed.

Lemma Execute_run x s : (Execute o version cfgFile x s).1 = (run_cmd o version cfgFile x s).1.
Proof. unfold Execute. by destruct (run_cmd _ _ _ x s) as [s1 [out [code|e]]]. Qed.

(** C40 The command line is careful: a command that only looks, a command whose question
    was not answered with yes, and a command that needs root when root did not give it,
    leave the files (at every moment), the kernel's settings, the packet filter and the
    records of the database as they are, and run no program but to ask something: systemd
    for the state of units, sshd for its version, the validity of its configuration and its
    settings, iptables for the rules of a chain, curl for the public address; and without
    root the commands that need it report an error and exit with 1. (Every command first
    loads the configuration, and with it makes the directories for data and logs and opens
    the database, which creates its file when there is none.) *)
Theorem commands_careful x s :
  let root := user_of s =? 0 in
  let '(s', (out, err, code)) := Execute o version cfgFile x s in
  (only_looks root x = true -> untouched s s') /\
  (root = false -> needs_root x = true -> is_Some err /\ code = 1).
Proof.
  cbv zeta. unfold Execute. destruct (run_cmd o version cfgFile x s) as [s1 [out r]] eqn:E.
  enough (H : (only_looks (user_of s =? 0) x = true -> untouched s s1) /\
    ((user_of s =? 0) = false -> needs_root x = true -> is_ok r = false)).
  { destruct H as [H1 H2]. destruct r as [code|e]; (split; [exact H1|]); intros Hr Hn; [by specialize (H2 Hr Hn)|].
    split; [by eexists|done]. }
  apply (f_equal fst) in E as E1. apply (f_equal (fun y => y.2.2)) in E as E2. cbn in E1, E2. rewrite <- E1, <- E2.
  split.
  - unfold only_looks. rewrite orb_true_iff, andb_true_iff, negb_true_iff. intros [Hl|[Hr Hn]].
    + apply run_cmd_watches. unfold only_looks. by rewrite Hl.
    + apply Z.eqb_neq in Hr. apply orb_true_iff in Hn as [Hn|Hn]; [by apply run_cmd_idle|].
      destruct x as [ | | | | | | | | | | | | | | |u]; try done; [|destruct u; try done].
      * apply (idle_finish false); [|done]. apply idle_bind; [apply watches_loaded|apply same_user_loaded|].
        intros; apply idle_provision.
      * apply (idle_finish false); [|done]. apply idle_bind; [apply watches_loaded|apply same_user_loaded|].
        intros; apply idle_purge.
  - intros Hr Hn. apply Z.eqb_neq in Hr. by apply run_cmd_idle.
Qed.
End commands.

(* ------------------------------------------------------------------ *)
(** * Commands on a concrete machine                                     *)
(* ------------------------------------------------------------------ *)

Section example.

(** A machine whose world is the user who runs the command. *)
Definition anyone : System := {|
  world := Z;
  euid w := w;
  read_file _ _ := None;
  exec _ _ w := (w, ([], true));
  db_lock w := (w, true);
  little_endian := true;
  proc_env _ := demo_proc;
  kill_answers _ w := (w, (None, None, None, fun _ => None));
  float_overflow _ := 0
|}.
#[local] Existing Instances anyone plain_calendar user_codec keyed_bolt contents_codec plain_archive record_codec.
#[local] Existing Instances sound_disk ascii_tables toy_netfilter open_kernel sysctl_codec one_state no_crypto.
#[local] Instance defaults_yaml : YAML := one_yaml Defaults.

Definition says_no : outside :=
  mkOutside (fun _ => 0) (fun _ => Some 0) [] (fun _ => []) (fun _ => []) (bs "n") (fun _ _ => []) (fun _ _ => None) id (fun _ => [])
    (fun _ => []) map_to_list id map_to_list map_to_list (fun n => if bool_decide (n ∈ [bs "sshd"; bs "iptables"]) then Some (bs "/usr/sbin/" ++ n) else None) Some (fun _ => false)
    (fun _ _ _ _ => mkEnded (bs "OpenSSH_9.6p1") None false) (fun _ => []) (fun _ _ => (true, [])) (fun _ _ _ => Err []) (mkServices true false true true) [] (fun _ => true)
    (Ok 0) (fun _ => None) (fun _ => None) (fun _ => true) id (fun _ _ => 0) (fun _ => true) (fun _ => []) (fun _ _ => [])
    (fun _ => []) [] (fun _ => []) [] (fun _ => []) (fun _ => []) (fun _ => []) (fun _ => []) [].
Definition machine_of (uid : Z) : host := mkHost (mkMgr alice_db (uid : @world anyone) []) (mkFs ∅ 0 []) ∅ old_tables.
Definition executed (x : cmd) (uid : Z) : host * (list shown * option cmd_err * Z) :=
  Execute says_no (bs "dev") [] x (machine_of uid).
Definition add_bob : cmd := cmdUser (userAdd (bs "bob") (bs "secret-123") [] 30 1 None false).

Lemma commands_careful_witness :
  (untouched says_no (machine_of 1000) (executed add_bob 1000).1 /\ (executed add_bob 1000).2.2 = 1) /\
  (untouched says_no (machine_of 0) (executed (cmdUser (userDel (bs "alice") false)) 0).1 /\
   (executed (cmdUser (userDel (bs "alice") false)) 0).2.2 = 0).
Proof.
  assert (Hf : forall w : @world anyone, euid (db_lock w).1 = euid w) by reflexivity.
  split.
  - pose proof (commands_careful says_no (bs "dev") [] Hf add_bob (machine_of 1000)) as Hc.
    unfold executed. destruct (Execute _ _ _ _ _) as [s' [[out err] code]].
    destruct Hc as [H1 H2]. split; [by apply H1|]. by destruct (H2 eq_refl eq_refl).
  - pose proof (commands_careful says_no (bs "dev") [] Hf (cmdUser (userDel (bs "alice") false)) (machine_of 0)) as Hc.
    split; [|vm_compute; reflexivity].
    unfold executed. destruct (Execute _ _ _ _ _) as [s' [[out err] code]]. by apply Hc.
Defined.

(** The question is asked. *)
Example asks_first : (executed (cmdUser (userDel (bs "alice") false)) 0).2.1 = ([sQuestion (bs "Delete alice? [y/N] ")], None).
Proof. vm_compute. reflexivity. Qed.
End example.
