(* ===== verification/Tui.v ===== *)
(** The terminal interface as a state machine ([src/tui/views/app.go], [modal.go] and the
    key handling of [users.go], [online.go], [optimizer.go], [doctor.go], [backup.go]):
    messages change the state and give commands. What the commands do to the machine is in
    [Terminal], what is drawn in [Screens]. *)
From S2P Require Import Prelude GoStrings Files Procfs Session Gateway Daemon Backup.
From S2P Require Import Config Security Store Users Netopt Host Badvpn Doctor GoFloat SysInfo Card.

(* ------------------------------------------------------------------ *)
(** * The state of the views                                             *)
(* ------------------------------------------------------------------ *)

Definition ViewDashboard : Z := 0.
Definition ViewUsers : Z := 1.
Definition ViewOnline : Z := 2.
Definition ViewNetwork : Z := 3.
Definition ViewOptimizer : Z := 4.
Definition ViewDoctor : Z := 5.
Definition ViewBackup : Z := 6.
Definition ViewSettings : Z := 7.
Definition menu_items : Z := 8.

Record DashboardState : Type := mkDash {
  ds_Loaded : bool; ds_SysInfo : option Info; ds_Daemon : option State; ds_DaemonOK : bool;
  ds_BBR : bool; ds_CC : gostring; ds_Firewall : bool;
  ds_Users : Z; ds_Active : Z; ds_Expired : Z; ds_Locked : Z; ds_Traffic : Z; ds_SSHActive : bool
}.
Definition no_dash : DashboardState := mkDash false None None false false [] false 0 0 0 0 0 false.

Record UsersState : Type := mkUsers { us_Users : list UserInfo; us_Cursor : Z; us_Err : option merr }.
Record OnlineState : Type := mkOnline {
  on_Sessions : list LiveSession; on_Live : bool; on_Total : Z; on_Cursor : Z
}.
Record NetworkState : Type := mkNet { nt_St : option State; nt_Fresh : bool; nt_BadVPN : option Badvpn.Status }.
Record OptimizerState : Type := mkOpt { op_Params : list Param; op_Message : gostring }.
Record DoctorState : Type := mkDoc { dc_Checks : list Check; dc_Ran : bool }.
Record BackupState : Type := mkBk { bs_Backups : list BackupRecord; bs_Cursor : Z; bs_Message : gostring }.

(** ** Loading *)

Definition dash_count (now : Z) (d : Z * Z * Z * Z) (u : UserRecord) : Z * Z * Z * Z :=
  let '(active, expired, locked, traffic) := d in
  let traffic := i64 (traffic + TrafficUsed u) in
  if IsExpired u now || eqb_str (LockReason u) LockExpired then (active, expired + 1, locked, traffic)
  else if Disabled u then (active, expired, locked + 1, traffic)
  else (active + 1, expired, locked, traffic).

(** The parts answer: the snapshot, the kernel's settings, the tables, /proc/net/tcp and
    the database. *)
Definition loadDashboard (cfg : Config) (info : Info) (st : option State) (now : Z) (bbr : bool)
    (cc : gostring) (fw : bool) (tcp : option TCPTable) (users : option (list UserRecord)) : DashboardState :=
  let '(active, expired, locked, traffic) :=
    match users with Some us => foldl (dash_count now) (0, 0, 0, 0) us | None => (0, 0, 0, 0) end in
  mkDash true (Some info) st (match st with Some st => Fresh st now | None => false end) bbr cc
    (firewall_Enabled (Config.Firewall cfg) && fw)
    (match users with Some us => len us | None => 0 end) active expired locked traffic
    (match tcp with
     | Some t => existsb (fun p => bool_decide (u16 p ∈ ListenPorts t)) (ssh_Ports (SSH cfg))
     | None => false
     end).

Definition loadOnline (st : option State) (now : Z) (scan : list Session.Session) : OnlineState :=
  let scanned := mkOnline ((fun s => mkLive s 0 0) <$> scan) false 0 0 in
  match st with
  | Some st => if Fresh st now then mkOnline (Daemon.st_Sessions st) true (st_TotalBps st) 0 else scanned
  | None => scanned
  end.
Definition loadNetwork (cfg : Config) (st : option State) (now : Z) (badvpn : Badvpn.Status) : NetworkState :=
  mkNet st (match st with Some st => Fresh st now | None => false end)
    (if eqb_str (udpgw_Mode (UDPGW cfg)) (bs "badvpn") then Some badvpn else None).

(* ------------------------------------------------------------------ *)
(** * Dialogs                                                            *)
(* ------------------------------------------------------------------ *)

(** What the background functions of the code do. *)
Inductive user_op : Type :=
| uCreate (name pass days conns gb note : gostring)
| uDelete (name : gostring)
| uRenew (name days reset : gostring)
| uPassword (name pass : gostring)
| uDevices (name n : gostring)
| uTraffic (name gb reset : gostring)
| uLock (name : gostring)
| uUnlock (name : gostring)
| uKick (name : gostring).
Inductive action : Type :=
| actUser (u : user_op)
| actKickSession (s : LiveSession)
| actOptimize
| actResetNet
| actBackup
| actRestore (b : BackupRecord)
| actDeleteBackup (b : BackupRecord).

Record field : Type := mkFieldOf { fd_label : gostring; fd_value : gostring; fd_hint : gostring; fd_secret : bool }.
(** The code gives every field without [secret]. *)
Abbreviation mkField l v h := (mkFieldOf l v h false).
Definition set_field_value (v : gostring) (f : field) : field := mkFieldOf (fd_label f) v (fd_hint f) (fd_secret f).

Inductive modalKind : Type := modalConfirm | modalForm | modalText.

(** [m_onOK]: no function, or one of the values; its result is [None] where the values
    are indexed out of range. *)
Record modal : Type := mkModal {
  m_kind : modalKind;
  m_title : gostring;
  m_text : gostring;
  m_fields : list field;
  m_idx : nat;
  m_onOK : option (list gostring -> option action)
}.
Definition confirmModal (title text : gostring) (onYes : action) : modal :=
  mkModal modalConfirm title text [] 0 (Some (fun _ => Some onYes)).
Definition formModal (title : gostring) (fields : list field) (onOK : list gostring -> option action) : modal :=
  mkModal modalForm title [] fields 0 (Some onOK).
Definition textModal (title text : gostring) : modal := mkModal modalText title text [] 0 None.
Definition set_idx (i : nat) (m : modal) : modal :=
  mkModal (m_kind m) (m_title m) (m_text m) (m_fields m) i (m_onOK m).
Definition set_fields (l : list field) (m : modal) : modal :=
  mkModal (m_kind m) (m_title m) (m_text m) l (m_idx m) (m_onOK m).

(** A key: its name, and its runes when it is of the type of runes or the space bar. *)
Record key : Type := mkKey { k_text : gostring; k_runes : option gostring }.
Definition is_key (k : key) (names : list string) : bool := existsb (fun n => eqb_str (k_text k) (bs n)) names.

(** The text without its last rune; texts are valid UTF-8, as keys are. *)
Definition continuation (b : byte) : bool := (128 <=? b2z b) && (b2z b <? 192).
Fixpoint drop_rune (r : gostring) : gostring :=
  match r with [] => [] | b :: r => if continuation b then drop_rune r else r end.
Definition drop_last_rune (s : gostring) : gostring := reverse (drop_rune (reverse s)).

(** What the program is asked to do; a list is a batch. *)
Inductive cmd : Type :=
| cQuit
| cTitle
| cTick
| cLoad (view : Z)
| cRun (a : action).

Section modal.
Context `{Uni : Unicode}.

(** A change of the field with the cursor. *)
Definition on_field (f : field -> field) (m : modal) : option (option modal * list cmd) :=
  match m_fields m !! m_idx m with
  | None => None
  | Some x => Some (Some (set_fields (<[m_idx m := f x]> (m_fields m)) m), [])
  end.
Definition call (m : modal) (v : list gostring) : option (option modal * list cmd) :=
  match m_onOK m with
  | None => None
  | Some f => a ← f v; Some (None, [cRun a])
  end.

(** [modal.update]: the dialog that stays and the command; [None] is a panic. *)
Definition modal_update (m : modal) (k : key) : option (option modal * list cmd) :=
  match m_kind m with
  | modalText => Some (None, [])
  | modalConfirm =>
      let s := to_lower (k_text k) in
      if eqb_str s (bs "y") || eqb_str s (bs "enter") then call m []
      else if eqb_str s (bs "n") || eqb_str s (bs "esc") || eqb_str s (bs "q") then Some (None, [])
      else Some (Some m, [])
  | modalForm =>
      let n := length (m_fields m) in
      if is_key k ["esc"] then Some (None, [])
      else if is_key k ["tab"; "down"]
      then if decide (n = 0%nat) then None else Some (Some (set_idx ((m_idx m + 1) mod n) m), [])
      else if is_key k ["shift+tab"; "up"]
      then if decide (n = 0%nat) then None else Some (Some (set_idx ((m_idx m + n - 1) mod n) m), [])
      else if is_key k ["enter"] then call m (trim_space <$> (fd_value <$> m_fields m))
      else if is_key k ["backspace"; "ctrl+h"] then on_field (fun f => set_field_value (drop_last_rune (fd_value f)) f) m
      else if is_key k ["ctrl+u"] then on_field (set_field_value []) m
      else match k_runes k with
           | Some r => on_field (fun f => set_field_value (fd_value f ++ r) f) m
           | None => Some (Some m, [])
           end
  end.
End modal.

(* ------------------------------------------------------------------ *)
(** * The program                                                        *)
(* ------------------------------------------------------------------ *)

Record screen : Type := mkScreen { sc_activeView : Z; sc_menuCursor : Z; sc_focusSidebar : bool }.
Record views : Type := mkViews {
  v_dash : DashboardState; v_us : UsersState; v_online : OnlineState; v_net : NetworkState;
  v_opt : OptimizerState; v_doc : DoctorState; v_bk : BackupState
}.
(** The message of the status bar, whether it is good news, and since when. *)
Record note : Type := mkNote { n_text : gostring; n_good : bool; n_at : option Z }.
Record App : Type := mkApp {
  a_width : Z; a_height : Z;
  a_screen : screen; a_views : views; a_modal : option modal; a_note : note
}.

Definition set_size w h a := mkApp w h (a_screen a) (a_views a) (a_modal a) (a_note a).
Definition set_screen s a := mkApp (a_width a) (a_height a) s (a_views a) (a_modal a) (a_note a).
Definition set_views v a := mkApp (a_width a) (a_height a) (a_screen a) v (a_modal a) (a_note a).
Definition set_modal m a := mkApp (a_width a) (a_height a) (a_screen a) (a_views a) m (a_note a).
Definition set_note n a := mkApp (a_width a) (a_height a) (a_screen a) (a_views a) (a_modal a) n.
Definition set_focus b a := set_screen (mkScreen (sc_activeView (a_screen a)) (sc_menuCursor (a_screen a)) b) a.
Definition set_us u v := mkViews (v_dash v) u (v_online v) (v_net v) (v_opt v) (v_doc v) (v_bk v).
Definition set_online o v := mkViews (v_dash v) (v_us v) o (v_net v) (v_opt v) (v_doc v) (v_bk v).
Definition set_bk b v := mkViews (v_dash v) (v_us v) (v_online v) (v_net v) (v_opt v) (v_doc v) b.

Definition NewApp : App :=
  mkApp 0 0 (mkScreen 0 0 true)
    (mkViews no_dash (mkUsers [] 0 None) (mkOnline [] false 0 0) (mkNet None false None) (mkOpt [] [])
       (mkDoc [] false) (mkBk [] 0 []))
    None (mkNote [] true None).
Definition Init : list cmd := [cTitle; cLoad ViewDashboard; cTick].

Inductive data : Type :=
| dDash (d : DashboardState)
| dUsers (users : list UserInfo) (err : option merr)
| dOnline (d : OnlineState)
| dNet (d : NetworkState)
| dOpt (d : OptimizerState)
| dDoc (d : DoctorState)
| dBk (d : BackupState).

(** An error comes with its text. *)
Record opDone : Type := mkDone { od_text : gostring; od_err : option gostring; od_reload : bool; od_card : gostring }.

Inductive msg : Type :=
| windowSize (w h : Z)
| tickMsg
| viewDataMsg (d : data)
| opDoneMsg (d : opDone)
| keyMsg (k : key)
| otherMsg.

Definition clamp (v lo hi : Z) : Z :=
  if hi <? lo then lo else if v <? lo then lo else if hi <? v then hi else v.

Definition applyData (d : data) (v : views) : views :=
  match d with
  | dDash d => mkViews d (v_us v) (v_online v) (v_net v) (v_opt v) (v_doc v) (v_bk v)
  | dUsers us err => set_us (mkUsers us (clamp (us_Cursor (v_us v)) 0 (len us - 1)) err) v
  | dOnline d => set_online (mkOnline (on_Sessions d) (on_Live d) (on_Total d)
                               (clamp (on_Cursor (v_online v)) 0 (len (on_Sessions d) - 1))) v
  | dNet d => mkViews (v_dash v) (v_us v) (v_online v) d (v_opt v) (v_doc v) (v_bk v)
  | dOpt d => mkViews (v_dash v) (v_us v) (v_online v) (v_net v) (mkOpt (op_Params d) (op_Message (v_opt v))) (v_doc v) (v_bk v)
  | dDoc d => mkViews (v_dash v) (v_us v) (v_online v) (v_net v) (v_opt v) d (v_bk v)
  | dBk d => set_bk (mkBk (bs_Backups d) (clamp (bs_Cursor (v_bk v)) 0 (len (bs_Backups d) - 1)) (bs_Message (v_bk v))) v
  end.

Definition notify (text : gostring) (err : option gostring) (now : Z) : note :=
  match err with
  | Some e => mkNote (bs "✗ " ++ e) false (Some now)
  | None => mkNote (bs "✓ " ++ text) true (Some now)
  end.

(** [s.Users[i]]: [None] is a panic. *)
Definition item {A} (l : list A) (i : Z) : option A := if i <? 0 then None else l !! Z.to_nat i.
Definition move (k : key) (cursor n : Z) : option Z :=
  if is_key k ["up"; "k"] then Some (if 0 <? cursor then cursor - 1 else cursor)
  else if is_key k ["down"; "j"] then Some (if cursor <? n - 1 then cursor + 1 else cursor)
  else None.

Section app.
Context `{Uni : Unicode}.
Variable cfg : Config.
(** [strconv.FormatFloat(g, 'f', -1, 64)], the card of an account, and a date. *)
Variable format_float : float -> gostring.
Variable card_of : UserRecord -> gostring.
Variable format_date : Z -> gostring.

Definition selected (s : UsersState) : option UserInfo :=
  match us_Users s with
  | [] => None
  | l => item l (clamp (us_Cursor s) 0 (len l - 1))
  end.

(** The forms; the values come in the order of the fields. *)
Definition create_form : modal :=
  let d := UserDefaults cfg in
  formModal (bs "New user")
    [mkField (bs "Username") [] (bs "letters, digits, - _");
     mkField (bs "Password") [] (bs "empty = random");
     mkField (bs "Days") (itoa (ud_DefaultExpirationDays d)) [];
     mkField (bs "Devices") (itoa (ud_DefaultMaxConnections d)) (bs "simultaneous connections");
     mkField (bs "Traffic (GB)") (format_float (ud_DefaultTrafficGB d)) (bs "0 = unlimited");
     mkField (bs "Note") [] []]
    (fun v => name ← v !! 0%nat; pass ← v !! 1%nat; days ← v !! 2%nat; conns ← v !! 3%nat;
              gb ← v !! 4%nat; note ← v !! 5%nat; Some (actUser (uCreate name pass days conns gb note))).
Definition renew_form (name : gostring) : modal :=
  formModal (bs "Renew " ++ name)
    [mkField (bs "Add days") (bs "30") []; mkField (bs "Reset traffic") (bs "no") (bs "yes/no")]
    (fun v => days ← v !! 0%nat; reset ← v !! 1%nat; Some (actUser (uRenew name days reset))).
Definition password_form (name : gostring) : modal :=
  formModal (bs "New password for " ++ name) [mkField (bs "Password") [] (bs "empty = random")]
    (fun v => pass ← v !! 0%nat; Some (actUser (uPassword name pass))).
Definition devices_form (name : gostring) (n : Z) : modal :=
  formModal (bs "Devices for " ++ name) [mkField (bs "Max devices") (itoa n) []]
    (fun v => n ← v !! 0%nat; Some (actUser (uDevices name n))).
Definition traffic_form (u : UserRecord) : modal :=
  let cur := if 0 <? TrafficLimit u
             then format_float (fdiv (of_int (TrafficLimit u)) (of_int (2 ^ 30))) else bs "0" in
  formModal (bs "Traffic for " ++ Username u ++ bs " — used " ++ Card.FormatBytes (TrafficUsed u))
    [mkField (bs "Quota (GB)") cur (bs "0 = unlimited"); mkField (bs "Reset usage") (bs "no") (bs "yes/no")]
    (fun v => gb ← v !! 0%nat; reset ← v !! 1%nat; Some (actUser (uTraffic (Username u) gb reset))).

(** What a key does in a view: the view's new state, a dialog that opens, commands. *)
Definition updateUsers (k : key) (s : UsersState) : UsersState * option modal * list cmd :=
  match move k (us_Cursor s) (len (us_Users s)) with
  | Some c => (mkUsers (us_Users s) c (us_Err s), None, [])
  | None =>
      if is_key k ["n"; "a"] then (s, Some create_form, [])
      else match selected s with
           | None => (s, None, [])
           | Some ui =>
               let u := info_record ui in
               let name := Username u in
               if is_key k ["enter"; "i"]
               then (s, Some (textModal (bs "Connection card — " ++ name) (card_of u)), [])
               else if is_key k ["d"; "delete"]
               then (s, Some (confirmModal (bs "Delete user")
                        (bs "Delete " ++ name ++ bs " and disconnect them?") (actUser (uDelete name))), [])
               else if is_key k ["e"] then (s, Some (renew_form name), [])
               else if is_key k ["p"] then (s, Some (password_form name), [])
               else if is_key k ["c"] then (s, Some (devices_form name (MaxConnections u)), [])
               else if is_key k ["t"] then (s, Some (traffic_form u), [])
               else if is_key k ["l"]
               then if Disabled u then (s, None, [cRun (actUser (uUnlock name))])
                    else (s, Some (confirmModal (bs "Lock user")
                             (bs "Lock " ++ name ++ bs " and disconnect them?") (actUser (uLock name))), [])
               else if is_key k ["x"] then (s, None, [cRun (actUser (uKick name))])
               else (s, None, [])
           end
  end.

(** Here the cursor is used as it is: [None] is a panic. *)
Definition updateOnline (k : key) (s : OnlineState) : option (OnlineState * option modal * list cmd) :=
  match move k (on_Cursor s) (len (on_Sessions s)) with
  | Some c => Some (mkOnline (on_Sessions s) (on_Live s) (on_Total s) c, None, [])
  | None =>
      if is_key k ["x"; "delete"]
      then match on_Sessions s with
           | [] => Some (s, None, [])
           | l => x ← item l (on_Cursor s);
                  let ss := ls_Session x in
                  Some (s, Some (confirmModal (bs "Kick session")
                    (bs "Disconnect " ++ ss_Username ss ++ bs " (" ++ ss_ClientIP ss ++ bs ")?")
                    (actKickSession x)), [])
           end
      else Some (s, None, [])
  end.

Definition updateOptimizer (k : key) : option modal * list cmd :=
  if is_key k ["a"] then (None, [cRun actOptimize])
  else if is_key k ["x"]
  then (Some (confirmModal (bs "Reset") (bs "Restore the kernel settings from before SSH-VPN?") actResetNet), [])
  else (None, []).

(** The chosen backup, if there is any. *)
Definition about_backup (s : BackupState) (ask : BackupRecord -> modal)
    : option (BackupState * option modal * list cmd) :=
  match bs_Backups s with
  | [] => Some (s, None, [])
  | l => x ← item l (bs_Cursor s); Some (s, Some (ask x), [])
  end.
Definition updateBackup (k : key) (s : BackupState) : option (BackupState * option modal * list cmd) :=
  match move k (bs_Cursor s) (len (bs_Backups s)) with
  | Some c => Some (mkBk (bs_Backups s) c (bs_Message s), None, [])
  | None =>
      if is_key k ["c"] then Some (s, None, [cRun actBackup])
      else if is_key k ["enter"]
      then about_backup s (fun x => confirmModal (bs "Restore")
             (bs "Restore " ++ itoa (bk_UserCount x) ++ bs " users from " ++ format_date (bk_CreatedAt x) ++ bs "?")
             (actRestore x))
      else if is_key k ["d"; "delete"]
      then about_backup s (fun x => confirmModal (bs "Delete backup")
             (bs "Delete " ++ bk_FilePath x ++ bs "?") (actDeleteBackup x))
      else Some (s, None, [])
  end.

Definition opened (m : option modal) (a : App) : App := match m with Some _ => set_modal m a | None => a end.
Definition updateActiveView (k : key) (a : App) : option (App * list cmd) :=
  let v := a_views a in
  let view := sc_activeView (a_screen a) in
  if view =? ViewUsers
  then let '(s, m, c) := updateUsers k (v_us v) in Some (opened m (set_views (set_us s v) a), c)
  else if view =? ViewOnline
  then r ← updateOnline k (v_online v);
       let '(s, m, c) := r in Some (opened m (set_views (set_online s v) a), c)
  else if view =? ViewOptimizer
  then let '(m, c) := updateOptimizer k in Some (opened m a, c)
  else if view =? ViewBackup
  then r ← updateBackup k (v_bk v);
       let '(s, m, c) := r in Some (opened m (set_views (set_bk s v) a), c)
  else Some (a, []).

(** Going to a view. *)
Definition goto_view (view : Z) (a : App) : App * list cmd :=
  (set_screen (mkScreen view view false) a, [cLoad view]).
Definition updateSidebar (k : key) (a : App) : App * list cmd :=
  let s := a_screen a in
  let cur := sc_menuCursor s in
  let moved c := (set_screen (mkScreen (sc_activeView s) c (sc_focusSidebar s)) a, []) in
  if is_key k ["up"; "k"] then moved (if 0 <? cur then cur - 1 else cur)
  else if is_key k ["down"; "j"] then moved (if cur <? menu_items - 1 then cur + 1 else cur)
  else if is_key k ["enter"; "right"; "l"] then goto_view cur a
  else match k_text k with
       | [d] => let i := b2z d - 49 in
                if (0 <=? i) && (i <? menu_items) then goto_view i a else (a, [])
       | _ => (a, [])
       end.

Definition updateKey (k : key) (a : App) : option (App * list cmd) :=
  match a_modal a with
  | Some m => r ← modal_update m k; Some (set_modal r.1 a, r.2)
  | None =>
      if is_key k ["ctrl+c"] then Some (a, [cQuit])
      else if is_key k ["q"]
      then if sc_focusSidebar (a_screen a) then Some (a, [cQuit]) else Some (set_focus true a, [])
      else if is_key k ["esc"] then Some (set_focus true a, [])
      else if is_key k ["tab"] then Some (set_focus (negb (sc_focusSidebar (a_screen a))) a, [])
      else if is_key k ["r"; "f5"] then Some (a, [cLoad (sc_activeView (a_screen a))])
      else if sc_focusSidebar (a_screen a) then Some (updateSidebar k a)
      else updateActiveView k a
  end.

Definition live_view (v : Z) : bool :=
  (v =? ViewDashboard) || (v =? ViewUsers) || (v =? ViewOnline) || (v =? ViewNetwork).

(** [Update]: the next state and the commands; [None] is a panic. *)
Definition Update (now : Z) (m : msg) (a : App) : option (App * list cmd) :=
  match m with
  | windowSize w h => Some (set_size w h a, [])
  | tickMsg =>
      let n := a_note a in
      let old := match n_at n with Some t => 8 * Gateway.Second <? now - t | None => false end in
      let a := if old then set_note (mkNote [] (n_good n) (n_at n)) a else a in
      let view := sc_activeView (a_screen a) in
      Some (a, (match a_modal a with
                | None => if live_view view then [cLoad view] else []
                | Some _ => []
                end) ++ [cTick])
  | viewDataMsg d => Some (set_views (applyData d (a_views a)) a, [])
  | opDoneMsg d =>
      let a := match od_err d, od_text d with
               | None, [] => a
               | _, _ => set_note (notify (od_text d) (od_err d) now) a
               end in
      let a := match od_card d with
               | [] => a
               | c => set_modal (Some (textModal (bs "Connection card — copy and send to the user") c)) a
               end in
      Some (a, if od_reload d then [cLoad (sc_activeView (a_screen a))] else [])
  | keyMsg k => updateKey k a
  | otherMsg => Some (a, [])
  end.
End app.

(** The action of a dialog that asks, and the action that a message confirms. *)
Definition confirms (m : modal) : option action :=
  match m_kind m with modalConfirm => f ← m_onOK m; f [] | _ => None end.
Section confirmed.
Context `{Uni : Unicode}.
Definition says_ok (k : key) : bool :=
  let s := to_lower (k_text k) in eqb_str s (bs "y") || eqb_str s (bs "enter").
Definition confirmed_by (a : App) (m : msg) : list action :=
  match a_modal a, m with
  | Some d, keyMsg k => if says_ok k then option_list (confirms d) else []
  | _, _ => []
  end.
End confirmed.

(* ------------------------------------------------------------------ *)
(** * The background functions of the users view                         *)
(* ------------------------------------------------------------------ *)

Section actions.
Context `{Sys : System, Cal : Calendar, Uni : Unicode, CU : !Codec UserRecord, Blt : Bolt}.
Variable cfg : Config.
Variable now : Z.
Variable rand : nat -> option Z.
Variable card_of : UserRecord -> gostring -> gostring.
(** [strconv.ParseFloat]: the number and whether there is no error. *)
Variable parse_float : gostring -> float * bool.
Abbreviation um := (NewManager cfg).

Definition number (s : gostring) (e : string) : M Z :=
  match atoi s with Some n => mret n | None => fail (refused (bs e)) end.
Definition says_yes (s : gostring) : bool := has_prefix (to_lower s) (bs "y").
(** The text of a success, and the card to show; [None] is a panic. *)
Definition done_text (t : gostring) : M (option (gostring * gostring)) := mret (Some (t, [])).

Definition create_gb (gb : gostring) : float :=
  let g := (parse_float gb).1 in if fl_m g =? 0 then mkFloat (-1) 0 else g.
Definition user_action (a : user_op) : M (option (gostring * gostring)) :=
  match a with
  | uCreate name pass days conns gb note =>
      r ← Create um (mkOpts name pass (atoi_or0 conns) (atoi_or0 days) (create_gb gb) note) rand now;
      mret (Some (bs "created " ++ Username r.1, card_of r.1 r.2))
  | uDelete name => _ ← Delete um name; done_text (bs "deleted " ++ name)
  | uRenew name days reset =>
      n ← number days "days must be a number";
      rec ← Renew name n now;
      _ ← (if says_yes reset then _ ← ResetTraffic name; mret tt else mret tt);
      done_text (name ++ bs " expires " ++ Users.format_date (ExpiresAt rec))
  | uPassword name pass =>
      pw ← SetPassword name pass rand;
      rec ← attempt (getUser name);
      mret (match rec with
            | Ok rec => Some (bs "password changed", card_of rec pw)
            | Err _ => None
            end)
  | uDevices name n =>
      n ← number n "enter a number";
      _ ← SetMaxConnections name n;
      done_text (name ++ bs ": " ++ itoa n ++ bs " devices")
  | uTraffic name gb reset =>
      let '(g, ok) := parse_float gb in
      if negb ok then fail (refused (bs "quota must be a number"))
      else
        _ ← SetTrafficLimit name (Users.gb g);
        _ ← (if says_yes reset then _ ← ResetTraffic name; mret tt else mret tt);
        done_text (bs "traffic updated for " ++ name)
  | uLock name => _ ← Lock um name LockManual; done_text (bs "locked " ++ name)
  | uUnlock name => _ ← Unlock name now; done_text (bs "unlocked " ++ name)
  | uKick name =>
      n ← Kick um name;
      done_text (bs "disconnected " ++ itoa n ++ bs " session(s) of " ++ name)
  end.
End actions.

(** ** Texts of the other views *)

Definition optimized (r : option Netopt.Result) (e : gostring) : opDone :=
  match r with
  | None => mkDone [] (Some e) true []
  | Some r =>
      mkDone (bs "applied " ++ itoa (Netopt.r_Applied r) ++ bs "/" ++ itoa (Netopt.r_Total r) ++ bs " settings" ++
              match Netopt.r_Warnings r with [] => [] | ws => bs " — " ++ join (bs "; ") ws end) None true []
  end.
Definition restored (r : Backup.RestoreResult + gostring) : opDone :=
  match r with
  | inl r => mkDone (bs "restored " ++ itoa (Backup.rr_Users r) ++ bs " users (" ++
                     itoa (len (Backup.rr_Created r)) ++ bs " accounts created)") None true []
  | inr e => mkDone [] (Some e) true []
  end.
