(* ===== verification/TuiProps.v ===== *)
(** [Tui.Update] never panics, whatever messages arrive in whatever order, and nothing is
    destroyed without a confirmation. *)
From S2P Require Import Prelude GoStrings Files Procfs Session Gateway Daemon Backup.
From S2P Require Import Config Security Store Users Netopt Host Badvpn Doctor GoFloat SysInfo Card Tui.

(* ------------------------------------------------------------------ *)
(** * Cursors and dialogs                                                *)
(* ------------------------------------------------------------------ *)

Definition cursor_ok (c n : Z) : Prop := 0 <= c < Z.max 1 n.

Lemma clamp_ok v n : cursor_ok (clamp v 0 (n - 1)) n.
Proof.
  unfold cursor_ok, clamp. destruct (Z.ltb_spec (n - 1) 0); [lia|].
  destruct (Z.ltb_spec v 0); [lia|]. destruct (Z.ltb_spec (n - 1) v); lia.
Qed.
Lemma move_ok k c n c' : cursor_ok c n -> move k c n = Some c' -> cursor_ok c' n.
Proof.
  unfold cursor_ok, move. intros Hc. destruct (is_key k _).
  - intros [= <-]. destruct (Z.ltb_spec 0 c); lia.
  - destruct (is_key k _); [|done]. intros [= <-]. destruct (Z.ltb_spec c (n - 1)); lia.
Qed.
Lemma item_ok {A} (l : list A) c : l <> [] -> cursor_ok c (len l) -> is_Some (item l c).
Proof.
  intros Hl [H1 H2]. unfold item. destruct (Z.ltb_spec c 0); [lia|]. apply lookup_lt_is_Some_2.
  unfold len in H2. destruct l; [done|]. cbn [length] in *. lia.
Qed.

(** Actions that take something away from somebody. *)
Definition destroys (a : action) : bool :=
  match a with
  | actUser (uDelete _ | uLock _) | actKickSession _ | actResetNet | actRestore _ | actDeleteBackup _ => true
  | _ => false
  end.
Definition runs (c : list cmd) : list action := omap (fun x => match x with cRun a => Some a | _ => None end) c.
Definition destroyed (l : list action) : list action := filter (fun a => destroys a = true) l.

Definition modal_inv (m : modal) : Prop :=
  match m_kind m with
  | modalText => True
  | modalConfirm => exists f, m_onOK m = Some f /\ is_Some (f [])
  | modalForm => exists f, m_onOK m = Some f /\ (m_idx m < length (m_fields m))%nat /\
      forall v, length v = length (m_fields m) -> exists a, f v = Some a /\ destroys a = false
  end.
Definition dialog_inv (m : option modal) : Prop := match m with Some m => modal_inv m | None => True end.

Lemma confirm_inv t x a : modal_inv (confirmModal t x a).
Proof. by eexists. Qed.
Lemma text_inv t x : modal_inv (textModal t x).
Proof. done. Qed.

Section modals.
Context `{Uni : Unicode}.

Definition harmless (c : list cmd) : Prop := (cQuit ∉ c) /\ destroyed (runs c) = [].

Lemma harmless_nil : harmless [].
Proof. split; [apply not_elem_of_nil|done]. Qed.
Lemma harmless_run a : destroys a = false -> harmless [cRun a].
Proof.
  intros Ha. split; [by intros ?%list_elem_of_singleton|]. unfold destroyed. cbn. case_decide; congruence.
Qed.
Lemma harmless_load v : harmless [cLoad v].
Proof. split; [by intros ?%list_elem_of_singleton|done]. Qed.

Lemma on_field_inv g m : m_kind m = modalForm -> modal_inv m ->
  exists m', on_field g m = Some (Some m', []) /\ modal_inv m'.
Proof.
  intros Ek Hm. unfold modal_inv in Hm. rewrite Ek in Hm. destruct Hm as (f & Ef & Hi & Hf). unfold on_field.
  destruct (lookup_lt_is_Some_2 _ _ Hi) as [x ->]. eexists. split; [done|].
  unfold modal_inv. cbn [set_fields m_kind m_onOK m_idx m_fields]. rewrite Ek. exists f.
  rewrite length_insert. done.
Qed.
Lemma set_idx_inv i m : m_kind m = modalForm -> modal_inv m -> (i < length (m_fields m))%nat ->
  modal_inv (set_idx i m).
Proof.
  intros Ek Hm Hi. unfold modal_inv in *. cbn [set_idx m_kind m_onOK m_idx m_fields]. rewrite Ek in *.
  destruct Hm as (f & Ef & _ & Hf). by exists f.
Qed.

Definition answered (m : modal) (k : key) : list action := if says_ok k then option_list (confirms m) else [].
(** What a dialog leaves and gives: nothing that destroys but what was confirmed. *)
Definition answers_ok (m : modal) (k : key) (r : option modal * list cmd) : Prop :=
  dialog_inv r.1 /\ (cQuit ∉ r.2) /\ destroyed (runs r.2) = destroyed (answered m k).
Lemma answers_harmless m k m' c : confirms m = None -> dialog_inv m' -> harmless c -> answers_ok m k (m', c).
Proof.
  intros Hn Hd [Hq Hc]. split_and!; [done..|]. cbn [snd]. rewrite Hc. unfold answered. rewrite Hn. by destruct (says_ok k).
Qed.

Lemma modal_update_ok m k : modal_inv m -> exists r, modal_update m k = Some r /\ answers_ok m k r.
Proof.
  intros Hm. unfold modal_update. destruct (m_kind m) eqn:Ek.
  - pose proof Hm as Hm'. unfold modal_inv in Hm'. rewrite Ek in Hm'. destruct Hm' as (f & Ef & [a Ha]).
    assert (Hc : confirms m = Some a) by (unfold confirms; rewrite Ek, Ef; exact Ha).
    change (eqb_str (to_lower (k_text k)) (bs "y") || eqb_str (to_lower (k_text k)) (bs "enter")) with (says_ok k).
    unfold answers_ok, answered. destruct (says_ok k) eqn:Ey.
    + unfold call. rewrite Ef. cbn. rewrite Ha, Hc. eexists. split; [done|]. cbn. split_and!; [done| |done].
      by intros ?%list_elem_of_singleton.
    + match goal with |- context [if ?b then _ else _] => destruct b end;
        eexists; (split; [done|]); split_and!; try done; apply not_elem_of_nil.
  - pose proof Hm as Hm'. unfold modal_inv in Hm'. rewrite Ek in Hm'. destruct Hm' as (f & Ef & Hi & Hf).
    assert (Hn : length (m_fields m) <> 0%nat) by lia.
    assert (Hc : confirms m = None) by (unfold confirms; by rewrite Ek).
    assert (Hstay : forall g, exists r, on_field g m = Some r /\ answers_ok m k r).
    { intros g. destruct (on_field_inv g m Ek Hm) as (m' & -> & Hm'). eexists. split; [done|].
      apply answers_harmless; [done|exact Hm'|apply harmless_nil]. }
    assert (Hidx : forall i, (i < length (m_fields m))%nat -> answers_ok m k (Some (set_idx i m), []))
      by (intros i Hl; apply answers_harmless; [done|by apply set_idx_inv|apply harmless_nil]).
    destruct (is_key k ["esc"]); [eexists; split; [done|]; by apply answers_harmless; [..|apply harmless_nil]|].
    destruct (is_key k ["tab"; "down"]).
    { rewrite decide_False by done. eexists. split; [done|]. apply Hidx. by apply Nat.mod_upper_bound. }
    destruct (is_key k ["shift+tab"; "up"]).
    { rewrite decide_False by done. eexists. split; [done|]. apply Hidx. by apply Nat.mod_upper_bound. }
    destruct (is_key k ["enter"]).
    { unfold call. rewrite Ef. destruct (Hf (trim_space <$> (fd_value <$> m_fields m))) as (a & Ha & Hd);
        [by rewrite !length_fmap|].
      cbn. rewrite Ha. eexists. split; [done|]. apply answers_harmless; [done|done|by apply harmless_run]. }
    destruct (is_key k ["backspace"; "ctrl+h"]); [apply Hstay|].
    destruct (is_key k ["ctrl+u"]); [apply Hstay|].
    destruct (k_runes k); [apply Hstay|]. eexists. split; [done|].
    apply answers_harmless; [done|exact Hm|apply harmless_nil].
  - eexists. split; [done|]. apply answers_harmless; [|done|apply harmless_nil]. unfold confirms. by rewrite Ek.
Qed.
End modals.

(* ------------------------------------------------------------------ *)
(** * The views                                                          *)
(* ------------------------------------------------------------------ *)

Section app.
Context `{Uni : Unicode}.
Variable cfg : Config.
Variable format_float : float -> gostring.
Variable card_of : UserRecord -> gostring.
Variable format_date : Z -> gostring.

Abbreviation update_users := (updateUsers cfg format_float card_of).
Abbreviation update := (Update cfg format_float card_of format_date).

Lemma form_inv t fs f : fs <> [] ->
  (forall v, length v = length fs -> exists a, f v = Some a /\ destroys a = false) -> modal_inv (formModal t fs f).
Proof.
  intros Hfs Hf. exists f. split; [done|]. split; [|exact Hf]. cbn. destruct fs; [done|cbn; lia].
Qed.

(** A form whose values are indexed within its fields. *)
Ltac form := apply form_inv; [done|]; intros v Hv; cbn in Hv;
  repeat (destruct v as [|? v]; [done|]); cbn; eexists; by split.
Lemma create_form_inv : modal_inv (create_form cfg format_float).
Proof. form. Qed.
Lemma renew_form_inv n : modal_inv (renew_form n).
Proof. form. Qed.
Lemma password_form_inv n : modal_inv (password_form n).
Proof. form. Qed.
Lemma devices_form_inv n d : modal_inv (devices_form n d).
Proof. form. Qed.
Lemma traffic_form_inv u : modal_inv (traffic_form format_float u).
Proof. form. Qed.

Lemma updateUsers_ok k s : cursor_ok (us_Cursor s) (len (us_Users s)) ->
  let '(s', m, c) := update_users k s in
  cursor_ok (us_Cursor s') (len (us_Users s')) /\ dialog_inv m /\ harmless c.
Proof.
  intros Hc. unfold updateUsers.
  destruct (move k _ _) as [c'|] eqn:Em; [split_and!; [by eapply move_ok|done|apply harmless_nil]|].
  destruct (is_key k ["n"; "a"]); [split_and!; [done|apply create_form_inv|apply harmless_nil]|].
  destruct (selected s) as [ui|]; [|split_and!; [done|done|apply harmless_nil]].
  destruct (is_key k ["enter"; "i"]); [by split_and!; [..|apply harmless_nil]|].
  destruct (is_key k ["d"; "delete"]); [split_and!; [done|apply confirm_inv|apply harmless_nil]|].
  destruct (is_key k ["e"]); [split_and!; [done|apply renew_form_inv|apply harmless_nil]|].
  destruct (is_key k ["p"]); [split_and!; [done|apply password_form_inv|apply harmless_nil]|].
  destruct (is_key k ["c"]); [split_and!; [done|apply devices_form_inv|apply harmless_nil]|].
  destruct (is_key k ["t"]); [split_and!; [done|apply traffic_form_inv|apply harmless_nil]|].
  destruct (is_key k ["l"]).
  { destruct (Disabled _); (split_and!; [done|try apply confirm_inv; done|]);
      [by apply harmless_run|apply harmless_nil]. }
  destruct (is_key k ["x"]); (split_and!; [done|done|]); [by apply harmless_run|apply harmless_nil].
Qed.

Lemma updateOnline_ok k s : cursor_ok (on_Cursor s) (len (on_Sessions s)) ->
  exists s' m c, updateOnline k s = Some (s', m, c) /\
  cursor_ok (on_Cursor s') (len (on_Sessions s')) /\ dialog_inv m /\ harmless c.
Proof.
  intros Hc. unfold updateOnline.
  destruct (move k _ _) as [c'|] eqn:Em; [do 3 eexists; split_and!; [done|by eapply move_ok|done|apply harmless_nil]|].
  destruct (is_key k _); [|do 3 eexists; by split_and!; [..|apply harmless_nil]].
  destruct (on_Sessions s) as [|x l] eqn:El; [do 3 eexists; split_and!; [done|by rewrite El|done|apply harmless_nil]|].
  destruct (item_ok (x :: l) (on_Cursor s)) as [y Hy]; [done|done|]. rewrite Hy. cbn [mbind option_bind].
  do 3 eexists. split_and!; [done|by rewrite El|apply confirm_inv|apply harmless_nil].
Qed.

Lemma about_backup_ok s ask : cursor_ok (bs_Cursor s) (len (bs_Backups s)) -> (forall x, modal_inv (ask x)) ->
  exists s' m c, about_backup s ask = Some (s', m, c) /\
  cursor_ok (bs_Cursor s') (len (bs_Backups s')) /\ dialog_inv m /\ harmless c.
Proof.
  intros Hc Ha. unfold about_backup. destruct (bs_Backups s) as [|x l] eqn:El.
  - do 3 eexists. split_and!; [done|by rewrite El|done|apply harmless_nil].
  - destruct (item_ok (x :: l) (bs_Cursor s)) as [y Hy]; [done|done|]. rewrite Hy. cbn [mbind option_bind].
    do 3 eexists. split_and!; [done|by rewrite El|apply Ha|apply harmless_nil].
Qed.

Lemma updateBackup_ok k s : cursor_ok (bs_Cursor s) (len (bs_Backups s)) ->
  exists s' m c, updateBackup format_date k s = Some (s', m, c) /\
  cursor_ok (bs_Cursor s') (len (bs_Backups s')) /\ dialog_inv m /\ harmless c.
Proof.
  intros Hc. unfold updateBackup.
  destruct (move k _ _) as [c'|] eqn:Em; [do 3 eexists; split_and!; [done|by eapply move_ok|done|apply harmless_nil]|].
  destruct (is_key k ["c"]); [do 3 eexists; split_and!; [done|done|done|by apply harmless_run]|].
  destruct (is_key k ["enter"]); [apply about_backup_ok; [done|intros x; apply confirm_inv]|].
  destruct (is_key k ["d"; "delete"]); [apply about_backup_ok; [done|intros x; apply confirm_inv]|].
  do 3 eexists. by split_and!; [..|apply harmless_nil].
Qed.

(* ------------------------------------------------------------------ *)
(** * The program                                                        *)
(* ------------------------------------------------------------------ *)

Definition views_inv (v : views) : Prop :=
  cursor_ok (us_Cursor (v_us v)) (len (us_Users (v_us v))) /\
  cursor_ok (on_Cursor (v_online v)) (len (on_Sessions (v_online v))) /\
  cursor_ok (bs_Cursor (v_bk v)) (len (bs_Backups (v_bk v))).
Definition screen_inv (s : screen) : Prop :=
  0 <= sc_activeView s < menu_items /\ 0 <= sc_menuCursor s < menu_items.
Definition app_inv (a : App) : Prop :=
  screen_inv (a_screen a) /\ views_inv (a_views a) /\ dialog_inv (a_modal a).

Lemma NewApp_inv : app_inv NewApp.
Proof. repeat split; vm_compute; (discriminate || done). Qed.

Lemma applyData_inv d v : views_inv v -> views_inv (applyData d v).
Proof.
  intros (Hu & Ho & Hb). destruct d; cbn; (split_and!; [try exact Hu|try exact Ho|try exact Hb]); apply clamp_ok.
Qed.

(** What destroys has been confirmed, and what a command that quits comes from. *)
Definition asked (a : App) (m : msg) (c : list cmd) : Prop :=
  destroyed (runs c) = destroyed (confirmed_by a m) /\
  (cQuit ∈ c -> a_modal a = None /\ exists k, m = keyMsg k /\
     (k_text k = bs "ctrl+c" \/ (k_text k = bs "q" /\ sc_focusSidebar (a_screen a) = true))).

Lemma harmless_asked a m c : confirmed_by a m = [] -> harmless c -> asked a m c.
Proof. intros Hn [Hq Hd]. split; [by rewrite Hn|done]. Qed.

Lemma opened_inv a m : app_inv a -> dialog_inv m -> app_inv (opened m a).
Proof. intros (Hs & Hv & Hm) Hd. destruct m; [by split_and!|done]. Qed.

Lemma updateActiveView_ok k a : app_inv a ->
  exists a' c, updateActiveView cfg format_float card_of format_date k a = Some (a', c) /\ app_inv a' /\ harmless c.
Proof.
  intros Ha. pose proof Ha as (Hs & (Hu & Ho & Hb) & Hm). unfold updateActiveView.
  destruct (_ =? ViewUsers).
  { pose proof (updateUsers_ok k (v_us (a_views a)) Hu) as Hok. destruct (update_users _ _) as [[s m] c].
    destruct Hok as (Hc & Hd & Hh). do 2 eexists. split; [done|]. split; [|done].
    apply opened_inv; [by split_and!|done]. }
  destruct (_ =? ViewOnline).
  { destruct (updateOnline_ok k (v_online (a_views a)) Ho) as (s & m & c & -> & Hc & Hd & Hh).
    cbn [mbind option_bind]. do 2 eexists. split; [done|]. split; [|done].
    apply opened_inv; [by split_and!|done]. }
  destruct (_ =? ViewOptimizer).
  { unfold updateOptimizer. destruct (is_key k ["a"]); [|destruct (is_key k ["x"])]; do 2 eexists; (split; [done|]).
    - split; [done|]. by apply harmless_run.
    - split; [|apply harmless_nil]. apply opened_inv; [done|apply confirm_inv].
    - split; [done|apply harmless_nil]. }
  destruct (_ =? ViewBackup).
  { destruct (updateBackup_ok k (v_bk (a_views a)) Hb) as (s & m & c & -> & Hc & Hd & Hh).
    cbn [mbind option_bind]. do 2 eexists. split; [done|]. split; [|done].
    apply opened_inv; [by split_and!|done]. }
  do 2 eexists. split; [done|]. split; [done|apply harmless_nil].
Qed.

Lemma updateSidebar_ok k a : app_inv a ->
  let '(a', c) := updateSidebar k a in app_inv a' /\ harmless c.
Proof.
  intros Ha. pose proof Ha as ((Hv & Hc) & Hvs & Hm). unfold updateSidebar. cbv zeta. unfold menu_items in Hv, Hc |- *.
  assert (Hgo : forall v, 0 <= v < menu_items -> let '(a', c) := goto_view v a in app_inv a' /\ harmless c)
    by (intros v Hr; split; [by split_and!|apply harmless_load]).
  destruct (is_key k ["up"; "k"]); [|destruct (is_key k ["down"; "j"]);
    [|destruct (is_key k ["enter"; "right"; "l"]); [by apply Hgo|]]].
  - split; [|apply harmless_nil]. split_and!; [split; [done|]|done|done]. cbn. unfold menu_items.
    destruct (Z.ltb_spec 0 (sc_menuCursor (a_screen a))); lia.
  - split; [|apply harmless_nil]. split_and!; [split; [done|]|done|done]. cbn. unfold menu_items.
    match goal with |- context [?x <? ?y] => destruct (Z.ltb_spec x y) end; lia.
  - destruct (k_text k) as [|d [|d' t]]; try (split; [done|apply harmless_nil]).
    destruct (_ && _) eqn:E; [|split; [done|apply harmless_nil]]. apply Hgo. unfold menu_items. lia.
Qed.

Lemma is_key_one k t : is_key k [t] = true -> k_text k = bs t.
Proof. unfold is_key. cbn. rewrite orb_false_r. apply eqb_str_true. Qed.

Lemma updateKey_ok k a : app_inv a ->
  exists a' c, updateKey cfg format_float card_of format_date k a = Some (a', c) /\ app_inv a' /\ asked a (keyMsg k) c.
Proof.
  intros Ha. pose proof Ha as (Hs & Hv & Hm). unfold updateKey.
  assert (Hfocus : forall b, app_inv (set_focus b a)) by (intros b; exact (conj Hs (conj Hv Hm))).
  destruct (a_modal a) as [d|] eqn:Ed.
  { destruct (modal_update_ok d k Hm) as ([m' c] & -> & Hd & Hq & Hc). cbn in Hd, Hq, Hc |- *.
    do 2 eexists. split; [done|]. split; [by split_and!|]. split; [|done].
    unfold confirmed_by. rewrite Ed. exact Hc. }
  assert (Hh : forall c, harmless c -> asked a (keyMsg k) c)
    by (intros c; apply harmless_asked; unfold confirmed_by; by rewrite Ed).
  assert (Hnil : asked a (keyMsg k) []) by apply Hh, harmless_nil.
  assert (Hquit : (k_text k = bs "ctrl+c" \/ (k_text k = bs "q" /\ sc_focusSidebar (a_screen a) = true)) ->
    asked a (keyMsg k) [cQuit]).
  { intros Hk. split; [unfold confirmed_by; by rewrite Ed|]. intros _. split; [done|]. by exists k. }
  destruct (is_key k ["ctrl+c"]) eqn:E1.
  { do 2 eexists. split; [done|]. split; [done|]. apply Hquit. left. by apply is_key_one. }
  destruct (is_key k ["q"]) eqn:E2.
  { destruct (sc_focusSidebar (a_screen a)) eqn:Ef; do 2 eexists; (split; [done|]); [|by split].
    split; [done|]. apply Hquit. right. split; [by apply is_key_one|done]. }
  destruct (is_key k ["esc"]); [do 2 eexists; by split|].
  destruct (is_key k ["tab"]); [do 2 eexists; by split|].
  destruct (is_key k ["r"; "f5"]).
  { do 2 eexists. split; [done|]. split; [done|]. apply Hh, harmless_load. }
  destruct (sc_focusSidebar (a_screen a)).
  - pose proof (updateSidebar_ok k a Ha) as Hok. destruct (updateSidebar k a) as [a' c]. destruct Hok.
    do 2 eexists. split; [done|]. split; [done|]. by apply Hh.
  - destruct (updateActiveView_ok k a Ha) as (a' & c & -> & Ha' & Hc). do 2 eexists. split; [done|].
    split; [done|]. by apply Hh.
Qed.

Lemma harmless_tick (m : option modal) v :
  harmless ((match m with None => if live_view v then [cLoad v] else [] | Some _ => [] end) ++ [cTick]).
Proof. destruct m, (live_view v); (split; [|done]); cbn; rewrite ?elem_of_cons, elem_of_nil; naive_solver. Qed.

Lemma Update_ok now m a : app_inv a ->
  exists a' c, update now m a = Some (a', c) /\ app_inv a' /\ asked a m c.
Proof.
  intros Ha. pose proof Ha as (Hs & Hv & Hm).
  assert (Hh : forall c, (match m with keyMsg _ => False | _ => True end) -> harmless c -> asked a m c).
  { intros c Hk. apply harmless_asked. unfold confirmed_by. destruct (a_modal a); by destruct m. }
  destruct m as [w h| |d|d|k|]; cbn [Update].
  - do 2 eexists. split; [done|]. split; [by split_and!|]. apply Hh, harmless_nil. done.
  - do 2 eexists. split; [done|]. split.
    + destruct (match n_at _ with Some _ => _ | None => _ end); [by split_and!|done].
    + apply Hh, harmless_tick. done.
  - do 2 eexists. split; [done|]. split; [|apply Hh, harmless_nil; done].
    split_and!; [done|by apply applyData_inv|done].
  - do 2 eexists. split; [done|]. split.
    + destruct (od_err d), (od_text d), (od_card d); by split_and!.
    + apply Hh; [done|]. destruct (od_reload d); [apply harmless_load|apply harmless_nil].
  - by apply updateKey_ok.
  - do 2 eexists. split; [done|]. split; [done|]. apply Hh, harmless_nil. done.
Qed.

(** The state after some messages, each with the time it is handled at. *)
Fixpoint run (ms : list (Z * msg)) (a : App) : option App :=
  match ms with
  | [] => Some a
  | (now, m) :: ms => r ← update now m a; run ms r.1
  end.

End app.

(** Deleting the chosen account: jump to the accounts, press d, confirm with y. *)
Definition press (t : string) : Z * msg := (0, keyMsg (mkKey (bs t) (Some (bs t)))).
Definition one_user : list UserInfo :=
  [Users.mkInfo (mkUser (bs "alice") 2 0 0 false [] [] 0 0 0) 0 false StatusActive 3 []].
Example delete_alice :
  let up := @Update ascii_tables Defaults (fun _ => []) (fun _ => []) (fun _ => []) in
  (a ← @run ascii_tables Defaults (fun _ => []) (fun _ => []) (fun _ => [])
         [press "2"; (0, viewDataMsg (dUsers one_user None)); press "d"] NewApp;
   r ← up 0 (press "Y").2 a; Some r.2) = Some [cRun (actUser (uDelete (bs "alice")))].
Proof. vm_compute. reflexivity. Qed.

(** A quota that is no number makes an account without a quota: the parser's error is
    dropped, and its zero is taken for the explicit one. *)
Lemma bad_quota_unlimited (parse_float : gostring -> float * bool) (s : gostring) :
  parse_float s = (mkFloat 0 0, false) -> create_gb parse_float s = mkFloat (-1) 0.
Proof. intros E. unfold create_gb. by rewrite E. Qed.
