(* ===== verification/Terminal.v ===== *)
(** The terminal interface on the machine ([src/tui/views/app.go]: [tick], [load], and the
    background functions of the views; [src/tui/app.go]): Bubble Tea runs the commands the
    program gives in the background, in any order, and brings their messages back to
    [Update] one at a time. The log holds the commands that may change something; what
    [uname], [df] and [curl] print for the display are answers of the environment here. *)
From S2P Require Import Prelude GoStrings Files Procfs Session UdpgwServer Gateway Daemon.
From S2P Require Import Config Security Store Users Netopt Firewall Sshd Host Badvpn DaemonRun.
From S2P Require Import Backup Doctor GoFloat SysInfo Card Commands Tui.

(** How a terminal ended: it was left, a background function panicked, or [Update] did. *)
Inductive ending : Type := endQuit | endCommandPanic | endUpdatePanic.

Section terminal.
Context `{Sys : System, Cal : Calendar, Uni : Unicode, CU : !Codec UserRecord, Blt : Bolt}.
Context `{Dsk : Disk, Nft : Netfilter, Knl : Kernel, CS : !Codec (gmap gostring gostring), CSt : !Codec State}.
Context `{Arc : Archive, CB : !Codec BackupRecord, CC : !Codec BackupContents}.
Variable o : outside.
Variable version : gostring.
Variable cfg : Config.
(** [strconv.FormatFloat], and [strconv.ParseFloat] with whether there is no error. *)
Variable format_float : float -> gostring.
Variable parse_float : gostring -> float * bool.
(** What [uname -r] and [df -B1 /] print, and texts of errors. *)
Variables uname df : world -> option gostring.
Variable berr_text : berr -> gostring.
Variable kill_text : gostring.

(* ------------------------------------------------------------------ *)
(** * The background functions                                           *)
(* ------------------------------------------------------------------ *)

(** The time until the next tick, in nanoseconds. *)
Definition tick_interval : Z :=
  let d := i64 (monitor_RefreshIntervalSecs (Monitor cfg) * Gateway.Second) in
  if d <? Gateway.Second then 2 * Gateway.Second else d.

Definition kernel_values {A} (f : gmap gostring gostring -> A) : H A := fun s => (s, f (h_sys s)).
Definition system_info : H Info := sees (fun w =>
  GetInfo (fun s => let '(x, ok) := parse_float s in if (ok : bool) then Some x else None)
    (fun p => read_file p w) (o_hostname o) (uname w) (df w) (o_public_ip o w)).

Definition load_dashboard : H data :=
  info ← system_info;
  st ← disk_op read_state;
  bbr ← kernel_values BBRActive;
  cc ← kernel_values (read_sys cc_key);
  fw ← asked_if (firewall_Enabled (Config.Firewall cfg)) (active_firewall o);
  tcp ← sees (fun w => ReadTCP little_endian (proc_env w));
  users ← listed;
  now ← sees (o_now o);
  mret (dDash (loadDashboard cfg info st now bbr (default [] cc) fw tcp users)).
Definition load_users : H data :=
  now ← sees (o_now o);
  r ← users_op (Users.List (NewManager cfg) now);
  mret (match r with Ok us => dUsers us None | Err e => dUsers [] (Some e) end).
Definition load_online : H data :=
  st ← disk_op read_state;
  now ← sees (o_now o);
  scan ← sees (fun w => default [] (Scan little_endian (mgr_Scanner (NewManager cfg)) (proc_env w)));
  mret (dOnline (loadOnline st now scan)).
Definition load_network : H data :=
  st ← disk_op read_state;
  now ← sees (o_now o);
  status ← (if eqb_str (udpgw_Mode (UDPGW cfg)) (bs "badvpn") then GetStatus cfg
            else mret (Badvpn.mkStatus false false false 0 []));
  mret (dNet (loadNetwork cfg st now status)).
Definition load_optimizer : H data :=
  meminfo ← disk_op (ReadFile (bs "/proc/meminfo"));
  ps ← kernel_values (Netopt.Status cfg meminfo);
  mret (dOpt (mkOpt ps [])).
Definition load_doctor : H data :=
  e ← evidence_of o cfg;
  mret (dDoc (mkDoc (diagnosis o cfg e) true)).

(** A backup operation on the machine. *)
Definition backup_op {A} (c : B A) : H (result berr A) := fun s =>
  let '(e, r) := c (mkEngine (h_mgr s) (h_fs s)) in (mkHost (en_mgr e) (en_fs e) (h_sys s) (h_nf s), r).
Definition load_backups : H data :=
  r ← backup_op ListBackups;
  mret (dBk (mkBk (match r with Ok l => l | Err _ => [] end) 0 [])).

(** [load]: the settings have nothing to load. *)
Definition load_view (view : Z) : H (option msg) :=
  let arrives (c : H data) : H (option msg) := d ← c; mret (Some (viewDataMsg d)) in
  if view =? ViewDashboard then arrives load_dashboard
  else if view =? ViewUsers then arrives load_users
  else if view =? ViewOnline then arrives load_online
  else if view =? ViewNetwork then arrives load_network
  else if view =? ViewOptimizer then arrives load_optimizer
  else if view =? ViewDoctor then arrives load_doctor
  else if view =? ViewBackup then arrives load_backups
  else mret None.

(** [op]: a result and its text, with the view loaded again. *)
Definition finished {E A} (text : A -> gostring) (err : E -> gostring) (r : result E A) : opDone :=
  match r with Ok a => mkDone (text a) None true [] | Err e => mkDone [] (Some (err e)) true [] end.
(** The functions that do not go through [op] load the view again only after a success. *)
Definition reloads (u : user_op) : bool :=
  match u with uCreate _ _ _ _ _ _ | uPassword _ _ => false | _ => true end.

(** What an action does and reports; [None] is a panic. *)
Definition perform (a : action) : H (option opDone) :=
  match a with
  | actUser u =>
      now ← sees (o_now o);
      ip ← sees (o_public_ip o);
      let card u pw := Render cfg u pw (Card.Host cfg None ip).2 now in
      r ← users_op (user_action cfg now (o_rand o) card parse_float u);
      mret (match r with
            | Ok (Some (text, c)) => Some (mkDone text None true c)
            | Ok None => None
            | Err e => Some (mkDone [] (Some (o_merr o e)) (reloads u) [])
            end)
  | actKickSession x =>
      r ← users_op (killPID (ss_PID (ls_Session x)));
      let killed := match r with Ok b => b | Err _ => false end in
      mret (Some (mkDone (bs "disconnected " ++ ss_Username (ls_Session x))
                    (if killed then None else Some kill_text) true []))
  | actOptimize =>
      root ← is_root;
      r ← net_op (Netopt.Apply cfg (o_net_err o) root);
      mret (Some (optimized r (o_net_text o)))
  | actResetNet =>
      root ← is_root;
      ok ← net_op (Reset cfg (o_walk o) root);
      mret (Some (mkDone (bs "restored original settings") (if (ok : bool) then None else Some (o_net_text o)) true []))
  | actBackup =>
      now ← sees (o_now o);
      r ← backup_op (Backup.Create cfg (o_hostname o) version now (o_format o (bs "20060102-150405")) (o_walk o));
      mret (Some (finished (fun p => bs "backup written: " ++ p) berr_text r))
  | actRestore b =>
      r ← backup_op (Restore cfg (bk_FilePath b));
      mret (Some (restored (match r with Ok r => inl r | Err e => inr (berr_text e) end)))
  | actDeleteBackup b =>
      r ← backup_op (DeleteBackup (bk_ID b));
      mret (Some (finished (fun _ => bs "backup deleted") berr_text r))
  end.

(* ------------------------------------------------------------------ *)
(** * Bubble Tea                                                         *)
(* ------------------------------------------------------------------ *)

(** [t_pending] are the commands that have been given and have not run, [t_inbox] the
    messages that have not been handled, [t_done] the actions that have run. [t_asked],
    which the program does not have, are the actions of the dialogs that were answered
    with yes. *)
Record terminal : Type := mkTerminal {
  t_app : App;
  t_pending : list cmd;
  t_inbox : list msg;
  t_host : host;
  t_done : list action;
  t_asked : list action;
  t_ended : option ending
}.
Definition start (h : host) : terminal := mkTerminal NewApp Init [] h [] [] None.

Definition card_of (h : host) (u : UserRecord) : gostring :=
  let w := m_world (h_mgr h) in Render cfg u [] (Card.Host cfg None (o_public_ip o w)).2 (o_now o w).

(** A message is handled. *)
Definition deliver (m : msg) (t : terminal) : terminal :=
  let a := t_app t in
  match Update cfg format_float (card_of (t_host t)) (o_format o (bs "2006-01-02 15:04"))
          (o_now o (m_world (h_mgr (t_host t)))) m a with
  | Some (a', c) =>
      mkTerminal a' (t_pending t ++ c) (t_inbox t) (t_host t) (t_done t) (t_asked t ++ confirmed_by a m) None
  | None => mkTerminal a (t_pending t) (t_inbox t) (t_host t) (t_done t) (t_asked t) (Some endUpdatePanic)
  end.

(** A command runs. *)
Definition execute (c : cmd) (t : terminal) : terminal :=
  let sent h m done := mkTerminal (t_app t) (t_pending t) (t_inbox t ++ option_list m) h (t_done t ++ done) (t_asked t) None in
  let over h done e := mkTerminal (t_app t) (t_pending t) (t_inbox t) h (t_done t ++ done) (t_asked t) (Some e) in
  match c with
  | cQuit => over (t_host t) [] endQuit
  | cTitle => sent (t_host t) None []
  | cTick => sent (t_host t) (Some tickMsg) []
  | cLoad view => let '(h, m) := load_view view (t_host t) in sent h m []
  | cRun a => match perform a (t_host t) with
              | (h, Some d) => sent h (Some (opDoneMsg d)) [a]
              | (h, None) => over h [a] endCommandPanic
              end
  end.

Definition is_input (m : msg) : bool :=
  match m with windowSize _ _ | keyMsg _ | otherMsg => true | _ => false end.
Definition take_nth {A} (i : nat) (l : list A) : list A := take i l ++ drop (S i) l.

Inductive t_step : terminal -> terminal -> Prop :=
| t_input t m : t_ended t = None -> is_input m = true -> t_step t (deliver m t)
| t_message t i m : t_ended t = None -> t_inbox t !! i = Some m ->
    t_step t (deliver m (mkTerminal (t_app t) (t_pending t) (take_nth i (t_inbox t)) (t_host t) (t_done t) (t_asked t) None))
| t_command t i c : t_ended t = None -> t_pending t !! i = Some c ->
    t_step t (execute c (mkTerminal (t_app t) (take_nth i (t_pending t)) (t_inbox t) (t_host t) (t_done t) (t_asked t) None)).
End terminal.
