(* ===== verification/Layout.v ===== *)
(** The text helpers of the terminal interface ([src/tui/views/app.go], [trunc] of
    [dashboard.go]): padding and cutting of cells, table rows, cards and bars. [None] is a
    panic of the code: a negative count or slice bound. *)
From S2P Require Import Prelude GoStrings Runes Theme Config GoFloat.

(** [strings.Repeat] panics for a negative count. *)
Definition repeat_str (s : gostring) (n : Z) : option gostring :=
  if n <? 0 then None else Some (mjoin (replicate (Z.to_nat n) s)).
(** [r[:n]] *)
Definition runes_to (n : Z) (r : list Z) : option (list Z) :=
  if (n <? 0) || (len r <? n) then None else Some (slice_to n r).

Definition ansi_letter (r : Z) : bool :=
  ((97 <=? r) && (r <=? 122)) || ((65 <=? r) && (r <=? 90)).
Fixpoint strip_go (inside : bool) (rs : list Z) : list Z :=
  match rs with
  | [] => []
  | r :: rs =>
      if r =? 0x1b then strip_go true rs
      else if inside && ansi_letter r then strip_go false rs
      else if negb inside then r :: strip_go inside rs
      else strip_go inside rs
  end.
Definition stripANSI (s : gostring) : gostring := of_runes (strip_go false (runes s)).

Definition ellipsis : gostring := bs "…".
Definition trunc (s : gostring) (n : Z) : option gostring :=
  let r := runes s in
  if (n <? 4) || (len r <=? n) then Some s
  else r ← runes_to (n - 1) r; Some (of_runes r ++ ellipsis).

(** [cardWidth] and [twoColumns] *)
Definition cardWidth (w : Z) : Z :=
  let cw := Z.quot (w - 2) 2 - 2 in if cw <? 36 then 36 else cw.
Definition twoColumns (w : Z) : bool := 2 * (36 + 2) + 2 <=? w.

(** [f >= n], [f > n] and [f < n] of a [float64] and an integer. *)
Definition fge (f : float) (n : Z) : bool := n * fden f <=? fnum f.
Definition fgt (f : float) (n : Z) : bool := n * fden f <? fnum f.
Definition flt (f : float) (n : Z) : bool := fnum f <? n * fden f.

Section layout.
Context `{Lip : Lipgloss}.

Definition pad (s : gostring) (w : Z) : option gostring :=
  let sw := width s in
  if w <? sw then
    let r := runes (stripANSI s) in
    if w <? len r then
      if 1 <? w then r ← runes_to (w - 1) r; Some (of_runes r ++ ellipsis)
      else r ← runes_to w r; Some (of_runes r)
    else Some (of_runes r)
  else blanks ← repeat_str (bs " ") (w - sw); Some (s ++ blanks).

(** The cells of a row, the first ones padded to the widths. *)
Fixpoint cells (widths : list Z) (cs : list gostring) : option gostring :=
  match cs with
  | [] => Some []
  | c :: cs =>
      match widths with
      | [] => rest ← cells [] cs; Some (c ++ rest)
      | w :: widths => p ← pad c w; rest ← cells widths cs; Some (p ++ bs " " ++ rest)
      end
  end.
Definition row (widths : list Z) (cs : list gostring) : option gostring :=
  r ← cells widths cs; Some (bs "  " ++ r).
Definition header (widths : list Z) (cs : list gostring) : option gostring :=
  let st := [Bold; Foreground ColorPrimary] in
  r ← row widths (render st <$> cs);
  line ← repeat_str (bs "─") (foldl (fun total w => total + (w + 1)) 0 widths);
  Some (r ++ [x0a] ++ render StyleDim (bs "  " ++ line) ++ [x0a]).

Definition title (s : gostring) : gostring := render StyleTitle (bs " " ++ s ++ bs " ") ++ [x0a; x0a].
Definition keyHelp (s : gostring) : gostring := [x0a] ++ render StyleKeyHelp (bs "  " ++ s).

Definition card_line (r : gostring * gostring) : gostring :=
  render StyleLabel r.1 ++ bs " " ++ render StyleValue r.2 ++ [x0a].
Definition renderCard (cardTitle : gostring) (rows : list (gostring * gostring)) (w : Z) : gostring :=
  render (StylePanel ++ [Width w])
    (trim_right_set [x0a] (render StyleSubtitle cardTitle ++ [x0a] ++ mjoin (card_line <$> rows))).

Definition clamp_percent (p : float) : float :=
  let p := if fgt p 100 then of_int 100 else p in
  if flt p 0 then of_int 0 else p.
Definition bar_filled (p : float) (w : Z) : Z := ftrunc (fmul (fdiv p (of_int 100)) (of_int w)).
Definition renderProgressBar (percent : float) (w : Z) : option gostring :=
  let p := clamp_percent percent in
  let filled := bar_filled p w in
  let col := if fge p 90 then ColorDanger else if fge p 70 then ColorWarning else ColorSuccess in
  full ← repeat_str (bs "█") filled;
  rest ← repeat_str (bs "░") (w - filled);
  Some (render [Foreground col] full ++ render [Foreground ColorFgMuted] rest).

Definition ok (b : bool) (yes no : gostring) : gostring :=
  if b then render StyleSuccess (CheckMark ++ bs " " ++ yes)
  else render StyleDanger (CrossMark ++ bs " " ++ no).
End layout.
