(* ===== verification/LayoutProps.v ===== *)
(** The helpers of [Layout]: they never panic, what is cut fits, and the cells of a table
    stay in their columns when every character takes one cell of the screen. *)
From S2P Require Import Prelude GoStrings Runes Theme Config GoFloat Layout.

(* ------------------------------------------------------------------ *)
(** * Counts and slices                                                  *)
(* ------------------------------------------------------------------ *)

Lemma repeat_str_some s n : 0 <= n -> repeat_str s n = Some (mjoin (replicate (Z.to_nat n) s)).
Proof. intros Hn. unfold repeat_str. destruct (Z.ltb_spec n 0); [lia|done]. Qed.
Lemma runes_to_some n r : 0 <= n <= len r -> runes_to n r = Some (slice_to n r).
Proof. intros Hn. unfold runes_to. destruct (Z.ltb_spec n 0), (Z.ltb_spec (len r) n); (lia || done). Qed.

Definition one_rune (s : gostring) (r : Z) : Prop := s = encode_rune r.
Lemma repeat_runes s r n : one_rune s r -> mjoin (replicate n s) = of_runes (replicate n r).
Proof. intros ->. induction n as [|n IH]; [done|]. exact (f_equal (app (encode_rune r)) IH). Qed.

Lemma slice_to_Forall {A} (P : A -> Prop) n l : Forall P l -> Forall P (slice_to n l).
Proof. apply Forall_take. Qed.

(** A text that is cut keeps a prefix and fits; one that fits is left as it is. *)
Lemma trunc_fits s n : exists t, trunc s n = Some t /\
  (4 <= n -> len (runes t) <= n) /\ (len (runes s) <= n -> t = s) /\
  (t <> s -> exists r, t = of_runes (slice_to (n - 1) (runes s)) ++ r).
Proof.
  unfold trunc. destruct (Z.ltb_spec n 4); [exists s; split_and!; (done || lia)|].
  destruct (Z.leb_spec (len (runes s)) n); [exists s; by split_and!|]. cbn [orb]. rewrite runes_to_some by lia. cbn [mbind option_bind]. eexists. split; [done|]. split_and!; [|lia|eauto].
  intros _. rewrite runes_of_runes. unfold ellipsis. change (runes (bs "…")) with [0x2026].
  rewrite len_app. unfold len at 1. rewrite length_fmap. fold (len (slice_to (n - 1) (runes s))).
  rewrite len_slice_to by lia. rewrite len_cons, len_nil. lia.
Qed.

(* ------------------------------------------------------------------ *)
(** * The bar                                                            *)
(* ------------------------------------------------------------------ *)

Lemma of_int_value n : 0 <= n < 2 ^ 53 -> fnum (of_int n) = n * fden (of_int n).
Proof. apply of_int_exact. Qed.

Lemma clamp_percent_range p :
  0 <= fnum (clamp_percent p) <= 100 * fden (clamp_percent p).
Proof.
  unfold clamp_percent, fgt, flt. pose proof (fden_pos p).
  destruct (Z.ltb_spec (100 * fden p) (fnum p)).
  - pose proof (of_int_value 100 ltac:(lia)). pose proof (fden_pos (of_int 100)).
    destruct (Z.ltb_spec (fnum (of_int 100)) (0 * fden (of_int 100))); [cbn; lia|lia].
  - destruct (Z.ltb_spec (fnum p) (0 * fden p)); [cbn; lia|lia].
Qed.

Lemma bar_filled_range p w : 0 <= w < 2 ^ 53 -> 0 <= bar_filled (clamp_percent p) w <= w.
Proof.
  intros Hw. unfold bar_filled. set (q := clamp_percent p). pose proof (clamp_percent_range p) as Hq. fold q in Hq.
  pose proof (fden_pos q). pose proof (fden_pos (of_int 100)) as Hh.
  assert (Hd : 0 <= fnum (fdiv q (of_int 100)) <= 1 * fden (fdiv q (of_int 100))).
  { unfold fdiv. rewrite of_int_value by lia. apply fround_range; [apply Z.mul_nonneg_nonneg; lia|nia| |lia].
    transitivity (100 * fden q * fden (of_int 100)); [apply Z.mul_le_mono_nonneg_r; lia|lia]. }
  set (x := fdiv q (of_int 100)) in *. pose proof (fden_pos x). pose proof (fden_pos (of_int w)).
  assert (Hm : 0 <= fnum (fmul x (of_int w)) <= w * fden (fmul x (of_int w))).
  { unfold fmul. rewrite (of_int_value w) by lia. apply fround_range; [|nia| |lia].
    - repeat apply Z.mul_nonneg_nonneg; lia.
    - transitivity (fden x * (w * fden (of_int w))); [apply Z.mul_le_mono_nonneg_r; [nia|lia]|lia]. }
  unfold ftrunc. pose proof (fden_pos (fmul x (of_int w))). rewrite Z.quot_div_nonneg by lia.
  split; [apply Z.div_pos; lia|]. apply Z.div_le_upper_bound; lia.
Qed.

Section layout.
Context `{Lip : Lipgloss}.

(** The bar has exactly its width, whatever the percentage is. *)
Lemma renderProgressBar_some p w : 0 <= w < 2 ^ 53 -> exists col n,
  0 <= n <= w /\
  renderProgressBar p w = Some (render [Foreground col] (of_runes (replicate (Z.to_nat n) 0x2588)) ++
    render [Foreground ColorFgMuted] (of_runes (replicate (Z.to_nat (w - n)) 0x2591))).
Proof.
  intros Hw. pose proof (bar_filled_range p w Hw). unfold renderProgressBar. cbv zeta.
  rewrite !repeat_str_some by lia. cbn [mbind option_bind].
  rewrite (repeat_runes (bs "█") 0x2588), (repeat_runes (bs "░") 0x2591) by reflexivity.
  do 2 eexists. split; [done|]. reflexivity.
Qed.
Lemma bar_total p w : 0 <= w < 2 ^ 53 -> is_Some (renderProgressBar p w).
Proof. intros Hw. destruct (renderProgressBar_some p w Hw) as (? & ? & _ & ->). done. Qed.

(* ------------------------------------------------------------------ *)
(** * Padding never panics                                               *)
(* ------------------------------------------------------------------ *)

Lemma pad_total s w : 0 <= w -> is_Some (pad s w).
Proof.
  intros Hw. unfold pad. destruct (Z.ltb_spec w (width s)).
  - destruct (Z.ltb_spec w (len (runes (stripANSI s)))); [|done].
    destruct (Z.ltb_spec 1 w); by rewrite runes_to_some by lia.
  - by rewrite repeat_str_some by lia.
Qed.
Lemma cells_total ws cs : Forall (fun w => 0 <= w) ws -> is_Some (cells ws cs).
Proof.
  revert ws. induction cs as [|c cs IH]; intros ws Hw; [done|]. cbn [cells].
  destruct ws as [|w ws].
  - destruct (IH [] Hw) as [t ->]. done.
  - apply Forall_cons in Hw as [Hw Hws]. destruct (pad_total c w Hw) as [t ->]. destruct (IH ws Hws) as [t' ->]. done.
Qed.
Lemma row_total ws cs : Forall (fun w => 0 <= w) ws -> is_Some (row ws cs).
Proof. intros Hw. unfold row. destruct (cells_total ws cs Hw) as [t ->]. done. Qed.

(** The width of a padded row with all its columns. *)
Definition table_width (ws : list Z) : Z := foldl (fun total w => total + (w + 1)) 0 ws.
Lemma table_width_from a ws : foldl (fun total w => total + (w + 1)) a ws = a + table_width ws.
Proof.
  unfold table_width. revert a. induction ws as [|w ws IH]; intros a; cbn [foldl]; [lia|].
  rewrite IH, (IH (0 + _)). lia.
Qed.
Lemma table_width_cons w ws : table_width (w :: ws) = w + 1 + table_width ws.
Proof. unfold table_width at 1. cbn [foldl]. rewrite table_width_from. lia. Qed.
Lemma table_width_nonneg ws : Forall (fun w => 0 <= w) ws -> 0 <= table_width ws.
Proof. induction 1 as [|w ws Hw _ IH]; [done|]. rewrite table_width_cons. lia. Qed.

Lemma header_total ws cs : Forall (fun w => 0 <= w) ws -> is_Some (header ws cs).
Proof.
  intros Hw. unfold header. cbv zeta. destruct (row_total ws (render [Bold; Foreground ColorPrimary] <$> cs) Hw) as [t ->].
  cbn [mbind option_bind]. rewrite table_width_from.
  rewrite repeat_str_some; [done|]. pose proof (table_width_nonneg ws Hw). lia.
Qed.
End layout.

(* ------------------------------------------------------------------ *)
(** * Columns                                                            *)
(* ------------------------------------------------------------------ *)

(** Escape sequences that change the look of the characters: ESC, bytes that are no
    letters, and the letter m. *)
Inductive sgr : gostring -> Prop :=
| sgr_nil : sgr []
| sgr_one ds s : is_ascii ds = true -> Forall (fun b => ansi_letter (b2z b) = false /\ b <> x1b) ds ->
    sgr s -> sgr (x1b :: ds ++ x6d :: s).

Lemma strip_runes_ascii inside ds rs : is_ascii ds = true ->
  strip_go inside (runes (ds ++ rs)) = strip_go inside ((b2z <$> ds) ++ runes rs).
Proof.
  intros Hd. f_equal. unfold is_ascii in Hd. induction ds as [|b ds IH]; [done|]. cbn [forallb] in Hd.
  apply andb_true_iff in Hd as [Hb Hd]. cbn [app runes]. rewrite Hb. cbn [fmap list_fmap app]. by rewrite IH.
Qed.
Lemma strip_inside ds rs : Forall (fun b => ansi_letter (b2z b) = false /\ b <> x1b) ds ->
  strip_go true ((b2z <$> ds) ++ rs) = strip_go true rs.
Proof.
  induction 1 as [|b ds [Hb Hesc] _ IH]; [done|]. cbn [fmap list_fmap app strip_go].
  destruct (Z.eqb_spec (b2z b) 0x1b) as [E|]; [destruct Hesc; by apply b2z_inj|]. by rewrite Hb.
Qed.
Lemma strip_sgr s rs : sgr s -> strip_go false (runes (s ++ rs)) = strip_go false (runes rs).
Proof.
  induction 1 as [|ds s Ha Hd _ IH]; [done|].
  transitivity (strip_go true (runes (ds ++ x6d :: s ++ rs))).
  { cbn [app]. rewrite <- app_assoc. reflexivity. }
  rewrite strip_runes_ascii by done. rewrite strip_inside by done. exact IH.
Qed.

(** Characters of one cell, and the texts that occupy [n] cells: such characters, in
    colours. *)
Section shows.
Context `{Lip : Lipgloss}.
Variable narrow : Z -> bool.
Inductive shows : gostring -> Z -> Prop :=
| shows_text rs : Forall (fun r => narrow r = true) rs -> shows (of_runes rs) (len rs)
| shows_style st s n : colours st = true -> shows s n -> shows (render st s) n
| shows_app a b n m : shows a n -> shows b m -> shows (a ++ b) (n + m).

(** Stripping, from two of the laws below. *)
Section strip.
Hypothesis narrow_rune : forall r, narrow r = true -> valid_rune r = true /\ r <> 0x1b.
Hypothesis render_colours : forall st s n, colours st = true -> shows s n ->
  exists a b, render st s = a ++ s ++ b /\ sgr a /\ sgr b.

Lemma valid_narrow rs : Forall (fun r => narrow r = true) rs ->
  ((fun r => if valid_rune r then r else RuneError) <$> rs) = rs.
Proof.
  induction 1 as [|r rs Hr _ IH]; [done|]. cbn [fmap list_fmap]. rewrite IH.
  destruct (narrow_rune r Hr) as [-> _]. done.
Qed.
Lemma strip_narrow rs tl : Forall (fun r => narrow r = true) rs ->
  strip_go false (rs ++ tl) = rs ++ strip_go false tl.
Proof.
  induction 1 as [|r rs Hr _ IH]; [done|]. cbn [app strip_go].
  destruct (narrow_rune r Hr) as [_ Hesc]. destruct (Z.eqb_spec r 0x1b); [done|]. cbn. by rewrite IH.
Qed.

(** Stripping leaves the characters. *)
Lemma strip_shown s n : shows s n -> exists rs, Forall (fun r => narrow r = true) rs /\ len rs = n /\
  forall tl, strip_go false (runes (s ++ tl)) = rs ++ strip_go false (runes tl).
Proof.
  induction 1 as [rs Hrs|st s n Hst Hs (rs & Hrs & Hn & IH)|a b n m Ha (ra & Hra & Hna & IHa) Hb (rb & Hrb & Hnb & IHb)].
  - exists rs. split_and!; [done|done|]. intros tl. rewrite runes_of_runes, valid_narrow by done. by apply strip_narrow.
  - exists rs. split_and!; [done|done|]. intros tl. destruct (render_colours st s n Hst Hs) as (a & b & -> & Ha & Hb).
    rewrite <- !app_assoc, strip_sgr, IH, strip_sgr by done. done.
  - exists (ra ++ rb). split_and!; [by apply Forall_app|rewrite len_app; lia|].
    intros tl. by rewrite <- app_assoc, IHa, IHb, app_assoc.
Qed.
End strip.
End shows.

(** What lipgloss documents: a style of colours puts escape sequences around a text, and
    the width of a text counts its cells, not the sequences. *)
Class LipglossLaws `{Lip : Lipgloss} : Type := {
  narrow : Z -> bool;
  narrow_rune : forall r, narrow r = true -> valid_rune r = true /\ r <> 0x1b;
  narrow_ascii : forall r, 32 <= r < 127 -> narrow r = true;
  narrow_drawn : narrow 0x2026 = true /\ narrow 0x2500 = true /\ narrow 0x2588 = true /\ narrow 0x2591 = true;
  render_colours : forall st s n, colours st = true -> shows narrow s n ->
    exists a b, render st s = a ++ s ++ b /\ sgr a /\ sgr b;
  width_shows : forall s n, shows narrow s n -> width s = n
}.

Section align.
Context `{Laws : LipglossLaws}.
Abbreviation shown := (shows narrow).

Lemma stripANSI_shown s n : shown s n -> exists rs, Forall (fun r => narrow r = true) rs /\ len rs = n /\
  stripANSI s = of_runes rs /\ runes (stripANSI s) = rs.
Proof.
  intros Hs. destruct (strip_shown narrow narrow_rune render_colours s n Hs) as (rs & Hrs & Hn & Hstrip). exists rs. specialize (Hstrip []).
  rewrite !app_nil_r in Hstrip. cbn [runes strip_go] in Hstrip. rewrite ?app_nil_r in Hstrip.
  unfold stripANSI. rewrite Hstrip. split_and!; [done..|].
  rewrite <- (app_nil_r (of_runes rs)), runes_of_runes, (valid_narrow narrow narrow_rune), app_nil_r; done.
Qed.

Lemma shown_len rs : Forall (fun r => narrow r = true) rs -> shown (of_runes rs) (len rs).
Proof. apply shows_text. Qed.
Lemma shown_repeat r n : narrow r = true -> 0 <= n -> shown (of_runes (replicate (Z.to_nat n) r)) n.
Proof.
  intros Hr Hn. replace n with (len (replicate (Z.to_nat n) r)) at 2
    by (unfold len; rewrite length_replicate; lia).
  apply shows_text. by apply Forall_replicate.
Qed.
Lemma shown_ascii s : Forall (fun b => 32 <= b2z b < 127) s -> shown s (len s).
Proof.
  intros Hs. assert (Ha : is_ascii s = true).
  { unfold is_ascii. induction Hs as [|b s Hb _ IH]; [done|]. cbn [forallb]. rewrite IH. lia. }
  rewrite <- (of_runes_ascii s Ha) at 1. replace (len s) with (len (b2z <$> s)) by (unfold len; by rewrite length_fmap).
  apply shows_text. apply Forall_fmap. eapply Forall_impl; [exact Hs|]. intros b. apply narrow_ascii.
Qed.

(** A padded cell has the width of its column. *)
Lemma pad_shown s n w : shown s n -> 0 <= w -> exists t, pad s w = Some t /\ shown t w.
Proof.
  intros Hs Hw. pose proof (width_shows s n Hs) as Hwidth. unfold pad. rewrite Hwidth.
  destruct (Z.ltb_spec w n).
  - destruct (stripANSI_shown s n Hs) as (rs & Hrs & Hn & _ & Er). rewrite Er, Hn.
    replace (w <? n) with true by (symmetry; by apply Z.ltb_lt).
    assert (Hcut : forall k, 0 <= k <= n -> shown (of_runes (slice_to k rs)) k).
    { intros k Hk. rewrite <- (len_slice_to k rs) at 2 by lia. apply shows_text. by apply slice_to_Forall. }
    destruct (Z.ltb_spec 1 w); rewrite runes_to_some by lia; cbn [mbind option_bind]; eexists; (split; [done|]).
    + replace w with (w - 1 + 1) by lia. replace (w - 1 + 1 - 1) with (w - 1) by lia. apply shows_app; [apply Hcut; lia|].
      apply (shows_text narrow [0x2026]). repeat constructor. apply narrow_drawn.
    + apply Hcut; lia.
  - rewrite repeat_str_some by lia. cbn [mbind option_bind]. eexists. split; [done|].
    rewrite (repeat_runes (bs " ") 32) by reflexivity.
    replace w with (n + (w - n)) by lia. replace (n + (w - n) - n) with (w - n) by lia.
    apply shows_app; [done|]. apply shown_repeat; [by apply narrow_ascii|lia].
Qed.

Lemma blank_shown n : shown (replicate n x20) (Z.of_nat n).
Proof.
  replace (Z.of_nat n) with (len (replicate n x20)) by (unfold len; by rewrite length_replicate).
  apply shown_ascii. by apply Forall_replicate.
Qed.

Lemma cells_shown ws cs : Forall (fun w => 0 <= w) ws -> length cs = length ws ->
  Forall (fun c => exists n, shown c n) cs -> exists t, cells ws cs = Some t /\ shown t (table_width ws).
Proof.
  intros Hw Hl Hc. revert ws Hw Hl. induction Hc as [|c cs [n Hn] _ IH]; intros [|w ws] Hw Hl; try done.
  - exists []. split; [done|]. apply (shows_text narrow []). constructor.
  - apply Forall_cons in Hw as [Hw Hws]. destruct (pad_shown c n w Hn Hw) as (t & Ht & Hst).
    destruct (IH ws Hws) as (t' & Ht' & Hst'); [by injection Hl|].
    cbn [cells]. rewrite Ht, Ht'. cbn [mbind option_bind]. eexists. split; [done|].
    rewrite table_width_cons, <- Z.add_assoc. apply shows_app; [done|].
    apply (shows_app narrow (bs " ") t' 1); [apply (blank_shown 1)|done].
Qed.

(** Every line of a table has the same width as its header and as the line drawn below
    it: the columns stay aligned, whatever the cells contain, as long as every
    character takes one cell of the screen. *)
Theorem row_aligned ws cs hs :
  Forall (fun w => 0 <= w) ws -> length cs = length ws -> length hs = length ws ->
  Forall (fun c => exists n, shown c n) cs -> Forall (fun h => exists n, shown h n) hs ->
  exists line top drawn,
    row ws cs = Some line /\ width line = 2 + table_width ws /\
    header ws hs = Some (top ++ [x0a] ++ drawn ++ [x0a]) /\
    width top = 2 + table_width ws /\ width drawn = 2 + table_width ws.
Proof.
  intros Hw Hc Hh Hcs Hhs.
  assert (Hrow : forall l, length l = length ws -> Forall (fun c => exists n, shown c n) l ->
    exists t, row ws l = Some t /\ shown t (2 + table_width ws)).
  { intros l Hl Hs. unfold row. destruct (cells_shown ws l Hw Hl Hs) as (t & -> & Ht). cbn [mbind option_bind].
    eexists. split; [done|]. apply (shows_app narrow (bs "  ") t 2); [apply (blank_shown 2)|done]. }
  destruct (Hrow cs Hc Hcs) as (line & -> & Hline).
  destruct (Hrow (render [Bold; Foreground ColorPrimary] <$> hs)) as (top & Htop & Hstop).
  { by rewrite length_fmap. }
  { apply Forall_fmap. eapply Forall_impl; [exact Hhs|]. intros h [n Hn]. exists n. by apply shows_style. }
  pose proof (table_width_nonneg ws Hw).
  exists line, top. unfold header. cbv zeta. rewrite Htop. cbn [mbind option_bind].
  rewrite table_width_from, Z.add_0_l, repeat_str_some by lia. cbn [mbind option_bind]. eexists.
  split; [done|]. split; [by apply width_shows|]. split; [reflexivity|]. split; [by apply width_shows|].
  apply width_shows. apply shows_style; [done|].
  apply (shows_app narrow (bs "  ") _ 2); [apply (blank_shown 2)|].
  rewrite (repeat_runes (bs "─") 0x2500) by reflexivity. apply shown_repeat; [apply narrow_drawn|lia].
Qed.
End align.

(* ------------------------------------------------------------------ *)
(** * A terminal                                                         *)
(* ------------------------------------------------------------------ *)

(** Every style of colours is bold; ideographs and what follows them take two cells. *)
Definition cell_width (r : Z) : Z := if 0x4E00 <=? r then 2 else 1.
Definition plain_render (st : Style) (s : gostring) : gostring :=
  if colours st then x1b :: bs "[1m" ++ s ++ x1b :: bs "[0m" else s.
#[export] Instance plain_terminal : Lipgloss := {|
  render := plain_render;
  width := fun s => foldr (fun r n => cell_width r + n) 0 (strip_go false (runes s));
  join_horizontal := fun l => mjoin l;
  join_vertical := fun l => join [x0a] l
|}.
Definition plain_narrow (r : Z) : bool := (32 <=? r) && (r <? 0x4E00) && negb (r =? 127).

Lemma plain_narrow_rune r : plain_narrow r = true -> valid_rune r = true /\ r <> 0x1b.
Proof. unfold plain_narrow, valid_rune. lia. Qed.
Lemma plain_sgr d : d = x30 \/ d = x31 -> sgr (x1b :: [x5b; d; x6d]).
Proof.
  intros Hd. apply (sgr_one [x5b; d] []); [by destruct Hd as [->| ->]| |constructor].
  destruct Hd as [->| ->]; repeat constructor; discriminate.
Qed.
Lemma plain_colours st s n : colours st = true -> shows plain_narrow s n ->
  exists a b, render st s = a ++ s ++ b /\ sgr a /\ sgr b.
Proof.
  intros Hst _. exists (x1b :: bs "[1m"), (x1b :: bs "[0m"). split; [cbn; unfold plain_render; by rewrite Hst|].
  split; apply plain_sgr; [by right|by left].
Qed.
Lemma plain_width rs : Forall (fun r => plain_narrow r = true) rs -> foldr (fun r n => cell_width r + n) 0 rs = len rs.
Proof.
  induction 1 as [|r rs Hr _ IH]; [done|]. cbn [foldr]. rewrite IH, len_cons. unfold cell_width, plain_narrow in *.
  destruct (Z.leb_spec 0x4E00 r); lia.
Qed.
#[export] Instance plain_laws : LipglossLaws.
Proof.
  refine {| narrow := plain_narrow; narrow_rune := plain_narrow_rune; render_colours := plain_colours |}.
  - intros r Hr. unfold plain_narrow. lia.
  - done.
  - intros s n Hs. destruct (strip_shown plain_narrow plain_narrow_rune plain_colours s n Hs) as (rs & Hrs & <- & Hstrip).
    specialize (Hstrip []). rewrite ?app_nil_r in Hstrip. cbn [runes strip_go] in Hstrip. rewrite ?app_nil_r in Hstrip.
    cbn [width plain_terminal]. rewrite Hstrip. by apply plain_width.
Defined.

(** [pad] says it pads or truncates to a width; a text of wide characters that is too wide
    for its column, but has no more characters than the column has cells, is left as
    wide as it is: eight ideographs take sixteen cells of a column of fourteen. *)
Lemma pad_wide : let s := of_runes (replicate 8 0x4E2D) in
  width s = 16 /\ pad s 14 = Some s /\ pad s 14 ≫= (fun t => Some (width t)) = Some 16.
Proof. vm_compute. repeat split. Qed.

Lemma shown_printable s : forallb (fun b => (32 <=? b2z b) && (b2z b <? 127)) s = true -> exists n, shows narrow s n.
Proof.
  intros Hs. exists (len s). apply shown_ascii. apply Forall_forall. intros b Hb.
  rewrite forallb_forall in Hs. specialize (Hs b ltac:(by apply list_elem_of_In)). lia.
Qed.
(** The header and a line of the accounts' table. *)
Lemma row_aligned_witness :
  let ws := [14; 10; 7] in
  let cs := [bs "a_name_that_is_too_long"; render [Foreground ColorSuccess] (bs "active"); bs "1/2"] in
  exists line top drawn, row ws cs = Some line /\ width line = 36 /\
    header ws [bs "USER"; bs "STATUS"; bs "ONLINE"] = Some (top ++ [x0a] ++ drawn ++ [x0a]) /\
    width top = 36 /\ width drawn = 36.
Proof.
  apply (row_aligned [14; 10; 7]
    [bs "a_name_that_is_too_long"; render [Foreground ColorSuccess] (bs "active"); bs "1/2"]
    [bs "USER"; bs "STATUS"; bs "ONLINE"]).
  - repeat constructor; discriminate.
  - reflexivity.
  - reflexivity.
  - constructor; [by apply shown_printable|]. constructor; [|constructor; [by apply shown_printable|constructor]].
    destruct (shown_printable (bs "active")) as [n Hn]; [done|]. exists n. by apply shows_style.
  - constructor; [by apply shown_printable|]. constructor; [by apply shown_printable|]. constructor; [by apply shown_printable|constructor].
Defined.
