(* ===== verification/Screens.v ===== *)
(** What the terminal interface shows ([View] and the screens of [src/tui/views]): every
    screen as the text the code builds, over lipgloss's rendering of styles. [None] is a
    panic. *)
From S2P Require Import Prelude GoStrings Runes Theme Files Procfs Session Gateway Daemon UdpgwServer.
From S2P Require Import Config Security Store Users Netopt Firewall Host Badvpn Doctor GoFloat SysInfo Card Reports Tui Layout.

(** [%3d] *)
Definition pad_left (n : nat) (s : gostring) : gostring := replicate (n - length s) x20 ++ s.
Definition on_off (b : bool) : gostring := if b then bs "on" else bs "off".
(** [%.0f%%] *)
Definition whole_percent (p : float) : gostring := fixed 0 p ++ bs "%".

(** [menuItems] *)
Definition menuItems : list (gostring * gostring) :=
  [(bs "📊", bs "Dashboard"); (bs "👤", bs "Users"); (bs "📡", bs "Online"); (bs "🌐", bs "Gateway & UDP");
   (bs "⚡", bs "Optimizer"); (bs "🩺", bs "Doctor"); (bs "💾", bs "Backup"); (bs "⚙️", bs "Settings")].

Section screens.
Context `{Lip : Lipgloss}.
Variable cfg : Config.
Variable now : Z.
(** [t.Format(layout)] in the local zone, [%g] of a number, the text of an error, the host
    of the cards, the number of processors, the build's version, and the order of a walk
    through a Go map. *)
Variable format_time : gostring -> Z -> gostring.
Variable format_g : float -> gostring.
Variable err_text : merr -> gostring.
Variable host : gostring.
Variable cores : Z.
Variable version : gostring.
Variable walk : gmap gostring gostring -> list (gostring * gostring).

(** The line with the cursor. *)
Definition with_cursor (w : Z) (here : bool) (line : gostring) : gostring :=
  if here then render (StyleTableRowSelected ++ [Width (w - 2)]) (stripANSI line) else line.
(** The lines of a table, numbered from [i]. *)
Fixpoint lines_of {A} (line : Z -> A -> option gostring) (i : Z) (l : list A) : option gostring :=
  match l with
  | [] => Some []
  | x :: l => t ← line i x; rest ← lines_of line (i + 1) l; Some (t ++ [x0a] ++ rest)
  end.

(* ------------------------------------------------------------------ *)
(** * Dashboard                                                          *)
(* ------------------------------------------------------------------ *)

Definition server_rows (si : Info) : option (list (gostring * gostring)) :=
  load ← fields (i_LoadAvg si ++ bs " -") !! 0%nat;
  mem ← renderProgressBar (i_MemPercent si) 12;
  disk ← renderProgressBar (i_DiskPercent si) 12;
  Some [(bs "Host", host); (bs "OS", i_OS si); (bs "Kernel", i_Kernel si);
        (bs "CPU", itoa cores ++ bs " cores · load " ++ load);
        (bs "Uptime", FormatUptime (i_Uptime si));
        (bs "Memory", mem ++ bs " " ++ whole_percent (i_MemPercent si));
        (bs "Disk", disk ++ bs " " ++ whole_percent (i_DiskPercent si))].

(** Sessions, throughput and the two gateways; the snapshot is read only when [DaemonOK],
    so a missing one would be a panic. *)
Definition udp_text (st : State) : gostring :=
  match st_UDPGW st with
  | Some u =>
      if eqb_str (us_Mode u) (bs "off") then render StyleDim (bs "off")
      else ok (us_Healthy u) (us_Mode u) (bs "down") ++
           match us_Stats u with
           | Some x => render StyleDim (bs " · " ++ itoa (UdpgwServer.st_Flows x) ++ bs " flows")
           | None => []
           end
  | None => render StyleDim (bs "off")
  end.
Definition gw_text (st : State) : gostring :=
  match st_Gateway st with
  | Some g =>
      ok (0 <? len (st_Ports g)) (show_ints (st_Ports g)) (bs "no ports") ++
      (if decide (st_Failed g = ∅) then []
       else render StyleWarning (bs " (" ++ itoa (Z.of_nat (size (st_Failed g))) ++ bs " failed)"))
  | None => render StyleDim (bs "off")
  end.
Definition live_texts (d : DashboardState) : option (gostring * gostring * gostring * gostring) :=
  if ds_DaemonOK d then
    st ← ds_Daemon d;
    Some (itoa (len (Daemon.st_Sessions st)) ++ bs " sessions", SysInfo.FormatBytes (st_TotalBps st) ++ bs "/s",
          udp_text st, gw_text st)
  else Some (bs "-", bs "-", render StyleDim (bs "off"), render StyleDim (bs "off")).

Definition service_rows (d : DashboardState) (udp gw : gostring) : list (gostring * gostring) :=
  [(bs "Daemon", ok (ds_DaemonOK d) (bs "running") (bs "not running"));
   (bs "SSH server", ok (ds_SSHActive d) (bs "listening " ++ Card.ints (ssh_Ports (SSH cfg))) (bs "not listening"));
   (bs "UDP gateway", udp);
   (bs "WS/TLS gateway", gw);
   (bs "Congestion", ok (ds_BBR d) (bs "BBR") (ds_CC d));
   (bs "Firewall", ok (ds_Firewall d) (bs "active") (bs "off"))].
Definition stat_rows (d : DashboardState) (online speed : gostring) : list (gostring * gostring) :=
  [(bs "Total", itoa (ds_Users d));
   (bs "Active", render StyleSuccess (itoa (ds_Active d)));
   (bs "Expired", render StyleDanger (itoa (ds_Expired d)));
   (bs "Locked", render StyleWarning (itoa (ds_Locked d)));
   (bs "Online", online);
   (bs "Throughput", speed);
   (bs "Traffic (all)", Card.FormatBytes (ds_Traffic d))].
(** The last six events, the newest first. *)
Definition event_rows (d : DashboardState) (cw : Z) : option (list (gostring * gostring)) :=
  evs ← mapM (fun ev => t ← trunc (ev_Text ev) (cw - 22); Some (format_time (bs "01-02 15:04") (ev_Time ev), t))
             (reverse (lastN (match ds_Daemon d with Some st => st_Events st | None => [] end) 6));
  Some (match evs with [] => [([], render StyleDim (bs "no events yet"))] | _ => evs end).

Definition renderDashboard (d : DashboardState) (w : Z) : option gostring :=
  let top := title (bs "📊 DASHBOARD") in
  if negb (ds_Loaded d) then Some (top ++ bs "  loading…")
  else
    let cw := cardWidth w in
    si ← ds_SysInfo d;
    rows ← server_rows si;
    let server := renderCard (bs "🖥  Server") rows cw in
    live ← live_texts d;
    let '(online, speed, udp, gw) := live in
    let services := renderCard (bs "🔌  Services") (service_rows d udp gw) cw in
    let stats := renderCard (bs "👥  Users") (stat_rows d online speed) cw in
    evs ← event_rows d cw;
    let events := renderCard (bs "📜  Recent activity") evs cw in
    Some (top ++
          (if twoColumns w
           then join_horizontal [server; bs "  "; services] ++ [x0a] ++ join_horizontal [stats; bs "  "; events]
           else join_vertical [services; stats; server]) ++
          (if ds_DaemonOK d then []
           else [x0a] ++ render StyleWarning (bs "  ! The daemon isn't running: limits, quotas and the UDP gateway are off.  Fix: systemctl enable --now sshfortress"))).

(* ------------------------------------------------------------------ *)
(** * Users, sessions                                                    *)
(* ------------------------------------------------------------------ *)

Definition statusStyled (st : gostring) : gostring :=
  if eqb_str st StatusActive then render StyleSuccess (bs "● active")
  else if eqb_str st StatusExpired then render StyleDanger (bs "● expired")
  else if eqb_str st StatusQuota then render StyleDanger (bs "● quota")
  else render StyleWarning (bs "● locked").

Definition users_widths : list Z := [14; 10; 7; 16; 26; 12].
Definition user_cells (u : UserInfo) : list gostring :=
  let r := info_record u in
  let online := itoa (info_ActiveSessions u) ++ bs "/" ++ itoa (MaxConnections r) in
  let exp := format_time (bs "2006-01-02") (ExpiresAt r) ++ bs " " ++ pad_left 3 (itoa (info_DaysLeft u)) ++ bs "d" in
  [Username r; statusStyled (info_Status u);
   if 0 <? info_ActiveSessions u then render StyleInfo online else online;
   if (info_DaysLeft u <=? 3) && eqb_str (info_Status u) StatusActive then render StyleWarning exp else exp;
   Card.Traffic r; Notes r].
Definition renderUsers (s : UsersState) (focusSidebar : bool) (w : Z) : option gostring :=
  let top := title (bs "👤 USERS") in
  match us_Err s with
  | Some e => Some (top ++ render StyleDanger (bs "  " ++ err_text e))
  | None =>
      h ← header users_widths [bs "USER"; bs "STATUS"; bs "ONLINE"; bs "EXPIRES"; bs "TRAFFIC"; bs "NOTE"];
      ls ← lines_of (fun i u => l ← row users_widths (user_cells u);
                                Some (with_cursor w ((i =? us_Cursor s) && negb focusSidebar) l)) 0 (us_Users s);
      Some (top ++ h ++
            (match us_Users s with
             | [] => render StyleDim ([x0a] ++ bs "  No users yet — press n to create one.")
             | _ => []
             end) ++ ls ++ [x0a] ++ bs "  " ++ itoa (len (us_Users s)) ++ bs " users" ++
            keyHelp (bs "n new  enter card  e renew  p password  c devices  t traffic  l lock/unlock  x kick  d delete"))
  end.

Definition online_widths : list Z := [14; 16; 8; 9; 10; 11; 4].
Definition session_cells (x : LiveSession) : list gostring :=
  let s := ls_Session x in
  [ss_Username s; ss_ClientIP s; ss_Via s;
   if 24 * 3600 * Gateway.Second <? now - ss_StartedAt s then format_time (bs "01-02") (ss_StartedAt s)
   else format_time (bs "15:04:05") (ss_StartedAt s);
   Card.FormatBytes (i64 (ss_Bytes s));
   if 0 <? ls_RateBps x then SysInfo.FormatBytes (ls_RateBps x) ++ bs "/s" else bs "-";
   itoa (ls_UDPFlows x)].
Definition renderOnline (s : OnlineState) (focusSidebar : bool) (w : Z) : option gostring :=
  let src := if on_Live s then render StyleSuccess (bs "live from daemon")
             else render StyleWarning (bs "daemon not running — no speeds") in
  h ← header online_widths [bs "USER"; bs "CLIENT"; bs "VIA"; bs "SINCE"; bs "TRAFFIC"; bs "SPEED"; bs "UDP"];
  ls ← lines_of (fun i x => l ← row online_widths (session_cells x);
                            Some (with_cursor w ((i =? on_Cursor s) && negb focusSidebar) l)) 0 (on_Sessions s);
  Some (title (bs "📡 ONLINE") ++ bs "  " ++ itoa (len (on_Sessions s)) ++ bs " sessions · " ++
        SysInfo.FormatBytes (on_Total s) ++ bs "/s" ++ bs " total · " ++ src ++ [x0a; x0a] ++ h ++
        (match on_Sessions s with [] => render StyleDim ([x0a] ++ bs "  nobody is connected") | _ => [] end) ++
        ls ++ keyHelp (bs "↑↓ select   x kick session   r refresh   (UDP = active call/game flows)")).

(* ------------------------------------------------------------------ *)
(** * Gateway and UDP                                                    *)
(* ------------------------------------------------------------------ *)

(** The failed listeners, in the order of a walk through the map. *)
Definition failed_rows (label : gostring) (failed : gmap gostring gostring) (cw : Z)
    : option (list (gostring * gostring)) :=
  mapM (fun kv => t ← trunc kv.2 (cw - 22); Some (label ++ kv.1, render StyleDanger t)) (walk failed).
Definition gateway_rows (n : NetworkState) (cw : Z) : option (list (gostring * gostring)) :=
  let waiting := [(bs "Status", render StyleWarning (bs "enabled, daemon not running"))] in
  if negb (gateway_Enabled (Config.Gateway cfg))
  then Some [(bs "Status", render StyleDim (bs "disabled")); (bs "Enable", bs "sshfortress gateway enable --ports 80,443")]
  else if nt_Fresh n then
    st ← nt_St n;
    match st_Gateway st with
    | None => Some waiting
    | Some g =>
        failed ← failed_rows (bs "Port ") (st_Failed g) cw;
        Some ([(bs "Ports", ok (0 <? len (st_Ports g)) (Card.ints (st_Ports g)) (bs "none bound"));
               (bs "Live sessions", itoa (Gateway.st_Sessions g));
               (bs "Handshaking", itoa (st_Pending g));
               (bs "Total / rejected", itoa (st_Total g) ++ bs " / " ++ itoa (st_Rejected g))] ++
              ((fun k => (bs "  via " ++ k, itoa (default 0 (st_ByVia g !! k))))
                 <$> merge_sort str_le (fst <$> map_to_list (st_ByVia g))) ++ failed)
    end
  else Some waiting.

Definition stats_rows (x : UdpgwServer.Stats) : list (gostring * gostring) :=
  [(bs "Clients / flows", itoa (UdpgwServer.st_Clients x) ++ bs " / " ++ itoa (UdpgwServer.st_Flows x));
   (bs "Up / down", SysInfo.FormatBytes (UdpgwServer.st_BytesUp x) ++ bs " / " ++
                    SysInfo.FormatBytes (UdpgwServer.st_BytesDown x));
   (bs "Packets", bs "↑" ++ itoa (UdpgwServer.st_PacketsUp x) ++ bs " ↓" ++ itoa (UdpgwServer.st_PacketsDown x));
   (bs "Dropped", itoa (UdpgwServer.st_Dropped x))].
(** The status of badvpn is the zero value unless it was asked for. *)
Definition badvpn_of (n : NetworkState) : Badvpn.Status :=
  default (Badvpn.mkStatus false false false 0 []) (nt_BadVPN n).
Definition udpgw_rows (n : NetworkState) (cw : Z) : option (list (gostring * gostring)) :=
  let u := UDPGW cfg in
  let waiting := [(bs "Status", render StyleWarning (bs "daemon not running"))] in
  if negb (udpgw_Enabled u)
  then Some [(bs "Status", render StyleDanger (bs "disabled — calls won't work"))]
  else if eqb_str (udpgw_Mode u) (bs "badvpn")
  then let b := badvpn_of n in
       Some [(bs "Mode", bs "external badvpn-udpgw");
             (bs "Installed", ok (Badvpn.st_Installed b) (bs "yes") (bs "no"));
             (bs "Running", ok (Badvpn.st_Running b) (bs "pid " ++ itoa (Badvpn.st_PID b)) (bs "stopped"));
             (bs "Ports", Card.ints (udpgw_Ports u))]
  else if nt_Fresh n then
    st ← nt_St n;
    match st_UDPGW st with
    | None => Some waiting
    | Some x =>
        failed ← failed_rows [] (us_Failed x) cw;
        Some ([(bs "Mode", bs "built-in");
               (bs "Health", ok (us_Healthy x) (bs "answering") (bs "down"));
               (bs "Ports", udpgw_Listen u ++ bs ":" ++ Card.ints (udpgw_Ports u))] ++
              match us_Stats x with Some s => stats_rows s | None => [] end ++ failed)
    end
  else Some waiting.

Definition ssh_rows : list (gostring * gostring) :=
  let s := SSH cfg in
  [(bs "sshd ports", Card.ints (ssh_Ports s));
   (bs "Keepalive", itoa (ssh_ClientAliveInterval s) ++ bs "s × " ++ itoa (ssh_ClientAliveCountMax s));
   (bs "MaxStartups", ssh_MaxStartups s);
   (bs "Compression", if ssh_Compression s then bs "on" else bs "off (faster)");
   (bs "Limit policy", bs "kick " ++ limiter_Policy (Limiter cfg))].
Definition tip_rows : list (gostring * gostring) :=
  [(bs "UDPGW in app", bs "127.0.0.1:7300"); (bs "WS payload", bs "GET / HTTP/1.1[crlf]");
   ([], bs "Host: <host>[crlf]"); ([], bs "Upgrade: websocket[crlf]"); ([], bs "[crlf]");
   (bs "SSL/TLS", bs "gateway port + any SNI")].
Definition renderNetwork (n : NetworkState) (w : Z) : option gostring :=
  let cw := cardWidth w in
  gw ← gateway_rows n cw;
  let gwCard := renderCard (bs "🚪  Gateway (SSH · WebSocket · TLS)") gw cw in
  u ← udpgw_rows n cw;
  let udpCard := renderCard (bs "📞  UDP gateway (calls · games · DNS)") u cw in
  let sshCard := renderCard (bs "🔐  SSH") ssh_rows cw in
  let tips := renderCard (bs "💡  Client setup") tip_rows cw in
  Some (title (bs "🌐 GATEWAY & UDP") ++
        (if twoColumns w
         then join_horizontal [gwCard; bs "  "; udpCard] ++ [x0a] ++ join_horizontal [sshCard; bs "  "; tips]
         else join_vertical [gwCard; udpCard; sshCard]) ++
        keyHelp (bs "change ports in /etc/sshfortress/config.yaml, then: sshfortress apply")).

(* ------------------------------------------------------------------ *)
(** * Optimizer, diagnosis, backups, settings                            *)
(* ------------------------------------------------------------------ *)

Definition optimizer_widths : list Z := [2; 36; 20; 20].
Definition param_cells (p : Param) : list gostring :=
  let '(mark, cur) :=
    if p_Applied p then (render StyleSuccess CheckMark, render StyleSuccess (p_Current p))
    else if negb (p_Supported p) then (render StyleDim (bs "-"), render StyleDim (bs "n/a"))
    else (render StyleDanger CrossMark, render StyleDanger (p_Current p)) in
  [mark; render StyleDim (p_Key p); cur; render StyleInfo (p_Value p)].
(** [bbr] is what [netopt.BBRActive] answers. *)
Definition renderOptimizer (s : OptimizerState) (bbr : bool) (w : Z) : option gostring :=
  let '(applied, total) := Score (op_Params s) in
  let pct := if 0 <? total then percent applied total else of_int 0 in
  bar ← renderProgressBar pct 30;
  h ← header optimizer_widths [[]; bs "SETTING"; bs "CURRENT"; bs "TARGET"];
  ls ← lines_of (fun _ p => row optimizer_widths (param_cells p)) 0 (op_Params s);
  Some (title (bs "⚡ NETWORK OPTIMIZER") ++ bs "  " ++ bar ++ bs " " ++ whole_percent pct ++ bs "  (" ++
        itoa applied ++ bs "/" ++ itoa total ++ bs ")   BBR: " ++ ok bbr (bs "on") (bs "off") ++ [x0a; x0a] ++
        h ++ ls ++ keyHelp (bs "a apply all (persists across reboots)   x restore original values")).

Definition styled_mark (c : Check) : gostring :=
  let s := ck_Status c in
  if eqb_str s OK then render StyleSuccess (bs "✓") else if eqb_str s Warn then render StyleWarning (bs "!")
  else if eqb_str s Fail then render StyleDanger (bs "✗") else render StyleDim (bs "-").
Definition check_block (w : Z) (c : Check) : option gostring :=
  name ← pad (ck_Name c) 20;
  detail ← trunc (ck_Detail c) (w - 28);
  fix_ ← (match ck_Fix c with
          | [] => Some []
          | f => if eqb_str (ck_Status c) OK then Some []
                 else t ← trunc f (w - 12); Some (render StyleDim (bs "      → " ++ t) ++ [x0a])
          end);
  Some (bs "  " ++ styled_mark c ++ bs " " ++ name ++ bs " " ++ detail ++ [x0a] ++ fix_).
Definition renderDoctor (s : DoctorState) (w : Z) : option gostring :=
  let top := title (bs "🩺 DOCTOR") in
  if negb (dc_Ran s) then Some (top ++ bs "  running checks…")
  else
    blocks ← mapM (check_block w) (dc_Checks s);
    let '(okN, warn, fail) := Summary (dc_Checks s) in
    Some (top ++ mjoin blocks ++ [x0a] ++ bs "  " ++ render StyleSuccess (itoa okN ++ bs " ok") ++ bs "  " ++
          render StyleWarning (itoa warn ++ bs " warnings") ++ bs "  " ++
          render StyleDanger (itoa fail ++ bs " problems") ++ keyHelp (bs "r run again")).

Definition backup_widths : list Z := [18; 7; 10; 50].
Definition backup_cells (b : BackupRecord) : list gostring :=
  [format_time (bs "2006-01-02 15:04") (bk_CreatedAt b); itoa (bk_UserCount b);
   Card.FormatBytes (bk_SizeBytes b); bk_FilePath b].
Definition renderBackup (s : BackupState) (focusSidebar : bool) (w : Z) : option gostring :=
  h ← header backup_widths [bs "DATE"; bs "USERS"; bs "SIZE"; bs "FILE"];
  ls ← lines_of (fun i b => l ← row backup_widths (backup_cells b);
                            Some (with_cursor w ((i =? bs_Cursor s) && negb focusSidebar) l)) 0 (bs_Backups s);
  Some (title (bs "💾 BACKUP & RESTORE") ++
        render StyleDim (bs "  Backups include users, limits, traffic and password hashes — restore on a new" ++ [x0a] ++
                         bs "  server and every account works with its old password.") ++ [x0a; x0a] ++ h ++
        (match bs_Backups s with [] => render StyleDim ([x0a] ++ bs "  no backups yet — press c") | _ => [] end) ++
        ls ++ keyHelp (bs "c create   enter restore   d delete   (CLI: sshfortress backup restore FILE)")).

Definition settings_server : list (gostring * gostring) :=
  [(bs "Host on cards", host); (bs "Config file", Path cfg); (bs "Data dir", DataDir cfg)].
Definition settings_defaults : list (gostring * gostring) :=
  let d := UserDefaults cfg in
  [(bs "Days", itoa (ud_DefaultExpirationDays d)); (bs "Devices", itoa (ud_DefaultMaxConnections d));
   (bs "Traffic GB", format_g (ud_DefaultTrafficGB d) ++ bs " (0 = unlimited)"); (bs "Group", ud_Group d)].
Definition settings_features : list (gostring * gostring) :=
  let g := Config.Gateway cfg in
  let u := UDPGW cfg in
  let l := Limiter cfg in
  let f := Config.Firewall cfg in
  [(bs "Gateway", on_off (gateway_Enabled g) ++ bs " " ++ show_ints (gateway_Ports g));
   (bs "UDP gateway", on_off (udpgw_Enabled u) ++ bs " (" ++ udpgw_Mode u ++ bs ") " ++ show_ints (udpgw_Ports u));
   (bs "Limiter", on_off (limiter_Enabled l) ++ bs ", kick " ++ limiter_Policy l ++ bs ", every " ++
                  itoa (limiter_IntervalSecs l) ++ bs "s");
   (bs "Auto-optimize", on_off (network_AutoOptimize (Network cfg)));
   (bs "Firewall", on_off (firewall_Enabled f) ++ bs " (local " ++ on_off (firewall_BlockLocal f) ++ bs ", smtp " ++
                   on_off (firewall_BlockSMTP f) ++ bs ")")].
Definition settings_ssh (cw : Z) : option (list (gostring * gostring)) :=
  let s := SSH cfg in
  banner ← trunc (replace_all (ssh_Banner s) [x0a] (bs " ")) (cw - 22);
  Some [(bs "Ports", Card.ints (ssh_Ports s)); (bs "Tuning", on_off (ssh_Tuning s));
        (bs "Max auth tries", itoa (ssh_MaxAuthTries s)); (bs "Banner", banner)].
Definition renderSettings (w : Z) : option gostring :=
  let cw := cardWidth w in
  let server := renderCard (bs "🖥  Server") settings_server cw in
  let defaults := renderCard (bs "👤  New user defaults") settings_defaults cw in
  let features := renderCard (bs "🧩  Features") settings_features cw in
  rows ← settings_ssh cw;
  let ssh := renderCard (bs "🔐  sshd") rows cw in
  Some (title (bs "⚙️  SETTINGS") ++
        (if twoColumns w
         then join_horizontal [server; bs "  "; defaults] ++ [x0a] ++ join_horizontal [features; bs "  "; ssh]
         else join_vertical [server; defaults; features; ssh]) ++
        [x0a; x0a] ++ bs "  Edit " ++ Path cfg ++ bs " then run  sshfortress apply").

(* ------------------------------------------------------------------ *)
(** * Dialogs and the whole screen                                       *)
(* ------------------------------------------------------------------ *)

Definition field_line (idx i : nat) (f : field) : gostring :=
  let here := bool_decide (i = idx) in
  let v := match fd_value f with
           | [] => []
           | v => if fd_secret f then mjoin (replicate (length (runes v)) (bs "•")) else v
           end in
  (if here then render StyleKeyBind (bs "▸ ") else bs "  ") ++ render StyleLabel (fd_label f) ++ bs " " ++ v ++
  (if here then render StyleKeyBind (bs "█") else []) ++
  (match fd_hint f with [] => [] | h => bs "  " ++ render StyleDim h end) ++ [x0a].
Definition modal_view (m : modal) (w : Z) : gostring :=
  render [Width w]
    (render StyleTitle (bs " " ++ m_title m ++ bs " ") ++ [x0a; x0a] ++
     match m_kind m with
     | modalConfirm => bs "  " ++ m_text m ++ [x0a; x0a] ++ render StyleKeyHelp (bs "  y / enter: yes    n / esc: no")
     | modalText => m_text m ++ [x0a] ++ render StyleKeyHelp (bs "  press any key to close")
     | modalForm => mjoin (imap (field_line (m_idx m)) (m_fields m)) ++ [x0a] ++
                    render StyleKeyHelp (bs "  enter: save    tab/↑↓: next field    ctrl+u: clear    esc: cancel")
     end).

Definition menu_line (s : screen) (i : nat) (it : gostring * gostring) : gostring :=
  let i := Z.of_nat i in
  let label := bs " " ++ itoa (i + 1) ++ bs " " ++ it.1 ++ bs "  " ++ it.2 in
  (if (i =? sc_menuCursor s) && sc_focusSidebar s then render (StyleMenuItemActive ++ [Width 24]) label
   else if i =? sc_activeView s
   then render [Foreground ColorPrimary; Bold; PaddingLeft 1] (ArrowRight ++ label)
   else render StyleMenuItem label) ++ [x0a].
Definition renderSidebar (s : screen) : gostring :=
  render StyleLogo (bs "  ╔══════════════════╗" ++ [x0a] ++ bs "  ║     SSH-VPN      ║" ++ [x0a] ++ bs "  ╚══════════════════╝") ++
  [x0a] ++ render StyleDim (bs "  v" ++ version) ++ [x0a; x0a] ++
  mjoin (imap (menu_line s) menuItems) ++ [x0a] ++
  render StyleDim (bs "  ──────────────────────" ++ [x0a] ++ bs "  tab  switch focus" ++ [x0a] ++
                   bs "  1-8  jump to view" ++ [x0a] ++ bs "  r    refresh" ++ [x0a] ++ bs "  q    back / quit").
(** [bbr] is read while the optimizer's screen is drawn. *)
Definition renderContent (bbr : bool) (a : App) (w : Z) : option gostring :=
  let v := a_views a in
  let view := sc_activeView (a_screen a) in
  let focus := sc_focusSidebar (a_screen a) in
  if view =? ViewDashboard then renderDashboard (v_dash v) w
  else if view =? ViewUsers then renderUsers (v_us v) focus w
  else if view =? ViewOnline then renderOnline (v_online v) focus w
  else if view =? ViewNetwork then renderNetwork (v_net v) w
  else if view =? ViewOptimizer then renderOptimizer (v_opt v) bbr w
  else if view =? ViewDoctor then renderDoctor (v_doc v) w
  else if view =? ViewBackup then renderBackup (v_bk v) focus w
  else if view =? ViewSettings then renderSettings w
  else Some [].
Definition renderStatusBar (a : App) : gostring :=
  let n := a_note a in
  render [Width (a_width a); Background ColorBgAlt]
    (render StyleKeyBind (bs " SSH-VPN ") ++
     render StyleKeyHelp (bs " tab:focus  ↑↓:move  enter:select  r:refresh  q:quit ") ++
     match n_text n with
     | [] => []
     | t => render (if n_good n then StyleSuccess else StyleDanger) (bs " " ++ t)
     end).
Definition content_width (a : App) : Z := let w := a_width a - 26 - 3 in if w <? 40 then 40 else w.
(** The view is drawn even when a dialog covers it. *)
Definition View (bbr : bool) (a : App) : option gostring :=
  if a_width a =? 0 then Some (bs "Loading...")
  else
    let w := content_width a in
    content ← renderContent bbr a w;
    let content := match a_modal a with Some m => modal_view m w | None => content end in
    let sidebar := render [Width 26; Height (a_height a - 2)] (renderSidebar (a_screen a)) in
    let box := render [Width w; Height (a_height a - 2); MaxHeight (a_height a - 2)] content in
    Some (join_vertical [join_horizontal [sidebar; bs " "; box]; renderStatusBar a]).
End screens.
