(* ===== verification/ScreensProps.v ===== *)
(** The whole terminal interface: after any messages, with data as the loaders make it,
    the next message is handled and the screen is drawn without a panic. *)
From S2P Require Import Prelude GoStrings Runes Theme Files Procfs Session Gateway Daemon UdpgwServer.
From S2P Require Import Config Security Store Users Netopt Firewall Host Badvpn Doctor GoFloat SysInfo Card Reports.
From S2P Require Import Tui TuiProps Layout LayoutProps Screens.

(* ------------------------------------------------------------------ *)
(** * Data as it is loaded                                               *)
(* ------------------------------------------------------------------ *)

Definition dash_ok (d : DashboardState) : Prop :=
  (ds_Loaded d = true -> is_Some (ds_SysInfo d)) /\ (ds_DaemonOK d = true -> is_Some (ds_Daemon d)).
Definition net_ok (n : NetworkState) : Prop := nt_Fresh n = true -> is_Some (nt_St n).
Definition views_ok (v : views) : Prop := dash_ok (v_dash v) /\ net_ok (v_net v).

Lemma loadDashboard_ok cfg info st now bbr cc fw tcp users :
  dash_ok (loadDashboard cfg info st now bbr cc fw tcp users).
Proof.
  unfold loadDashboard. destruct (match users with Some us => _ | None => _ end) as [[[x y] z] t].
  split; cbn; [done|]. by destruct st.
Qed.
Lemma loadNetwork_ok cfg st now b : net_ok (loadNetwork cfg st now b).
Proof. unfold net_ok, loadNetwork. cbn. by destruct st. Qed.

(** A message whose data comes from the loader of its view. *)
Definition loaded (m : msg) : Prop :=
  match m with
  | viewDataMsg (dDash d) => exists cfg info st now bbr cc fw tcp users,
      d = loadDashboard cfg info st now bbr cc fw tcp users
  | viewDataMsg (dNet n) => exists cfg st now b, n = loadNetwork cfg st now b
  | _ => True
  end.

Section update.
Context `{Uni : Unicode}.
Variable cfg : Config.
Variable format_float : float -> gostring.
Variable card_of : UserRecord -> gostring.
Variable format_date : Z -> gostring.
Abbreviation update := (Update cfg format_float card_of format_date).

(** The dashboard and the network view change only with their data. *)
Definition same_live (a a' : App) : Prop :=
  v_dash (a_views a') = v_dash (a_views a) /\ v_net (a_views a') = v_net (a_views a).

Lemma same_live_opened m v a : v_dash v = v_dash (a_views a) -> v_net v = v_net (a_views a) ->
  same_live a (opened m (set_views v a)).
Proof. by destruct m. Qed.

Lemma updateActiveView_live k a a' c :
  updateActiveView cfg format_float card_of format_date k a = Some (a', c) -> same_live a a'.
Proof.
  unfold updateActiveView.
  destruct (_ =? ViewUsers).
  { destruct (updateUsers _ _ _ _ _) as [[s m] cs]. intros [= <- <-]. by apply same_live_opened. }
  destruct (_ =? ViewOnline).
  { destruct (updateOnline _ _) as [[[s m] cs]|]; [|done]. intros [= <- <-]. by apply same_live_opened. }
  destruct (_ =? ViewOptimizer).
  { destruct (updateOptimizer k) as [m cs]. intros [= <- <-]. by destruct m. }
  destruct (_ =? ViewBackup); [|by intros [= <- <-]].
  destruct (updateBackup _ _ _) as [[[s m] cs]|]; [|done]. intros [= <- <-]. by apply same_live_opened.
Qed.
Lemma updateSidebar_live k a : same_live a (updateSidebar k a).1.
Proof.
  unfold updateSidebar. cbv zeta. repeat (destruct (is_key k _); [done|]).
  destruct (k_text k) as [|d [|]]; [done| |done]. by destruct (_ && _).
Qed.
Lemma updateKey_live k a a' c :
  updateKey cfg format_float card_of format_date k a = Some (a', c) -> same_live a a'.
Proof.
  unfold updateKey. destruct (a_modal a) as [d|].
  { destruct (modal_update d k) as [[m cs]|]; [|done]. by intros [= <- <-]. }
  destruct (is_key k ["ctrl+c"]); [by intros [= <- <-]|].
  destruct (is_key k ["q"]); [destruct (sc_focusSidebar _); by intros [= <- <-]|].
  destruct (is_key k ["esc"]); [by intros [= <- <-]|].
  destruct (is_key k ["tab"]); [by intros [= <- <-]|].
  destruct (is_key k ["r"; "f5"]); [by intros [= <- <-]|].
  destruct (sc_focusSidebar _); [|apply updateActiveView_live].
  intros [= E]. pose proof (updateSidebar_live k a) as Hs. by rewrite E in Hs.
Qed.

Lemma Update_views_ok now m a a' c : loaded m -> update now m a = Some (a', c) ->
  views_ok (a_views a) -> views_ok (a_views a').
Proof.
  intros Hm Hu [Hd Hn].
  assert (Hlive : same_live a a' -> views_ok (a_views a')) by (intros [E1 E2]; split; by rewrite ?E1, ?E2).
  destruct m as [w h| |d|d|k|]; cbn [Update] in Hu.
  - injection Hu as <- <-. by split.
  - injection Hu as <- <-. apply Hlive. by destruct (match n_at _ with Some _ => _ | None => _ end).
  - injection Hu as <- <-. destruct d; try (by split).
    + destruct Hm as (? & ? & ? & ? & ? & ? & ? & ? & ? & ->). split; [apply loadDashboard_ok|exact Hn].
    + destruct Hm as (? & ? & ? & ? & ->). split; [exact Hd|apply loadNetwork_ok].
  - injection Hu as <- <-. apply Hlive. by destruct (od_err d), (od_text d), (od_card d).
  - by eapply Hlive, updateKey_live.
  - injection Hu as <- <-. by split.
Qed.

Lemma run_views_ok ms a a' : Forall (fun tm => loaded tm.2) ms -> run cfg format_float card_of format_date ms a = Some a' ->
  views_ok (a_views a) -> views_ok (a_views a').
Proof.
  intros Hms. revert a. induction Hms as [|[t m] ms Hm _ IH]; intros a; [by intros [= <-]|]. cbn [run].
  destruct (update t m a) as [[a1 c]|] eqn:E; [|done]. cbn. intros Hr Ha. eapply IH; [exact Hr|].
  by eapply Update_views_ok.
Qed.
End update.

(* ------------------------------------------------------------------ *)
(** * Drawing                                                            *)
(* ------------------------------------------------------------------ *)

Lemma mapM_total {A B} (f : A -> option B) l : (forall x, is_Some (f x)) -> is_Some (mapM f l).
Proof. intros Hf. apply mapM_is_Some. by apply Forall_true. Qed.
Lemma lines_total {A} (line : Z -> A -> option gostring) i l : (forall i x, is_Some (line i x)) ->
  is_Some (lines_of line i l).
Proof.
  intros Hl. revert i. induction l as [|x l IH]; intros i; [done|]. cbn [lines_of].
  destruct (Hl i x) as [t ->]. destruct (IH (i + 1)) as [t' ->]. done.
Qed.
Lemma trunc_total s n : is_Some (trunc s n).
Proof. destruct (trunc_fits s n) as (t & -> & _). done. Qed.

(** A blank and a dash end every text with a field. *)
Ltac few := first [exact (Nat.le_0_l _)|exact (le_n_S _ _ (Nat.le_0_l _))|
  exact (le_n_S _ _ (le_n_S _ _ (Nat.le_0_l _)))|exact (le_n_S _ _ (le_n_S _ _ (le_n_S _ _ (Nat.le_0_l _))))].
Lemma space_len_within x t : (space_len (x :: t ++ bs " -") <= S (length t))%nat.
Proof.
  destruct x; try few; (destruct t as [|y t]; [few|]); destruct y; try few;
    (destruct t as [|z t]; [few|]); destruct z; few.
Qed.
Lemma fields_go_dash t skip cur : (skip <= length t)%nat -> fields_go skip cur (t ++ bs " -") <> [].
Proof.
  revert skip cur. induction t as [|x t IH]; intros skip cur Hs; cbn [length] in Hs.
  - replace skip with 0%nat by lia. cbn. by destruct cur.
  - cbn [app fields_go]. destruct skip as [|k]; [|apply IH; lia].
    pose proof (space_len_within x t) as Hl. destruct (space_len (x :: t ++ bs " -")) as [|k]; [apply IH; lia|].
    unfold flush. destruct cur; [apply IH; lia|done].
Qed.
Lemma first_field s : exists f l, fields (s ++ bs " -") = f :: l.
Proof.
  unfold fields. pose proof (fields_go_dash s 0 [] ltac:(lia)) as Hf.
  destruct (fields_go 0 [] (s ++ bs " -")) as [|f l]; [done|by exists f, l].
Qed.

Ltac step H := let t := fresh "t" in destruct H as [t ->]; cbn [mbind option_bind].

Section draw.
Context `{Lip : Lipgloss}.
Variable cfg : Config.
Variable now : Z.
Variable format_time : gostring -> Z -> gostring.
Variable format_g : float -> gostring.
Variable err_text : merr -> gostring.
Variable host : gostring.
Variable cores : Z.
Variable version : gostring.
Variable walk : gmap gostring gostring -> list (gostring * gostring).

Lemma event_rows_total d cw : is_Some (event_rows format_time d cw).
Proof.
  unfold event_rows. match goal with |- is_Some (mapM ?f ?l ≫= _) => destruct (mapM_total f l) as [t ->] end; [|done].
  intros ev. step (trunc_total (ev_Text ev) (cw - 22)). done.
Qed.
Lemma server_rows_total si : is_Some (server_rows host cores si).
Proof.
  unfold server_rows. destruct (first_field (i_LoadAvg si)) as (load & l & ->).
  destruct (bar_total (i_MemPercent si) 12 ltac:(lia)) as [mem Hm]. destruct (bar_total (i_DiskPercent si) 12 ltac:(lia)) as [disk Hk].
  change ((load :: l) !! 0%nat) with (Some load). rewrite Hm, Hk. by eexists.
Qed.
Lemma live_texts_total d : dash_ok d -> is_Some (live_texts d).
Proof.
  intros [_ Hd]. unfold live_texts. destruct (ds_DaemonOK d); [|by eexists].
  destruct (Hd eq_refl) as [st ->]. by eexists.
Qed.
Lemma renderDashboard_total d w : dash_ok d -> is_Some (renderDashboard cfg format_time host cores d w).
Proof.
  intros Hd. unfold renderDashboard. cbv zeta. destruct (ds_Loaded d) eqn:Hl; [|by eexists].
  destruct (proj1 Hd Hl) as [si ->]. destruct (server_rows_total si) as [rows Hr].
  destruct (live_texts_total d Hd) as [[[[x y] z] t] Hv]. destruct (event_rows_total d (cardWidth w)) as [ev He].
  cbn [negb mbind option_bind]. rewrite Hr. cbn [mbind option_bind]. rewrite Hv. cbn [mbind option_bind]. rewrite He.
  by eexists.
Qed.

Lemma failed_rows_total label failed cw : is_Some (failed_rows walk label failed cw).
Proof. apply mapM_total. intros [k v]. cbn [fst snd]. by step (trunc_total v (cw - 22)). Qed.
Lemma gateway_rows_total n cw : net_ok n -> is_Some (gateway_rows cfg walk n cw).
Proof.
  intros Hn. unfold gateway_rows. cbv zeta. destruct (negb _); [done|]. unfold net_ok in Hn. destruct (nt_Fresh n); [|done].
  step (Hn eq_refl). destruct (st_Gateway t); [|done]. by step (failed_rows_total (bs "Port ") (st_Failed s) cw).
Qed.
Lemma udpgw_rows_total n cw : net_ok n -> is_Some (udpgw_rows cfg walk n cw).
Proof.
  intros Hn. unfold udpgw_rows. cbv zeta. destruct (negb _); [done|]. destruct (eqb_str _ _); [done|].
  unfold net_ok in Hn. destruct (nt_Fresh n); [|done].
  step (Hn eq_refl). destruct (st_UDPGW t) as [x|]; [|done]. by step (failed_rows_total [] (us_Failed x) cw).
Qed.
Lemma renderNetwork_total n w : net_ok n -> is_Some (renderNetwork cfg walk n w).
Proof.
  intros Hn. unfold renderNetwork. cbv zeta. step (gateway_rows_total n (cardWidth w) Hn).
  by step (udpgw_rows_total n (cardWidth w) Hn).
Qed.

Ltac widths := by repeat (constructor; [lia|]).
Lemma renderUsers_total s focus w : is_Some (renderUsers format_time err_text s focus w).
Proof.
  unfold renderUsers. destruct (us_Err s); [done|].
  step (header_total users_widths [bs "USER"; bs "STATUS"; bs "ONLINE"; bs "EXPIRES"; bs "TRAFFIC"; bs "NOTE"] ltac:(widths)).
  match goal with |- is_Some (lines_of ?f ?i ?l ≫= _) => destruct (lines_total f i l) as [t' ->] end; [|done].
  intros i u. by step (row_total users_widths (user_cells format_time u) ltac:(widths)).
Qed.
Lemma renderOnline_total s focus w : is_Some (renderOnline now format_time s focus w).
Proof.
  unfold renderOnline. cbv zeta.
  step (header_total online_widths [bs "USER"; bs "CLIENT"; bs "VIA"; bs "SINCE"; bs "TRAFFIC"; bs "SPEED"; bs "UDP"] ltac:(widths)).
  match goal with |- is_Some (lines_of ?f ?i ?l ≫= _) => destruct (lines_total f i l) as [t' ->] end; [|done].
  intros i u. by step (row_total online_widths (session_cells now format_time u) ltac:(widths)).
Qed.
Lemma renderBackup_total s focus w : is_Some (renderBackup format_time s focus w).
Proof.
  unfold renderBackup.
  step (header_total backup_widths [bs "DATE"; bs "USERS"; bs "SIZE"; bs "FILE"] ltac:(widths)).
  match goal with |- is_Some (lines_of ?f ?i ?l ≫= _) => destruct (lines_total f i l) as [t' ->] end; [|done].
  intros i u. by step (row_total backup_widths (backup_cells format_time u) ltac:(widths)).
Qed.
Lemma renderOptimizer_total s bbr w : is_Some (renderOptimizer s bbr w).
Proof.
  unfold renderOptimizer. destruct (Score (op_Params s)) as [a n]. cbv zeta.
  step (bar_total (if 0 <? n then percent a n else of_int 0) 30 ltac:(lia)).
  step (header_total optimizer_widths [[]; bs "SETTING"; bs "CURRENT"; bs "TARGET"] ltac:(widths)).
  match goal with |- is_Some (lines_of ?f ?i ?l ≫= _) => destruct (lines_total f i l) as [t' ->] end; [|done].
  intros i u. apply row_total. widths.
Qed.
Lemma renderDoctor_total s w : is_Some (renderDoctor s w).
Proof.
  unfold renderDoctor. cbv zeta. destruct (negb _); [done|].
  destruct (@mapM_total Check (list byte) (check_block w) (dc_Checks s)) as [t ->].
  { intros c. unfold check_block. step (pad_total (ck_Name c) 20 ltac:(lia)). step (trunc_total (ck_Detail c) (w - 28)).
    destruct (ck_Fix c) as [|x f]; [done|]. destruct (eqb_str _ _); [done|]. by step (trunc_total (x :: f) (w - 12)). }
  cbn [mbind option_bind]. by destruct (Summary _) as [[okN warn] fail].
Qed.
Lemma renderSettings_total w : is_Some (renderSettings cfg format_g host w).
Proof.
  unfold renderSettings, settings_ssh. cbv zeta.
  by step (trunc_total (replace_all (ssh_Banner (SSH cfg)) [x0a] (bs " ")) (cardWidth w - 22)).
Qed.

Lemma View_total bbr a : views_ok (a_views a) ->
  is_Some (View cfg now format_time format_g err_text host cores version walk bbr a).
Proof.
  intros [Hd Hn]. unfold View. destruct (a_width a =? 0); [done|]. cbv zeta.
  assert (Hc : is_Some (renderContent cfg now format_time format_g err_text host cores walk bbr a (content_width a))).
  { unfold renderContent. cbv zeta.
    destruct (_ =? ViewDashboard); [by apply renderDashboard_total|].
    destruct (_ =? ViewUsers); [apply renderUsers_total|].
    destruct (_ =? ViewOnline); [apply renderOnline_total|].
    destruct (_ =? ViewNetwork); [by apply renderNetwork_total|].
    destruct (_ =? ViewOptimizer); [apply renderOptimizer_total|].
    destruct (_ =? ViewDoctor); [apply renderDoctor_total|].
    destruct (_ =? ViewBackup); [apply renderBackup_total|].
    destruct (_ =? ViewSettings); [apply renderSettings_total|done]. }
  by step Hc.
Qed.
End draw.

(** The dashboard with a snapshot, then the accounts with one account, at 120 columns. *)
Definition fresh_state : State :=
  mkState (bs "dev") 0 0 5 [] None None ∅ ∅ [mkEvent 0 (bs "kicked alice")] [] 0.
Definition half_used : Info :=
  SysInfo.mkInfo (bs "vps") (bs "Debian") (bs "6.1") 0 [] [] 200 100 (percent 100 200) 10 9 (percent 9 10) (bs "0.1 0.2 0.3").
Definition dash_loaded : msg :=
  viewDataMsg (dDash (loadDashboard Defaults half_used (Some fresh_state) 1 true (bs "bbr") true None None)).
(** The memory bar of that dashboard: six of twelve cells. *)
Example half_bar : stripANSI <$> renderProgressBar (percent 100 200) 12 = Some (bs "██████░░░░░░").
Proof. vm_compute. reflexivity. Qed.
