(* ===== verification/TerminalProps.v ===== *)
(** What the terminal interface promises on the machine: it never panics, whatever arrives
    in whatever order, loading a view changes nothing, and nothing is destroyed but what a
    dialog was answered with yes for. *)
From S2P Require Import Prelude GoStrings Theme Files Procfs Session UdpgwServer Gateway Daemon.
From S2P Require Import Config Security Store Users UsersProps UsersLinux Netopt NetoptProps Firewall FirewallProps Sshd.
From S2P Require Import Host Badvpn TlsCert DaemonRun DaemonRunProps Backup BackupProps Doctor GoFloat SysInfo Card Commands CommandsProps.
From S2P Require Import Tui TuiProps Terminal Layout LayoutProps Screens ScreensProps.

Section terminal.
Context `{Sys : System, Cal : Calendar, Uni : Unicode, CU : !Codec UserRecord, Blt : Bolt}.
Context `{Dsk : Disk, Nft : Netfilter, Knl : Kernel, CS : !Codec (gmap gostring gostring), CSt : !Codec State}.
Context `{Arc : Archive, CB : !Codec BackupRecord, CC : !Codec BackupContents, Lip : Lipgloss}.
Context (o : outside) (version : gostring) (cfg : Config) (format_float : float -> gostring)
  (parse_float : gostring -> float * bool) (uname df : world -> option gostring)
  (berr_text : berr -> gostring) (kill_text : gostring).
Implicit Types t : terminal.

Abbreviation load_view := (load_view o cfg parse_float uname df).
Abbreviation deliver := (deliver o cfg format_float).
Abbreviation execute := (execute o version cfg parse_float uname df berr_text kill_text).
Abbreviation untouched := (untouched o).
Abbreviation looks := (looks o).
Abbreviation t_step := (t_step o version cfg format_float parse_float uname df berr_text kill_text).

(* ------------------------------------------------------------------ *)
(** * Loading looks                                                      *)
(* ------------------------------------------------------------------ *)

Lemma looks_show argv (k : result merr gostring -> H Z) : is_query o argv ->
  (forall r, looks (k r)) -> looks (users_op (Output argv) ≫= k).
Proof. intros Hq Hk. apply looks_bind; [|done]. intros s. by apply looks_asks. Qed.
Lemma looks_GetStatus : looks (GetStatus cfg).
Proof.
  unfold GetStatus. cbv zeta. apply looks_bind; [by apply looks_disk|intros installed].
  apply looks_bind; [apply looks_HasSystemd|]. intros []; cbn [negb]; [|apply looks_ret].
  apply looks_bind; [apply looks_UnitActive|intros running]. apply looks_bind; [apply looks_UnitEnabled|intros enabled].
  apply looks_bind; [|intros; apply looks_ret]. destruct running; [|apply looks_ret].
  apply looks_show; [apply ask_systemd; set_solver|intros; apply looks_ret].
Qed.
Lemma looks_backups : looks (backup_op ListBackups).
Proof.
  intros s. pose proof (watches_list_backups o s) as Hw. unfold backup_c in Hw. unfold backup_op.
  by destruct (ListBackups _) as [e r].
Qed.

Create HintDb view_look.
#[local] Hint Resolve looks_ret looks_at looks_sees looks_listed looks_asked_if looks_firewall looks_evidence
  looks_GetStatus looks_backups : view_look.

Lemma looks_load_view v : looks (load_view v).
Proof.
  unfold Terminal.load_view. cbv zeta. unfold load_dashboard, load_users, load_online, load_network, load_optimizer,
    load_doctor, load_backups, system_info, kernel_values.
  repeat lazymatch goal with
  | |- looks (if ?b then _ else _) => destruct b
  | |- looks (_ ≫= _) => apply looks_bind; [|intros ?]
  | |- looks (users_op (Users.List _ _)) => apply looks_users, peeks_List
  | |- looks (disk_op _) => apply looks_disk; auto using read_state_quiet, ReadFile_quiet
  | |- looks _ => solve [auto with view_look]
  end.
Qed.
(** What a computation gives. *)
Definition gives {A} (P : A -> Prop) (c : H A) : Prop := forall s, P (c s).2.
Lemma gives_ret {A} (P : A -> Prop) a : P a -> gives P (mret a).
Proof. intros Ha s. exact Ha. Qed.
Lemma gives_bind {A B} (P : B -> Prop) (c : H A) (k : A -> H B) : (forall a, gives P (k a)) -> gives P (c ≫= k).
Proof. intros Hk s. unfold mbind, H_bind. destruct (c s) as [s1 a]. apply Hk. Qed.

Lemma load_loaded v : gives (fun m => forall x, m = Some x -> loaded x) (load_view v).
Proof.
  assert (Harr : forall c : H data, gives (fun d => loaded (viewDataMsg d)) c ->
    gives (fun m => forall x, m = Some x -> loaded x) (d ← c; mret (Some (viewDataMsg d)))).
  { intros c Hc s x. unfold mbind, H_bind. specialize (Hc s). destruct (c s) as [s1 d]. by intros [= <-]. }
  unfold Terminal.load_view. cbv zeta.
  repeat match goal with |- context [if ?b then _ else _] => destruct b end; try apply Harr; [..|by apply gives_ret].
  all: unfold load_dashboard, load_users, load_online, load_network, load_optimizer, load_doctor, load_backups.
  all: repeat (apply gives_bind; intros ?); apply gives_ret; try exact I.
  - by do 9 eexists.
  - by match goal with |- context [match ?r with Ok _ => _ | Err _ => _ end] => destruct r end.
  - by do 4 eexists.
Qed.

(* ------------------------------------------------------------------ *)
(** * The invariant                                                      *)
(* ------------------------------------------------------------------ *)

Definition terminal_inv (h : host) t : Prop :=
  t_ended t <> Some endUpdatePanic /\
  app_inv (t_app t) /\ views_ok (a_views (t_app t)) /\ Forall loaded (t_inbox t) /\
  destroyed (t_done t ++ runs (t_pending t)) ≡ₚ destroyed (t_asked t) /\
  (t_done t = [] -> untouched h (t_host t)).

Lemma take_nth_perm {A} i (l : list A) x : l !! i = Some x -> l ≡ₚ x :: take_nth i l.
Proof. intros Hi. unfold take_nth. rewrite Permutation_middle. by rewrite take_drop_middle. Qed.
Lemma runs_app l k : runs (l ++ k) = runs l ++ runs k.
Proof. apply omap_app. Qed.
Lemma destroyed_app l k : destroyed (l ++ k) = destroyed l ++ destroyed k.
Proof. apply filter_app. Qed.
#[local] Instance runs_perm : Proper ((≡ₚ) ==> (≡ₚ)) runs.
Proof. intros l k Hl. by apply omap_Permutation. Qed.
#[local] Instance destroyed_perm : Proper ((≡ₚ) ==> (≡ₚ)) destroyed.
Proof. intros l k Hl. by apply filter_Permutation. Qed.

Lemma start_inv h : terminal_inv h (start h).
Proof.
  split_and!; [done|apply NewApp_inv| |constructor|done|by intros _; apply untouched_preorder].
  split; done.
Qed.

Lemma deliver_inv h m t : loaded m -> t_ended t = None -> terminal_inv h t -> terminal_inv h (deliver m t).
Proof.
  intros Hm Hn (_ & Ha & Hv & Hi & Hd & Hu). unfold Terminal.deliver.
  match goal with |- context [Update ?c ?f ?k ?d ?n m _] =>
    destruct (Update_ok c f k d n m (t_app t) Ha) as (a' & cs & E & Ha' & Hc & _) end.
  rewrite E. split_and!; cbn; [done|done|by eapply Update_views_ok|done| |done].
  rewrite runs_app, app_assoc, !destroyed_app, Hc. f_equiv. by rewrite <- destroyed_app.
Qed.

Lemma execute_inv h i c t : t_ended t = None -> t_pending t !! i = Some c -> terminal_inv h t ->
  terminal_inv h (execute c (mkTerminal (t_app t) (take_nth i (t_pending t)) (t_inbox t) (t_host t) (t_done t) (t_asked t) None)).
Proof.
  intros Hn Hi (_ & Ha & Hv & Hl & Hd & Hu). apply take_nth_perm in Hi. rewrite Hi in Hd.
  assert (Hsent : forall m s done e, e <> Some endUpdatePanic -> (forall x, m = Some x -> loaded x) ->
    runs (c :: take_nth i (t_pending t)) = done ++ runs (take_nth i (t_pending t)) ->
    (t_done t ++ done = [] -> untouched h s) ->
    terminal_inv h (mkTerminal (t_app t) (take_nth i (t_pending t)) (t_inbox t ++ option_list m) s
      (t_done t ++ done) (t_asked t) e)).
  { intros m s l e He Hm Hr Hs. split_and!; cbn; [done|done|done| | |done].
    - apply Forall_app. split; [done|]. destruct m as [x|]; constructor; [by apply Hm|constructor].
    - by rewrite Hr, app_assoc in Hd. }
  assert (Hnil : t_done t ++ [] = [] -> untouched h (t_host t)) by (rewrite app_nil_r; exact Hu).
  destruct c as [| | |v|a]; cbn [Terminal.execute t_host t_app t_pending t_inbox t_done t_asked].
  - pose proof (Hsent None (t_host t) [] (Some endQuit)) as H. cbn in H. rewrite !app_nil_r in *. by apply H.
  - by apply Hsent.
  - apply Hsent; [done|by intros x [= <-]|done|done].
  - pose proof (looks_load_view v (t_host t)) as Hw. pose proof (load_loaded v (t_host t)) as Hx.
    destruct (load_view v (t_host t)) as [s m]. cbn in Hw, Hx. apply Hsent; [done..|].
    rewrite app_nil_r. intros E. etransitivity; [by apply Hu|exact Hw].
  - assert (Hdone : forall s, t_done t ++ [a] = [] -> untouched h s) by (intros s E; by apply app_eq_nil in E as [_ ?]).
    destruct (perform _ _ _ _ _ _ _ _) as [s [d|]].
    + apply (Hsent (Some (opDoneMsg d)) s [a] None); [done|by intros x [= <-]|done|apply Hdone].
    + pose proof (Hsent None s [a] (Some endCommandPanic)) as H. cbn in H. rewrite app_nil_r in H. apply H; [done|done|done|apply Hdone].
Qed.

Lemma step_inv h t t' : t_step t t' -> terminal_inv h t -> terminal_inv h t'.
Proof.
  intros Hs Ht. destruct Hs as [t m Hn Hm|t i m Hn Hi|t i c Hn Hi].
  - apply deliver_inv; [by destruct m as [| |[]| | |]|done|done].
  - destruct Ht as (He & Ha & Hv & Hl & Hd & Hu). apply take_nth_perm in Hi. rewrite Hi in Hl.
    apply Forall_cons in Hl as [Hm Hl]. apply deliver_inv; [done|done|]. by split_and!.
  - by apply execute_inv.
Qed.

(** C38 The terminal interface is safe on the machine: in every state it can reach, under
    any interleaving of keys, of the commands that run in the background and of their
    messages, [Update] has not panicked and the screen can be drawn, at any size, without
    an index or slice out of range, a negative repetition, a division by zero or a missing
    function or snapshot; the actions that delete, lock, restore, reset or disconnect a
    chosen session, run or still to run, are exactly those of the dialogs that were
    answered with yes, once each; and until some action has run the files, the kernel's
    settings, the packet filter and the database are as they were. *)
Theorem terminal_safe h t : rtc t_step (start h) t ->
  t_ended t <> Some endUpdatePanic /\
  (forall now format_time format_g err_text host cores version walk bbr,
     is_Some (View cfg now format_time format_g err_text host cores version walk bbr (t_app t))) /\
  destroyed (t_done t ++ runs (t_pending t)) ≡ₚ destroyed (t_asked t) /\
  (t_done t = [] -> untouched h (t_host t)).
Proof.
  intros Hr. assert (Hi : terminal_inv h t).
  { remember (start h) as t0 eqn:E. assert (Hi : terminal_inv h t0) by (subst; apply start_inv). clear E.
    induction Hr as [t|t1 t2 t3 Hs _ IH]; [done|]. apply IH. by eapply step_inv. }
  destruct Hi as (He & Ha & Hv & Hl & Hd & Hu). split_and!; [done| |done|done]. intros. by apply View_total.
Qed.

(** The steps as a function. *)
Inductive event : Type := evInput (m : msg) | evMessage (i : nat) | evCommand (i : nat).
Definition next (e : event) t : option terminal :=
  match t_ended t with
  | Some _ => None
  | None =>
      match e with
      | evInput m => if is_input m then Some (deliver m t) else None
      | evMessage i => m ← t_inbox t !! i;
          Some (deliver m (mkTerminal (t_app t) (t_pending t) (take_nth i (t_inbox t)) (t_host t) (t_done t) (t_asked t) None))
      | evCommand i => c ← t_pending t !! i;
          Some (execute c (mkTerminal (t_app t) (take_nth i (t_pending t)) (t_inbox t) (t_host t) (t_done t) (t_asked t) None))
      end
  end.
Fixpoint play (es : list event) t : option terminal :=
  match es with [] => Some t | e :: es => t ← next e t; play es t end.
Lemma next_step e t t' : next e t = Some t' -> t_step t t'.
Proof.
  unfold next. destruct (t_ended t) eqn:En; [done|]. destruct e as [m|i|i].
  - destruct (is_input m) eqn:Em; [|done]. intros [= <-]. by constructor.
  - destruct (t_inbox t !! i) as [m|] eqn:Ei; [|done]. intros [= <-]. by eapply t_message.
  - destruct (t_pending t !! i) as [c|] eqn:Ei; [|done]. intros [= <-]. by eapply t_command.
Qed.
Lemma play_steps es t t' : play es t = Some t' -> rtc t_step t t'.
Proof.
  revert t. induction es as [|e es IH]; intros t; [by intros [= <-]|]. cbn [play].
  destruct (next e t) as [t1|] eqn:En; [|done]. cbn. intros Hp. eapply rtc_l; [by eapply next_step|by apply IH].
Qed.
End terminal.

(* ------------------------------------------------------------------ *)
(** * Deleting an account                                                *)
(* ------------------------------------------------------------------ *)

Section example.
#[local] Existing Instances anyone plain_calendar user_codec keyed_bolt contents_codec plain_archive record_codec.
#[local] Existing Instances sound_disk ascii_tables toy_netfilter open_kernel sysctl_codec one_state.

(** Jump to the accounts, which are loaded in the background; press d, confirm with y. *)
Definition typed (t : string) : event := evInput (keyMsg (mkKey (bs t) (Some (bs t)))).
Definition played : option terminal :=
  play says_no (bs "dev") Defaults (fun _ => []) (fun _ => (mkFloat 0 0, false)) (fun _ => None) (fun _ => None)
    (fun _ => []) [] [evInput (windowSize 120 40); typed "2"; evCommand 3; evMessage 0; typed "d"; typed "y"; evCommand 3]
    (start (machine_of 0)).

Lemma terminal_safe_witness : exists t, played = Some t /\
  destroyed (t_done t) ≡ₚ destroyed (t_asked t) /\ t_done t = [actUser (uDelete (bs "alice"))] /\
  db_users (m_db (h_mgr (t_host t))) !! bs "alice" = None /\
  is_Some (View Defaults 1 (fun _ _ => []) (fun _ => []) (fun _ => []) [] 2 (bs "dev") map_to_list true (t_app t)).
Proof.
  assert (E : exists t, played = Some t /\ runs (t_pending t) = [] /\ t_done t = [actUser (uDelete (bs "alice"))] /\
    db_users (m_db (h_mgr (t_host t))) !! bs "alice" = None).
  { assert (Hs : is_Some played) by (apply (bool_decide_unpack _); vm_compute; exact I).
    destruct played as [t|] eqn:Ep; [|by destruct Hs]. exists t. split; [done|].
    assert (H1 : (fun t => runs (t_pending t)) <$> played = Some []) by (vm_compute; reflexivity).
    assert (H2 : t_done <$> played = Some [actUser (uDelete (bs "alice"))]) by (vm_compute; reflexivity).
    assert (H3 : (fun t => db_users (m_db (h_mgr (t_host t))) !! bs "alice") <$> played = Some None) by (vm_compute; reflexivity).
    rewrite Ep in H1, H2, H3. by split; [exact (Some_inj _ _ H1)|split; [exact (Some_inj _ _ H2)|exact (Some_inj _ _ H3)]]. }
  destruct E as (t & Ep & Hp & Hd & Hg).
  destruct (terminal_safe (Lip := plain_terminal) says_no (bs "dev") Defaults (fun _ => []) (fun _ => (mkFloat 0 0, false))
    (fun _ => None) (fun _ => None) (fun _ => []) [] (machine_of 0) t (play_steps _ _ _ _ _ _ _ _ _ _ _ _ Ep))
    as (_ & Hv & Hk & _).
  rewrite Hp, app_nil_r in Hk. exists t. split; [done|]. split; [exact Hk|]. split; [done|]. split; [done|]. apply Hv.
Defined.
End example.
